(** * StreamyStats: the yearly "Wrapped" statistics, the mark-as-watched
      action, the settings actions of a server and the server URL helper,
      embedded and verified.

    Sources embedded here:
    - the module of the Wrapped aggregations ([getWrappedOverview],
      [getWrappedTopItems], [getWrappedGenreStats], [getWrappedPeopleStats],
      [getWrappedActivityPatterns], [getWrappedTypeBreakdown],
      [getWrappedRewatchStats], [getWrappedGenrePercentiles],
      [getAvailableWrappedYears]),
    - [apps/nextjs-app/lib/db/mark-watched.ts],
    - [apps/nextjs-app/lib/server-url.ts] and
      [apps/job-server/src/utils/server-url.ts],
    - the server actions of the settings ([updateExcludedUsersAction],
      [updateExcludedLibrariesAction], [updateDisabledHolidaysAction],
      [updateServerTimezoneAction], [updateConnectionSettingsAction]),
    - [chartData] of the component [GenreStatsGraph] and [initials] of
      [apps/nextjs-app/components/JellyfinAvatar.tsx].

    Conventions of the embedding.
    - A JavaScript number that holds an integer (a row count, a sum of
      seconds, a tick count, epoch milliseconds) is a [Z]: doubles hold
      integers exactly up to 2^53 - 1.  A statement about a number computed
      from a tick count carries that bound on the ticks.
    - A JavaScript number that is the result of a division is a binary64
      value ([float]), computed with the IEEE operations of the kernel, and
      [Math.round] is evaluated exactly on it.
    - A nullable column is an [option]; an optional-and-nullable property
      keeps the three cases apart.
    - A table is the list of its rows.  GROUP BY yields one group per
      distinct key, ORDER BY is a stable sort (PostgreSQL leaves the order
      of ties open; no statement below depends on how ties are broken).
    - Timestamps are civil UTC timestamps of millisecond resolution (the
      database extracts date parts in UTC).
    - An aggregation is embedded as the value its call returns.  For a year
      that is not written with four digits (1000 to 9999) the dates of
      [getYearDateRange] are Invalid Dates and the call throws; where the
      result of the embedding is an [option] that throw is [None], and a
      statement that a call returns carries the range of the year. *)

From Stdlib Require Import ZArith List Bool String Ascii Lia.
From Stdlib Require Import Permutation Sorted DecimalString Floats.
Import ListNotations.
Open Scope Z_scope.

(* ===================================================================== *)
(** * Part I: the embedding *)
(* ===================================================================== *)

(** ** JavaScript values and array helpers *)

Module Js.

(** [Number(z)] for an integer: the nearest binary64 value. *)
Definition Number_of_Z (z : Z) : float :=
  SF2Prim (binary_normalize prec emax z 0 false).

(** [Math.round(x)]: the integer closest to [x], halves going up; NaN and
    the infinities are returned unchanged.  The value of a finite double is
    [n * 2^e], so the rounding is computed exactly over the integers. *)
Definition Math_round (x : float) : float :=
  match Prim2SF x with
  | S754_finite s m e =>
      let n := if s then Z.neg m else Z.pos m in
      Number_of_Z
        (if 0 <=? e then n * 2 ^ e
         else (2 * n + 2 ^ (- e)) / (2 * 2 ^ (- e)))
  | _ => x
  end.

(** [Math.round((a / b) * 100)] on integers [a], [b], as three binary64
    operations: the quotient is rounded to a double before it is scaled. *)
Definition roundedPercent (a b : Z) : float :=
  Math_round
    (PrimFloat.mul (PrimFloat.div (Number_of_Z a) (Number_of_Z b))
       (Number_of_Z 100)).

(** [Math.round(a / b)] on integers [a], [b]. *)
Definition roundedQuotient (a b : Z) : float :=
  Math_round (PrimFloat.div (Number_of_Z a) (Number_of_Z b)).

(** The largest integer below which every integer is a double
    ([Number.MAX_SAFE_INTEGER]). *)
Definition MAX_SAFE_INTEGER : Z := 9007199254740991.

(** [Math.floor(Number(a) / 10_000_000)] for a safe integer [a]: [Number(a)]
    is then exact, the quotient is below 2^30, where two doubles are less
    than 2^-23 apart, and the exact quotient is an integer or at least 10^-7
    away from one; so the rounded quotient has the floor of the exact one.
    (Above the safe integers the two floors can differ.) *)
Definition floorDiv (a b : Z) : Z := a / b.

(** A property declared [p?: T | null]. *)
Inductive Optional (A : Type) : Type :=
| undefined : Optional A
| null : Optional A
| defined : A -> Optional A.
Arguments undefined {A}.
Arguments null {A}.
Arguments defined {A} _.

(** Truthiness of a string: every string but the empty one. *)
Definition truthyString (s : string) : bool :=
  match s with EmptyString => false | String _ _ => true end.

(** [arr.reduce(f)] without an initial value: the first element seeds the
    accumulator; on an empty array the call throws a TypeError ([None]). *)
Definition reduce1 {A : Type} (f : A -> A -> A) (l : list A) : option A :=
  match l with
  | [] => None
  | x :: rest => Some (fold_left f rest x)
  end.

(** [arr.sort(cmp)] is stable; [leb a b] stands for [cmp(a, b) <= 0]. *)
Fixpoint insertSorted {A : Type} (leb : A -> A -> bool) (x : A) (l : list A)
  : list A :=
  match l with
  | [] => [x]
  | y :: l' => if leb x y then x :: l else y :: insertSorted leb x l'
  end.

Definition sort {A : Type} (leb : A -> A -> bool) (l : list A) : list A :=
  fold_right (insertSorted leb) [] l.

(** [a.localeCompare(b)] on strings of ASCII digits and hyphens: the order of
    the character codes. *)
Definition localeCompare (a b : string) : comparison := String.compare a b.

Definition localeCompare_leb (a b : string) : bool :=
  match localeCompare a b with Gt => false | _ => true end.

(** [arr.slice(0, n)]. *)
Definition slice0 {A : Type} (n : nat) (l : list A) : list A := firstn n l.

(** Template-literal rendering of an integer. *)
Definition stringOfZ (z : Z) : string := NilZero.string_of_int (Z.to_int z).

End Js.

(** ** Calendar arithmetic (ECMAScript's day numbering, PostgreSQL's date
       parts) *)

Module Calendar.

Record CivilDate : Type := mkDate { year : Z; month : Z; day : Z }.

Definition isLeapYear (y : Z) : bool :=
  ((y mod 4 =? 0) && negb (y mod 100 =? 0)) || (y mod 400 =? 0).

Definition daysInMonth (y m : Z) : Z :=
  match m with
  | 1 => 31 | 2 => if isLeapYear y then 29 else 28 | 3 => 31 | 4 => 30
  | 5 => 31 | 6 => 30 | 7 => 31 | 8 => 31 | 9 => 30 | 10 => 31 | 11 => 30
  | 12 => 31
  | _ => 0
  end.

(** A date of the proleptic Gregorian calendar with a four-digit year, the
    range in which PostgreSQL prints and JavaScript parses [YYYY-MM-DD]. *)
Definition validDate (d : CivilDate) : bool :=
  (0 <=? year d) && (year d <=? 9999) &&
  (1 <=? month d) && (month d <=? 12) &&
  (1 <=? day d) && (day d <=? daysInMonth (year d) (month d)).

(** ECMAScript [DayFromYear]. *)
Definition dayFromYear (y : Z) : Z :=
  365 * (y - 1970) + (y - 1969) / 4 - (y - 1901) / 100 + (y - 1601) / 400.

Definition daysBeforeMonth (y m : Z) : Z :=
  match m with
  | 1 => 0 | 2 => 31 | 3 => 59 | 4 => 90 | 5 => 120 | 6 => 151 | 7 => 181
  | 8 => 212 | 9 => 243 | 10 => 273 | 11 => 304 | 12 => 334
  | _ => 0
  end + (if (2 <? m) && isLeapYear y then 1 else 0).

(** ECMAScript [MakeDay]: days since 1970-01-01. *)
Definition dayNumber (d : CivilDate) : Z :=
  dayFromYear (year d) + daysBeforeMonth (year d) (month d) + (day d - 1).

Definition msPerDay : Z := 1000 * 60 * 60 * 24.

(** The calendar date that follows [d]. *)
Definition nextDate (d : CivilDate) : CivilDate :=
  if day d <? daysInMonth (year d) (month d)
  then mkDate (year d) (month d) (day d + 1)
  else if month d <? 12 then mkDate (year d) (month d + 1) 1
       else mkDate (year d + 1) 1 1.

Definition dateEqb (a b : CivilDate) : bool :=
  (year a =? year b) && (month a =? month b) && (day a =? day b).

(** A timestamp with millisecond resolution: a civil UTC date and the
    milliseconds elapsed within it. *)
Record Timestamp : Type := mkTimestamp { date : CivilDate; msOfDay : Z }.

Definition validTimestamp (t : Timestamp) : bool :=
  validDate (date t) && (0 <=? msOfDay t) && (msOfDay t <? msPerDay).

(** The instant, in milliseconds since the epoch ([Date.prototype.getTime]);
    timestamps are compared as instants. *)
Definition epochMs (t : Timestamp) : Z :=
  dayNumber (date t) * msPerDay + msOfDay t.

(** PostgreSQL [DATE(t)], [EXTRACT(HOUR FROM t)], [EXTRACT(MONTH FROM t)]. *)
Definition DATE (t : Timestamp) : CivilDate := date t.
Definition EXTRACT_HOUR (t : Timestamp) : Z := msOfDay t / 3600000.
Definition EXTRACT_MONTH (t : Timestamp) : Z := month (date t).

(** PostgreSQL [EXTRACT(DOW FROM t)]: 0 is Sunday, 6 is Saturday.  Day 0 of
    the epoch was a Thursday. *)
Definition EXTRACT_DOW (t : Timestamp) : Z := (dayNumber (date t) + 4) mod 7.

(** Rendering. *)
Definition digitChar (n : Z) : ascii := ascii_of_nat (48 + Z.to_nat n).

Definition pad2 (n : Z) : string :=
  String (digitChar (n / 10 mod 10)) (String (digitChar (n mod 10)) EmptyString).

Definition pad3 (n : Z) : string :=
  String (digitChar (n / 100 mod 10)) (pad2 n).

Definition pad4 (n : Z) : string :=
  (pad2 (n / 100) ++ pad2 n)%string.

(** The text of a [date] value as the driver hands it over: [YYYY-MM-DD]. *)
Definition isoDate (d : CivilDate) : string :=
  (pad4 (year d) ++ "-" ++ pad2 (month d) ++ "-" ++ pad2 (day d))%string.

(** [Date.prototype.toISOString]: [YYYY-MM-DDTHH:mm:ss.sssZ]. *)
Definition toISOString (t : Timestamp) : string :=
  let ms := msOfDay t in
  (isoDate (date t) ++ "T" ++ pad2 (ms / 3600000) ++ ":" ++
   pad2 (ms / 60000 mod 60) ++ ":" ++ pad2 (ms / 1000 mod 60) ++ "." ++
   pad3 (ms mod 1000) ++ "Z")%string.

(** Parsing the date-only ISO form, which JavaScript reads as UTC midnight. *)
Definition digitOf (c : ascii) : option Z :=
  let n := Z.of_nat (nat_of_ascii c) in
  if (48 <=? n) && (n <=? 57) then Some (n - 48) else None.

Definition number2 (a b : ascii) : option Z :=
  match digitOf a, digitOf b with
  | Some x, Some y => Some (10 * x + y)
  | _, _ => None
  end.

Definition isHyphen (c : ascii) : bool := Ascii.eqb c "-"%char.

Definition parseIsoDate (s : string) : option CivilDate :=
  match list_ascii_of_string s with
  | [y1; y2; y3; y4; h1; m1; m2; h2; d1; d2] =>
      match number2 y1 y2, number2 y3 y4, number2 m1 m2, number2 d1 d2 with
      | Some yh, Some yl, Some m, Some d =>
          let r := mkDate (100 * yh + yl) m d in
          if isHyphen h1 && isHyphen h2 && validDate r then Some r else None
      | _, _, _, _ => None
      end
  | _ => None
  end.

(** [new Date(s).getTime()]; [None] is NaN (an invalid date). *)
Definition getTime (s : string) : option Z :=
  option_map (fun d => dayNumber d * msPerDay) (parseIsoDate s).

End Calendar.

(** ** The tables (the columns the embedded code reads or writes) *)

Module servers.
Record row : Type := mk {
  id : Z;
  url : string;
  internalUrl : Js.Optional string;
  excludedUserIds : list string;
  excludedLibraryIds : list string
}.
End servers.

Module items.
Record row : Type := mk {
  id : string;
  serverId : Z;
  libraryId : string;
  name : string;
  type : string;
  genres : option (list string);
  seriesId : option string;
  seriesName : option string;
  seasonId : option string;
  primaryImageTag : option string;
  productionYear : option Z;
  runtimeTicks : option Z
}.
End items.

Module sessions.
Record row : Type := mk {
  id : string;
  serverId : Z;
  userId : option string;
  itemId : option string;
  userName : string;
  userServerId : option string;
  itemName : option string;
  seriesId : option string;
  seriesName : option string;
  seasonId : option string;
  playDuration : Z;                       (* seconds *)
  startTime : option Calendar.Timestamp;
  endTime : option Calendar.Timestamp;
  runtimeTicks : option Z;
  positionTicks : option Z;
  percentComplete : Z;
  completed : bool;
  isPaused : bool;
  isMuted : bool;
  isActive : bool;
  isInferred : bool;
  isTranscoded : bool;
  rawData : list (string * string)
}.
End sessions.

Record Database : Type := mkDatabase {
  serversTable : list servers.row;
  itemsTable : list items.row;
  sessionsTable : list sessions.row
}.

(** ** The query builder: conditions, joins, grouping, ordering *)

Module Sql.

Definition optStringEqb (a b : option string) : bool :=
  match a, b with
  | Some x, Some y => String.eqb x y
  | None, None => true
  | _, _ => false
  end.

Definition optZEqb (a b : option Z) : bool :=
  match a, b with
  | Some x, Some y => x =? y
  | None, None => true
  | _, _ => false
  end.

(** A row of [sessions INNER JOIN items]. *)
Definition Row : Type := (sessions.row * items.row)%type.

(** A condition of a WHERE clause: a row passes when it evaluates to true
    (a comparison with NULL does not). *)
Definition SQL (R : Type) : Type := R -> bool.

(** [eq(column, value)] on a nullable text column. *)
Definition eqText (col : option string) (v : string) : bool :=
  match col with Some x => String.eqb x v | None => false end.

(** [isNotNull(column)]. *)
Definition isNotNull {A : Type} (col : option A) : bool :=
  match col with Some _ => true | None => false end.

(** [gte(column, instant)], [lte(column, instant)] on a timestamp column. *)
Definition gteTime (col : option Calendar.Timestamp) (v : Z) : bool :=
  match col with Some t => v <=? Calendar.epochMs t | None => false end.

Definition lteTime (col : option Calendar.Timestamp) (v : Z) : bool :=
  match col with Some t => Calendar.epochMs t <=? v | None => false end.

(** [notInArray(column, values)] on a nullable text column. *)
Definition notInArray (col : option string) (vs : list string) : bool :=
  match col with
  | Some x => negb (existsb (String.eqb x) vs)
  | None => false
  end.

(** [inArray(column, values)]. *)
Definition inArray (col : string) (vs : list string) : bool :=
  existsb (String.eqb col) vs.

(** [and(...conditions)]. *)
Definition and_ {R : Type} (conds : list (SQL R)) : SQL R :=
  fun r => forallb (fun c => c r) conds.

(** [.where(cond)]. *)
Definition where_ {R : Type} (cond : SQL R) (rows : list R) : list R :=
  filter cond rows.

(** [.from(sessions).innerJoin(items, eq(sessions.itemId, items.id))]. *)
Definition sessionsJoinItems (db : Database) : list Row :=
  flat_map
    (fun s =>
       map (pair s)
         (filter (fun it => eqText (sessions.itemId s) (items.id it))
            (itemsTable db)))
    (sessionsTable db).

(** The distinct values of a list, in order of first occurrence. *)
Fixpoint distinct {K : Type} (eqb : K -> K -> bool) (l : list K) : list K :=
  match l with
  | [] => []
  | k :: l' => k :: filter (fun k' => negb (eqb k k')) (distinct eqb l')
  end.

(** [.groupBy(key)]: one group per distinct key, holding the rows of that
    key. *)
Definition groupBy {R K : Type} (eqb : K -> K -> bool) (key : R -> K)
  (rows : list R) : list (K * list R) :=
  map (fun k => (k, filter (fun r => eqb k (key r)) rows))
    (distinct eqb (map key rows)).

(** [.orderBy(...)]: [leb a b] says that [a] may come before [b]. *)
Definition orderBy {A : Type} (leb : A -> A -> bool) (l : list A) : list A :=
  Js.sort leb l.

(** [.limit(n)]. *)
Definition limit {A : Type} (n : nat) (l : list A) : list A := firstn n l.

(** [count(sessions.id)] and [sum(sessions.playDuration)] over the rows of a
    group; [Number(sum ?? 0)] is the sum, 0 for no rows. *)
Definition count {R : Type} (rows : list R) : Z := Z.of_nat (List.length rows).

Definition sum {R : Type} (f : R -> Z) (rows : list R) : Z :=
  fold_right (fun r acc => f r + acc) 0 rows.

(** [countDistinct(column)]. *)
Definition countDistinct {R K : Type} (eqb : K -> K -> bool) (key : R -> K)
  (rows : list R) : Z :=
  Z.of_nat (List.length (distinct eqb (map key rows))).

(** The rows with their (non-null) start time: what [DATE(start_time)] and
    [EXTRACT(... FROM start_time)] read.  A row that passed the time window
    of the WHERE clause has one. *)
Definition withStartTime (rows : list Row)
  : list (Row * Calendar.Timestamp) :=
  flat_map
    (fun r =>
       match sessions.startTime (fst r) with
       | Some t => [(r, t)]
       | None => []
       end)
    rows.

End Sql.

(** ** Statistics exclusions *)

Module Exclusions.

Record StatisticsExclusions : Type := mkExclusions {
  userExclusion : option (Sql.SQL Sql.Row);
  itemLibraryExclusion : option (Sql.SQL Sql.Row)
}.

(** Modelled from the spec: [getStatisticsExclusions] is imported from
    [./exclusions], which is not among the sources.  The spec's
    exclusion list is the "per-server configured set of users/libraries
    omitted from statistics", stored in [servers.excludedUserIds] and
    [servers.excludedLibraryIds]: a configured list becomes the condition
    that the session's user, respectively the item's library, is not in
    it; an empty list (or an unknown server) yields no condition. *)
Definition getStatisticsExclusions (db : Database) (serverId : Z)
  : StatisticsExclusions :=
  match find (fun s => servers.id s =? serverId) (serversTable db) with
  | Some srv =>
      mkExclusions
        (match servers.excludedUserIds srv with
         | [] => None
         | ids => Some (fun r => Sql.notInArray (sessions.userId (fst r)) ids)
         end)
        (match servers.excludedLibraryIds srv with
         | [] => None
         | ids =>
             Some (fun r => Sql.notInArray (Some (items.libraryId (snd r))) ids)
         end)
  | None => mkExclusions None None
  end.

(** [if (cond) conditions.push(cond)]. *)
Definition push {R : Type} (conds : list (Sql.SQL R)) (c : option (Sql.SQL R))
  : list (Sql.SQL R) :=
  match c with Some x => conds ++ [x] | None => conds end.

End Exclusions.

(** ** The Wrapped aggregations *)

Module Wrapped.

Import Sql Exclusions.

(** *** Types *)

Record WrappedParams : Type := mkParams {
  serverId : Z;
  userId : string;
  year : Z
}.

Module WatchInfo.
Record t : Type := mk {
  itemId : string;
  itemName : string;
  itemType : string;
  timestamp : string;
  primaryImageTag : option string;
  seriesName : option string;
  productionYear : option Z;
  genres : option (list string)
}.
End WatchInfo.

Module WrappedOverview.
Record t : Type := mk {
  totalPlays : Z;
  totalWatchTimeSeconds : Z;
  totalHoursWatched : float;
  uniqueItemsWatched : Z;
  totalDaysWithActivity : Z;
  firstWatch : option WatchInfo.t;
  lastWatch : option WatchInfo.t
}.
End WrappedOverview.

Module GenreStats.
Record t : Type := mk {
  genre : string;
  watchTimeSeconds : Z;
  playCount : Z;
  percentageOfTotal : float
}.
End GenreStats.

Module WrappedGenres.
Record t : Type := mk {
  topGenres : list GenreStats.t;
  totalGenresExplored : Z
}.
End WrappedGenres.

Module DayActivity.
Record t : Type := mk { date : string; watchTimeSeconds : Z; playCount : Z }.
End DayActivity.

Module HourlyPattern.
Record t : Type := mk { hour : Z; watchTimeSeconds : Z; playCount : Z }.
End HourlyPattern.

Module WeekdayPattern.
Record t : Type := mk {
  day : string;
  dayIndex : Z;
  watchTimeSeconds : Z;
  playCount : Z
}.
End WeekdayPattern.

Module MonthlyTotal.
Record t : Type := mk {
  month : Z;
  monthName : string;
  watchTimeSeconds : Z;
  playCount : Z
}.
End MonthlyTotal.

Module WrappedActivityPatterns.
Record t : Type := mk {
  calendarHeatmap : list DayActivity.t;
  hourlyPatterns : list HourlyPattern.t;
  weekdayPatterns : list WeekdayPattern.t;
  monthlyTotals : list MonthlyTotal.t;
  peakHour : Z;
  peakWeekday : string;
  peakMonth : Z;
  longestStreak : Z
}.
End WrappedActivityPatterns.

Module TypeShare.
Record t : Type := mk {
  watchTimeSeconds : Z;
  playCount : Z;
  percentage : float
}.
End TypeShare.

Module TypeTotal.
Record t : Type := mk { watchTimeSeconds : Z; playCount : Z }.
End TypeTotal.

Module TypeBreakdown.
Record t : Type := mk {
  movie : TypeShare.t;
  episode : TypeShare.t;
  total : TypeTotal.t
}.
End TypeBreakdown.

Module MostRewatched.
Record t : Type := mk {
  itemId : string;
  itemName : string;
  itemType : string;
  rewatchCount : Z;
  primaryImageTag : option string;
  seriesName : option string;
  productionYear : option Z
}.
End MostRewatched.

Module RewatchedItem.
Record t : Type := mk {
  itemId : string;
  itemName : string;
  itemType : string;
  playCount : Z;
  totalWatchTimeSeconds : Z;
  primaryImageTag : option string;
  seriesName : option string;
  productionYear : option Z
}.
End RewatchedItem.

Module RewatchStats.
Record t : Type := mk {
  mostRewatchedItem : option MostRewatched.t;
  totalRewatches : Z;
  rewatchPercentage : float;
  topRewatchedItems : list RewatchedItem.t
}.
End RewatchStats.

Module GenrePercentile.
Record t : Type := mk {
  genre : string;
  userWatchTimeSeconds : Z;
  serverAverageSeconds : float;
  percentile : float;
  isTopGenreForUser : bool
}.
End GenrePercentile.

(** *** Helper functions *)

(** The years for which [`${year}-01-01T00:00:00.000Z`] is the text of a
    date: those written with four digits.  For any other year
    [getYearDateRange] returns two Invalid Dates, and the first query they
    are bound to throws a RangeError. *)
Definition validYear (year : Z) : bool := (1000 <=? year) && (year <=? 9999).

(** [getYearDateRange]: the instants of [YYYY-01-01T00:00:00.000Z] and
    [YYYY-12-31T23:59:59.999Z], for a four-digit year. *)
Definition getYearDateRange (year : Z) : Z * Z :=
  (Calendar.epochMs (Calendar.mkTimestamp (Calendar.mkDate year 1 1) 0),
   Calendar.epochMs
     (Calendar.mkTimestamp (Calendar.mkDate year 12 31)
        (((23 * 60 + 59) * 60 + 59) * 1000 + 999))).

Definition MONTH_NAMES : list string :=
  ["January"; "February"; "March"; "April"; "May"; "June"; "July"; "August";
   "September"; "October"; "November"; "December"]%string.

Definition WEEKDAY_NAMES : list string :=
  ["Monday"; "Tuesday"; "Wednesday"; "Thursday"; "Friday"; "Saturday";
   "Sunday"]%string.

(** [arr.map((x, index) => f x index)]. *)
Fixpoint mapiFrom {A B : Type} (i : Z) (f : A -> Z -> B) (l : list A)
  : list B :=
  match l with
  | [] => []
  | x :: l' => f x i :: mapiFrom (i + 1) f l'
  end.

Definition mapi {A B : Type} (f : A -> Z -> B) (l : list A) : list B :=
  mapiFrom 0 f l.

(** The values of [h] in [for (let h = 0; h < n; h++)]. *)
Definition upTo (n : nat) : list Z := map Z.of_nat (seq 0 n).

(** The row of a grouped select: the group's key with
    [sum(sessions.playDuration)] and [count(sessions.id)]. *)
Record Stat (K : Type) : Type := mkStat {
  statKey : K;
  statWatchTimeSeconds : Z;
  statPlayCount : Z
}.
Arguments mkStat {K} _ _ _.
Arguments statKey {K} _.
Arguments statWatchTimeSeconds {K} _.
Arguments statPlayCount {K} _.

Definition aggregate {R K : Type} (duration : R -> Z) (g : K * list R)
  : Stat K :=
  mkStat (fst g) (sum duration (snd g)) (count (snd g)).

Definition duration (r : Row) : Z := sessions.playDuration (fst r).

(** The five conditions every per-user query of the file starts from. *)
Definition userYearConditions (params : WrappedParams) : list (SQL Row) :=
  let '(start, end_) := getYearDateRange (year params) in
  [ (fun r => sessions.serverId (fst r) =? serverId params);
    (fun r => eqText (sessions.userId (fst r)) (userId params));
    (fun r => gteTime (sessions.startTime (fst r)) start);
    (fun r => lteTime (sessions.startTime (fst r)) end_);
    (fun r => isNotNull (sessions.itemId (fst r))) ].

(** *** getWrappedOverview *)

(** [select genres from items where id = seriesId limit 1], then
    [seriesResult?.genres ?? null]. *)
Definition seriesGenres (db : Database) (seriesId : string)
  : option (list string) :=
  match find (fun it => String.eqb (items.id it) seriesId) (itemsTable db) with
  | Some it => items.genres it
  | None => None
  end.

(** The genres shown for a first or last watch: the item's own, or the
    series' when the item has a series and no genre of its own. *)
Definition watchGenres (db : Database) (it : items.row)
  : option (list string) :=
  let own := items.genres it in
  let noneOfItsOwn :=
    match own with None => true | Some [] => true | Some _ => false end in
  match items.seriesId it with
  | Some sid =>
      if Js.truthyString sid && noneOfItsOwn then seriesGenres db sid else own
  | None => own
  end.

Definition watchInfo (db : Database) (r : Row * Calendar.Timestamp)
  : option WatchInfo.t :=
  let '((s, it), t) := r in
  match sessions.itemId s with
  | Some iid =>
      if Js.truthyString iid
      then Some (WatchInfo.mk iid (items.name it) (items.type it)
                   (Calendar.toISOString t) (items.primaryImageTag it)
                   (items.seriesName it) (items.productionYear it)
                   (watchGenres db it))
      else None
  | None => None
  end.

Definition getWrappedOverview (db : Database) (params : WrappedParams)
  : WrappedOverview.t :=
  let excl := getStatisticsExclusions db (serverId params) in
  let whereConditions :=
    push (push (userYearConditions params) (userExclusion excl))
      (itemLibraryExclusion excl) in
  let rows := where_ (and_ whereConditions) (sessionsJoinItems db) in
  let timed := withStartTime rows in
  let firstWatchResult :=
    hd_error
      (limit 1
         (orderBy (fun a b => Calendar.epochMs (snd a) <=? Calendar.epochMs (snd b))
            timed)) in
  let lastWatchResult :=
    hd_error
      (limit 1
         (orderBy (fun a b => Calendar.epochMs (snd b) <=? Calendar.epochMs (snd a))
            timed)) in
  let totalWatchTimeSeconds := sum duration rows in
  WrappedOverview.mk
    (count rows)
    totalWatchTimeSeconds
    (Js.roundedQuotient totalWatchTimeSeconds 3600)
    (countDistinct optStringEqb (fun r => sessions.itemId (fst r)) rows)
    (countDistinct Calendar.dateEqb (fun r => Calendar.DATE (snd r)) timed)
    (match firstWatchResult with Some r => watchInfo db r | None => None end)
    (match lastWatchResult with Some r => watchInfo db r | None => None end).

(** *** getWrappedGenreStats *)

(** [unnest(items.genres)]: one row per genre of the item. *)
Definition unnestGenres (rows : list Row) : list (string * Row) :=
  flat_map
    (fun r =>
       match items.genres (snd r) with
       | Some gs => map (fun g => (g, r)) gs
       | None => []
       end)
    rows.

Definition bySumDesc {K : Type} (a b : Stat K) : bool :=
  statWatchTimeSeconds b <=? statWatchTimeSeconds a.

(** Watch time and play count per genre, largest watch time first. *)
Definition genreStatsOf (rows : list Row) : list (Stat string) :=
  orderBy bySumDesc
    (map (aggregate (fun gr => duration (snd gr)))
       (groupBy String.eqb fst (unnestGenres rows))).

Definition getWrappedGenreStats (db : Database) (params : WrappedParams)
  : WrappedGenres.t :=
  let excl := getStatisticsExclusions db (serverId params) in
  let whereConditions :=
    push
      (push
         (userYearConditions params ++
          [fun r => isNotNull (items.genres (snd r))])
         (userExclusion excl))
      (itemLibraryExclusion excl) in
  let genreStats :=
    genreStatsOf (where_ (and_ whereConditions) (sessionsJoinItems db)) in
  let totalWatchTime :=
    fold_left (fun acc g => acc + statWatchTimeSeconds g) genreStats 0 in
  let topGenres :=
    map
      (fun g =>
         GenreStats.mk (statKey g) (statWatchTimeSeconds g) (statPlayCount g)
           (if 0 <? totalWatchTime
            then Js.roundedPercent (statWatchTimeSeconds g) totalWatchTime
            else Js.Number_of_Z 0))
      (Js.slice0 10 genreStats) in
  WrappedGenres.mk topGenres (count genreStats).

(** *** getWrappedActivityPatterns *)

Definition timedDuration (r : Row * Calendar.Timestamp) : Z := duration (fst r).

(** [Math.round((curr.getTime() - prev.getTime()) / msPerDay)]; NaN ([None])
    when a date is invalid.  Both instants are UTC midnights, so the
    quotient is an integer and the division is exact. *)
Definition diffDays (prev curr : string) : option Z :=
  match Calendar.getTime prev, Calendar.getTime curr with
  | Some p, Some c =>
      Some ((2 * (c - p) + Calendar.msPerDay) / (2 * Calendar.msPerDay))
  | _, _ => None
  end.

(** One iteration of the streak loop, on the state
    [(longestStreak, currentStreak)]. *)
Definition streakStep (sortedDates : list string) (st : Z * Z) (i : nat)
  : Z * Z :=
  let '(longestStreak, currentStreak) := st in
  let currentStreak' :=
    if Nat.eqb i 0 then 1
    else
      match diffDays (nth (i - 1) sortedDates ""%string)
                     (nth i sortedDates ""%string) with
      | Some 1 => currentStreak + 1
      | _ => 1
      end in
  (Z.max longestStreak currentStreak', currentStreak').

Definition longestStreakOf (sortedDates : list string) : Z :=
  fst (fold_left (streakStep sortedDates) (seq 0 (List.length sortedDates))
         (0, 0)).

Definition statFor (stats : list (Stat Z)) (k : Z) : option (Stat Z) :=
  find (fun s => statKey s =? k) stats.

Definition watchTimeOf (stat : option (Stat Z)) : Z :=
  match stat with Some s => statWatchTimeSeconds s | None => 0 end.

Definition playCountOf (stat : option (Stat Z)) : Z :=
  match stat with Some s => statPlayCount s | None => 0 end.

(** A grouped, ordered select on a part of the start time. *)
Definition statsBy (part : Calendar.Timestamp -> Z)
  (timed : list (Row * Calendar.Timestamp)) : list (Stat Z) :=
  orderBy (fun a b => statKey a <=? statKey b)
    (map (aggregate timedDuration)
       (groupBy Z.eqb (fun r => part (snd r)) timed)).

(** The block "Calendar heatmap - daily activity". *)
Definition calendarHeatmapOf (timed : list (Row * Calendar.Timestamp))
  : list DayActivity.t :=
  let dailyStats :=
    orderBy
      (fun a b =>
         Calendar.dayNumber (statKey a) <=? Calendar.dayNumber (statKey b))
      (map (aggregate timedDuration)
         (groupBy Calendar.dateEqb (fun r => Calendar.DATE (snd r)) timed)) in
  map
    (fun d =>
       DayActivity.mk (Calendar.isoDate (statKey d))
         (statWatchTimeSeconds d) (statPlayCount d))
    dailyStats.

(** The block "Hourly patterns". *)
Definition hourlyPatternsOf (timed : list (Row * Calendar.Timestamp))
  : list HourlyPattern.t :=
  let hourlyStats := statsBy Calendar.EXTRACT_HOUR timed in
  map
    (fun h =>
       let stat := statFor hourlyStats h in
       HourlyPattern.mk h (watchTimeOf stat) (playCountOf stat))
    (upTo 24).

(** The block "Weekday patterns". *)
Definition weekdayPatternsOf (timed : list (Row * Calendar.Timestamp))
  : list WeekdayPattern.t :=
  let weekdayStats := statsBy Calendar.EXTRACT_DOW timed in
  mapi
    (fun day index =>
       (* Convert from Monday-first index to PostgreSQL DOW
          (0=Sunday, 1=Monday, etc.) *)
       let dbDowIndex := if index =? 6 then 0 else index + 1 in
       let stat := statFor weekdayStats dbDowIndex in
       WeekdayPattern.mk day index (watchTimeOf stat) (playCountOf stat))
    WEEKDAY_NAMES.

(** The block "Monthly totals". *)
Definition monthlyTotalsOf (timed : list (Row * Calendar.Timestamp))
  : list MonthlyTotal.t :=
  let monthlyStats := statsBy Calendar.EXTRACT_MONTH timed in
  mapi
    (fun monthName index =>
       let month := index + 1 in
       let stat := statFor monthlyStats month in
       MonthlyTotal.mk month monthName (watchTimeOf stat) (playCountOf stat))
    MONTH_NAMES.

(** [list.reduce((max, x) => x.watchTimeSeconds > max.watchTimeSeconds ? x : max)]. *)
Definition peakBy {A : Type} (watchTimeSeconds : A -> Z) (l : list A)
  : option A :=
  Js.reduce1
    (fun max x => if watchTimeSeconds x >? watchTimeSeconds max then x else max)
    l.

(** [getWrappedActivityPatterns]; [None] stands for a throw: the
    RangeError of the first query when the dates of the year are invalid,
    or the TypeError of a [reduce] on an empty array.  ([mostActiveDay] is
    computed with the peaks and never read.) *)
Definition getWrappedActivityPatterns (db : Database) (params : WrappedParams)
  : option WrappedActivityPatterns.t :=
  if negb (validYear (year params)) then None else
  let excl := getStatisticsExclusions db (serverId params) in
  let whereConditions :=
    push (push (userYearConditions params) (userExclusion excl))
      (itemLibraryExclusion excl) in
  let timed :=
    withStartTime (where_ (and_ whereConditions) (sessionsJoinItems db)) in
  let calendarHeatmap := calendarHeatmapOf timed in
  let hourlyPatterns := hourlyPatternsOf timed in
  let weekdayPatterns := weekdayPatternsOf timed in
  let monthlyTotals := monthlyTotalsOf timed in
  (* Calculate peaks *)
  let peakHourStat := peakBy HourlyPattern.watchTimeSeconds hourlyPatterns in
  let peakWeekdayStat :=
    peakBy WeekdayPattern.watchTimeSeconds weekdayPatterns in
  let peakMonthStat := peakBy MonthlyTotal.watchTimeSeconds monthlyTotals in
  (* Calculate longest streak *)
  let sortedDates :=
    Js.sort Js.localeCompare_leb (map DayActivity.date calendarHeatmap) in
  let longestStreak := longestStreakOf sortedDates in
  match peakHourStat, peakWeekdayStat, peakMonthStat with
  | Some ph, Some pw, Some pm =>
      Some
        (WrappedActivityPatterns.mk calendarHeatmap hourlyPatterns
           weekdayPatterns monthlyTotals (HourlyPattern.hour ph)
           (WeekdayPattern.day pw) (MonthlyTotal.month pm) longestStreak)
  | _, _, _ => None
  end.

(** *** getWrappedTypeBreakdown *)

Definition getWrappedTypeBreakdown (db : Database) (params : WrappedParams)
  : TypeBreakdown.t :=
  let excl := getStatisticsExclusions db (serverId params) in
  let whereConditions :=
    push (push (userYearConditions params) (userExclusion excl))
      (itemLibraryExclusion excl) in
  let typeStats :=
    map (aggregate duration)
      (groupBy String.eqb (fun r => items.type (snd r))
         (where_ (and_ whereConditions) (sessionsJoinItems db))) in
  let movieStats := find (fun t => String.eqb (statKey t) "Movie") typeStats in
  let episodeStats :=
    find (fun t => String.eqb (statKey t) "Episode") typeStats in
  let timeOf (s : option (Stat string)) :=
    match s with Some x => statWatchTimeSeconds x | None => 0 end in
  let countOf (s : option (Stat string)) :=
    match s with Some x => statPlayCount x | None => 0 end in
  let movieTime := timeOf movieStats in
  let episodeTime := timeOf episodeStats in
  let totalTime := movieTime + episodeTime in
  TypeBreakdown.mk
    (TypeShare.mk movieTime (countOf movieStats)
       (if totalTime >? 0 then Js.roundedPercent movieTime totalTime
        else Js.Number_of_Z 0))
    (TypeShare.mk episodeTime (countOf episodeStats)
       (if totalTime >? 0 then Js.roundedPercent episodeTime totalTime
        else Js.Number_of_Z 0))
    (TypeTotal.mk totalTime (countOf movieStats + countOf episodeStats)).

(** *** getWrappedRewatchStats *)

(** The columns the play counts are grouped by. *)
Record PlayedItem : Type := mkPlayedItem {
  playedItemId : option string;
  playedItemName : string;
  playedItemType : string;
  playedPrimaryImageTag : option string;
  playedSeriesName : option string;
  playedProductionYear : option Z
}.

Definition playedItemOf (r : Row) : PlayedItem :=
  mkPlayedItem (sessions.itemId (fst r)) (items.name (snd r))
    (items.type (snd r)) (items.primaryImageTag (snd r))
    (items.seriesName (snd r)) (items.productionYear (snd r)).

Definition playedItemEqb (a b : PlayedItem) : bool :=
  optStringEqb (playedItemId a) (playedItemId b) &&
  String.eqb (playedItemName a) (playedItemName b) &&
  String.eqb (playedItemType a) (playedItemType b) &&
  optStringEqb (playedPrimaryImageTag a) (playedPrimaryImageTag b) &&
  optStringEqb (playedSeriesName a) (playedSeriesName b) &&
  optZEqb (playedProductionYear a) (playedProductionYear b).

Definition byCountDesc {K : Type} (a b : Stat K) : bool :=
  statPlayCount b <=? statPlayCount a.

(** Items with multiple plays: grouped, [HAVING COUNT(id) > 1], most played
    first. *)
Definition itemPlayCountsOf (rows : list Row) : list (Stat PlayedItem) :=
  orderBy byCountDesc
    (filter (fun s => statPlayCount s >? 1)
       (map (aggregate duration) (groupBy playedItemEqb playedItemOf rows))).

Definition orEmpty (s : option string) : string :=
  match s with Some x => x | None => ""%string end.

Definition getWrappedRewatchStats (db : Database) (params : WrappedParams)
  : RewatchStats.t :=
  let excl := getStatisticsExclusions db (serverId params) in
  let whereConditions :=
    push (push (userYearConditions params) (userExclusion excl))
      (itemLibraryExclusion excl) in
  let rows := where_ (and_ whereConditions) (sessionsJoinItems db) in
  let itemPlayCounts := itemPlayCountsOf rows in
  let topRewatchedItems :=
    map
      (fun item =>
         let k := statKey item in
         RewatchedItem.mk (orEmpty (playedItemId k)) (playedItemName k)
           (playedItemType k) (statPlayCount item)
           (statWatchTimeSeconds item) (playedPrimaryImageTag k)
           (playedSeriesName k) (playedProductionYear k))
      (Js.slice0 5 itemPlayCounts) in
  let totalRewatches :=
    fold_left (fun acc item => acc + (statPlayCount item - 1)) itemPlayCounts 0 in
  let totalPlays := count rows in
  let rewatchPercentage :=
    if totalPlays >? 0 then Js.roundedPercent totalRewatches totalPlays
    else Js.Number_of_Z 0 in
  let mostRewatched := hd_error itemPlayCounts in
  RewatchStats.mk
    (match mostRewatched with
     | Some m =>
         let k := statKey m in
         Some (MostRewatched.mk (orEmpty (playedItemId k)) (playedItemName k)
                 (playedItemType k) (statPlayCount m - 1)
                 (playedPrimaryImageTag k) (playedSeriesName k)
                 (playedProductionYear k))
     | None => None
     end)
    totalRewatches rewatchPercentage topRewatchedItems.

(** *** getWrappedGenrePercentiles *)

Definition userGenreEqb (a b : option string * string) : bool :=
  optStringEqb (fst a) (fst b) && String.eqb (snd a) (snd b).

(** Per-user genre totals: grouped by [(sessions.userId, genre)], in no
    particular order. *)
Definition allUsersGenreStatsOf (rows : list Row)
  : list (Stat (option string * string)) :=
  map (aggregate (fun gr => duration (snd gr)))
    (groupBy userGenreEqb
       (fun gr => (sessions.userId (fst (snd gr)), fst gr))
       (unnestGenres rows)).

(** The conditions of the user's own genre query. *)
Definition userWhereConditions (excl : StatisticsExclusions)
  (params : WrappedParams) : list (SQL Row) :=
  push
    (userYearConditions params ++ [fun r => isNotNull (items.genres (snd r))])
    (itemLibraryExclusion excl).

(** The conditions of the query over all users of the server. *)
Definition serverWhereConditions (excl : StatisticsExclusions)
  (params : WrappedParams) : list (SQL Row) :=
  let '(start, end_) := getYearDateRange (year params) in
  push
    (push
       [ (fun r => sessions.serverId (fst r) =? serverId params);
         (fun r => gteTime (sessions.startTime (fst r)) start);
         (fun r => lteTime (sessions.startTime (fst r)) end_);
         (fun r => isNotNull (sessions.itemId (fst r)));
         (fun r => isNotNull (items.genres (snd r)));
         (fun r => isNotNull (sessions.userId (fst r))) ]
       (userExclusion excl))
    (itemLibraryExclusion excl).

(** The body of the loop over the user's first five genres. *)
Definition genrePercentile
  (allUsersGenreStats : list (Stat (option string * string)))
  (userTopGenre : option string) (userGenre : Stat string)
  : GenrePercentile.t :=
  let genre := statKey userGenre in
  let userTime := statWatchTimeSeconds userGenre in
  let genreWatchTimes :=
    Js.sort Z.leb
      (map statWatchTimeSeconds
         (filter (fun s => String.eqb (snd (statKey s)) genre)
            allUsersGenreStats)) in
  let usersBelow := count (filter (fun t => t <? userTime) genreWatchTimes) in
  let n := count genreWatchTimes in
  let percentile :=
    if n >? 0 then Js.roundedPercent usersBelow n else Js.Number_of_Z 0 in
  let serverAverageSeconds :=
    if n >? 0
    then Js.roundedQuotient (fold_left Z.add genreWatchTimes 0) n
    else Js.Math_round (Js.Number_of_Z 0) in
  GenrePercentile.mk genre userTime serverAverageSeconds percentile
    (optStringEqb (Some genre) userTopGenre).

Definition getWrappedGenrePercentiles (db : Database) (params : WrappedParams)
  : list GenrePercentile.t :=
  let excl := getStatisticsExclusions db (serverId params) in
  let userGenreStats :=
    genreStatsOf
      (where_ (and_ (userWhereConditions excl params)) (sessionsJoinItems db)) in
  match userGenreStats with
  | [] => []
  | _ :: _ =>
      let allUsersGenreStats :=
        allUsersGenreStatsOf
          (where_ (and_ (serverWhereConditions excl params))
             (sessionsJoinItems db)) in
      let userTopGenre := option_map statKey (hd_error userGenreStats) in
      map (genrePercentile allUsersGenreStats userTopGenre)
        (Js.slice0 5 userGenreStats)
  end.

End Wrapped.

(** ** Server URLs ([lib/server-url.ts], [utils/server-url.ts]) *)

(** The structural parameter type [{ url: string; internalUrl?: string | null }]. *)
Record ServerUrls : Type := mkServerUrls {
  url : string;
  internalUrl : Js.Optional string
}.

(** [a || b] for an optional string [a]: [a] when it is truthy. *)
Definition orElse (a : Js.Optional string) (b : string) : string :=
  match a with
  | Js.defined s => if Js.truthyString s then s else b
  | Js.null => b
  | Js.undefined => b
  end.

Module NextjsApp.

Definition getInternalUrl (server : ServerUrls) : string :=
  orElse (internalUrl server) (url server).

Definition getExternalUrl (server : ServerUrls) : string := url server.

End NextjsApp.

Module JobServer.

Definition getInternalUrl (server : ServerUrls) : string :=
  orElse (internalUrl server) (url server).

End JobServer.

(** ** Marking an item as watched ([lib/db/mark-watched.ts]) *)

Module MarkWatched.

Record MarkWatchedResult : Type := mkResult {
  success : bool;
  message : string;
  isPlayed : option bool
}.

(** What a [catch] clause receives: an [Error] with its message, or any
    other thrown value. *)
Inductive Thrown : Type :=
| ErrorWith (message : string)
| OtherValue.

(** The outcome of awaiting a call. *)
Inductive Outcome (A : Type) : Type :=
| Returns (a : A)
| Throws (e : Thrown).
Arguments Returns {A} _.
Arguments Throws {A} _.

(** The authenticated user, as [getSession()] resolves it. *)
Record AuthSession : Type := mkAuthSession {
  id : string;
  name : string;
  serverId : Z
}.

Inductive HttpMethod : Type := POST | DELETE.

Record Request : Type := mkRequest {
  requestUrl : string;
  method : HttpMethod;
  embyToken : string
}.

Record Response : Type := mkResponse { ok : bool; status : Z }.

Inductive DbCall : Type :=
| ServersFindFirst
| ItemsFindFirst
| SessionsInsert
| SessionsDelete.

(** The collaborators of the action: what each awaited call answers. *)
Record World : Type := mkWorld {
  getSession : Outcome (option AuthSession);
  cookieToken : Outcome (Js.Optional string);
  fetch : Request -> Outcome Response;
  now : Calendar.Timestamp;
  revalidatePath : string -> Outcome unit;
  dbError : DbCall -> option Thrown
}.

(** Computations that read and write the database and may throw.  A
    statement that throws leaves the database as the statements before it
    left it: nothing is rolled back. *)
Definition M (A : Type) : Type := Database -> Outcome A * Database.

Definition ret {A : Type} (a : A) : M A := fun db => (Returns a, db).

Definition bind {A B : Type} (m : M A) (f : A -> M B) : M B :=
  fun db =>
    match m db with
    | (Returns a, db') => f a db'
    | (Throws e, db') => (Throws e, db')
    end.

Definition await {A : Type} (o : Outcome A) : M A := fun db => (o, db).

Definition tryCatch {A : Type} (body : M A) (handler : Thrown -> M A) : M A :=
  fun db =>
    match body db with
    | (Returns a, db') => (Returns a, db')
    | (Throws e, db') => handler e db'
    end.

(** A database statement: it throws when the world says so, and otherwise
    runs [run] on the database. *)
Definition statement {A : Type} (w : World) (call : DbCall)
  (run : Database -> A * Database) : M A :=
  fun db =>
    match dbError w call with
    | Some e => (Throws e, db)
    | None => let '(a, db') := run db in (Returns a, db')
    end.

Notation "x <- m ;; k" := (bind m (fun x => k))
  (at level 61, m at next level, right associativity).
Notation "m ;;; k" := (bind m (fun _ => k))
  (at level 61, right associativity).

(** [db.insert(sessions).values(s).onConflictDoNothing()]. *)
Definition insertOnConflictDoNothing (s : sessions.row) (db : Database)
  : unit * Database :=
  if existsb (fun x => String.eqb (sessions.id x) (sessions.id s))
       (sessionsTable db)
  then (tt, db)
  else (tt, mkDatabase (serversTable db) (itemsTable db)
              (sessionsTable db ++ [s])).

(** The WHERE clause of [deleteInferredSessionForItem]. *)
Definition inferredSessionOf (serverIdNum : Z) (userId itemId : string)
  (s : sessions.row) : bool :=
  (sessions.serverId s =? serverIdNum) &&
  Sql.eqText (sessions.userId s) userId &&
  Sql.eqText (sessions.itemId s) itemId &&
  Bool.eqb (sessions.isInferred s) true.

(** [deleteInferredSessionForItem]; [serverIdNum] is [Number(serverId)]. *)
Definition deleteInferredSessionForItem (w : World) (serverIdNum : Z)
  (userId itemId : string) : M Z :=
  result <-
    statement w SessionsDelete
      (fun db =>
         (filter (inferredSessionOf serverIdNum userId itemId) (sessionsTable db),
          mkDatabase (serversTable db) (itemsTable db)
            (filter (fun s => negb (inferredSessionOf serverIdNum userId itemId s))
               (sessionsTable db)))) ;;
  ret (Z.of_nat (List.length result)).

(** [!item.runtimeTicks]: null and 0 are both falsy. *)
Definition truthyTicks (t : option Z) : bool :=
  match t with Some n => negb (n =? 0) | None => false end.

Definition inferredSessionId (serverId : Z) (userId itemId : string)
  (now : Calendar.Timestamp) : string :=
  ("inferred:mark-watched:" ++ Js.stringOfZ serverId ++ ":" ++ userId ++ ":" ++
   itemId ++ ":" ++ Calendar.toISOString now)%string.

Definition newSession (serverId : Z) (userId userName itemId : string)
  (item : items.row) (ticks : Z) (now : Calendar.Timestamp) : sessions.row :=
  let playDurationSeconds := Js.floorDiv ticks 10000000 in
  sessions.mk
    (inferredSessionId serverId userId itemId now)
    serverId
    (Some userId)
    (Some itemId)
    userName
    (Some userId)
    (Some (items.name item))
    (items.seriesId item)
    (items.seriesName item)
    (items.seasonId item)
    playDurationSeconds
    (Some now)
    (Some now)
    (items.runtimeTicks item)
    (items.runtimeTicks item)
    100
    true
    false
    false
    false
    true
    false
    [("source", "mark-as-watched"); ("inferredAt", Calendar.toISOString now)]%string.

(** [createInferredSessionForItem]. *)
Definition createInferredSessionForItem (w : World) (serverId : Z)
  (userId userName itemId : string) : M unit :=
  item <-
    statement w ItemsFindFirst
      (fun db =>
         (find (fun it => String.eqb (items.id it) itemId) (itemsTable db), db)) ;;
  match item with
  | None => ret tt
  | Some item =>
      match items.runtimeTicks item with
      | Some ticks =>
          if truthyTicks (Some ticks)
          then
            statement w SessionsInsert
              (insertOnConflictDoNothing
                 (newSession serverId userId userName itemId item ticks (now w)))
          else ret tt
      | None => ret tt
      end
  end.

Definition failure (msg : string) : MarkWatchedResult := mkResult false msg None.

(** [markItemWatched]; [serverIdNum] is [Number(serverId)], and
    [inferWatchtime] is the optional fourth argument. *)
Definition markItemWatched (w : World) (serverIdNum : Z) (itemId : string)
  (watched : bool) (inferWatchtime : option bool) : M MarkWatchedResult :=
  session <- await (getSession w) ;;
  match session with
  | None => ret (failure "Not authenticated")
  | Some session =>
      if negb (serverId session =? serverIdNum)
      then ret (failure "Server mismatch")
      else
        server <-
          statement w ServersFindFirst
            (fun db =>
               (find (fun s => servers.id s =? serverIdNum) (serversTable db),
                db)) ;;
        match server with
        | None => ret (failure "Server not found")
        | Some server =>
            token <- await (cookieToken w) ;;
            match token with
            | Js.defined token =>
                if negb (Js.truthyString token)
                then ret (failure "No authentication token")
                else
                  tryCatch
                    (let method := if watched then POST else DELETE in
                     response <-
                       await
                         (fetch w
                            (mkRequest
                               (NextjsApp.getInternalUrl
                                  (mkServerUrls (servers.url server)
                                     (servers.internalUrl server)) ++
                                "/Users/" ++ id session ++ "/PlayedItems/" ++
                                itemId)%string
                               method token)) ;;
                     if negb (ok response)
                     then
                       ret (failure
                              ("Jellyfin returned " ++
                               Js.stringOfZ (status response))%string)
                     else
                       (if watched &&
                           match inferWatchtime with
                           | Some b => b
                           | None => false
                           end
                        then
                          createInferredSessionForItem w serverIdNum
                            (id session) (name session) itemId
                        else ret tt) ;;;
                       await
                         (revalidatePath w
                            ("/servers/" ++ Js.stringOfZ serverIdNum ++
                             "/library/" ++ itemId)%string) ;;;
                       ret (mkResult true
                              (if watched then "Marked as watched"
                               else "Marked as unwatched")
                              (Some watched)))
                    (fun error =>
                       ret (failure
                              match error with
                              | ErrorWith m => m
                              | OtherValue => "Failed to update"
                              end))
            | _ => ret (failure "No authentication token")
            end
        end
  end.

End MarkWatched.

(** ** Vocabulary of the statements of Part II *)

Module Spec.

Import MarkWatched.

(** The request [markItemWatched] sends for a user, an item and a direction. *)
Definition playedItemsRequest (server : servers.row) (session : AuthSession)
  (itemId : string) (watched : bool) (token : string) : Request :=
  mkRequest
    (NextjsApp.getInternalUrl
       (mkServerUrls (servers.url server) (servers.internalUrl server)) ++
     "/Users/" ++ id session ++ "/PlayedItems/" ++ itemId)%string
    (if watched then POST else DELETE) token.

(** The media-server request of a call was sent and answered with an ok
    response: the caller is authenticated on the requested server, the
    server is known, the token cookie is set. *)
Definition requestSucceeded (w : World) (db : Database) (serverIdNum : Z)
  (itemId : string) (watched : bool) (session : AuthSession) : Prop :=
  getSession w = Returns (Some session) /\
  serverId session = serverIdNum /\
  dbError w ServersFindFirst = None /\
  exists server token response,
    find (fun s => servers.id s =? serverIdNum) (serversTable db) = Some server /\
    cookieToken w = Returns (Js.defined token) /\
    Js.truthyString token = true /\
    fetch w (playedItemsRequest server session itemId watched token)
    = Returns response /\
    ok response = true.

(** The text a [catch] clause reports for a thrown value. *)
Definition thrownMessage (e : Thrown) : string :=
  match e with ErrorWith m => m | OtherValue => "Failed to update"%string end.

End Spec.

(** ** Sample data *)

Module Examples.

Import MarkWatched.

Definition server (excludedUsers excludedLibraries : list string)
  : servers.row :=
  servers.mk 1 "http://jellyfin.example" Js.null excludedUsers excludedLibraries.

Definition movie (id library : string) (genres : list string)
  (ticks : option Z) : items.row :=
  items.mk id 1 library ("Movie " ++ id) "Movie" (Some genres) None None None
    None (Some 1999) ticks.

(** A playback of [item] by [user], started at [t], [seconds] long. *)
Definition play (id user item : string) (t : Calendar.Timestamp)
  (seconds : Z) : sessions.row :=
  sessions.mk id 1 (Some user) (Some item) user (Some user) None None None
    None seconds (Some t) (Some t) None None 100 true false false false false
    false [].

Definition at_ (y m d hour : Z) : Calendar.Timestamp :=
  Calendar.mkTimestamp (Calendar.mkDate y m d) (hour * 3600000).

Definition alice : AuthSession := mkAuthSession "u1" "Alice" 1.

(** A world in which the caller is Alice, the token cookie is set, the media
    server answers 204 and the database works; [revalidate] is the outcome
    of [revalidatePath]. *)
Definition world (session : option AuthSession) (revalidate : Outcome unit)
  : World :=
  mkWorld (Returns session) (Returns (Js.defined "token"%string))
    (fun _ => Returns (mkResponse true 204)) (at_ 2024 3 1 12)
    (fun _ => revalidate) (fun _ => None).

(** A library of one two-hour movie (or one of [ticks] ticks), with the
    sessions [ss]. *)
Definition library (ticks : option Z) (ss : list sessions.row) : Database :=
  mkDatabase [server [] []] [movie "m1" "lib1" ["Drama"%string] ticks] ss.

Definition twoHours : option Z := Some 72000000000.

End Examples.

(** ** Vocabulary of the statements about the yearly aggregations *)

Module Yearly.

Import Sql Exclusions Wrapped.

(** The joined rows a per-user query of the year reads: the user's sessions
    of the year on the server, on an item, that the exclusions let
    through. *)
Definition qualifyingRows (db : Database) (params : WrappedParams)
  : list Row :=
  let excl := getStatisticsExclusions db (serverId params) in
  where_
    (and_
       (push (push (userYearConditions params) (userExclusion excl))
          (itemLibraryExclusion excl)))
    (sessionsJoinItems db).

(** The same rows, each with its start time. *)
Definition qualifying (db : Database) (params : WrappedParams)
  : list (Row * Calendar.Timestamp) :=
  withStartTime (qualifyingRows db params).

(** The primary key of [items]. *)
Definition uniqueItemIds (db : Database) : Prop :=
  NoDup (map items.id (itemsTable db)).

(** The number of the rows that are sessions on the item [itemId]. *)
Definition playsOfItem (itemId : string) (rows : list Row) : Z :=
  count (filter (fun r => eqText (sessions.itemId (fst r)) itemId) rows).

(** The percentage [100 * a / b] rounded to the nearest integer, halves up,
    in exact arithmetic. *)
Definition exactRoundedPercent (a b : Z) : Z := (200 * a + b) / (2 * b).

(** The same percentage in double precision with the product taken first,
    [Math.round((100 * a) / b)]. *)
Definition scaledFirstPercent (a b : Z) : float :=
  Js.Math_round
    (PrimFloat.div (PrimFloat.mul (Js.Number_of_Z 100) (Js.Number_of_Z a))
       (Js.Number_of_Z b)).

(** The mean [a / b] rounded to the nearest integer, halves up, in exact
    arithmetic. *)
Definition exactRoundedQuotient (a b : Z) : Z := (2 * a + b) / (2 * b).

(** The rows whose start time has the date part [k]. *)
Definition inBucket (part : Calendar.Timestamp -> Z) (k : Z)
  (rows : list (Row * Calendar.Timestamp)) : list (Row * Calendar.Timestamp) :=
  filter (fun r => part (snd r) =? k) rows.

Definition watchTime (rows : list (Row * Calendar.Timestamp)) : Z :=
  sum timedDuration rows.

Definition plays (rows : list (Row * Calendar.Timestamp)) : Z := count rows.

(** [x] is the element at index [i] of [l], no element has a larger value
    and every earlier element has a smaller one: the first maximum. *)
Definition FirstMax {A : Type} (value : A -> Z) (l : list A) (i : nat) (x : A)
  : Prop :=
  nth_error l i = Some x /\
  (forall j y, nth_error l j = Some y -> value y <= value x) /\
  (forall j y, (j < i)%nat -> nth_error l j = Some y -> value y < value x).

(** The user has a qualifying session on the calendar date [d]. *)
Definition activeOn (db : Database) (params : WrappedParams)
  (d : Calendar.CivilDate) : Prop :=
  exists r, In r (qualifying db params) /\ Calendar.DATE (snd r) = d.

(** [d], the date after it, ... : [n] consecutive calendar dates, all
    active. *)
Definition activeRun (db : Database) (params : WrappedParams)
  (d : Calendar.CivilDate) (n : nat) : Prop :=
  forall i, (i < n)%nat -> activeOn db params (Nat.iter i Calendar.nextDate d).

(** Every stored start time is a valid timestamp. *)
Definition wellFormedTimes (db : Database) : Prop :=
  forall s t,
    In s (sessionsTable db) -> sessions.startTime s = Some t ->
    Calendar.validTimestamp t = true.

End Yearly.

(** ** Vocabulary of the calendar statements *)

Module CalendarSpec.

Import Calendar.

(** A date of the calendar: a month of the year, a day of the month. *)
Definition calendarDate (d : CivilDate) : Prop :=
  1 <= month d <= 12 /\ 1 <= day d <= daysInMonth (year d) (month d).

(** Dates compared year first, then month, then day. *)
Definition dateLt (a b : CivilDate) : Prop :=
  year a < year b \/
  (year a = year b /\
   (month a < month b \/ (month a = month b /\ day a < day b))).

End CalendarSpec.

(** ** Vocabulary of the streak statements *)

Module Streak.

Import Wrapped.

(** The streak loop as a traversal that carries the previous date along. *)
Fixpoint streakFrom (prev : string) (st : Z * Z) (rest : list string)
  : Z * Z :=
  match rest with
  | [] => st
  | d :: rest' =>
      let '(longest, current) := st in
      let current' :=
        match diffDays prev d with
        | Some 1 => current + 1
        | _ => 1
        end in
      streakFrom d (Z.max longest current', current') rest'
  end.

(** The same traversal on day numbers. *)
Fixpoint runFrom (prev : Z) (st : Z * Z) (rest : list Z) : Z * Z :=
  match rest with
  | [] => st
  | n :: rest' =>
      let '(longest, current) := st in
      let current' := if n - prev =? 1 then current + 1 else 1 in
      runFrom n (Z.max longest current', current') rest'
  end.

(** The [len] consecutive day numbers from [start] on all occur in [l]. *)
Definition isRun (l : list Z) (start len : Z) : Prop :=
  forall i, 0 <= i < len -> In (start + i) l.

(** [k] is the length of the longest run of [l]. *)
Definition longestRun (l : list Z) (k : Z) : Prop :=
  (exists start, isRun l start k) /\
  (forall start len, isRun l start len -> len <= k).

(** What the traversal knows after the day numbers [seen], the last of them
    [x]: the run that ends at [x] has length [current], nothing was seen
    right before it, and [longest] is the length of the longest run so
    far. *)
Definition runInvariant (seen : list Z) (x longest current : Z) : Prop :=
  1 <= current <= longest /\
  isRun seen (x - current + 1) current /\
  ~ In (x - current) seen /\
  (forall y, In y seen -> y <= x) /\
  longestRun seen longest.

End Streak.

(** A year of Alice on the sample server: plays on January 1 and 2, on
    January 7, and from February 29 to March 2; a play of another user and a
    play of the year before. *)
Module SampleYear.

Import Examples.

Definition db : Database :=
  library twoHours
    [ play "s1" "u1" "m1" (at_ 2024 1 1 20) 100;
      play "s2" "u1" "m1" (at_ 2024 1 2 20) 50;
      play "s3" "u1" "m1" (at_ 2024 1 7 3) 70;
      play "s4" "u1" "m1" (at_ 2024 2 29 3) 70;
      play "s5" "u1" "m1" (at_ 2024 3 1 3) 70;
      play "s6" "u1" "m1" (at_ 2024 3 2 3) 70;
      play "s7" "u2" "m1" (at_ 2024 3 3 3) 70;
      play "s8" "u1" "m1" (at_ 2023 12 31 23) 70 ].

Definition params : Wrapped.WrappedParams := Wrapped.mkParams 1 "u1" 2024.

End SampleYear.

(** A year of forty plays: one movie played 24 times and sixteen movies
    played once. *)
Module FortyPlays.

Import Examples.

Definition others : list Z := Wrapped.upTo 16.

Definition db : Database :=
  mkDatabase [server [] []]
    (movie "m1" "lib1" ["Drama"%string] twoHours ::
     map (fun i => movie ("x" ++ Js.stringOfZ i) "lib1" ["Comedy"%string] twoHours)
       others)
    (map (fun i => play ("a" ++ Js.stringOfZ i) "u1" "m1" (at_ 2024 5 1 i) 60)
       (Wrapped.upTo 24) ++
     map (fun i =>
            play ("b" ++ Js.stringOfZ i) "u1" ("x" ++ Js.stringOfZ i)
              (at_ 2024 5 2 i) 60)
       others).

Definition params : Wrapped.WrappedParams := Wrapped.mkParams 1 "u1" 2024.

End FortyPlays.

(** ** Vocabulary of the statements about genre percentiles *)

Module Genres.

Import Sql Exclusions Wrapped.

(** The user's sessions of the year, one row per genre of the item: what the
    user's genre totals are summed over. *)
Definition userRows (db : Database) (params : WrappedParams)
  : list (string * Row) :=
  unnestGenres
    (where_
       (and_
          (userWhereConditions (getStatisticsExclusions db (serverId params))
             params))
       (sessionsJoinItems db)).

(** The same for the cohort: the sessions of the year of every user of the
    server that the exclusions let through. *)
Definition cohortRows (db : Database) (params : WrappedParams)
  : list (string * Row) :=
  unnestGenres
    (where_
       (and_
          (serverWhereConditions
             (getStatisticsExclusions db (serverId params)) params))
       (sessionsJoinItems db)).

Definition userOf (gr : string * Row) : option string :=
  sessions.userId (fst (snd gr)).

Definition secondsOf (gr : string * Row) : Z := duration (snd gr).

(** The watch time of the rows of genre [g]. *)
Definition genreTotal (g : string) (rows : list (string * Row)) : Z :=
  sum secondsOf (filter (fun gr => String.eqb g (fst gr)) rows).

(** The watch time of the rows of user [u] and genre [g]. *)
Definition userGenreTotal (u : option string) (g : string)
  (rows : list (string * Row)) : Z :=
  sum secondsOf
    (filter (fun gr => userGenreEqb (u, g) (userOf gr, fst gr)) rows).

(** The user's genre totals, largest first, and the cohort's totals per user
    and genre, as the call computes them. *)
Definition userGenreStats (db : Database) (params : WrappedParams)
  : list (Stat string) :=
  orderBy bySumDesc
    (map (aggregate secondsOf) (groupBy String.eqb fst (userRows db params))).

Definition cohortStats (db : Database) (params : WrappedParams)
  : list (Stat (option string * string)) :=
  map (aggregate secondsOf)
    (groupBy userGenreEqb (fun gr => (userOf gr, fst gr))
       (cohortRows db params)).

(** The cohort's totals for the genre [g], one per user. *)
Definition cohortTotals (db : Database) (params : WrappedParams) (g : string)
  : list Z :=
  map statWatchTimeSeconds
    (filter (fun s => String.eqb (snd (statKey s)) g) (cohortStats db params)).

End Genres.

(** A cohort of forty users who watched the same drama: Alice for 100
    seconds, 23 users for less, 16 users for more. *)
Module FortyUsers.

Import Examples.

Definition db : Database :=
  library twoHours
    (play "s" "u1" "m1" (at_ 2024 5 1 20) 100 ::
     map (fun i =>
            play ("v" ++ Js.stringOfZ i) ("v" ++ Js.stringOfZ i) "m1"
              (at_ 2024 5 2 20) 50)
       (Wrapped.upTo 23) ++
     map (fun i =>
            play ("w" ++ Js.stringOfZ i) ("w" ++ Js.stringOfZ i) "m1"
              (at_ 2024 5 3 20) 200)
       (Wrapped.upTo 16)).

Definition params : Wrapped.WrappedParams := Wrapped.mkParams 1 "u1" 2024.

End FortyUsers.

(** A server that excludes Alice from its statistics, and her one play. *)
Module ExcludedUser.

Import Examples.

Definition db : Database :=
  mkDatabase [server ["u1"%string] []]
    [movie "m1" "lib1" ["Drama"%string] twoHours]
    [play "s1" "u1" "m1" (at_ 2024 5 1 20) 100].

Definition params : Wrapped.WrappedParams := Wrapped.mkParams 1 "u1" 2024.

End ExcludedUser.

(** A server that excludes the user u2 and the library lib2: plays of three
    users on a movie of lib1, and a play on a movie of lib2. *)
Module MixedExclusions.

Import Examples.

Definition excluding : servers.row := server ["u2"%string] ["lib2"%string].

Definition db : Database :=
  mkDatabase [excluding]
    [ movie "m1" "lib1" ["Drama"%string] twoHours;
      movie "m2" "lib2" ["Drama"%string] twoHours ]
    [ play "s1" "u1" "m1" (at_ 2024 5 1 20) 100;
      play "s2" "u1" "m2" (at_ 2024 5 2 20) 100;
      play "s3" "u2" "m1" (at_ 2024 5 3 20) 100;
      play "s4" "u3" "m1" (at_ 2024 5 4 20) 100 ].

Definition params : Wrapped.WrappedParams := Wrapped.mkParams 1 "u1" 2024.

End MixedExclusions.

(** The exclusion lists configured for a server (empty for an unknown
    server). *)
Module Configured.

Definition server (db : Database) (serverId : Z) : option servers.row :=
  find (fun s => servers.id s =? serverId) (serversTable db).

Definition excludedUsers (db : Database) (serverId : Z) : list string :=
  match server db serverId with
  | Some srv => servers.excludedUserIds srv
  | None => []
  end.

Definition excludedLibraries (db : Database) (serverId : Z) : list string :=
  match server db serverId with
  | Some srv => servers.excludedLibraryIds srv
  | None => []
  end.

End Configured.

(** ** Vocabulary of the statements about types and genres *)

Module Shares.

Import Sql Exclusions Wrapped Yearly.

(** The qualifying sessions on items of the type [t]. *)
Definition ofType (t : string) (db : Database) (params : WrappedParams)
  : list Row :=
  filter (fun r => String.eqb t (items.type (snd r))) (qualifyingRows db params).

(** The share a call reports for [part] of [whole]: the rounded percentage,
    0 when the whole is not positive. *)
Definition share (part whole : Z) : float :=
  if 0 <? whole then Js.roundedPercent part whole else Js.Number_of_Z 0.

(** The qualifying sessions on items with a (non-null) genre list, one row
    per genre of the item. *)
Definition genreRows (db : Database) (params : WrappedParams)
  : list (string * Row) :=
  unnestGenres
    (filter (fun r => isNotNull (items.genres (snd r)))
       (qualifyingRows db params)).

End Shares.

(** ** More of JavaScript: [Map] and [slice] *)

(** A [Map] with string keys: its entries in insertion order, every key
    once. *)
Module JsMap.

Definition t (V : Type) : Type := list (string * V).

Definition empty {V : Type} : t V := [].

(** [m.get(k)]; [None] is [undefined]. *)
Definition get {V : Type} (k : string) (m : t V) : option V :=
  option_map snd (find (fun e => String.eqb (fst e) k) m).

(** [m.has(k)]. *)
Definition has {V : Type} (k : string) (m : t V) : bool :=
  existsb (fun e => String.eqb (fst e) k) m.

(** [m.set(k, v)]: a key that is present keeps its place and takes the new
    value, a new key goes last. *)
Fixpoint set {V : Type} (k : string) (v : V) (m : t V) : t V :=
  match m with
  | [] => [(k, v)]
  | e :: m' => if String.eqb (fst e) k then (k, v) :: m' else e :: set k v m'
  end.

(** [new Map(entries)]. *)
Definition ofEntries {V : Type} (entries : list (string * V)) : t V :=
  fold_left (fun m e => set (fst e) (snd e) m) entries empty.

(** [Array.from(m.keys())] and [m.size]. *)
Definition keys {V : Type} (m : t V) : list string := map fst m.

Definition size {V : Type} (m : t V) : Z := Z.of_nat (List.length m).

End JsMap.

Module JsArray.

(** [arr.slice(0, end)] for an integer [end]: a negative [end] counts from
    the end of the array. *)
Definition slice0 {A : Type} (end_ : Z) (l : list A) : list A :=
  if end_ <? 0
  then firstn (List.length l - Z.to_nat (- end_)) l
  else firstn (Z.to_nat end_) l.

End JsArray.

(** ** Queries on one table *)

(** The conditions of [getStatisticsExclusions] each name the columns of one
    table: the user exclusion reads [sessions.userId], the library
    exclusion [items.libraryId].  In a query without the join such a
    condition is evaluated on the row of its table; the other half of a
    joined row is never read. *)
Module OneTable.

Definition noItem : items.row :=
  items.mk "" 0 "" "" "" None None None None None None None.

Definition noSession : sessions.row :=
  sessions.mk "" 0 None None "" None None None None None 0 None None None None
    0 false false false false false false [].

Definition onSessions (c : option (Sql.SQL Sql.Row))
  : option (Sql.SQL sessions.row) :=
  option_map (fun x s => x (s, noItem)) c.

Definition onItems (c : option (Sql.SQL Sql.Row))
  : option (Sql.SQL items.row) :=
  option_map (fun x it => x (noSession, it)) c.

End OneTable.

(** ** The years with activity and the top items of a year *)

Module AvailableYears.

Import Sql Exclusions Wrapped OneTable.

(** PostgreSQL [EXTRACT(YEAR FROM t)]. *)
Definition EXTRACT_YEAR (t : Calendar.Timestamp) : Z :=
  Calendar.year (Calendar.date t).

(** [getAvailableWrappedYears]: the distinct years of the start times, the
    latest first.  ([Number(y.year)] of a year is never NaN, so the closing
    [filter] keeps every entry.) *)
Definition getAvailableWrappedYears (db : Database) (serverId : Z)
  (userId : string) : list Z :=
  let excl := getStatisticsExclusions db serverId in
  let whereConditions :=
    push
      [ (fun s => sessions.serverId s =? serverId);
        (fun s => eqText (sessions.userId s) userId);
        (fun s => isNotNull (sessions.startTime s)) ]
      (onSessions (userExclusion excl)) in
  let years :=
    orderBy (fun a b => b <=? a)
      (distinct Z.eqb
         (flat_map
            (fun s =>
               match sessions.startTime s with
               | Some t => [EXTRACT_YEAR t]
               | None => []
               end)
            (where_ (and_ whereConditions) (sessionsTable db)))) in
  years.

End AvailableYears.

Module TopItems.

Import Sql Exclusions Wrapped OneTable.

(** [ItemWithStats]: an item with the two totals. *)
Module ItemWithStats.
Record t : Type := mk {
  item : items.row;
  totalPlayCount : Z;
  totalPlayDuration : Z
}.
End ItemWithStats.

Module WrappedTopItems.
Record t : Type := mk {
  movies : list ItemWithStats.t;
  series : list ItemWithStats.t
}.
End WrappedTopItems.

(** An entry of [sessionStats]. *)
Module SessionStat.
Record t : Type := mk {
  itemId : string;
  totalPlayCount : Z;
  totalPlayDuration : Z
}.
End SessionStat.

(** An entry of [seriesStatsMap]. *)
Module SeriesStats.
Record t : Type := mk { totalPlayCount : Z; totalPlayDuration : Z }.
End SeriesStats.

(** The five conditions of the query, which selects from [sessions]
    alone. *)
Definition sessionYearConditions (params : WrappedParams)
  : list (SQL sessions.row) :=
  let '(start, end_) := getYearDateRange (year params) in
  [ (fun s => sessions.serverId s =? serverId params);
    (fun s => eqText (sessions.userId s) (userId params));
    (fun s => gteTime (sessions.startTime s) start);
    (fun s => lteTime (sessions.startTime s) end_);
    (fun s => isNotNull (sessions.itemId s)) ].

(** [item.seriesId] when it is truthy. *)
Definition truthySeriesId (item : items.row) : option string :=
  match items.seriesId item with
  | Some sid => if Js.truthyString sid then Some sid else None
  | None => None
  end.

(** One iteration of the loop "Group movies and episodes", on the state
    [(movies, episodesBySeriesId)]. *)
Definition groupStep
  (st : list ItemWithStats.t * JsMap.t (list ItemWithStats.t))
  (item : ItemWithStats.t)
  : list ItemWithStats.t * JsMap.t (list ItemWithStats.t) :=
  let '(movies, episodesBySeriesId) := st in
  if String.eqb (items.type (ItemWithStats.item item)) "Movie"
  then (movies ++ [item], episodesBySeriesId)
  else
    if String.eqb (items.type (ItemWithStats.item item)) "Episode"
    then
      match truthySeriesId (ItemWithStats.item item) with
      | Some seriesId =>
          let episodesBySeriesId' :=
            if negb (JsMap.has seriesId episodesBySeriesId)
            then JsMap.set seriesId [] episodesBySeriesId
            else episodesBySeriesId in
          (movies,
           match JsMap.get seriesId episodesBySeriesId' with
           | Some episodes =>
               JsMap.set seriesId (episodes ++ [item]) episodesBySeriesId'
           | None => episodesBySeriesId'
           end)
      | None => st
      end
    else st.

(** [(a, b) => b.totalPlayDuration - a.totalPlayDuration]. *)
Definition byDurationDesc (a b : ItemWithStats.t) : bool :=
  ItemWithStats.totalPlayDuration b <=? ItemWithStats.totalPlayDuration a.

(** [getWrappedTopItems]; the default of [limit] is 10. *)
Definition getWrappedTopItems (db : Database) (params : WrappedParams)
  (limit : Z) : WrappedTopItems.t :=
  let excl := getStatisticsExclusions db (serverId params) in
  let whereConditions :=
    push (sessionYearConditions params) (onSessions (userExclusion excl)) in
  (* Get session stats grouped by item *)
  let rawSessionStats :=
    orderBy bySumDesc
      (map (aggregate sessions.playDuration)
         (groupBy optStringEqb sessions.itemId
            (where_ (and_ whereConditions) (sessionsTable db)))) in
  let sessionStats :=
    filter (fun stat => Js.truthyString (SessionStat.itemId stat))
      (map
         (fun stat =>
            SessionStat.mk (orEmpty (statKey stat)) (statPlayCount stat)
              (statWatchTimeSeconds stat))
         rawSessionStats) in
  (* Fetch all items *)
  let itemIds := map SessionStat.itemId sessionStats in
  let itemConditions :=
    push [fun it => inArray (items.id it) itemIds]
      (onItems (itemLibraryExclusion excl)) in
  let itemsData :=
    if (0 <? List.length itemIds)%nat
    then where_ (and_ itemConditions) (itemsTable db)
    else [] in
  let itemsMap :=
    JsMap.ofEntries (map (fun item => (items.id item, item)) itemsData) in
  (* Combine stats with item data *)
  let itemsWithStats :=
    flat_map
      (fun stat =>
         match JsMap.get (SessionStat.itemId stat) itemsMap with
         | Some item =>
             [ItemWithStats.mk item (SessionStat.totalPlayCount stat)
                (SessionStat.totalPlayDuration stat)]
         | None => []
         end)
      sessionStats in
  (* Group movies and episodes *)
  let '(movies, episodesBySeriesId) :=
    fold_left groupStep itemsWithStats ([], JsMap.empty) in
  (* Aggregate series stats from episodes *)
  let seriesStatsMap :=
    fold_left
      (fun m entry =>
         let '(seriesId, episodes) := entry in
         let totalPlayCount :=
           fold_left (fun sum ep => sum + ItemWithStats.totalPlayCount ep)
             episodes 0 in
         let totalPlayDuration :=
           fold_left (fun sum ep => sum + ItemWithStats.totalPlayDuration ep)
             episodes 0 in
         JsMap.set seriesId (SeriesStats.mk totalPlayCount totalPlayDuration) m)
      episodesBySeriesId JsMap.empty in
  (* Get series items *)
  let series :=
    if 0 <? JsMap.size seriesStatsMap
    then
      let seriesIds := JsMap.keys seriesStatsMap in
      let seriesItems :=
        where_
          (and_
             [ (fun it => inArray (items.id it) seriesIds);
               (fun it => String.eqb (items.type it) "Series");
               (fun it => items.serverId it =? serverId params) ])
          (itemsTable db) in
      flat_map
        (fun seriesItem =>
           match JsMap.get (items.id seriesItem) seriesStatsMap with
           | Some stats =>
               [ItemWithStats.mk seriesItem (SeriesStats.totalPlayCount stats)
                  (SeriesStats.totalPlayDuration stats)]
           | None => []
           end)
        seriesItems
    else [] in
  (* Sort and limit *)
  WrappedTopItems.mk
    (JsArray.slice0 limit (Js.sort byDurationDesc movies))
    (JsArray.slice0 limit (Js.sort byDurationDesc series)).

End TopItems.

(** ** Vocabulary of the statements about the top items *)

Module Top.

Import Sql Exclusions Wrapped OneTable TopItems.

(** The sessions the query of the top items reads: the user's sessions of
    the year on the server that name an item, unless the user is
    excluded. *)
Definition yearSessions (db : Database) (params : WrappedParams)
  : list sessions.row :=
  where_
    (and_
       (push (sessionYearConditions params)
          (onSessions
             (userExclusion (getStatisticsExclusions db (serverId params))))))
    (sessionsTable db).

(** The sessions of the year on the item [it]. *)
Definition playsOn (db : Database) (params : WrappedParams) (it : items.row)
  : list sessions.row :=
  filter (fun s => eqText (sessions.itemId s) (items.id it))
    (yearSessions db params).

(** The item's library is not on the server's excluded-library list. *)
Definition counted (db : Database) (params : WrappedParams) (it : items.row)
  : bool :=
  negb
    (inArray (items.libraryId it)
       (Configured.excludedLibraries db (serverId params))).

(** The episodes of the series [seriesId] that count: the items of type
    Episode with that series id, a non-empty id of their own and a library
    that is not excluded. *)
Definition episodesOf (db : Database) (params : WrappedParams)
  (seriesId : string) : list items.row :=
  filter
    (fun ep =>
       String.eqb (items.type ep) "Episode" &&
       optStringEqb (truthySeriesId ep) (Some seriesId) &&
       Js.truthyString (items.id ep) && counted db params ep)
    (itemsTable db).

(** The entries the loop over [itemsWithStats] files as movies, and as
    episodes of the series [seriesId]. *)
Definition isMovie (e : ItemWithStats.t) : bool :=
  String.eqb (items.type (ItemWithStats.item e)) "Movie".

Definition isEpisodeOf (seriesId : string) (e : ItemWithStats.t) : bool :=
  String.eqb (items.type (ItemWithStats.item e)) "Episode" &&
  optStringEqb (truthySeriesId (ItemWithStats.item e)) (Some seriesId).

End Top.

(** ** Server code that awaits, throws and writes *)

Module Eff.

(** An [Error] has a name and a message; anything else can be thrown
    too. *)
Record JsError : Type := mkError { name : string; message : string }.

Inductive Thrown : Type :=
| Error (e : JsError)
| NotAnError.

Inductive Outcome (A : Type) : Type :=
| Returns (a : A)
| Throws (e : Thrown).
Arguments Returns {A} _.
Arguments Throws {A} _.

(** [error instanceof Error ? error.message : fallback]. *)
Definition messageOr (fallback : string) (e : Thrown) : string :=
  match e with Error err => message err | NotAnError => fallback end.

Section State.

(** The state a computation reads and writes: the rows of a table.  A
    statement that throws leaves the state as it was; nothing is rolled
    back. *)
Variable S : Type.

Definition M (A : Type) : Type := S -> Outcome A * S.

Definition ret {A : Type} (a : A) : M A := fun s => (Returns a, s).

Definition bind {A B : Type} (m : M A) (f : A -> M B) : M B :=
  fun s =>
    match m s with
    | (Returns a, s') => f a s'
    | (Throws e, s') => (Throws e, s')
    end.

Definition await {A : Type} (o : Outcome A) : M A := fun s => (o, s).

Definition tryCatch {A : Type} (body : M A) (handler : Thrown -> M A) : M A :=
  fun s =>
    match body s with
    | (Returns a, s') => (Returns a, s')
    | (Throws e, s') => handler e s'
    end.

(** A database statement: it throws [err] when there is one, and otherwise
    runs [run]. *)
Definition statement {A : Type} (err : option Thrown) (run : S -> A * S)
  : M A :=
  fun s =>
    match err with
    | Some e => (Throws e, s)
    | None => let '(a, s') := run s in (Returns a, s')
    end.

End State.

Arguments ret {S A} _.
Arguments bind {S A B} _ _.
Arguments await {S A} _.
Arguments tryCatch {S A} _ _.
Arguments statement {S A} _ _.

Declare Scope eff_scope.
Delimit Scope eff_scope with eff.

Notation "'let!' x := m 'in' k" := (bind m (fun x => k))
  (at level 10, x name, m at level 100, k at level 200) : eff_scope.
Notation "'do!' m 'in' k" := (bind m (fun _ => k))
  (at level 10, m at level 100, k at level 200) : eff_scope.

End Eff.

(** ** The watch-time inference preference ([lib/db/mark-watched.ts]) *)

Module users.
Record row : Type := mk {
  id : string;
  serverId : Z;
  inferWatchtimeOnMarkWatched : option bool
}.
End users.

Module Preference.

Import Eff.
Local Open Scope eff_scope.

Inductive UsersCall : Type := UsersFindFirst | UsersUpdate.

(** The collaborators of the three functions: the session of the caller and
    what the statements on [users] answer. *)
Record World : Type := mkWorld {
  getSession : Outcome (option MarkWatched.AuthSession);
  dbError : UsersCall -> option Thrown
}.

(** [and(eq(users.id, userId), eq(users.serverId, serverIdNum))]. *)
Definition isUser (userId : string) (serverIdNum : Z) (u : users.row) : bool :=
  String.eqb (users.id u) userId && (users.serverId u =? serverIdNum).

(** [getUserInferWatchtimePreference]; [serverIdNum] is [Number(serverId)],
    and [None] is null: not yet set, or no such user. *)
Definition getUserInferWatchtimePreference (w : World) (userId : string)
  (serverIdNum : Z) : M (list users.row) (option bool) :=
  let! user :=
    statement (dbError w UsersFindFirst)
      (fun us => (find (isUser userId serverIdNum) us, us)) in
  ret (match user with
       | Some u => users.inferWatchtimeOnMarkWatched u
       | None => None
       end).

(** [db.update(users).set({ inferWatchtimeOnMarkWatched: value }).where(...)]. *)
Definition updatePreference (userId : string) (serverIdNum : Z)
  (value : option bool) (us : list users.row) : unit * list users.row :=
  (tt,
   map
     (fun u =>
        if isUser userId serverIdNum u
        then users.mk (users.id u) (users.serverId u) value
        else u)
     us).

(** The result [{ success }]. *)
Record Result : Type := mkResult { success : bool }.

(** [setUserInferWatchtimePreference]. *)
Definition setUserInferWatchtimePreference (w : World) (userId : string)
  (serverIdNum : Z) (preference : bool) : M (list users.row) Result :=
  let! session := await (getSession w) in
  match session with
  | None => ret (mkResult false)
  | Some session =>
      if negb (String.eqb (MarkWatched.id session) userId)
      then ret (mkResult false)
      else
        do! statement (dbError w UsersUpdate)
              (updatePreference userId serverIdNum (Some preference)) in
        ret (mkResult true)
  end.

(** [resetUserInferWatchtimePreference]. *)
Definition resetUserInferWatchtimePreference (w : World) (userId : string)
  (serverIdNum : Z) : M (list users.row) Result :=
  let! session := await (getSession w) in
  match session with
  | None => ret (mkResult false)
  | Some session =>
      if negb (String.eqb (MarkWatched.id session) userId)
      then ret (mkResult false)
      else
        do! statement (dbError w UsersUpdate)
              (updatePreference userId serverIdNum None) in
        ret (mkResult true)
  end.

End Preference.

(** ** More of JavaScript: strings *)

Module JsString.

(** [s.startsWith(p)]. *)
Definition startsWith (p s : string) : bool := String.prefix p s.

(** [s.endsWith("/")]. *)
Fixpoint endsWithSlash (s : string) : bool :=
  match s with
  | EmptyString => false
  | String c EmptyString => Ascii.eqb c "/"
  | String _ rest => endsWithSlash rest
  end.

(** [s.slice(0, -1)]: [s] without its last character. *)
Fixpoint dropLast (s : string) : string :=
  match s with
  | EmptyString => EmptyString
  | String _ EmptyString => EmptyString
  | String c rest => String c (dropLast rest)
  end.

(** [s.includes(p)]. *)
Fixpoint includes (p s : string) : bool :=
  String.prefix p s ||
  match s with
  | EmptyString => false
  | String _ rest => includes p rest
  end.

End JsString.

(** ** The settings actions of a server *)

(** The table [servers], with the further columns the settings actions read
    or write. *)
Module serverSettings.

Record row : Type := mk {
  core : servers.row;
  name : string;
  apiKey : string;
  version : option string;
  timezone : string;
  disabledHolidays : list string;
  updatedAt : Calendar.Timestamp
}.

Definition id (r : row) : Z := servers.id (core r).


End serverSettings.

Module Zod.

(** [z.number().int().positive()] on an integer: positive and a safe
    integer. *)
Definition positiveInt (n : Z) : bool := (0 <? n) && (n <=? 9007199254740991).

(** [z.string().max(n)] and [z.string().min(1).max(n)]: the length counts
    the code units of the string. *)
Definition stringMax (n : nat) (s : string) : bool :=
  (String.length s <=? n)%nat.

Definition stringMinMax (lo hi : nat) (s : string) : bool :=
  (lo <=? String.length s)%nat && (String.length s <=? hi)%nat.

(** [z.array(z.string().max(len)).max(n)]. *)
Definition stringsMax (len n : nat) (l : list string) : bool :=
  forallb (stringMax len) l && (List.length l <=? n)%nat.

End Zod.

Module Settings.

Import Eff.
Local Open Scope eff_scope.

Definition Table : Type := list serverSettings.row.

Record ActionResult : Type := mkActionResult {
  success : bool;
  message : string
}.

Definition failure (msg : string) : ActionResult := mkActionResult false msg.

Inductive ServersCall : Type := ServersSelect | ServersUpdate.

(** A GET request with the headers [X-Emby-Token] and [Content-Type]. *)
Record Request : Type := mkRequest { requestUrl : string; embyToken : string }.

(** The body of [/System/Info], as far as it is read: a missing or null
    property is [None]. *)
Record ServerInfo : Type := mkServerInfo {
  ServerName : option string;
  Version : option string
}.

Record Response : Type := mkResponse {
  ok : bool;
  status : Z;
  json : Outcome ServerInfo
}.

(** The collaborators of the actions. *)
Record World : Type := mkWorld {
  isUserAdmin : Outcome bool;
  (* whether [Intl.DateTimeFormat] accepts the time zone (else it throws) *)
  validTimeZone : string -> bool;
  fetch : Request -> Outcome Response;
  now : Calendar.Timestamp;
  revalidatePath : string -> Outcome unit;
  dbError : ServersCall -> option Thrown
}.

(** [db.update(servers).set(...).where(eq(servers.id, serverId))]. *)
Definition update (serverId : Z) (set : serverSettings.row -> serverSettings.row)
  (table : Table) : unit * Table :=
  (tt,
   map (fun r => if serverSettings.id r =? serverId then set r else r) table).

Definition setExcludedUserIds (ids : list string) (r : serverSettings.row)
  : serverSettings.row :=
  let c := serverSettings.core r in
  serverSettings.mk
    (servers.mk (servers.id c) (servers.url c) (servers.internalUrl c) ids
       (servers.excludedLibraryIds c))
    (serverSettings.name r) (serverSettings.apiKey r)
    (serverSettings.version r) (serverSettings.timezone r)
    (serverSettings.disabledHolidays r) (serverSettings.updatedAt r).

Definition setExcludedLibraryIds (ids : list string) (r : serverSettings.row)
  : serverSettings.row :=
  let c := serverSettings.core r in
  serverSettings.mk
    (servers.mk (servers.id c) (servers.url c) (servers.internalUrl c)
       (servers.excludedUserIds c) ids)
    (serverSettings.name r) (serverSettings.apiKey r)
    (serverSettings.version r) (serverSettings.timezone r)
    (serverSettings.disabledHolidays r) (serverSettings.updatedAt r).

Definition setDisabledHolidays (holidays : list string)
  (r : serverSettings.row) : serverSettings.row :=
  serverSettings.mk (serverSettings.core r) (serverSettings.name r)
    (serverSettings.apiKey r) (serverSettings.version r)
    (serverSettings.timezone r) holidays (serverSettings.updatedAt r).

Definition setTimezone (timezone : string) (updatedAt : Calendar.Timestamp)
  (r : serverSettings.row) : serverSettings.row :=
  serverSettings.mk (serverSettings.core r) (serverSettings.name r)
    (serverSettings.apiKey r) (serverSettings.version r) timezone
    (serverSettings.disabledHolidays r) updatedAt.

(** [revalidatePath] on each path in turn. *)
Fixpoint revalidateAll (w : World) (paths : list string) : M Table unit :=
  match paths with
  | [] => ret tt
  | p :: rest => do! await (revalidatePath w p) in revalidateAll w rest
  end.

Definition serverPath (serverId : Z) (rest : string) : string :=
  ("/servers/" ++ Js.stringOfZ serverId ++ rest)%string.

(** The schema of the two exclusion actions. *)
Definition exclusionSchema (serverId : Z) (ids : list string) : bool :=
  Zod.positiveInt serverId && Zod.stringsMax 200 1000 ids.

Definition exclusionPaths (serverId : Z) : list string :=
  [ serverPath serverId "/dashboard";
    serverPath serverId "/settings/exclusions";
    serverPath serverId "/library";
    serverPath serverId "/users";
    serverPath serverId "/history" ].

(** [updateExcludedUsersAction]. *)
Definition updateExcludedUsersAction (w : World) (serverId : Z)
  (excludedUserIds : list string) : M Table ActionResult :=
  tryCatch
    (let! isAdmin := await (isUserAdmin w) in
     if negb isAdmin
     then ret (failure "Admin privileges required")
     else
       if negb (exclusionSchema serverId excludedUserIds)
       then ret (failure "Invalid input")
       else
         do! statement (dbError w ServersUpdate)
               (update serverId (setExcludedUserIds excludedUserIds)) in
         do! revalidateAll w (exclusionPaths serverId) in
         ret (mkActionResult true "Excluded users updated"))
    (fun error => ret (failure (messageOr "Failed to update settings" error))).

(** [updateExcludedLibrariesAction]. *)
Definition updateExcludedLibrariesAction (w : World) (serverId : Z)
  (excludedLibraryIds : list string) : M Table ActionResult :=
  tryCatch
    (let! isAdmin := await (isUserAdmin w) in
     if negb isAdmin
     then ret (failure "Admin privileges required")
     else
       if negb (exclusionSchema serverId excludedLibraryIds)
       then ret (failure "Invalid input")
       else
         do! statement (dbError w ServersUpdate)
               (update serverId (setExcludedLibraryIds excludedLibraryIds)) in
         do! revalidateAll w (exclusionPaths serverId) in
         ret (mkActionResult true "Excluded libraries updated"))
    (fun error => ret (failure (messageOr "Failed to update settings" error))).

(** [disabledHolidaysSchema] and [updateDisabledHolidaysAction]. *)
Definition disabledHolidaysSchema (serverId : Z) (disabledHolidays : list string)
  : bool :=
  Zod.positiveInt serverId && Zod.stringsMax 200 500 disabledHolidays.

Definition updateDisabledHolidaysAction (w : World) (serverId : Z)
  (disabledHolidays : list string) : M Table ActionResult :=
  tryCatch
    (let! isAdmin := await (isUserAdmin w) in
     if negb isAdmin
     then ret (failure "Admin privileges required")
     else
       if negb (disabledHolidaysSchema serverId disabledHolidays)
       then ret (failure "Invalid input")
       else
         do! statement (dbError w ServersUpdate)
               (update serverId (setDisabledHolidays disabledHolidays)) in
         do! revalidateAll w
               [ serverPath serverId "/dashboard";
                 serverPath serverId "/settings/seasonal-recommendations" ] in
         ret (mkActionResult true "Holiday settings updated"))
    (fun error => ret (failure (messageOr "Failed to update settings" error))).

(** [updateTimezoneSchema] and [updateServerTimezoneAction]. *)
Definition updateTimezoneSchema (serverId : Z) (timezone : string) : bool :=
  Zod.positiveInt serverId && Zod.stringMinMax 1 100 timezone.

Definition updateServerTimezoneAction (w : World) (serverId : Z)
  (timezone : string) : M Table ActionResult :=
  tryCatch
    (let! isAdmin := await (isUserAdmin w) in
     if negb isAdmin
     then ret (failure "Admin privileges required")
     else
       if negb (updateTimezoneSchema serverId timezone)
       then ret (failure "Invalid input")
       else
         if negb (validTimeZone w timezone)
         then ret (failure "Invalid timezone identifier")
         else
           do! statement (dbError w ServersUpdate)
                 (update serverId (setTimezone timezone (now w))) in
           do! revalidateAll w [serverPath serverId ""] in
           ret (mkActionResult true "Timezone updated successfully"))
    (fun error => ret (failure (messageOr "Failed to update timezone" error))).

(** *** updateConnectionSettingsAction *)

Definition hasScheme (url : string) : bool :=
  JsString.startsWith "http://" url || JsString.startsWith "https://" url.

(** Normalize a URL by removing a trailing slash. *)
Definition normalize (url : string) : string :=
  if JsString.endsWithSlash url then JsString.dropLast url else url.

(** [internalUrl ? normalize(internalUrl) : null]. *)
Definition normalizeInternal (internalUrl : Js.Optional string)
  : option string :=
  match internalUrl with
  | Js.defined s => if Js.truthyString s then Some (normalize s) else None
  | _ => None
  end.

(** A [string | null] as the column stores it. *)
Definition nullable (s : option string) : Js.Optional string :=
  match s with Some x => Js.defined x | None => Js.null end.

(** [value || current] for a string that may be missing. *)
Definition pick (value : option string) (current : string) : string :=
  match value with
  | Some v => if Js.truthyString v then v else current
  | None => current
  end.

Definition systemInfo (url apiKey : string) : Request :=
  mkRequest (url ++ "/System/Info")%string apiKey.

Definition testFailureMessage (status : Z) : string :=
  if status =? 401
  then "Invalid API key. Please check your Jellyfin API key."
  else if status =? 404
       then "Server not found. Please check the URL."
       else if status =? 403
            then "Access denied. Please check your API key permissions."
            else "Failed to connect to server.".

(** [updateData], applied to the row: [version], [name] and [apiKey] are
    set when the new value is truthy. *)
Definition setConnection (url : string) (internalUrl : option string)
  (serverInfo : ServerInfo) (apiKey : option string)
  (updatedAt : Calendar.Timestamp) (r : serverSettings.row)
  : serverSettings.row :=
  let c := serverSettings.core r in
  serverSettings.mk
    (servers.mk (servers.id c) url (nullable internalUrl)
       (servers.excludedUserIds c) (servers.excludedLibraryIds c))
    (pick (ServerName serverInfo) (serverSettings.name r))
    (pick apiKey (serverSettings.apiKey r))
    (match Version serverInfo with
     | Some v => if Js.truthyString v then Some v else serverSettings.version r
     | None => serverSettings.version r
     end)
    (serverSettings.timezone r) (serverSettings.disabledHolidays r) updatedAt.

(** The [catch (fetchError)] of the connection test. *)
Definition isTimeout (fetchError : Thrown) : bool :=
  match fetchError with
  | Error e =>
      String.eqb (Eff.name e) "AbortError" ||
      JsString.includes "timeout" (Eff.message e)
  | NotAnError => false
  end.

(** [updateConnectionSettingsAction]; a missing [internalUrl] is undefined
    or null, a missing [apiKey] is [None]. *)
Definition updateConnectionSettingsAction (w : World) (serverId : Z)
  (url : string) (internalUrl : Js.Optional string) (apiKey : option string)
  : M Table ActionResult :=
  tryCatch
    (let! isAdmin := await (isUserAdmin w) in
     if negb isAdmin
     then ret (failure "Admin privileges required")
     else
       (* Fetch existing server to get current API key if none provided *)
       let! existingServer :=
         statement (dbError w ServersSelect)
           (fun table =>
              (Sql.limit 1
                 (map serverSettings.apiKey
                    (filter (fun r => serverSettings.id r =? serverId) table)),
               table)) in
       match existingServer with
       | [] => ret (failure "Server not found")
       | existing :: _ =>
           (* Use provided API key or fall back to existing one *)
           let effectiveApiKey := pick apiKey existing in
           if negb (Js.truthyString effectiveApiKey)
           then ret (failure "No API key available. Please provide an API key.")
           else
             (* Validate URL format *)
             if negb (hasScheme url)
             then ret (failure "URL must start with http:// or https://")
             else
               (* Normalize URLs by removing trailing slashes *)
               let normalizedUrl := normalize url in
               let normalizedInternalUrl := normalizeInternal internalUrl in
               (* Validate internal URL format if provided *)
               if match normalizedInternalUrl with
                  | Some internal =>
                      Js.truthyString internal && negb (hasScheme internal)
                  | None => false
                  end
               then ret (failure
                           "Internal URL must start with http:// or https://")
               else
                 (* Test connection to new URL with the API key *)
                 tryCatch
                   (let! testResponse :=
                      await (fetch w (systemInfo normalizedUrl effectiveApiKey)) in
                    if negb (ok testResponse)
                    then ret (failure (testFailureMessage (status testResponse)))
                    else
                      let! serverInfo := await (json testResponse) in
                      (* Validate internal URL connectivity if provided *)
                      let! unreachable :=
                        match normalizedInternalUrl with
                        | Some internal =>
                            if Js.truthyString internal
                            then
                              tryCatch
                                (let! internalResponse :=
                                   await (fetch w
                                            (systemInfo internal
                                               effectiveApiKey)) in
                                 if negb (ok internalResponse)
                                 then
                                   ret (Some
                                          (failure
                                             "Internal URL is unreachable. Please check the URL and try again."))
                                 else ret None)
                                (fun _ =>
                                   ret (Some
                                          (failure
                                             "Failed to connect to internal URL. Please check the URL and try again.")))
                            else ret None
                        | None => ret None
                        end in
                      match unreachable with
                      | Some result => ret result
                      | None =>
                          do! statement (dbError w ServersUpdate)
                                (update serverId
                                   (setConnection normalizedUrl
                                      normalizedInternalUrl serverInfo apiKey
                                      (now w))) in
                          (* Revalidate relevant paths *)
                          do! await
                                (revalidatePath w
                                   (serverPath serverId "/settings")) in
                          ret (mkActionResult true
                                 "Connection settings updated successfully")
                      end)
                   (fun fetchError =>
                      if isTimeout fetchError
                      then
                        ret (failure
                               "Connection timeout. Please check the URL and try again.")
                      else
                        ret (failure
                               "Failed to connect to server. Please check the URL."))
       end)
    (fun error =>
       ret (failure (messageOr "Failed to update connection settings" error))).

End Settings.

(** ** Vocabulary of the statements about the settings actions *)

Module SettingsSpec.

Import Eff Settings.

(** The first of the paths on which [revalidatePath] throws, with what it
    throws. *)
Fixpoint firstThrown (w : World) (paths : list string) : option Thrown :=
  match paths with
  | [] => None
  | p :: rest =>
      match revalidatePath w p with
      | Throws e => Some e
      | Returns _ => firstThrown w rest
      end
  end.

(** The table after the statement [update ... where id = serverId]. *)
Definition updated (serverId : Z)
  (set : serverSettings.row -> serverSettings.row) (table : Table) : Table :=
  snd (update serverId set table).


End SettingsSpec.

(** ** The radar chart of the most watched genres ([GenreStatsGraph]) *)

Module GenreStatsGraph.

(** [GenreStat], as far as the chart reads it. *)
Record GenreStat : Type := mkGenreStat { genre : string; watchTime : Z }.

(** An entry of [chartData]: the statistic with its normalized watch
    time. *)
Record ChartDatum : Type := mkChartDatum {
  item : GenreStat;
  normalizedWatchTime : float
}.

Definition MIN_LIMIT : Z := 3.

Definition effectiveLimit (limit : Z) (data : list GenreStat) : Z :=
  Z.min limit (Z.of_nat (List.length data)).

Definition maxLimit (data : list GenreStat) : Z :=
  Z.max (Z.of_nat (List.length data)) MIN_LIMIT.

(** One iteration of the loop that alternates between the two ends, on
    [balanced]; [i] is below the length of [topGenres]. *)
Definition balanceStep (topGenres balanced : list GenreStat) (i : nat)
  : list GenreStat :=
  match nth_error topGenres i with
  | Some g =>
      if Nat.eqb (i mod 2) 1
      then balanced ++ [g]         (* Add to the right (or end of array) *)
      else g :: balanced           (* Add to the left (or beginning of array) *)
  | None => balanced
  end.

(** The array [balanced]. *)
Definition balance (topGenres : list GenreStat) : list GenreStat :=
  fold_left (balanceStep topGenres) (seq 1 (List.length topGenres - 1))
    (match topGenres with
     | [] => []
     | largest :: _ => [largest]
     end).

Section Power.

(** The operator [**] on numbers. *)
Variable pow : float -> float -> float.

(** [chartData], for the values [limit] and [power] of the two sliders. *)
Definition chartData (limit : Z) (power : float) (data : list GenreStat)
  : list ChartDatum :=
  let sorted := Js.sort (fun a b => watchTime b <=? watchTime a) data in
  let topGenres := JsArray.slice0 (effectiveLimit limit data) sorted in
  map
    (fun item =>
       mkChartDatum item (pow (Js.Number_of_Z (watchTime item)) power))
    (balance topGenres).

End Power.

End GenreStatsGraph.

(** ** The avatar of a user ([JellyfinAvatar]) *)

Module JellyfinAvatar.

(** [s.split(" ")]: the pieces between the spaces, at least one. *)
Fixpoint splitOnSpace (s : string) : list string :=
  match s with
  | EmptyString => [EmptyString]
  | String c rest =>
      if Ascii.eqb c " "
      then EmptyString :: splitOnSpace rest
      else
        match splitOnSpace rest with
        | piece :: pieces => String c piece :: pieces
        | [] => [String c EmptyString]
        end
  end.

(** [n[0]], which [join] renders as the empty string when it is
    undefined. *)
Definition firstCharacter (n : string) : string :=
  match n with
  | EmptyString => EmptyString
  | String c _ => String c EmptyString
  end.

(** A string of ASCII characters: every code unit is below 128. *)
Definition isAscii (s : string) : Prop :=
  forall c, In c (list_ascii_of_string s) -> (nat_of_ascii c < 128)%nat.

(** [s.toUpperCase()] on a string of ASCII characters, where only the
    letters a to z change.  (Outside ASCII the method follows the Unicode
    case mapping, which is not embedded: a statement about [initials]
    carries [isAscii] on the name.) *)
Definition upperCharacter (c : ascii) : ascii :=
  let n := nat_of_ascii c in
  if ((97 <=? n) && (n <=? 122))%nat then ascii_of_nat (n - 32) else c.

Fixpoint toUpperCase (s : string) : string :=
  match s with
  | EmptyString => EmptyString
  | String c rest => String (upperCharacter c) (toUpperCase rest)
  end.

(** [s.slice(0, 2)]. *)
Definition firstTwo (s : string) : string :=
  match s with
  | String a (String b _) => String a (String b EmptyString)
  | _ => s
  end.

(** [initials], from [user?.name]; [None] is a null or undefined name. *)
Definition initials (name : option string) : string :=
  match name with
  | None => "?"
  | Some name =>
      if negb (Js.truthyString name)
      then "?"
      else
        firstTwo
          (toUpperCase
             (String.concat "" (map firstCharacter (splitOnSpace name))))
  end.

End JellyfinAvatar.

(** ** More sample data *)

(** A shelf of two movies and a series of two episodes, and the plays of
    Alice in 2024: the first movie twice, the second once, each episode
    once. *)
Module SampleShelf.

Import Examples.

Definition series (id : string) : items.row :=
  items.mk id 1 "lib1" ("Series " ++ id) "Series" None None None None None
    None None.

Definition episode (id seriesId : string) : items.row :=
  items.mk id 1 "lib1" ("Episode " ++ id) "Episode" None (Some seriesId)
    (Some ("Series " ++ seriesId)%string) None None None twoHours.

Definition db : Database :=
  mkDatabase [server [] []]
    [ movie "m1" "lib1" ["Drama"%string] twoHours;
      movie "m2" "lib1" ["Comedy"%string] twoHours;
      series "show";
      episode "e1" "show";
      episode "e2" "show" ]
    [ play "s1" "u1" "m1" (at_ 2024 1 1 20) 100;
      play "s2" "u1" "m1" (at_ 2024 1 2 20) 50;
      play "s3" "u1" "m2" (at_ 2024 1 3 20) 400;
      play "s4" "u1" "e1" (at_ 2024 1 4 20) 30;
      play "s5" "u1" "e2" (at_ 2024 1 5 20) 40 ].

Definition params : Wrapped.WrappedParams := Wrapped.mkParams 1 "u1" 2024.

End SampleShelf.

(** The users of the sample server, and a world in which the caller is
    Alice and the database works. *)
Module SamplePreferences.

Definition world : Preference.World :=
  Preference.mkWorld (Eff.Returns (Some Examples.alice)) (fun _ => None).

Definition table : list users.row :=
  [ users.mk "u1" 1 None; users.mk "u2" 1 (Some true) ].

End SamplePreferences.

(** The settings of the sample server, and a world in which the media
    server answers, the paths revalidate and the database works; [admin]
    tells whether the caller is an administrator. *)
Module SampleSettings.

Definition row : serverSettings.row :=
  serverSettings.mk (Examples.server [] []) "Home" "key" (Some "10.9.0"%string)
    "Etc/UTC" [] (Examples.at_ 2024 1 1 0).

Definition table : Settings.Table := [row].

Definition info : Settings.ServerInfo :=
  Settings.mkServerInfo (Some "Home"%string) (Some "10.9.0"%string).

Definition world (admin : bool) : Settings.World :=
  Settings.mkWorld (Eff.Returns admin) (fun _ => true)
    (fun _ => Eff.Returns (Settings.mkResponse true 200 (Eff.Returns info)))
    (Examples.at_ 2024 3 1 12) (fun _ => Eff.Returns tt) (fun _ => None).

End SampleSettings.

(** The watch times of four genres. *)
Module SampleChart.

Import GenreStatsGraph.

Definition data : list GenreStat :=
  [ mkGenreStat "Drama" 500; mkGenreStat "Comedy" 300;
    mkGenreStat "Horror" 700; mkGenreStat "Western" 100 ].

End SampleChart.

(** ** The people of a year ([getWrappedPeopleStats]) *)

(** The tables [people] and [item_people], with the columns the query
    reads. *)
Module people.
Record row : Type := mk {
  id : string;
  serverId : Z;
  name : string;
  primaryImageTag : option string
}.
End people.

Module itemPeople.
Record row : Type := mk {
  itemId : string;
  personId : string;
  serverId : Z;
  type : string
}.
End itemPeople.

Record Credits : Type := mkCredits {
  itemPeopleTable : list itemPeople.row;
  peopleTable : list people.row
}.

Module People.

Import Sql Exclusions Wrapped.

Module PersonStats.
Record t : Type := mk {
  id : string;
  name : string;
  primaryImageTag : option string;
  type : string;
  totalWatchTime : Z;
  totalPlayCount : Z;
  itemCount : Z
}.
End PersonStats.

Module WrappedPeopleStats.
Record t : Type := mk {
  topActors : list PersonStats.t;
  topDirectors : list PersonStats.t
}.
End WrappedPeopleStats.

(** A row of [sessions] joined with [items], [item_people] and [people]. *)
Definition Cast : Type := (Row * itemPeople.row * people.row)%type.

Definition played (c : Cast) : Row := fst (fst c).
Definition credit (c : Cast) : itemPeople.row := snd (fst c).
Definition person (c : Cast) : people.row := snd c.

(** [.innerJoin(itemPeople, eq(column, itemPeople.itemId))
     .innerJoin(people, and(eq(itemPeople.personId, people.id),
                            eq(itemPeople.serverId, people.serverId)))]
    after the join of sessions and items; [column] is [items.id] or
    [items.seriesId]. *)
Definition joinPeople (credits : Credits) (column : items.row -> option string)
  (rows : list Row) : list Cast :=
  flat_map
    (fun r =>
       flat_map
         (fun ip =>
            map (fun p => (r, ip, p))
              (filter
                 (fun p =>
                    String.eqb (itemPeople.personId ip) (people.id p) &&
                    (itemPeople.serverId ip =? people.serverId p))
                 (peopleTable credits)))
         (filter (fun ip => eqText (column (snd r)) (itemPeople.itemId ip))
            (itemPeopleTable credits)))
    rows.

(** A condition on the sessions and items, in the wider join. *)
Definition onPlayed (c : SQL Row) : SQL Cast := fun r => c (played r).

Definition movieConditions (params : WrappedParams) (personType : string)
  : list (SQL Cast) :=
  map onPlayed (userYearConditions params) ++
  [ (fun c => String.eqb (items.type (snd (played c))) "Movie");
    (fun c => String.eqb (itemPeople.type (credit c)) personType) ].

Definition seriesConditions (params : WrappedParams) (personType : string)
  : list (SQL Cast) :=
  map onPlayed (userYearConditions params) ++
  [ (fun c => String.eqb (items.type (snd (played c))) "Episode");
    (fun c => isNotNull (items.seriesId (snd (played c))));
    (fun c => String.eqb (itemPeople.type (credit c)) personType) ].

(** The columns of [.groupBy(people.id, people.name, people.primaryImageTag,
    people.serverId)]. *)
Definition PersonKey : Type := (string * string * option string * Z)%type.

Definition personKey (c : Cast) : PersonKey :=
  (people.id (person c), people.name (person c),
   people.primaryImageTag (person c), people.serverId (person c)).

Definition personKeyEqb (a b : PersonKey) : bool :=
  let '(aid, aname, atag, aserver) := a in
  let '(bid, bname, btag, bserver) := b in
  String.eqb aid bid && String.eqb aname bname && optStringEqb atag btag &&
  (aserver =? bserver).

(** A row of the grouped select. *)
Record PersonRow : Type := mkPersonRow {
  personId : string;
  personName : string;
  primaryImageTag : option string;
  totalWatchTime : Z;
  totalPlayCount : Z;
  itemCount : Z
}.

Definition castDuration (c : Cast) : Z := duration (played c).

(** The select over the groups, [column] being the one of
    [countDistinct]. *)
Definition selectPerson (column : items.row -> option string)
  (g : PersonKey * list Cast) : PersonRow :=
  let '(id, name, tag, _) := fst g in
  mkPersonRow id name tag (sum castDuration (snd g)) (count (snd g))
    (countDistinct optStringEqb (fun c => column (snd (played c))) (snd g)).

Definition byWatchTimeDesc (a b : PersonRow) : bool :=
  totalWatchTime b <=? totalWatchTime a.

(** One of the two queries, without its [.limit]: [conditions] are those of
    the WHERE clause with the exclusions pushed. *)
Definition personQuery (db : Database) (credits : Credits)
  (column : items.row -> option string) (conditions : list (SQL Cast))
  : list PersonRow :=
  orderBy byWatchTimeDesc
    (map (selectPerson column)
       (groupBy personKeyEqb personKey
          (where_ (and_ conditions)
             (joinPeople credits column (sessionsJoinItems db))))).

Definition toPersonStats (personType : string) (stat : PersonRow)
  : PersonStats.t :=
  PersonStats.mk (personId stat) (personName stat) (primaryImageTag stat)
    personType (totalWatchTime stat) (totalPlayCount stat) (itemCount stat).

(** [existing.totalWatchTime += ...] and the two lines after it. *)
Definition addStat (existing : PersonStats.t) (stat : PersonRow)
  : PersonStats.t :=
  PersonStats.mk (PersonStats.id existing) (PersonStats.name existing)
    (PersonStats.primaryImageTag existing) (PersonStats.type existing)
    (PersonStats.totalWatchTime existing + totalWatchTime stat)
    (PersonStats.totalPlayCount existing + totalPlayCount stat)
    (PersonStats.itemCount existing + itemCount stat).

(** One iteration of the loop "Merge series stats with movie stats": the
    first entry of [results] with the person's id takes the three numbers
    on top of its own; without one the person is pushed. *)
Fixpoint mergeStat (personType : string) (results : list PersonStats.t)
  (stat : PersonRow) : list PersonStats.t :=
  match results with
  | [] => [toPersonStats personType stat]
  | r :: rest =>
      if String.eqb (PersonStats.id r) (personId stat)
      then addStat r stat :: rest
      else r :: mergeStat personType rest stat
  end.

(** [(a, b) => b.totalWatchTime - a.totalWatchTime]. *)
Definition byTotalDesc (a b : PersonStats.t) : bool :=
  PersonStats.totalWatchTime b <=? PersonStats.totalWatchTime a.

Definition itemsId (it : items.row) : option string := Some (items.id it).

(** [.limit(limit)] of the query builder: it writes the LIMIT clause for a
    limit that is not negative and leaves it out for a negative one, and
    the query then returns all its rows. *)
Definition limited {A : Type} (limit : Z) (rows : list A) : list A :=
  if limit <? 0 then rows else Sql.limit (Z.to_nat limit) rows.

(** [getTopPeopleByType]. *)
Definition getTopPeopleByType (db : Database) (credits : Credits)
  (params : WrappedParams) (limit : Z) (personType : string)
  : list PersonStats.t :=
  let excl := getStatisticsExclusions db (serverId params) in
  (* Movie stats *)
  let movieConditions :=
    push
      (push (movieConditions params personType)
         (option_map onPlayed (userExclusion excl)))
      (option_map onPlayed (itemLibraryExclusion excl)) in
  let movieStats :=
    limited limit (personQuery db credits itemsId movieConditions) in
  let results := map (toPersonStats personType) movieStats in
  (* Series stats (join on seriesId for cast) *)
  let seriesConditions :=
    push
      (push (seriesConditions params personType)
         (option_map onPlayed (userExclusion excl)))
      (option_map onPlayed (itemLibraryExclusion excl)) in
  let seriesStats :=
    limited limit (personQuery db credits items.seriesId seriesConditions) in
  (* Merge series stats with movie stats *)
  let results := fold_left (mergeStat personType) seriesStats results in
  (* Sort and limit *)
  JsArray.slice0 limit (Js.sort byTotalDesc results).

(** [getWrappedPeopleStats], as the value the call returns; the default of
    [limit] is 10. *)
Definition getWrappedPeopleStats (db : Database) (credits : Credits)
  (params : WrappedParams) (limit : Z) : WrappedPeopleStats.t :=
  WrappedPeopleStats.mk
    (getTopPeopleByType db credits params limit "Actor")
    (getTopPeopleByType db credits params limit "Director").

End People.

(** ** Vocabulary of the statements about the people of a year *)

Module Casting.

Import Sql Exclusions Wrapped Yearly Shares People.

(** The qualifying sessions on movies, one row per credit of the type
    [personType] on the movie whose person is in the table [people] (of the
    credit's server). *)
Definition movieCast (db : Database) (credits : Credits)
  (params : WrappedParams) (personType : string) : list Cast :=
  filter (fun c => String.eqb (itemPeople.type (credit c)) personType)
    (joinPeople credits itemsId (ofType "Movie" db params)).

(** The qualifying sessions on episodes, one row per credit of the type on
    the series of the episode. *)
Definition seriesCast (db : Database) (credits : Credits)
  (params : WrappedParams) (personType : string) : list Cast :=
  filter (fun c => String.eqb (itemPeople.type (credit c)) personType)
    (joinPeople credits items.seriesId (ofType "Episode" db params)).

(** The rows of the person with the id [personId]. *)
Definition creditedTo (personId : string) (rows : list Cast) : list Cast :=
  filter (fun c => String.eqb (people.id (person c)) personId) rows.

(** The movies, and the series, of a list of rows. *)
Definition movieOf (c : Cast) : option string := itemsId (snd (played c)).

Definition seriesOf (c : Cast) : option string :=
  items.seriesId (snd (played c)).

End Casting.

(** The credits of the sample shelf: Ada acted in the first movie and in
    the series, Bob directed the first movie. *)
Module SampleCredits.

Definition credits : Credits :=
  mkCredits
    [ itemPeople.mk "m1" "p1" 1 "Actor";
      itemPeople.mk "m1" "p2" 1 "Director";
      itemPeople.mk "show" "p1" 1 "Actor" ]
    [ people.mk "p1" 1 "Ada" None; people.mk "p2" 1 "Bob" None ].

End SampleCredits.

(* ===================================================================== *)
(** * Part II: properties *)
(* ===================================================================== *)

(** ** Server URLs *)

(** C10: [getInternalUrl] returns the internal URL whenever it is a
    non-empty string and the external URL otherwise (undefined, null or
    empty), and the copy of the web application and the copy of the job
    server are the same function. *)
Theorem getInternalUrl_fallback_and_copies_agree :
  (forall (u : string) (c : ascii) (s : string),
      NextjsApp.getInternalUrl (mkServerUrls u (Js.defined (String c s)))
      = String c s) /\
  (forall u : string,
      NextjsApp.getInternalUrl (mkServerUrls u Js.undefined) = u /\
      NextjsApp.getInternalUrl (mkServerUrls u Js.null) = u /\
      NextjsApp.getInternalUrl (mkServerUrls u (Js.defined EmptyString)) = u) /\
  (forall server : ServerUrls,
      NextjsApp.getInternalUrl server = JobServer.getInternalUrl server).
Proof.
  split; [ | split ].
  - intros u c s. reflexivity.
  - intro u. repeat split.
  - intro server. destruct server as [u [ | | s ]]; reflexivity.
Qed.

(** ** Marking an item as watched *)

Section MarkWatchedProperties.

Import MarkWatched.

Variable w : World.

(** The session rows the WHERE clause of the delete selects, in the claim's
    words. *)
Lemma inferredSessionOf_spec (n : Z) (u i : string) (s : sessions.row) :
  inferredSessionOf n u i s = true <->
  sessions.serverId s = n /\ sessions.userId s = Some u /\
  sessions.itemId s = Some i /\ sessions.isInferred s = true.
Proof.
  unfold inferredSessionOf, Sql.eqText.
  rewrite !andb_true_iff, Z.eqb_eq.
  destruct (sessions.userId s) as [x | ], (sessions.itemId s) as [y | ],
    (sessions.isInferred s); simpl; rewrite ?String.eqb_eq;
    intuition (try congruence).
Qed.

(** C8: [deleteInferredSessionForItem] removes exactly the rows of the
    given server, user and item that are inferred, returns how many they
    were, and leaves every other row (and the other tables) as it was; when
    the statement fails nothing is deleted. *)
Theorem deleteInferredSessionForItem_deletes_exactly_inferred
  (n : Z) (u i : string) (db : Database) :
  match dbError w SessionsDelete with
  | Some e => deleteInferredSessionForItem w n u i db = (Throws e, db)
  | None =>
      exists (deleted : Z) (db' : Database),
        deleteInferredSessionForItem w n u i db = (Returns deleted, db') /\
        deleted =
          Z.of_nat
            (List.length (filter (inferredSessionOf n u i) (sessionsTable db))) /\
        deleted =
          Z.of_nat (List.length (sessionsTable db)) -
          Z.of_nat (List.length (sessionsTable db')) /\
        (* no selected row is left *)
        filter (inferredSessionOf n u i) (sessionsTable db') = [] /\
        (* the other rows are the same, in the same order *)
        filter (fun s => negb (inferredSessionOf n u i s)) (sessionsTable db')
        = filter (fun s => negb (inferredSessionOf n u i s)) (sessionsTable db) /\
        (forall s,
            In s (sessionsTable db') <->
            In s (sessionsTable db) /\
            ~ (sessions.serverId s = n /\ sessions.userId s = Some u /\
               sessions.itemId s = Some i /\ sessions.isInferred s = true)) /\
        (forall s,
            In s (sessionsTable db) ->
            sessions.isInferred s = false \/ sessions.serverId s <> n \/
            sessions.userId s <> Some u \/ sessions.itemId s <> Some i ->
            In s (sessionsTable db')) /\
        serversTable db' = serversTable db /\
        itemsTable db' = itemsTable db
  end.
Proof.
  unfold deleteInferredSessionForItem, bind, statement, ret.
  destruct (dbError w SessionsDelete) as [e | ]; [ reflexivity | ].
  set (sel := inferredSessionOf n u i).
  assert (Hin : forall s,
             In s (filter (fun s => negb (sel s)) (sessionsTable db)) <->
             In s (sessionsTable db) /\
             ~ (sessions.serverId s = n /\ sessions.userId s = Some u /\
                sessions.itemId s = Some i /\ sessions.isInferred s = true)).
  { intro s. rewrite filter_In, negb_true_iff.
    unfold sel. rewrite <- inferredSessionOf_spec.
    destruct (inferredSessionOf n u i s); intuition congruence. }
  eexists; eexists; split; [ reflexivity | ]; simpl.
  split; [ reflexivity | ].
  split; [ | split; [ | split; [ | split; [ | split; [ | split ]]]]];
    try reflexivity.
  - rewrite <- (filter_length sel (sessionsTable db)) at 1.
    unfold sel. lia.
  - clear Hin.
    induction (sessionsTable db) as [ | s l IH ]; simpl; [ reflexivity | ].
    destruct (sel s) eqn:E; simpl; [ exact IH | rewrite E; exact IH ].
  - clear Hin.
    induction (sessionsTable db) as [ | s l IH ]; simpl; [ reflexivity | ].
    destruct (sel s) eqn:E; simpl; [ exact IH | rewrite E; simpl; now f_equal ].
  - exact Hin.
  - intros s Hs Hother. apply Hin. split; [ exact Hs | ].
    intros (H1 & H2 & H3 & H4).
    destruct Hother as [H | [H | [H | H]]]; congruence.
Qed.

(** What the creation of an inferred session does to the database: nothing,
    or one appended row. *)
Lemma createInferredSessionForItem_cases
  (n : Z) (u nm i : string) (db : Database) :
  (snd (createInferredSessionForItem w n u nm i db) = db) \/
  (exists item ticks,
      dbError w ItemsFindFirst = None /\ dbError w SessionsInsert = None /\
      find (fun it => String.eqb (items.id it) i) (itemsTable db) = Some item /\
      items.runtimeTicks item = Some ticks /\ ticks <> 0 /\
      existsb
        (fun x => String.eqb (sessions.id x) (inferredSessionId n u i (now w)))
        (sessionsTable db) = false /\
      createInferredSessionForItem w n u nm i db =
      (Returns tt,
       mkDatabase (serversTable db) (itemsTable db)
         (sessionsTable db ++ [newSession n u nm i item ticks (now w)]))).
Proof.
  unfold createInferredSessionForItem, bind, statement, ret.
  destruct (dbError w ItemsFindFirst) as [e | ] eqn:E1; [ now left | ].
  destruct (find _ (itemsTable db)) as [item | ] eqn:E2; [ | now left ].
  destruct (items.runtimeTicks item) as [ticks | ] eqn:E3; [ | now left ].
  unfold truthyTicks.
  destruct (ticks =? 0) eqn:E4; simpl; [ now left | ].
  destruct (dbError w SessionsInsert) as [e | ] eqn:E5; [ now left | ].
  unfold insertOnConflictDoNothing.
  change (sessions.id (newSession n u nm i item ticks (now w)))
    with (inferredSessionId n u i (now w)).
  destruct (existsb _ (sessionsTable db)) eqn:E6; [ now left | ].
  right. exists item, ticks. apply Z.eqb_neq in E4.
  repeat (split; [ assumption || reflexivity | ]). reflexivity.
Qed.

Ltac mw_unfold :=
  unfold markItemWatched, bind, await, ret, tryCatch, statement, failure.

(** Once the request was answered with an ok response, the call creates the
    inferred session when asked to, revalidates the item's page and reports
    success; a throw of either step is reported as a failure, on the
    database as that step left it. *)
Lemma markItemWatched_after_request
  (n : Z) (itemId : string) (watched : bool) (infer : option bool)
  (db : Database) (session : AuthSession) :
  Spec.requestSucceeded w db n itemId watched session ->
  markItemWatched w n itemId watched infer db =
  let created :=
    if watched && match infer with Some b => b | None => false end
    then createInferredSessionForItem w n (id session) (name session) itemId db
    else (Returns tt, db) in
  match fst created with
  | Throws e => (Returns (failure (Spec.thrownMessage e)), snd created)
  | Returns _ =>
      match revalidatePath w
              ("/servers/" ++ Js.stringOfZ n ++ "/library/" ++ itemId)%string with
      | Throws e => (Returns (failure (Spec.thrownMessage e)), snd created)
      | Returns _ =>
          (Returns (mkResult true
                      (if watched then "Marked as watched"
                       else "Marked as unwatched")%string
                      (Some watched)),
           snd created)
      end
  end.
Proof.
  intros (Hs & Hn & Hdb & server & token & response & Hsrv & Htok & Htruthy
          & Hfetch & Hok).
  unfold Spec.playedItemsRequest in Hfetch.
  mw_unfold. rewrite Hs, Hn, Z.eqb_refl, Hdb. cbv beta iota zeta.
  change (negb true) with false. cbv beta iota.
  rewrite Hsrv, Htok, Htruthy. cbv beta iota zeta.
  change (negb true) with false. cbv beta iota.
  rewrite Hfetch, Hok. cbv beta iota zeta.
  change (negb true) with false. cbv beta iota.
  destruct (watched && match infer with Some b => b | None => false end).
  - destruct (createInferredSessionForItem w n (id session) (name session)
                itemId db) as [[[] | e] db1]; simpl.
    + destruct (revalidatePath w _) as [[] | e]; reflexivity.
    + destruct e; reflexivity.
  - simpl. destruct (revalidatePath w _) as [[] | e]; [ reflexivity | ].
    destruct e; reflexivity.
Qed.

(** Before the request is answered with an ok response the database is
    never written. *)
Lemma markItemWatched_without_request
  (n : Z) (itemId : string) (watched : bool) (infer : option bool)
  (db : Database) :
  (exists session, Spec.requestSucceeded w db n itemId watched session) \/
  (snd (markItemWatched w n itemId watched infer db) = db /\
   forall r, fst (markItemWatched w n itemId watched infer db) = Returns r ->
             success r = false).
Proof.
  mw_unfold.
  destruct (getSession w) as [[session | ] | e] eqn:Hs;
    [ | right; simpl; split; [ reflexivity | now intros r [= <-] ]
      | right; simpl; split; [ reflexivity | discriminate ] ].
  destruct (serverId session =? n) eqn:Hn; simpl;
    [ | right; split; [ reflexivity | now intros r [= <-] ] ].
  destruct (dbError w ServersFindFirst) as [e | ] eqn:Hdb;
    [ right; simpl; split; [ reflexivity | discriminate ] | ].
  simpl.
  destruct (find _ (serversTable db)) as [server | ] eqn:Hsrv;
    [ | right; simpl; split; [ reflexivity | now intros r [= <-] ] ].
  destruct (cookieToken w) as [[ | | token] | e] eqn:Htok; simpl;
    try (right; simpl; split; [ reflexivity | now intros r [= <-] ]).
  destruct (Js.truthyString token) eqn:Htruthy; simpl;
    [ | right; split; [ reflexivity | now intros r [= <-] ] ].
  destruct (fetch w _) as [response | e] eqn:Hfetch; simpl;
    [ | right; split; [ reflexivity | now intros r [= <-] ] ].
  destruct (ok response) eqn:Hok; simpl;
    [ | right; split; [ reflexivity | now intros r [= <-] ] ].
  left. exists session. apply Z.eqb_eq in Hn.
  repeat split; try assumption.
  exists server, token, response. repeat split; assumption.
Qed.

(** C9 (amended): every listed cause makes [markItemWatched] return
    [success = false] with a message and leaves the database as it was:
    no authenticated session, a session of another server, an unknown
    server, a missing token, a response that is not ok, a request that
    throws, a throw of either statement of the creation of the inferred
    session.  When the revalidation of the item's page throws, the failure
    is returned on the database as the creation left it: with the inferred
    session when one was inserted.  A throw of the session lookup, of the
    server lookup or of the cookies is not caught: the call rejects, on the
    database as it was.  In general a call that returns a failure, or that
    rejects, has written nothing, with the one exception of the
    revalidation. *)
Theorem markItemWatched_failure_keeps_sessions
  (n : Z) (itemId : string) (watched : bool) (infer : option bool)
  (db : Database) :
  let call := markItemWatched w n itemId watched infer db in
  (getSession w = Returns None ->
   call = (Returns (failure "Not authenticated"), db)) /\
  (forall session,
      getSession w = Returns (Some session) -> serverId session <> n ->
      call = (Returns (failure "Server mismatch"), db)) /\
  (forall session,
      getSession w = Returns (Some session) -> serverId session = n ->
      dbError w ServersFindFirst = None ->
      find (fun s => servers.id s =? n) (serversTable db) = None ->
      call = (Returns (failure "Server not found"), db)) /\
  (forall session server token,
      getSession w = Returns (Some session) -> serverId session = n ->
      dbError w ServersFindFirst = None ->
      find (fun s => servers.id s =? n) (serversTable db) = Some server ->
      cookieToken w = Returns token ->
      (forall t, token = Js.defined t -> t = EmptyString) ->
      call = (Returns (failure "No authentication token"), db)) /\
  (forall session server token,
      getSession w = Returns (Some session) -> serverId session = n ->
      dbError w ServersFindFirst = None ->
      find (fun s => servers.id s =? n) (serversTable db) = Some server ->
      cookieToken w = Returns (Js.defined token) ->
      Js.truthyString token = true ->
      match fetch w (Spec.playedItemsRequest server session itemId watched token)
      with
      | Returns response =>
          ok response = false ->
          call =
          (Returns (failure ("Jellyfin returned " ++
                             Js.stringOfZ (status response))%string), db)
      | Throws e => call = (Returns (failure (Spec.thrownMessage e)), db)
      end) /\
  (* the creation of the inferred session throws *)
  (forall session e,
      Spec.requestSucceeded w db n itemId watched session ->
      watched = true -> infer = Some true ->
      dbError w ItemsFindFirst = Some e ->
      call = (Returns (failure (Spec.thrownMessage e)), db)) /\
  (forall session item ticks e,
      Spec.requestSucceeded w db n itemId watched session ->
      watched = true -> infer = Some true ->
      dbError w ItemsFindFirst = None ->
      find (fun it => String.eqb (items.id it) itemId) (itemsTable db)
      = Some item ->
      items.runtimeTicks item = Some ticks -> ticks <> 0 ->
      dbError w SessionsInsert = Some e ->
      call = (Returns (failure (Spec.thrownMessage e)), db)) /\
  (* the revalidation throws *)
  (forall session e,
      Spec.requestSucceeded w db n itemId watched session ->
      revalidatePath w
        ("/servers/" ++ Js.stringOfZ n ++ "/library/" ++ itemId)%string
      = Throws e ->
      let created :=
        if watched && match infer with Some b => b | None => false end
        then
          createInferredSessionForItem w n (id session) (name session) itemId
            db
        else (Returns tt, db) in
      fst created = Returns tt ->
      call = (Returns (failure (Spec.thrownMessage e)), snd created)) /\
  (forall session item ticks e,
      Spec.requestSucceeded w db n itemId watched session ->
      watched = true -> infer = Some true ->
      dbError w ItemsFindFirst = None ->
      dbError w SessionsInsert = None ->
      find (fun it => String.eqb (items.id it) itemId) (itemsTable db)
      = Some item ->
      items.runtimeTicks item = Some ticks -> ticks <> 0 ->
      existsb
        (fun x =>
           String.eqb (sessions.id x)
             (inferredSessionId n (id session) itemId (now w)))
        (sessionsTable db) = false ->
      revalidatePath w
        ("/servers/" ++ Js.stringOfZ n ++ "/library/" ++ itemId)%string
      = Throws e ->
      call
      = (Returns (failure (Spec.thrownMessage e)),
         mkDatabase (serversTable db) (itemsTable db)
           (sessionsTable db ++
            [newSession n (id session) (name session) itemId item ticks
               (now w)]))) /\
  (* a throw before the try block *)
  (forall e, getSession w = Throws e -> call = (Throws e, db)) /\
  (forall session e,
      getSession w = Returns (Some session) -> serverId session = n ->
      dbError w ServersFindFirst = Some e ->
      call = (Throws e, db)) /\
  (forall session server e,
      getSession w = Returns (Some session) -> serverId session = n ->
      dbError w ServersFindFirst = None ->
      find (fun s => servers.id s =? n) (serversTable db) = Some server ->
      cookieToken w = Throws e ->
      call = (Throws e, db)) /\
  (forall r db',
      call = (Returns r, db') -> success r = false ->
      db' = db \/
      exists e,
        revalidatePath w
          ("/servers/" ++ Js.stringOfZ n ++ "/library/" ++ itemId)%string
        = Throws e /\
        message r = Spec.thrownMessage e) /\
  (forall e db', call = (Throws e, db') -> db' = db).
Proof.
  intro call. subst call.
  split; [ | split; [ | split; [ | split; [ | split; [ | split; [ | split;
    [ | split; [ | split; [ | split; [ | split; [ | split; [ | split
    ]]]]]]]]]]]].
  - intro Hs. mw_unfold. now rewrite Hs.
  - intros session Hs Hn. mw_unfold. rewrite Hs.
    apply Z.eqb_neq in Hn. now rewrite Hn.
  - intros session Hs Hn Hdb Hsrv. mw_unfold.
    rewrite Hs, Hn, Z.eqb_refl, Hdb. cbv beta iota zeta.
    change (negb true) with false. cbv beta iota. now rewrite Hsrv.
  - intros session server token Hs Hn Hdb Hsrv Htok Hempty. mw_unfold.
    rewrite Hs, Hn, Z.eqb_refl, Hdb. cbv beta iota zeta.
    change (negb true) with false. cbv beta iota. rewrite Hsrv, Htok.
    destruct token as [ | | t ]; try reflexivity.
    now rewrite (Hempty t eq_refl).
  - intros session server token Hs Hn Hdb Hsrv Htok Htruthy.
    unfold Spec.playedItemsRequest.
    destruct (fetch w _) as [response | e] eqn:Hfetch.
    + intro Hok. mw_unfold.
      rewrite Hs, Hn, Z.eqb_refl, Hdb. cbv beta iota zeta.
      change (negb true) with false. cbv beta iota.
      rewrite Hsrv, Htok, Htruthy. cbv beta iota zeta.
      change (negb true) with false. cbv beta iota.
      now rewrite Hfetch, Hok.
    + mw_unfold.
      rewrite Hs, Hn, Z.eqb_refl, Hdb. cbv beta iota zeta.
      change (negb true) with false. cbv beta iota.
      rewrite Hsrv, Htok, Htruthy. cbv beta iota zeta.
      change (negb true) with false. cbv beta iota.
      rewrite Hfetch. now destruct e.
  - intros session e Hreq -> -> Hdb.
    rewrite (markItemWatched_after_request n itemId true (Some true) db
               session Hreq).
    cbv zeta. cbn [andb].
    unfold createInferredSessionForItem, bind, statement.
    rewrite Hdb. reflexivity.
  - intros session item ticks e Hreq -> -> Hdb Hitem Hticks Hnz Hinsert.
    rewrite (markItemWatched_after_request n itemId true (Some true) db
               session Hreq).
    cbv zeta. cbn [andb].
    unfold createInferredSessionForItem, bind, statement, ret.
    rewrite Hdb, Hitem, Hticks. unfold truthyTicks.
    apply Z.eqb_neq in Hnz. rewrite Hnz.
    change (negb false) with true. cbv iota.
    rewrite Hinsert. reflexivity.
  - intros session e Hreq Hrev created Hcreated.
    rewrite (markItemWatched_after_request n itemId watched infer db
               session Hreq).
    cbv zeta. fold created. rewrite Hcreated, Hrev. reflexivity.
  - intros session item ticks e Hreq -> -> Hdb1 Hdb2 Hitem Hticks Hnz Hfresh
      Hrev.
    rewrite (markItemWatched_after_request n itemId true (Some true) db
               session Hreq).
    cbv zeta. cbn [andb].
    unfold createInferredSessionForItem, bind, statement, ret.
    rewrite Hdb1, Hitem, Hticks. unfold truthyTicks.
    apply Z.eqb_neq in Hnz. rewrite Hnz.
    change (negb false) with true. cbv iota.
    rewrite Hdb2. unfold insertOnConflictDoNothing. cbv beta iota.
    change (sessions.id (newSession n (id session) (name session) itemId
                           item ticks (now w)))
      with (inferredSessionId n (id session) itemId (now w)).
    rewrite Hfresh. cbn [fst snd]. rewrite Hrev. reflexivity.
  - intros e Hs. mw_unfold. now rewrite Hs.
  - intros session e Hs Hn Hdb. mw_unfold.
    rewrite Hs, Hn, Z.eqb_refl, Hdb. reflexivity.
  - intros session server e Hs Hn Hdb Hsrv Htok. mw_unfold.
    rewrite Hs, Hn, Z.eqb_refl, Hdb. cbv beta iota zeta.
    change (negb true) with false. cbv beta iota.
    rewrite Hsrv, Htok. reflexivity.
  - intros r db' Hcall Hfail.
    destruct (markItemWatched_without_request n itemId watched infer db)
      as [[session Hreq] | [Hdb _]].
    + rewrite (markItemWatched_after_request n itemId watched infer db session Hreq)
        in Hcall.
      cbv zeta in Hcall.
      destruct (watched && match infer with Some b => b | None => false end).
      * destruct (createInferredSessionForItem_cases n (id session)
                    (name session) itemId db) as [Hsame | (it & t & _ & _ & _ & _ & _ & _ & Hrun)].
        -- destruct (createInferredSessionForItem w n (id session)
                       (name session) itemId db) as [[[] | e] db1];
             simpl in Hsame, Hcall; subst db1.
           ++ destruct (revalidatePath w _) as [[] | e] eqn:Hrev;
                injection Hcall as <- <-; [ discriminate | now left ].
           ++ injection Hcall as <- <-. now left.
        -- rewrite Hrun in Hcall. simpl in Hcall.
           destruct (revalidatePath w _) as [[] | e] eqn:Hrev;
             injection Hcall as <- <-; [ discriminate | ].
           right. exists e. split; reflexivity.
      * simpl in Hcall.
        destruct (revalidatePath w _) as [[] | e] eqn:Hrev;
          injection Hcall as <- <-; [ discriminate | now left ].
    + rewrite Hcall in Hdb. simpl in Hdb. now left.
  - intros e db' Hcall.
    destruct (markItemWatched_without_request n itemId watched infer db)
      as [[session Hreq] | [Hdb _]].
    + rewrite (markItemWatched_after_request n itemId watched infer db session Hreq)
        in Hcall.
      cbv zeta in Hcall.
      destruct (fst _); [ destruct (revalidatePath w _) | ]; discriminate.
    + rewrite Hcall in Hdb. now simpl in Hdb.
Qed.

(** C5 (amended): when the request succeeded for [watched = true] and
    [inferWatchtime = true], the item is found with a runtime that is
    neither null nor 0 and is a safe integer (at most 2^53 - 1 in absolute
    value), the database statements succeed and no session has the
    generated id yet, exactly one row is appended: an inferred,
    completed session of the item, 100 percent complete, starting and ending
    now, lasting floor(runtimeTicks / 10,000,000) seconds.  When the item is
    not found or its runtime is null or 0 the database is left as it was,
    and so it is whenever [watched] is false or [inferWatchtime] is not
    true. *)
Theorem markItemWatched_records_inferred_session
  (n : Z) (itemId : string) (db : Database) :
  (forall session item ticks,
      Spec.requestSucceeded w db n itemId true session ->
      dbError w ItemsFindFirst = None ->
      dbError w SessionsInsert = None ->
      find (fun it => String.eqb (items.id it) itemId) (itemsTable db)
      = Some item ->
      items.runtimeTicks item = Some ticks ->
      ticks <> 0 ->
      Z.abs ticks <= Js.MAX_SAFE_INTEGER ->
      existsb
        (fun x =>
           String.eqb (sessions.id x)
             (inferredSessionId n (id session) itemId (now w)))
        (sessionsTable db) = false ->
      exists inferred,
        sessionsTable (snd (markItemWatched w n itemId true (Some true) db))
        = sessionsTable db ++ [inferred] /\
        sessions.serverId inferred = n /\
        sessions.userId inferred = Some (id session) /\
        sessions.itemId inferred = Some itemId /\
        sessions.isInferred inferred = true /\
        sessions.completed inferred = true /\
        sessions.percentComplete inferred = 100 /\
        sessions.startTime inferred = Some (now w) /\
        sessions.endTime inferred = sessions.startTime inferred /\
        sessions.playDuration inferred = ticks / 10000000 /\
        10000000 * sessions.playDuration inferred <= ticks
        < 10000000 * (sessions.playDuration inferred + 1)) /\
  (forall watched infer,
      match find (fun it => String.eqb (items.id it) itemId) (itemsTable db) with
      | None => True
      | Some item =>
          items.runtimeTicks item = None \/ items.runtimeTicks item = Some 0
      end ->
      snd (markItemWatched w n itemId watched infer db) = db) /\
  (forall watched infer,
      watched = false \/ infer <> Some true ->
      snd (markItemWatched w n itemId watched infer db) = db).
Proof.
  split; [ | split ].
  - intros session item ticks Hreq Hdb1 Hdb2 Hitem Hticks Hnz Hsafe Hfresh.
    rewrite (markItemWatched_after_request n itemId true (Some true) db
               session Hreq).
    cbv zeta. simpl andb. cbv iota.
    assert (Hrun : createInferredSessionForItem w n (id session) (name session)
                     itemId db =
                   (Returns tt,
                    mkDatabase (serversTable db) (itemsTable db)
                      (sessionsTable db ++
                       [newSession n (id session) (name session) itemId item
                          ticks (now w)]))).
    { unfold createInferredSessionForItem, bind, statement, ret.
      rewrite Hdb1, Hitem, Hticks. unfold truthyTicks.
      apply Z.eqb_neq in Hnz. rewrite Hnz.
      change (negb false) with true. cbv iota.
      rewrite Hdb2. unfold insertOnConflictDoNothing. cbv beta iota.
      change (sessions.id (newSession n (id session) (name session) itemId
                             item ticks (now w)))
        with (inferredSessionId n (id session) itemId (now w)).
      now rewrite Hfresh. }
    rewrite Hrun.
    exists (newSession n (id session) (name session) itemId item ticks (now w)).
    split; [ simpl; now destruct (revalidatePath w _) as [[] | e] | ].
    unfold newSession, Js.floorDiv.
    cbn [sessions.serverId sessions.userId sessions.itemId sessions.isInferred
         sessions.completed sessions.percentComplete sessions.startTime
         sessions.endTime sessions.playDuration].
    repeat (split; [ reflexivity | ]).
    pose proof (Z.div_mod ticks 10000000 ltac:(lia)).
    pose proof (Z.mod_pos_bound ticks 10000000 ltac:(lia)). lia.
  - intros watched infer Hitem.
    destruct (markItemWatched_without_request n itemId watched infer db)
      as [[session Hreq] | [Hdb _]]; [ | exact Hdb ].
    rewrite (markItemWatched_after_request n itemId watched infer db
               session Hreq).
    cbv zeta.
    assert (Hsame : snd (createInferredSessionForItem w n (id session)
                           (name session) itemId db) = db).
    { destruct (createInferredSessionForItem_cases n (id session)
                  (name session) itemId db)
        as [Hsame | (it & t & _ & _ & Hfind & Ht & Hnz & _)];
        [ exact Hsame | ].
      rewrite Hfind in Hitem. destruct Hitem; congruence. }
    destruct (watched && match infer with Some b => b | None => false end).
    + rewrite Hsame.
      destruct (fst _); [ destruct (revalidatePath w _) | ]; reflexivity.
    + simpl. destruct (revalidatePath w _); reflexivity.
  - intros watched infer Hoff.
    destruct (markItemWatched_without_request n itemId watched infer db)
      as [[session Hreq] | [Hdb _]]; [ | exact Hdb ].
    rewrite (markItemWatched_after_request n itemId watched infer db
               session Hreq).
    cbv zeta.
    assert (Hcond : watched &&
                    match infer with Some b => b | None => false end = false).
    { destruct Hoff as [-> | Hinfer]; [ reflexivity | ].
      destruct watched, infer as [[] | ]; try reflexivity. congruence. }
    rewrite Hcond. simpl. destruct (revalidatePath w _); reflexivity.
Qed.

End MarkWatchedProperties.

(** The witness of C5: Alice marks the two-hour movie as watched. *)
Lemma markItemWatched_records_inferred_session_witness :
  exists inferred,
    sessionsTable
      (snd (MarkWatched.markItemWatched
              (Examples.world (Some Examples.alice) (MarkWatched.Returns tt))
              1 "m1" true (Some true)
              (Examples.library Examples.twoHours [])))
    = [inferred] /\
    sessions.isInferred inferred = true /\
    sessions.playDuration inferred = 7200.
Proof.
  destruct
    (proj1
       (markItemWatched_records_inferred_session
          (Examples.world (Some Examples.alice) (MarkWatched.Returns tt))
          1 "m1" (Examples.library Examples.twoHours []))
       Examples.alice
       (Examples.movie "m1" "lib1" ["Drama"%string] Examples.twoHours)
       72000000000)
    as (inferred & Htable & _ & _ & _ & Hinferred & _ & _ & _ & _ & Hplay & _).
  - repeat split.
    exists (Examples.server [] []), "token"%string,
      (MarkWatched.mkResponse true 204).
    repeat split.
  - reflexivity.
  - reflexivity.
  - reflexivity.
  - reflexivity.
  - lia.
  - unfold Js.MAX_SAFE_INTEGER. lia.
  - reflexivity.
  - exists inferred. split; [ exact Htable | ].
    split; [ exact Hinferred | ]. rewrite Hplay. reflexivity.
Defined.

(** The counterexample of C5: the request succeeded and the item is found
    with [runtimeTicks = 0], yet no session is recorded; and with a runtime
    of two hours nothing is recorded either when a session already has the
    generated id. *)
Lemma markItemWatched_records_nothing_for_zero_ticks :
  Spec.requestSucceeded
    (Examples.world (Some Examples.alice) (MarkWatched.Returns tt))
    (Examples.library (Some 0) []) 1 "m1" true Examples.alice /\
  find (fun it => String.eqb (items.id it) "m1")
    (itemsTable (Examples.library (Some 0) []))
  = Some (Examples.movie "m1" "lib1" ["Drama"%string] (Some 0)) /\
  MarkWatched.markItemWatched
    (Examples.world (Some Examples.alice) (MarkWatched.Returns tt))
    1 "m1" true (Some true) (Examples.library (Some 0) [])
  = (MarkWatched.Returns
       (MarkWatched.mkResult true "Marked as watched" (Some true)),
     Examples.library (Some 0) []) /\
  let taken :=
    Examples.play "inferred:mark-watched:1:u1:m1:2024-03-01T12:00:00.000Z"
      "u1" "m1" (Examples.at_ 2024 3 1 12) 60 in
  MarkWatched.markItemWatched
    (Examples.world (Some Examples.alice) (MarkWatched.Returns tt))
    1 "m1" true (Some true) (Examples.library Examples.twoHours [taken])
  = (MarkWatched.Returns
       (MarkWatched.mkResult true "Marked as watched" (Some true)),
     Examples.library Examples.twoHours [taken]) /\
  sessions.isInferred taken = false.
Proof.
  split; [ | split; [ | split; [ | split ]]]; try reflexivity.
  repeat split.
  exists (Examples.server [] []), "token"%string,
    (MarkWatched.mkResponse true 204).
  repeat split.
Qed.

(** The witness of C9: an anonymous caller is refused and nothing is
    written. *)
Lemma markItemWatched_failure_keeps_sessions_witness :
  MarkWatched.markItemWatched (Examples.world None (MarkWatched.Returns tt))
    1 "m1" true (Some true) (Examples.library Examples.twoHours [])
  = (MarkWatched.Returns (MarkWatched.failure "Not authenticated"),
     Examples.library Examples.twoHours []).
Proof.
  exact
    (proj1
       (markItemWatched_failure_keeps_sessions
          (Examples.world None (MarkWatched.Returns tt))
          1 "m1" true (Some true) (Examples.library Examples.twoHours []))
       eq_refl).
Defined.

(** The counterexample of C9: the revalidation throws after the inferred
    session was inserted; the call returns [success = false] and the
    sessions table has one row more. *)
Lemma markItemWatched_failure_after_insert :
  exists r db',
    MarkWatched.markItemWatched
      (Examples.world (Some Examples.alice)
         (MarkWatched.Throws (MarkWatched.ErrorWith "revalidation failed")))
      1 "m1" true (Some true) (Examples.library Examples.twoHours [])
    = (MarkWatched.Returns r, db') /\
    MarkWatched.success r = false /\
    MarkWatched.message r = "revalidation failed"%string /\
    sessionsTable (Examples.library Examples.twoHours []) = [] /\
    List.length (sessionsTable db') = 1%nat /\
    sessionsTable db' <> sessionsTable (Examples.library Examples.twoHours []).
Proof.
  eexists; eexists.
  split; [ vm_compute; reflexivity | ].
  repeat split. discriminate.
Qed.

(** ** Arrays and the query builder *)

Section SortFacts.

Context {A : Type} (leb : A -> A -> bool).

Lemma insertSorted_perm (x : A) (l : list A) :
  Permutation (x :: l) (Js.insertSorted leb x l).
Proof.
  induction l as [ | y l IH ]; simpl; [ apply Permutation_refl | ].
  destruct (leb x y); [ apply Permutation_refl | ].
  eapply perm_trans; [ apply perm_swap | apply perm_skip, IH ].
Qed.

Lemma sort_perm (l : list A) : Permutation l (Js.sort leb l).
Proof.
  induction l as [ | x l IH ]; simpl; [ constructor | ].
  eapply perm_trans; [ apply perm_skip, IH | apply insertSorted_perm ].
Qed.

Lemma sort_In (l : list A) (x : A) : In x (Js.sort leb l) <-> In x l.
Proof.
  split; apply Permutation_in;
    [ apply Permutation_sym | ]; apply sort_perm.
Qed.

Lemma sort_length (l : list A) : List.length (Js.sort leb l) = List.length l.
Proof. symmetry. apply Permutation_length, sort_perm. Qed.

Definition lebRel (a b : A) : Prop := leb a b = true.

Hypothesis leb_total : forall a b, leb a b = true \/ leb b a = true.

Lemma insertSorted_sorted (x : A) (l : list A) :
  Sorted lebRel l -> Sorted lebRel (Js.insertSorted leb x l).
Proof.
  induction l as [ | y l IH ]; intro Hs; simpl.
  - repeat constructor.
  - destruct (leb x y) eqn:E.
    + constructor; [ exact Hs | constructor; exact E ].
    + inversion Hs as [ | ? ? Hs' Hhd ]; subst.
      constructor; [ apply IH, Hs' | ].
      destruct l as [ | z l ]; simpl.
      * constructor. destruct (leb_total x y); congruence.
      * destruct (leb x z); constructor.
        -- destruct (leb_total x y); congruence.
        -- inversion Hhd; assumption.
Qed.

Lemma sort_sorted (l : list A) : Sorted lebRel (Js.sort leb l).
Proof.
  induction l as [ | x l IH ]; simpl;
    [ constructor | apply insertSorted_sorted, IH ].
Qed.

End SortFacts.

(** Sorting a list that is in order already changes nothing. *)
Lemma sort_sorted_id {A : Type} (leb : A -> A -> bool) (l : list A) :
  Sorted (lebRel leb) l -> Js.sort leb l = l.
Proof.
  induction 1 as [ | x l Hs IH Hhd ]; simpl; [ reflexivity | ].
  rewrite IH. destruct Hhd as [ | y l' Hxy ]; simpl; [ reflexivity | ].
  unfold lebRel in Hxy. now rewrite Hxy.
Qed.

(** Sorting commutes with a map that carries one order to the other. *)
Lemma insertSorted_map {A B : Type} (lebA : A -> A -> bool)
  (lebB : B -> B -> bool) (f : A -> B) (x : A) (s : list A) :
  (forall b, In b s -> lebB (f x) (f b) = lebA x b) ->
  Js.insertSorted lebB (f x) (map f s) = map f (Js.insertSorted lebA x s).
Proof.
  induction s as [ | y s IH ]; intro H; simpl; [ reflexivity | ].
  rewrite H by now left.
  destruct (lebA x y); simpl; [ reflexivity | ].
  rewrite IH by (intros; apply H; now right). reflexivity.
Qed.

Lemma sort_map {A B : Type} (lebA : A -> A -> bool) (lebB : B -> B -> bool)
  (f : A -> B) (l : list A) :
  (forall a b, In a l -> In b l -> lebB (f a) (f b) = lebA a b) ->
  Js.sort lebB (map f l) = map f (Js.sort lebA l).
Proof.
  induction l as [ | x l IH ]; intro H; simpl; [ reflexivity | ].
  rewrite IH by (intros; apply H; now right).
  apply insertSorted_map. intros b Hb. apply H; [ now left | right ].
  now apply (sort_In lebA l).
Qed.

Section DistinctFacts.

Context {K : Type} (eqb : K -> K -> bool).
Hypothesis eqb_spec : forall a b, eqb a b = true <-> a = b.

Lemma distinct_In (l : list K) (k : K) :
  In k (Sql.distinct eqb l) <-> In k l.
Proof.
  induction l as [ | x l IH ]; simpl; [ tauto | ].
  rewrite filter_In, IH, negb_true_iff.
  destruct (eqb x k) eqn:E.
  - apply eqb_spec in E. subst. intuition.
  - assert (x <> k) by (intro; subst; rewrite (proj2 (eqb_spec k k)) in E;
                        [ discriminate | reflexivity ]).
    intuition.
Qed.

Lemma distinct_NoDup (l : list K) : NoDup (Sql.distinct eqb l).
Proof.
  induction l as [ | x l IH ]; simpl; constructor.
  - rewrite filter_In, negb_true_iff. intros [_ E].
    rewrite (proj2 (eqb_spec x x) eq_refl) in E. discriminate.
  - now apply NoDup_filter.
Qed.

Context {R : Type} (key : R -> K).

Lemma groupBy_keys (rows : list R) :
  map fst (Sql.groupBy eqb key rows) = Sql.distinct eqb (map key rows).
Proof.
  unfold Sql.groupBy. rewrite map_map. simpl. apply map_id.
Qed.

Lemma groupBy_In (rows : list R) (g : K * list R) :
  In g (Sql.groupBy eqb key rows) <->
  In (fst g) (map key rows) /\
  snd g = filter (fun r => eqb (fst g) (key r)) rows.
Proof.
  unfold Sql.groupBy. rewrite in_map_iff. split.
  - intros (k & <- & Hk). apply (proj1 (distinct_In _ _)) in Hk. simpl.
    split; [ exact Hk | reflexivity ].
  - intros [Hk Hg]. exists (fst g). split.
    + destruct g; simpl in *; now subst.
    + apply (proj2 (distinct_In _ _)), Hk.
Qed.

(** No group is empty. *)
Lemma groupBy_nonempty (rows : list R) (g : K * list R) :
  In g (Sql.groupBy eqb key rows) -> snd g <> [].
Proof.
  intros Hg. apply groupBy_In in Hg. destruct Hg as [Hk ->].
  apply in_map_iff in Hk. destruct Hk as (r & Hr & Hin).
  intro Hnil.
  assert (Hr' : In r (filter (fun r => eqb (fst g) (key r)) rows)).
  { apply filter_In. split; [ exact Hin | ]. apply eqb_spec. now symmetry. }
  rewrite Hnil in Hr'. exact Hr'.
Qed.

End DistinctFacts.

(** [find] by a key that occurs at most once. *)
Lemma find_unique_key {A : Type} (key : A -> Z) (l : list A) (x : A) :
  NoDup (map key l) -> In x l ->
  find (fun a => key a =? key x) l = Some x.
Proof.
  induction l as [ | y l IH ]; intros Hnd Hin; [ destruct Hin | ].
  simpl in *. inversion Hnd as [ | ? ? Hnotin Hnd' ]; subst.
  destruct Hin as [-> | Hin].
  - now rewrite Z.eqb_refl.
  - destruct (key y =? key x) eqn:E; [ | now apply IH ].
    apply Z.eqb_eq in E. exfalso. apply Hnotin. rewrite E.
    now apply in_map.
Qed.

Lemma find_no_key {A : Type} (key : A -> Z) (l : list A) (k : Z) :
  ~ In k (map key l) -> find (fun a => key a =? k) l = None.
Proof.
  induction l as [ | y l IH ]; intro Hnot; simpl; [ reflexivity | ].
  destruct (key y =? k) eqn:E.
  - apply Z.eqb_eq in E. exfalso. apply Hnot. now left.
  - apply IH. intro H. apply Hnot. now right.
Qed.


(** ** Activity patterns: the buckets *)

Section Buckets.

Import Sql Wrapped Yearly.

Variable part : Calendar.Timestamp -> Z.
Variable timed : list (Row * Calendar.Timestamp).

Let stats : list (Stat Z) :=
  map (aggregate timedDuration) (groupBy Z.eqb (fun r => part (snd r)) timed).

Lemma stats_keys :
  map statKey stats = distinct Z.eqb (map (fun r => part (snd r)) timed).
Proof.
  unfold stats. rewrite map_map. simpl.
  rewrite <- (groupBy_keys Z.eqb (fun r => part (snd r)) timed).
  reflexivity.
Qed.

Lemma statsBy_keys_NoDup : NoDup (map statKey (statsBy part timed)).
Proof.
  unfold statsBy, orderBy. fold stats.
  eapply Permutation_NoDup.
  - apply Permutation_map, sort_perm.
  - rewrite stats_keys. apply distinct_NoDup, Z.eqb_eq.
Qed.

Lemma inBucket_as_group (k : Z) :
  filter (fun r => Z.eqb k (part (snd r))) timed = inBucket part k timed.
Proof.
  unfold inBucket. apply filter_ext. intro r. apply Z.eqb_sym.
Qed.

(** The row the grouped select has for the key [k]: the aggregates of the
    rows of that key, if there are any. *)
Lemma statFor_statsBy (k : Z) :
  statFor (statsBy part timed) k =
  match inBucket part k timed with
  | [] => None
  | _ :: _ =>
      Some (mkStat k (watchTime (inBucket part k timed))
              (plays (inBucket part k timed)))
  end.
Proof.
  destruct (in_dec Z.eq_dec k (map (fun r => part (snd r)) timed)) as [Hin | Hnot].
  - assert (Hg : In (k, inBucket part k timed)
                   (groupBy Z.eqb (fun r => part (snd r)) timed)).
    { apply (groupBy_In Z.eqb Z.eqb_eq). simpl.
      split; [ exact Hin | symmetry; apply inBucket_as_group ]. }
    pose proof (groupBy_nonempty Z.eqb Z.eqb_eq _ _ _ Hg) as Hne.
    simpl in Hne.
    assert (Hs : In (aggregate timedDuration (k, inBucket part k timed))
                   (statsBy part timed)).
    { unfold statsBy, orderBy. apply sort_In. now apply in_map. }
    pose proof (find_unique_key statKey _ _ statsBy_keys_NoDup Hs) as Hfind.
    unfold statFor. simpl in Hfind. rewrite Hfind.
    destruct (inBucket part k timed); [ now destruct Hne | reflexivity ].
  - unfold statFor. rewrite find_no_key.
    + assert (Hempty : inBucket part k timed = []).
      { unfold inBucket.
        destruct (filter _ timed) as [ | r l ] eqn:E; [ reflexivity | ].
        assert (Hr : In r (filter (fun r => part (snd r) =? k) timed))
          by (rewrite E; now left).
        apply filter_In in Hr. destruct Hr as [Hr Hk].
        apply Z.eqb_eq in Hk. exfalso. apply Hnot. rewrite <- Hk.
        now apply (in_map (fun r => part (snd r))). }
      now rewrite Hempty.
    + intro H. apply Hnot.
      assert (Hperm : Permutation (map statKey stats)
                        (map statKey (statsBy part timed)))
        by (apply Permutation_map, sort_perm).
      apply Permutation_sym in Hperm.
      apply (Permutation_in _ Hperm) in H.
      rewrite stats_keys in H.
      exact (proj1 (distinct_In Z.eqb Z.eqb_eq _ _) H).
Qed.

Lemma watchTimeOf_statsBy (k : Z) :
  watchTimeOf (statFor (statsBy part timed) k)
  = watchTime (inBucket part k timed).
Proof.
  rewrite statFor_statsBy. now destruct (inBucket part k timed).
Qed.

Lemma playCountOf_statsBy (k : Z) :
  playCountOf (statFor (statsBy part timed) k) = plays (inBucket part k timed).
Proof.
  rewrite statFor_statsBy. now destruct (inBucket part k timed).
Qed.

End Buckets.

(** ** Activity patterns: shape of the result, peaks *)

Section ActivityShape.

Import Sql Wrapped Yearly.

Lemma map_mapiFrom {A B C : Type} (g : B -> C) (f : A -> Z -> B) (l : list A) :
  forall s, map g (mapiFrom s f l) = mapiFrom s (fun x i => g (f x i)) l.
Proof.
  induction l as [ | x l IH ]; intro s; simpl; [ reflexivity | ].
  now rewrite IH.
Qed.

Lemma nth_error_mapiFrom {A B : Type} (f : A -> Z -> B) (l : list A) :
  forall s i,
    nth_error (mapiFrom s f l) i
    = option_map (fun x => f x (s + Z.of_nat i)) (nth_error l i).
Proof.
  induction l as [ | x l IH ]; intros s i; destruct i as [ | i ];
    try reflexivity.
  - simpl. now rewrite Z.add_0_r.
  - cbn [mapiFrom nth_error]. rewrite IH.
    destruct (nth_error l i); [ | reflexivity ].
    cbn [option_map]. do 2 f_equal. lia.
Qed.

Lemma nth_error_upTo (n i : nat) (k : Z) :
  nth_error (upTo n) i = Some k -> k = Z.of_nat i.
Proof.
  unfold upTo. rewrite nth_error_map.
  destruct (nth_error (seq 0 n) i) as [j | ] eqn:E; [ | discriminate ].
  intros [= <-].
  assert (Hlt : (i < List.length (seq 0 n))%nat)
    by (apply nth_error_Some; congruence).
  rewrite length_seq in Hlt.
  rewrite (nth_error_nth' _ 0%nat) in E by now rewrite length_seq.
  rewrite seq_nth in E by exact Hlt. now injection E as <-.
Qed.

(** The first maximum of a non-empty array is what [reduce] returns. *)
Lemma fold_first_max {A : Type} (value : A -> Z) (rest : list A) :
  forall (pre : list A) (i : nat) (acc : A),
    FirstMax value pre i acc ->
    exists i',
      FirstMax value (pre ++ rest) i'
        (fold_left
           (fun max x => if value x >? value max then x else max) rest acc).
Proof.
  induction rest as [ | y rest IH ]; intros pre i acc Hacc; simpl.
  - exists i. now rewrite app_nil_r.
  - replace (pre ++ y :: rest) with ((pre ++ [y]) ++ rest)
      by now rewrite <- app_assoc.
    destruct Hacc as (Hnth & Hmax & Hfirst).
    assert (Hi : (i < List.length pre)%nat)
      by (apply nth_error_Some; congruence).
    destruct (value y >? value acc) eqn:E.
    + apply Z.gtb_lt in E.
      apply (IH (pre ++ [y]) (List.length pre)).
      split; [ | split ].
      * rewrite nth_error_app2, Nat.sub_diag by lia. reflexivity.
      * intros j z Hz.
        destruct (Nat.lt_ge_cases j (List.length pre)) as [Hj | Hj].
        -- rewrite nth_error_app1 in Hz by exact Hj.
           specialize (Hmax j z Hz). lia.
        -- rewrite nth_error_app2 in Hz by exact Hj.
           destruct (j - List.length pre)%nat as [ | k ]; simpl in Hz.
           ++ injection Hz as <-. lia.
           ++ destruct k; discriminate.
      * intros j z Hj Hz. rewrite nth_error_app1 in Hz by exact Hj.
        specialize (Hmax j z Hz). lia.
    + assert (Hle : value y <= value acc).
      { destruct (Z.gtb_spec (value y) (value acc)); [ discriminate | lia ]. }
      apply (IH (pre ++ [y]) i).
      split; [ | split ].
      * rewrite nth_error_app1 by exact Hi. exact Hnth.
      * intros j z Hz.
        destruct (Nat.lt_ge_cases j (List.length pre)) as [Hj | Hj].
        -- rewrite nth_error_app1 in Hz by exact Hj. exact (Hmax j z Hz).
        -- rewrite nth_error_app2 in Hz by exact Hj.
           destruct (j - List.length pre)%nat as [ | k ]; simpl in Hz.
           ++ injection Hz as <-. exact Hle.
           ++ destruct k; discriminate.
      * intros j z Hj Hz.
        rewrite nth_error_app1 in Hz by lia. exact (Hfirst j z Hj Hz).
Qed.

Lemma peakBy_first_max {A : Type} (value : A -> Z) (x : A) (l : list A) :
  exists i p, peakBy value (x :: l) = Some p /\ FirstMax value (x :: l) i p.
Proof.
  destruct (fold_first_max value l [x] 0 x) as [i Hi].
  - split; [ reflexivity | split ].
    + intros [ | j ] y Hy; simpl in Hy.
      * injection Hy as <-. lia.
      * destruct j; discriminate.
    + intros j y Hj. lia.
  - exists i. eexists. split; [ reflexivity | exact Hi ].
Qed.

Variable db : Database.
Variable params : WrappedParams.

Let q := qualifying db params.

Lemma validYear_spec (year : Z) :
  validYear year = true <-> 1000 <= year <= 9999.
Proof. unfold validYear. rewrite andb_true_iff, !Z.leb_le. tauto. Qed.

(** For a year written with four digits the call returns: the three arrays
    the peaks are reduced from are never empty. *)
Lemma getWrappedActivityPatterns_returns :
  1000 <= year params <= 9999 ->
  exists (ih iw im : nat) ph pw pm,
    FirstMax HourlyPattern.watchTimeSeconds (hourlyPatternsOf q) ih ph /\
    FirstMax WeekdayPattern.watchTimeSeconds (weekdayPatternsOf q) iw pw /\
    FirstMax MonthlyTotal.watchTimeSeconds (monthlyTotalsOf q) im pm /\
    getWrappedActivityPatterns db params =
    Some
      (WrappedActivityPatterns.mk (calendarHeatmapOf q) (hourlyPatternsOf q)
         (weekdayPatternsOf q) (monthlyTotalsOf q) (HourlyPattern.hour ph)
         (WeekdayPattern.day pw) (MonthlyTotal.month pm)
         (longestStreakOf
            (Js.sort Js.localeCompare_leb
               (map DayActivity.date (calendarHeatmapOf q))))).
Proof.
  intro Hyear. apply validYear_spec in Hyear.
  unfold getWrappedActivityPatterns. rewrite Hyear. cbn [negb]. cbv zeta.
  fold (qualifyingRows db params). fold (qualifying db params). fold q.
  destruct (hourlyPatternsOf q) as [ | h hs ] eqn:Eh; [ discriminate | ].
  destruct (weekdayPatternsOf q) as [ | wd wds ] eqn:Ew; [ discriminate | ].
  destruct (monthlyTotalsOf q) as [ | m ms ] eqn:Em; [ discriminate | ].
  destruct (peakBy_first_max HourlyPattern.watchTimeSeconds h hs)
    as (ih & ph & -> & Hh).
  destruct (peakBy_first_max WeekdayPattern.watchTimeSeconds wd wds)
    as (iw & pw & -> & Hw).
  destruct (peakBy_first_max MonthlyTotal.watchTimeSeconds m ms)
    as (im & pm & -> & Hm).
  exists ih, iw, im, ph, pw, pm.
  split; [ exact Hh | split; [ exact Hw | split; [ exact Hm | reflexivity ]]].
Qed.

End ActivityShape.

Section ActivityClaims.

Import Sql Wrapped Yearly.

Lemma Forall_mapiFrom {A B : Type} (P : B -> Prop) (f : A -> Z -> B)
  (l : list A) :
  forall s,
    (forall x i, s <= i < s + Z.of_nat (List.length l) -> P (f x i)) ->
    Forall P (mapiFrom s f l).
Proof.
  induction l as [ | x l IH ]; intros s H; simpl; constructor.
  - apply H. simpl List.length. lia.
  - apply IH. intros y i Hi. apply H. simpl List.length. lia.
Qed.

Variable db : Database.
Variable params : WrappedParams.

(** The year is written with four digits. *)
Hypothesis fourDigits : 1000 <= year params <= 9999.

(** C6 (amended): for a year written with four digits the call returns 24
    hourly entries for the hours 0 to 23 in order,
    7 weekday entries Monday first, the entry of Monday-first index [i]
    holding the sessions whose PostgreSQL day of week is [(i + 1) mod 7]
    (Sunday = 0 at index 6), and 12 monthly entries for the months 1 to 12 in
    order; each entry reports the watch time and the number of the
    qualifying sessions of its bucket, hence 0 and 0 for an empty bucket. *)
Theorem getWrappedActivityPatterns_buckets :
  exists r,
    getWrappedActivityPatterns db params = Some r /\
    let rows := qualifying db params in
    map HourlyPattern.hour (WrappedActivityPatterns.hourlyPatterns r)
    = [0; 1; 2; 3; 4; 5; 6; 7; 8; 9; 10; 11; 12; 13; 14; 15; 16; 17; 18; 19;
       20; 21; 22; 23] /\
    Forall
      (fun e =>
         let bucket :=
           inBucket Calendar.EXTRACT_HOUR (HourlyPattern.hour e) rows in
         HourlyPattern.watchTimeSeconds e = watchTime bucket /\
         HourlyPattern.playCount e = plays bucket /\
         (bucket = [] ->
          HourlyPattern.watchTimeSeconds e = 0 /\ HourlyPattern.playCount e = 0))
      (WrappedActivityPatterns.hourlyPatterns r) /\
    map (fun e => (WeekdayPattern.day e, WeekdayPattern.dayIndex e))
      (WrappedActivityPatterns.weekdayPatterns r)
    = [("Monday", 0); ("Tuesday", 1); ("Wednesday", 2); ("Thursday", 3);
       ("Friday", 4); ("Saturday", 5); ("Sunday", 6)]%string /\
    Forall
      (fun e =>
         let bucket :=
           inBucket Calendar.EXTRACT_DOW
             ((WeekdayPattern.dayIndex e + 1) mod 7) rows in
         WeekdayPattern.watchTimeSeconds e = watchTime bucket /\
         WeekdayPattern.playCount e = plays bucket /\
         (bucket = [] ->
          WeekdayPattern.watchTimeSeconds e = 0 /\
          WeekdayPattern.playCount e = 0))
      (WrappedActivityPatterns.weekdayPatterns r) /\
    map (fun e => (MonthlyTotal.month e, MonthlyTotal.monthName e))
      (WrappedActivityPatterns.monthlyTotals r)
    = [(1, "January"); (2, "February"); (3, "March"); (4, "April");
       (5, "May"); (6, "June"); (7, "July"); (8, "August");
       (9, "September"); (10, "October"); (11, "November");
       (12, "December")]%string /\
    Forall
      (fun e =>
         let bucket :=
           inBucket Calendar.EXTRACT_MONTH (MonthlyTotal.month e) rows in
         MonthlyTotal.watchTimeSeconds e = watchTime bucket /\
         MonthlyTotal.playCount e = plays bucket /\
         (bucket = [] ->
          MonthlyTotal.watchTimeSeconds e = 0 /\ MonthlyTotal.playCount e = 0))
      (WrappedActivityPatterns.monthlyTotals r).
Proof.
  destruct (getWrappedActivityPatterns_returns db params fourDigits)
    as (ih & iw & im & ph & pw & pm & _ & _ & _ & Hr).
  eexists. split; [ exact Hr | ].
  cbv zeta. cbn [WrappedActivityPatterns.hourlyPatterns
                   WrappedActivityPatterns.weekdayPatterns
                   WrappedActivityPatterns.monthlyTotals].
  set (rows := qualifying db params).
  split; [ | split; [ | split; [ | split; [ | split ]]]].
  - unfold hourlyPatternsOf. rewrite map_map. cbn [HourlyPattern.hour].
    rewrite map_id. reflexivity.
  - unfold hourlyPatternsOf. apply Forall_map, Forall_forall. intros h _.
    cbn [HourlyPattern.hour HourlyPattern.watchTimeSeconds
           HourlyPattern.playCount].
    rewrite watchTimeOf_statsBy, playCountOf_statsBy.
    split; [ reflexivity | split; [ reflexivity | ] ].
    intros ->. split; reflexivity.
  - unfold weekdayPatternsOf, mapi. rewrite map_mapiFrom. reflexivity.
  - unfold weekdayPatternsOf, mapi. apply Forall_mapiFrom. intros day i Hi.
    cbn [WeekdayPattern.dayIndex WeekdayPattern.watchTimeSeconds
           WeekdayPattern.playCount].
    rewrite watchTimeOf_statsBy, playCountOf_statsBy.
    assert (Hdow : (if i =? 6 then 0 else i + 1) = (i + 1) mod 7).
    { simpl in Hi. destruct (Z.eqb_spec i 6) as [-> | Hne];
        [ reflexivity | rewrite Z.mod_small; lia ]. }
    rewrite Hdow.
    split; [ reflexivity | split; [ reflexivity | ] ].
    intros ->. split; reflexivity.
  - unfold monthlyTotalsOf, mapi. rewrite map_mapiFrom. reflexivity.
  - unfold monthlyTotalsOf, mapi. apply Forall_mapiFrom. intros name i _.
    cbn [MonthlyTotal.month MonthlyTotal.watchTimeSeconds
           MonthlyTotal.playCount].
    rewrite watchTimeOf_statsBy, playCountOf_statsBy.
    split; [ reflexivity | split; [ reflexivity | ] ].
    intros ->. split; reflexivity.
Qed.

(** C7: the peak hour, weekday and month are those of the first entry with
    the maximal watch time of its array: no entry has more, every earlier
    entry has less; so of several maximal buckets the smallest hour, the
    earliest Monday-first weekday and the smallest month are returned. *)
Theorem getWrappedActivityPatterns_peaks :
  exists r,
    getWrappedActivityPatterns db params = Some r /\
    (exists i h,
        FirstMax HourlyPattern.watchTimeSeconds
          (WrappedActivityPatterns.hourlyPatterns r) i h /\
        WrappedActivityPatterns.peakHour r = HourlyPattern.hour h /\
        HourlyPattern.hour h = Z.of_nat i) /\
    (exists i d,
        FirstMax WeekdayPattern.watchTimeSeconds
          (WrappedActivityPatterns.weekdayPatterns r) i d /\
        WrappedActivityPatterns.peakWeekday r = WeekdayPattern.day d /\
        WeekdayPattern.dayIndex d = Z.of_nat i /\
        nth_error WEEKDAY_NAMES i = Some (WeekdayPattern.day d)) /\
    (exists i m,
        FirstMax MonthlyTotal.watchTimeSeconds
          (WrappedActivityPatterns.monthlyTotals r) i m /\
        WrappedActivityPatterns.peakMonth r = MonthlyTotal.month m /\
        MonthlyTotal.month m = Z.of_nat i + 1).
Proof.
  destruct (getWrappedActivityPatterns_returns db params fourDigits)
    as (ih & iw & im & ph & pw & pm & Hh & Hw & Hm & Hr).
  eexists. split; [ exact Hr | ].
  cbn [WrappedActivityPatterns.hourlyPatterns
         WrappedActivityPatterns.weekdayPatterns
         WrappedActivityPatterns.monthlyTotals
         WrappedActivityPatterns.peakHour WrappedActivityPatterns.peakWeekday
         WrappedActivityPatterns.peakMonth].
  split; [ | split ].
  - exists ih, ph. split; [ exact Hh | split; [ reflexivity | ] ].
    destruct Hh as (Hnth & _). unfold hourlyPatternsOf in Hnth.
    rewrite nth_error_map in Hnth.
    destruct (nth_error (upTo 24) ih) as [k | ] eqn:E; [ | discriminate ].
    injection Hnth as <-. cbn [HourlyPattern.hour].
    now apply nth_error_upTo in E.
  - exists iw, pw. split; [ exact Hw | split; [ reflexivity | ] ].
    destruct Hw as (Hnth & _). unfold weekdayPatternsOf, mapi in Hnth.
    rewrite nth_error_mapiFrom in Hnth.
    destruct (nth_error WEEKDAY_NAMES iw) as [nm | ] eqn:E; [ | discriminate ].
    injection Hnth as <-.
    cbn [WeekdayPattern.dayIndex WeekdayPattern.day].
    split; [ lia | reflexivity ].
  - exists im, pm. split; [ exact Hm | split; [ reflexivity | ] ].
    destruct Hm as (Hnth & _). unfold monthlyTotalsOf, mapi in Hnth.
    rewrite nth_error_mapiFrom in Hnth.
    destruct (nth_error MONTH_NAMES im) as [nm | ] eqn:E; [ | discriminate ].
    injection Hnth as <-. cbn [MonthlyTotal.month]. lia.
Qed.

End ActivityClaims.

(** The year of the sample is written with four digits. *)
Lemma sampleYear_fourDigits : 1000 <= Wrapped.year SampleYear.params <= 9999.
Proof. cbn. lia. Qed.

(** The witness of C6: the sample year has its 24 hours, 7 days and 12
    months; the plays of 20 o'clock add up to 150 seconds and the hours
    without a play are present with zeros. *)
Lemma getWrappedActivityPatterns_buckets_witness :
  exists r,
    Wrapped.getWrappedActivityPatterns SampleYear.db SampleYear.params = Some r /\
    List.length (Wrapped.WrappedActivityPatterns.hourlyPatterns r) = 24%nat /\
    List.length (Wrapped.WrappedActivityPatterns.weekdayPatterns r) = 7%nat /\
    List.length (Wrapped.WrappedActivityPatterns.monthlyTotals r) = 12%nat /\
    nth_error (Wrapped.WrappedActivityPatterns.hourlyPatterns r) 20
    = Some (Wrapped.HourlyPattern.mk 20 150 2) /\
    nth_error (Wrapped.WrappedActivityPatterns.hourlyPatterns r) 0
    = Some (Wrapped.HourlyPattern.mk 0 0 0).
Proof.
  destruct (getWrappedActivityPatterns_buckets SampleYear.db SampleYear.params
              sampleYear_fourDigits)
    as (r & Hr & Hhours & _ & Hdays & _ & Hmonths & _).
  exists r. split; [ exact Hr | ].
  split; [ rewrite <- (length_map Wrapped.HourlyPattern.hour), Hhours;
           reflexivity | ].
  split; [ rewrite <- (length_map
                         (fun e => (Wrapped.WeekdayPattern.day e,
                                    Wrapped.WeekdayPattern.dayIndex e))), Hdays;
           reflexivity | ].
  split; [ rewrite <- (length_map
                         (fun e => (Wrapped.MonthlyTotal.month e,
                                    Wrapped.MonthlyTotal.monthName e))),
             Hmonths;
           reflexivity | ].
  vm_compute in Hr. injection Hr as <-. split; reflexivity.
Defined.

(** The counterexample of C6: the call does not return for every input.
    The years 10000 and 999 are not written with four digits, the dates of
    their range are invalid and the first query throws. *)
Lemma getWrappedActivityPatterns_throws_outside_four_digits :
  Wrapped.getWrappedActivityPatterns SampleYear.db
    (Wrapped.mkParams 1 "u1" 10000) = None /\
  Wrapped.getWrappedActivityPatterns SampleYear.db
    (Wrapped.mkParams 1 "u1" 999) = None.
Proof. split; reflexivity. Qed.

(** The witness of C7: in the sample year the peaks are 3 o'clock (280
    seconds against 150 at 20 o'clock) and January. *)
Lemma getWrappedActivityPatterns_peaks_witness :
  exists r,
    Wrapped.getWrappedActivityPatterns SampleYear.db SampleYear.params = Some r /\
    Wrapped.WrappedActivityPatterns.peakHour r = 3 /\
    Wrapped.WrappedActivityPatterns.peakMonth r = 1 /\
    (exists i h,
        Yearly.FirstMax Wrapped.HourlyPattern.watchTimeSeconds
          (Wrapped.WrappedActivityPatterns.hourlyPatterns r) i h /\
        Wrapped.WrappedActivityPatterns.peakHour r = Z.of_nat i).
Proof.
  destruct (getWrappedActivityPatterns_peaks SampleYear.db SampleYear.params
              sampleYear_fourDigits)
    as (r & Hr & (i & h & Hmax & Hpeak & Hhour) & _).
  exists r. split; [ exact Hr | ].
  split; [ vm_compute in Hr; injection Hr as <-; reflexivity | ].
  split; [ vm_compute in Hr; injection Hr as <-; reflexivity | ].
  exists i, h. split; [ exact Hmax | ]. now rewrite Hpeak.
Defined.

(** ** The calendar *)

(** Case analysis on an integer of a small range. *)
Lemma range_cases (lo : Z) (n : nat) (k : Z) :
  lo <= k < lo + Z.of_nat n ->
  In k (map (fun i => lo + Z.of_nat i) (seq 0 n)).
Proof.
  intro Hk. apply in_map_iff. exists (Z.to_nat (k - lo)).
  split; [ lia | apply in_seq; lia ].
Qed.

Ltac range_cases k lo n :=
  let H := fresh "Hrange" in
  assert (H : In k (map (fun i => lo + Z.of_nat i) (seq 0 n)))
    by (apply range_cases; lia);
  simpl in H;
  repeat (destruct H as [H | H]; [ subst k | ]);
  [ .. | destruct H ].

Section CalendarFacts.

Import Calendar CalendarSpec.

(* Linear arithmetic with division and remainder by constants. *)
Ltac lia_div := Z.to_euclidean_division_equations; lia.

Lemma isLeapYear_mod (y : Z) :
  isLeapYear y = true <-> (y mod 4 = 0 /\ y mod 100 <> 0) \/ y mod 400 = 0.
Proof.
  unfold isLeapYear.
  rewrite orb_true_iff, andb_true_iff, negb_true_iff, !Z.eqb_eq, Z.eqb_neq.
  tauto.
Qed.

(** A year has 365 days, a leap year 366. *)
Lemma dayFromYear_succ (y : Z) :
  dayFromYear (y + 1) = dayFromYear y + (if isLeapYear y then 366 else 365).
Proof.
  unfold dayFromYear.
  destruct (isLeapYear y) eqn:E.
  - apply isLeapYear_mod in E. lia_div.
  - assert (H : ~ ((y mod 4 = 0 /\ y mod 100 <> 0) \/ y mod 400 = 0))
      by (rewrite <- isLeapYear_mod; congruence).
    lia_div.
Qed.

Lemma dayFromYear_le (y1 y2 : Z) :
  y1 <= y2 -> dayFromYear y1 <= dayFromYear y2.
Proof.
  intro H. replace y2 with (y1 + Z.of_nat (Z.to_nat (y2 - y1))) by lia.
  induction (Z.to_nat (y2 - y1)) as [ | n IH ].
  - rewrite Z.add_0_r. lia.
  - rewrite Nat2Z.inj_succ.
    replace (y1 + Z.succ (Z.of_nat n)) with (y1 + Z.of_nat n + 1) by lia.
    rewrite dayFromYear_succ. destruct (isLeapYear _); lia.
Qed.

Ltac months m := range_cases m 1 12%nat.

(** The days of a year before a month, counted month by month. *)
Lemma daysBeforeMonth_succ (y m : Z) :
  1 <= m <= 11 ->
  daysBeforeMonth y (m + 1) = daysBeforeMonth y m + daysInMonth y m.
Proof.
  intro Hm. destruct (Z.eq_dec m 12) as [-> | Hne]; [ lia | ].
  range_cases m 1 11%nat;
    unfold daysBeforeMonth, daysInMonth; simpl;
    destruct (isLeapYear y); reflexivity.
Qed.

Lemma daysInMonth_pos (y m : Z) : 1 <= m <= 12 -> 28 <= daysInMonth y m <= 31.
Proof.
  intro Hm. months m; unfold daysInMonth;
    try destruct (isLeapYear y); lia.
Qed.

Lemma daysBeforeMonth_lt (y m1 m2 : Z) :
  1 <= m1 -> m1 < m2 -> m2 <= 12 ->
  daysBeforeMonth y m1 + daysInMonth y m1 <= daysBeforeMonth y m2.
Proof.
  intros H1 H12 H2.
  replace m2 with (m1 + 1 + Z.of_nat (Z.to_nat (m2 - m1 - 1))) by lia.
  assert (Hb : m1 + 1 + Z.of_nat (Z.to_nat (m2 - m1 - 1)) <= 12) by lia.
  induction (Z.to_nat (m2 - m1 - 1)) as [ | n IH ].
  - rewrite Z.add_0_r, daysBeforeMonth_succ by lia. lia.
  - rewrite Nat2Z.inj_succ in *.
    replace (m1 + 1 + Z.succ (Z.of_nat n)) with (m1 + 1 + Z.of_nat n + 1)
      by lia.
    rewrite daysBeforeMonth_succ by lia.
    pose proof (daysInMonth_pos y (m1 + 1 + Z.of_nat n) ltac:(lia)).
    specialize (IH ltac:(lia)). lia.
Qed.

Lemma daysBeforeMonth_bounds (y m : Z) :
  1 <= m <= 12 ->
  0 <= daysBeforeMonth y m /\
  daysBeforeMonth y m + daysInMonth y m
  <= (if isLeapYear y then 366 else 365).
Proof.
  intro Hm. months m; unfold daysBeforeMonth, daysInMonth; simpl;
    destruct (isLeapYear y); lia.
Qed.

(** The day number of a date lies within its year. *)
Lemma dayNumber_in_year (d : CivilDate) :
  calendarDate d ->
  dayFromYear (year d) <= dayNumber d < dayFromYear (year d + 1).
Proof.
  intros [Hm Hd]. unfold dayNumber. rewrite dayFromYear_succ.
  pose proof (daysBeforeMonth_bounds (year d) (month d) Hm). lia.
Qed.

(** Day numbers follow the order of the calendar. *)
Lemma dayNumber_lt (a b : CivilDate) :
  calendarDate a -> calendarDate b -> dateLt a b ->
  dayNumber a < dayNumber b.
Proof.
  intros Ha Hb [Hy | [Hy [Hm | [Hm Hd]]]].
  - pose proof (dayNumber_in_year a Ha). pose proof (dayNumber_in_year b Hb).
    pose proof (dayFromYear_le (year a + 1) (year b) ltac:(lia)). lia.
  - destruct Ha as [Ha1 Ha2], Hb as [Hb1 Hb2]. unfold dayNumber.
    rewrite Hy in *.
    pose proof (daysBeforeMonth_lt (year b) (month a) (month b)
                  ltac:(lia) Hm ltac:(lia)).
    lia.
  - unfold dayNumber. rewrite Hy, Hm. lia.
Qed.

Lemma dateLt_trichotomy (a b : CivilDate) :
  dateLt a b \/ a = b \/ dateLt b a.
Proof.
  unfold dateLt. destruct a as [ya ma da], b as [yb mb db]; simpl.
  destruct (Z.lt_trichotomy ya yb) as [H | [H | H]]; [ lia | | lia ].
  destruct (Z.lt_trichotomy ma mb) as [H' | [H' | H']]; [ lia | | lia ].
  destruct (Z.lt_trichotomy da db) as [H'' | [H'' | H'']]; [ lia | | lia ].
  right. left. congruence.
Qed.

(** The day number determines the date. *)
Lemma dayNumber_inj (a b : CivilDate) :
  calendarDate a -> calendarDate b -> dayNumber a = dayNumber b -> a = b.
Proof.
  intros Ha Hb Heq.
  destruct (dateLt_trichotomy a b) as [H | [H | H]]; [ | exact H | ].
  - pose proof (dayNumber_lt a b Ha Hb H). lia.
  - pose proof (dayNumber_lt b a Hb Ha H). lia.
Qed.

Lemma nextDate_calendarDate (d : CivilDate) :
  calendarDate d -> calendarDate (nextDate d).
Proof.
  intros [Hm Hd]. unfold nextDate, calendarDate.
  destruct (Z.ltb_spec (day d) (daysInMonth (year d) (month d))); simpl.
  - lia.
  - destruct (Z.ltb_spec (month d) 12); simpl.
    + pose proof (daysInMonth_pos (year d) (month d + 1) ltac:(lia)). lia.
    + unfold daysInMonth. lia.
Qed.

(** The next date is the next day. *)
Lemma dayNumber_nextDate (d : CivilDate) :
  calendarDate d -> dayNumber (nextDate d) = dayNumber d + 1.
Proof.
  intros [Hm Hd]. unfold nextDate.
  destruct (Z.ltb_spec (day d) (daysInMonth (year d) (month d))).
  - unfold dayNumber. simpl. lia.
  - destruct (Z.ltb_spec (month d) 12).
    + unfold dayNumber. simpl.
      rewrite daysBeforeMonth_succ by lia. lia.
    + unfold dayNumber. simpl. rewrite dayFromYear_succ.
      assert (month d = 12) as Hm12 by lia. rewrite Hm12 in *.
      unfold daysBeforeMonth, daysInMonth in *. simpl in *.
      destruct (isLeapYear (year d)), (isLeapYear (year d + 1)); simpl; lia.
Qed.

Lemma validDate_calendarDate (d : CivilDate) :
  validDate d = true -> calendarDate d /\ 0 <= year d <= 9999.
Proof.
  unfold validDate, calendarDate.
  rewrite !andb_true_iff, !Z.leb_le. tauto.
Qed.

End CalendarFacts.

(** ** Dates as text *)

Section DateText.

Import Calendar CalendarSpec.

Ltac lia_div := Z.to_euclidean_division_equations; lia.

Ltac digits n := range_cases n 0 10%nat.

Lemma digitOf_digitChar (n : Z) :
  0 <= n <= 9 -> digitOf (digitChar n) = Some n.
Proof. intro Hn. digits n; reflexivity. Qed.

Lemma number2_digitChar (a b : Z) :
  0 <= a <= 9 -> 0 <= b <= 9 ->
  number2 (digitChar a) (digitChar b) = Some (10 * a + b).
Proof.
  intros Ha Hb. unfold number2.
  now rewrite !digitOf_digitChar by assumption.
Qed.

(** JavaScript reads back the date PostgreSQL printed. *)
Lemma parseIsoDate_isoDate (d : CivilDate) :
  validDate d = true -> parseIsoDate (isoDate d) = Some d.
Proof.
  intro Hv. pose proof (validDate_calendarDate d Hv) as [[Hm Hd] Hy].
  pose proof (daysInMonth_pos (year d) (month d) Hm) as Hdim.
  unfold parseIsoDate, isoDate, pad4, pad2.
  cbn [String.append list_ascii_of_string].
  rewrite !number2_digitChar by lia_div.
  replace (100 * (10 * (year d / 100 / 10 mod 10) + year d / 100 mod 10) +
           (10 * (year d / 10 mod 10) + year d mod 10)) with (year d)
    by lia_div.
  replace (10 * (month d / 10 mod 10) + month d mod 10) with (month d)
    by lia_div.
  replace (10 * (day d / 10 mod 10) + day d mod 10) with (day d) by lia_div.
  destruct d as [y m dd]. simpl in *. now rewrite Hv.
Qed.

Lemma getTime_isoDate (d : CivilDate) :
  validDate d = true -> getTime (isoDate d) = Some (dayNumber d * msPerDay).
Proof.
  intro Hv. unfold getTime. now rewrite parseIsoDate_isoDate.
Qed.

Lemma ascii_compare_digitChar (a b : Z) :
  0 <= a <= 9 -> 0 <= b <= 9 ->
  Ascii.compare (digitChar a) (digitChar b) = (a ?= b).
Proof. intros Ha Hb. digits a; digits b; reflexivity. Qed.

Lemma string_compare_app (p1 p2 s1 s2 : string) :
  String.length p1 = String.length p2 ->
  String.compare (p1 ++ s1) (p2 ++ s2) =
  match String.compare p1 p2 with
  | Eq => String.compare s1 s2
  | c => c
  end.
Proof.
  revert p2. induction p1 as [ | c1 p1 IH ]; intros [ | c2 p2 ] Hlen;
    simpl in *; try discriminate; [ reflexivity | ].
  destruct (Ascii.compare c1 c2); try reflexivity.
  apply IH. now injection Hlen.
Qed.

Lemma pad2_compare (m n : Z) :
  0 <= m <= 99 -> 0 <= n <= 99 ->
  String.compare (pad2 m) (pad2 n) = (m ?= n).
Proof.
  intros Hm Hn. unfold pad2. cbn [String.compare].
  rewrite !ascii_compare_digitChar by lia_div.
  destruct (Z.compare_spec (m / 10 mod 10) (n / 10 mod 10)) as [H1 | H1 | H1].
  - destruct (Z.compare_spec (m mod 10) (n mod 10)) as [H2 | H2 | H2];
      symmetry;
      [ apply Z.compare_eq_iff | apply Z.compare_lt_iff
      | apply Z.compare_gt_iff ]; lia_div.
  - symmetry. apply Z.compare_lt_iff. lia_div.
  - symmetry. apply Z.compare_gt_iff. lia_div.
Qed.

Lemma pad2_mod (n : Z) : pad2 n = pad2 (n mod 100).
Proof.
  unfold pad2.
  replace (n mod 100 / 10 mod 10) with (n / 10 mod 10) by lia_div.
  replace (n mod 100 mod 10) with (n mod 10) by lia_div.
  reflexivity.
Qed.


(** The text order of printed dates is the order of the calendar. *)
Lemma isoDate_compare (a b : CivilDate) :
  validDate a = true -> validDate b = true ->
  Js.localeCompare_leb (isoDate a) (isoDate b)
  = (dayNumber a <=? dayNumber b).
Proof.
  intros Hva Hvb.
  pose proof (validDate_calendarDate a Hva) as [Hca Hya].
  pose proof (validDate_calendarDate b Hvb) as [Hcb Hyb].
  pose proof (daysInMonth_pos (year a) (month a) (proj1 Hca)) as Hda.
  pose proof (daysInMonth_pos (year b) (month b) (proj1 Hcb)) as Hdb.
  assert (Hlt : forall x y, calendarDate x -> calendarDate y -> dateLt x y ->
                            (dayNumber x <=? dayNumber y) = true /\
                            (dayNumber y <=? dayNumber x) = false).
  { intros x y Hx Hy Hxy. pose proof (dayNumber_lt x y Hx Hy Hxy).
    split; [ apply Z.leb_le | apply Z.leb_gt ]; lia. }
  unfold Js.localeCompare_leb, Js.localeCompare, isoDate, pad4.
  rewrite string_compare_app by reflexivity.
  rewrite (string_compare_app (pad2 (year a / 100)) (pad2 (year b / 100)))
    by reflexivity.
  rewrite (pad2_mod (year a)), (pad2_mod (year b)).
  rewrite !pad2_compare by lia_div.
  change ("-" ++ pad2 (month a) ++ "-" ++ pad2 (day a))%string
    with (String "-" (pad2 (month a) ++ String "-" (pad2 (day a))))%string.
  change ("-" ++ pad2 (month b) ++ "-" ++ pad2 (day b))%string
    with (String "-" (pad2 (month b) ++ String "-" (pad2 (day b))))%string.
  cbn [String.compare]. change (Ascii.compare "-" "-") with Eq. cbv iota.
  rewrite string_compare_app by reflexivity.
  cbn [String.compare]. change (Ascii.compare "-" "-") with Eq. cbv iota.
  destruct Hca as [Hma Hdda], Hcb as [Hmb Hddb].
  rewrite !pad2_compare by lia.
  destruct (Z.compare_spec (year a / 100) (year b / 100)) as [H1 | H1 | H1].
  - destruct (Z.compare_spec (year a mod 100) (year b mod 100))
      as [H2 | H2 | H2].
    + assert (Hy : year a = year b) by lia_div.
      destruct (Z.compare_spec (month a) (month b)) as [H3 | H3 | H3].
      * destruct (Z.compare_spec (day a) (day b)) as [H4 | H4 | H4].
        -- symmetry. apply Z.leb_le.
           replace a with b; [ lia | ].
           destruct a, b; simpl in *; congruence.
        -- symmetry. apply (Hlt a b); unfold calendarDate, dateLt; lia.
        -- symmetry. apply (Hlt b a); unfold calendarDate, dateLt; lia.
      * symmetry. apply (Hlt a b); unfold calendarDate, dateLt; lia.
      * symmetry. apply (Hlt b a); unfold calendarDate, dateLt; lia.
    + symmetry. apply (Hlt a b); unfold calendarDate, dateLt;
        try lia. left. lia_div.
    + symmetry. apply (Hlt b a); unfold calendarDate, dateLt;
        try lia. left. lia_div.
  - symmetry. apply (Hlt a b); unfold calendarDate, dateLt;
      try lia. left. lia_div.
  - symmetry. apply (Hlt b a); unfold calendarDate, dateLt;
      try lia. left. lia_div.
Qed.

End DateText.

(** ** The streak loop *)

Section StreakLoop.

Import Calendar Wrapped Streak.

(** The indexed loop reads the previous date at [i - 1]. *)
Lemma streakStep_at (pre : list string) (p d : string) (rest : list string)
  (longest current : Z) :
  streakStep (pre ++ p :: d :: rest) (longest, current) (S (List.length pre))
  = (let current' :=
       match diffDays p d with Some 1 => current + 1 | _ => 1 end in
     (Z.max longest current', current')).
Proof.
  unfold streakStep. cbn [Nat.eqb].
  replace (S (List.length pre) - 1)%nat with (List.length pre) by lia.
  rewrite !app_nth2 by lia.
  rewrite Nat.sub_diag.
  replace (S (List.length pre) - List.length pre)%nat with 1%nat by lia.
  reflexivity.
Qed.

Lemma streak_fold (rest : list string) :
  forall (pre : list string) (p : string) (st : Z * Z),
    fold_left (streakStep (pre ++ p :: rest))
      (seq (S (List.length pre)) (List.length rest)) st
    = streakFrom p st rest.
Proof.
  induction rest as [ | d rest IH ]; intros pre p [longest current];
    [ reflexivity | ].
  cbn [List.length seq fold_left streakFrom].
  rewrite streakStep_at. cbv zeta.
  specialize (IH (pre ++ [p]) d).
  rewrite <- app_assoc in IH. cbn [app] in IH.
  rewrite length_app in IH. cbn [List.length] in IH.
  rewrite Nat.add_1_r in IH. apply IH.
Qed.

Lemma longestStreakOf_cons (d : string) (rest : list string) :
  longestStreakOf (d :: rest) = fst (streakFrom d (1, 1) rest).
Proof.
  unfold longestStreakOf. cbn [List.length seq fold_left].
  rewrite (streak_fold rest [] d). reflexivity.
Qed.

(** On printed dates the loop counts steps of one day. *)
Lemma diffDays_isoDate (a b : CivilDate) :
  validDate a = true -> validDate b = true ->
  diffDays (isoDate a) (isoDate b) = Some (dayNumber b - dayNumber a).
Proof.
  intros Ha Hb. unfold diffDays. rewrite !getTime_isoDate by assumption.
  f_equal. unfold msPerDay.
  replace (2 * (dayNumber b * (1000 * 60 * 60 * 24) -
                dayNumber a * (1000 * 60 * 60 * 24)) + 1000 * 60 * 60 * 24)
    with (86400000 + (dayNumber b - dayNumber a) * (2 * 86400000)) by lia.
  rewrite Z.div_add by lia. reflexivity.
Qed.

Lemma streakFrom_dates (rest : list CivilDate) :
  forall (p : CivilDate) (st : Z * Z),
    validDate p = true -> Forall (fun d => validDate d = true) rest ->
    streakFrom (isoDate p) st (map isoDate rest)
    = runFrom (dayNumber p) st (map dayNumber rest).
Proof.
  induction rest as [ | d rest IH ]; intros p st Hp Hrest; [ reflexivity | ].
  inversion Hrest as [ | ? ? Hd Hrest' ]; subst.
  cbn [map streakFrom runFrom]. destruct st as [longest current].
  rewrite diffDays_isoDate by assumption.
  rewrite IH by assumption. f_equal. f_equal.
  - f_equal.
    destruct (Z.eqb_spec (dayNumber d - dayNumber p) 1) as [-> | Hne];
      [ reflexivity | ].
    destruct (dayNumber d - dayNumber p) as [ | [ | | ] | ]; try reflexivity.
    now contradiction Hne.
  - destruct (Z.eqb_spec (dayNumber d - dayNumber p) 1) as [-> | Hne];
      [ reflexivity | ].
    destruct (dayNumber d - dayNumber p) as [ | [ | | ] | ]; try reflexivity.
    now contradiction Hne.
Qed.

Lemma isRun_app (seen : list Z) (n start len : Z) :
  isRun (seen ++ [n]) start len -> start + len - 1 < n ->
  isRun seen start len.
Proof.
  intros Hrun Htop i Hi. specialize (Hrun i Hi).
  apply in_app_or in Hrun. destruct Hrun as [H | [H | []]]; [ exact H | lia ].
Qed.

Lemma isRun_weaken (seen : list Z) (n start len : Z) :
  isRun seen start len -> isRun (seen ++ [n]) start len.
Proof. intros H i Hi. apply in_or_app. left. now apply H. Qed.

Lemma runInvariant_step (seen : list Z) (x n longest current : Z) :
  x < n -> runInvariant seen x longest current ->
  let current' := if n - x =? 1 then current + 1 else 1 in
  runInvariant (seen ++ [n]) n (Z.max longest current') current'.
Proof.
  intros Hxn (Hc & Hrun & Hbelow & Hmax & (start & Hlong) & Hlongest).
  cbv zeta.
  assert (Hcur :
            let current' := if n - x =? 1 then current + 1 else 1 in
            1 <= current' /\
            isRun (seen ++ [n]) (n - current' + 1) current' /\
            ~ In (n - current') (seen ++ [n])).
  { cbv zeta. destruct (Z.eqb_spec (n - x) 1) as [H1 | H1].
    - split; [ lia | split ].
      + intros i Hi. apply in_or_app.
        destruct (Z.eq_dec i current) as [-> | Hne].
        * right. left. lia.
        * left. replace (n - (current + 1) + 1 + i) with (x - current + 1 + i)
            by lia.
          apply Hrun. lia.
      + intro H. apply in_app_or in H. destruct H as [H | [H | []]].
        * apply Hbelow. now replace (x - current) with (n - (current + 1))
            by lia.
        * lia.
    - split; [ lia | split ].
      + intros i Hi. apply in_or_app. right. left. lia.
      + intro H. apply in_app_or in H. destruct H as [H | [H | []]].
        * specialize (Hmax _ H). lia.
        * lia. }
  cbv zeta in Hcur. destruct Hcur as (Hc1 & Hrun' & Hbelow').
  set (current' := if n - x =? 1 then current + 1 else 1) in *.
  split; [ lia | ].
  split; [ exact Hrun' | ].
  split; [ exact Hbelow' | ].
  split.
  { intros y Hy. apply in_app_or in Hy. destruct Hy as [Hy | [Hy | []]].
    - specialize (Hmax y Hy). lia.
    - lia. }
  split.
  - destruct (Z.max_spec longest current') as [[_ ->] | [_ ->]].
    + exists (n - current' + 1). exact Hrun'.
    + exists start. now apply isRun_weaken.
  - intros s len Hs.
    destruct (Z.le_gt_cases len 0) as [Hle | Hpos]; [ lia | ].
    assert (Htop : In (s + (len - 1)) (seen ++ [n])) by (apply Hs; lia).
    apply in_app_or in Htop. destruct Htop as [Htop | [Htop | []]].
    + specialize (Hmax _ Htop).
      assert (Hseen : isRun seen s len) by (apply (isRun_app seen n); [ exact Hs | lia ]).
      specialize (Hlongest _ _ Hseen). lia.
    + destruct (Z.le_gt_cases len current') as [Hle | Hgt]; [ lia | ].
      exfalso. apply Hbelow'.
      replace (n - current') with (s + (len - 1 - current')) by lia.
      apply Hs. lia.
Qed.

Lemma runFrom_longestRun (rest : list Z) :
  forall (seen : list Z) (x longest current : Z),
    runInvariant seen x longest current ->
    StronglySorted Z.lt (x :: rest) ->
    longestRun (seen ++ rest) (fst (runFrom x (longest, current) rest)).
Proof.
  induction rest as [ | n rest IH ]; intros seen x longest current Hinv Hsorted.
  - rewrite app_nil_r. simpl. apply Hinv.
  - cbn [runFrom].
    replace (seen ++ n :: rest) with ((seen ++ [n]) ++ rest)
      by now rewrite <- app_assoc.
    inversion Hsorted as [ | ? ? Hsorted' Hall ]; subst.
    apply IH; [ | exact Hsorted' ].
    apply runInvariant_step; [ | exact Hinv ].
    inversion Hall; assumption.
Qed.

Lemma runInvariant_first (x : Z) : runInvariant [x] x 1 1.
Proof.
  split; [ lia | ].
  split; [ intros i Hi; left; lia | ].
  split; [ intros [H | []]; lia | ].
  split; [ intros y [<- | []]; lia | ].
  split.
  - exists x. intros i Hi. left. lia.
  - intros s len Hs.
    destruct (Z.le_gt_cases len 1) as [Hle | Hgt]; [ exact Hle | ].
    destruct (Hs 0 ltac:(lia)) as [H0 | []].
    destruct (Hs 1 ltac:(lia)) as [H1 | []]. lia.
Qed.

(** The longest streak of an increasing list of valid dates, printed, is
    the length of the longest run of their day numbers. *)
Lemma longestStreakOf_longestRun (dates : list CivilDate) :
  Forall (fun d => validDate d = true) dates ->
  StronglySorted Z.lt (map dayNumber dates) ->
  longestRun (map dayNumber dates) (longestStreakOf (map isoDate dates)).
Proof.
  intros Hvalid Hsorted. destruct dates as [ | d rest ].
  - change (longestStreakOf (map isoDate [])) with 0.
    split; [ exists 0; intros i Hi; lia | ].
    intros s len Hs.
    destruct (Z.le_gt_cases len 0) as [Hle | Hgt]; [ exact Hle | ].
    destruct (Hs 0 ltac:(lia)).
  - inversion Hvalid as [ | ? ? Hd Hrest ]; subst.
    cbn [map]. rewrite longestStreakOf_cons, streakFrom_dates by assumption.
    apply (runFrom_longestRun (map dayNumber rest) [dayNumber d]);
      [ apply runInvariant_first | exact Hsorted ].
Qed.

End StreakLoop.

(** ** The longest streak *)

Section LongestStreak.

Import Calendar CalendarSpec Sql Wrapped Yearly Streak.

Lemma withStartTime_In (rows : list Row) (r : Row) (t : Timestamp) :
  In (r, t) (withStartTime rows) <->
  In r rows /\ sessions.startTime (fst r) = Some t.
Proof.
  unfold withStartTime. rewrite in_flat_map. split.
  - intros (r' & Hr' & Hin).
    destruct (sessions.startTime (fst r')) as [t' | ] eqn:E; [ | destruct Hin ].
    destruct Hin as [[= <- <-] | []]. now split.
  - intros [Hr Ht]. exists r. split; [ exact Hr | ]. rewrite Ht. now left.
Qed.

Lemma sessionsJoinItems_In (db : Database) (s : sessions.row) (it : items.row) :
  In (s, it) (sessionsJoinItems db) <->
  In s (sessionsTable db) /\ In it (itemsTable db) /\
  sessions.itemId s = Some (items.id it).
Proof.
  unfold sessionsJoinItems. rewrite in_flat_map. split.
  - intros (s' & Hs' & Hin). apply in_map_iff in Hin.
    destruct Hin as (it' & [= <- <-] & Hit). apply filter_In in Hit.
    destruct Hit as [Hit Heq]. unfold eqText in Heq.
    destruct (sessions.itemId s') as [i | ]; [ | discriminate ].
    apply String.eqb_eq in Heq. subst. now repeat split.
  - intros (Hs & Hit & Hid). exists s. split; [ exact Hs | ].
    apply in_map, filter_In. split; [ exact Hit | ].
    unfold eqText. rewrite Hid. apply String.eqb_refl.
Qed.

Lemma dateEqb_eq (a b : CivilDate) : dateEqb a b = true <-> a = b.
Proof.
  unfold dateEqb. rewrite !andb_true_iff, !Z.eqb_eq.
  destruct a, b; simpl. split; [ intros [[-> ->] ->] | intros [= -> -> ->] ];
    auto.
Qed.

Variable db : Database.
Variable params : WrappedParams.
Hypothesis wellFormed : wellFormedTimes db.
Hypothesis fourDigits : 1000 <= year params <= 9999.

Let q := qualifying db params.

Lemma qualifying_valid (r : Row * Timestamp) :
  In r q -> validDate (DATE (snd r)) = true.
Proof.
  intro Hr. destruct r as [[s it] t]. unfold q, qualifying in Hr.
  apply withStartTime_In in Hr. destruct Hr as [Hr Ht].
  apply filter_In in Hr. destruct Hr as [Hr _].
  apply sessionsJoinItems_In in Hr. destruct Hr as (Hs & _ & _).
  pose proof (wellFormed s t Hs Ht) as Hv. unfold validTimestamp in Hv.
  rewrite !andb_true_iff in Hv. apply Hv.
Qed.

(** The active dates in calendar order, each once. *)
Let days : list CivilDate :=
  Js.sort (fun a b => dayNumber a <=? dayNumber b)
    (distinct dateEqb (map (fun r => DATE (snd r)) q)).

Lemma days_active (d : CivilDate) : In d days <-> activeOn db params d.
Proof.
  unfold days, activeOn. fold q.
  rewrite sort_In, (distinct_In dateEqb dateEqb_eq), in_map_iff.
  split; intros (r & H1 & H2); exists r; tauto.
Qed.

Lemma days_valid : Forall (fun d => validDate d = true) days.
Proof.
  apply Forall_forall. intros d Hd. apply days_active in Hd.
  destruct Hd as (r & Hr & <-). now apply qualifying_valid.
Qed.

Lemma days_increasing : StronglySorted Z.lt (map dayNumber days).
Proof.
  assert (Hnd : NoDup days).
  { unfold days. eapply Permutation_NoDup; [ apply sort_perm | ].
    apply distinct_NoDup, dateEqb_eq. }
  assert (Hs : StronglySorted (lebRel (fun a b => dayNumber a <=? dayNumber b))
                 days).
  { apply Sorted_StronglySorted.
    - intros a b c Hab Hbc. unfold lebRel in *.
      apply Z.leb_le in Hab, Hbc. apply Z.leb_le. lia.
    - unfold days. apply sort_sorted. intros a b.
      destruct (Z.leb_spec (dayNumber a) (dayNumber b)); [ now left | right ].
      apply Z.leb_le. lia. }
  pose proof days_valid as Hv.
  induction days as [ | d l IH ]; simpl; [ constructor | ].
  inversion Hnd as [ | ? ? Hnotin Hnd' ]; subst.
  inversion Hs as [ | ? ? Hs' Hall ]; subst.
  inversion Hv as [ | ? ? Hd Hv' ]; subst.
  constructor; [ now apply IH | ].
  apply Forall_map, Forall_forall. intros e He.
  rewrite Forall_forall in Hall, Hv'.
  specialize (Hall e He). unfold lebRel in Hall. apply Z.leb_le in Hall.
  destruct (Z.eq_dec (dayNumber d) (dayNumber e)) as [Heq | Hne]; [ | lia ].
  exfalso. apply Hnotin.
  rewrite (dayNumber_inj d e); [ exact He | | | exact Heq ];
    apply validDate_calendarDate; [ exact Hd | now apply Hv' ].
Qed.

(** The dates the streak loop traverses. *)
Lemma sortedDates_days :
  Js.sort Js.localeCompare_leb (map DayActivity.date (calendarHeatmapOf q))
  = map isoDate days.
Proof.
  unfold calendarHeatmapOf. cbv zeta. rewrite map_map.
  cbn [DayActivity.date].
  rewrite <- (map_map statKey isoDate).
  unfold orderBy.
  rewrite <- (sort_map
                (fun a b : Stat CivilDate =>
                   dayNumber (statKey a) <=? dayNumber (statKey b))
                (fun a b => dayNumber a <=? dayNumber b) statKey)
    by reflexivity.
  rewrite map_map. cbn [statKey aggregate].
  rewrite <- (map_map fst (fun k : CivilDate => k)), map_id.
  rewrite (groupBy_keys dateEqb (fun r : Row * Timestamp => DATE (snd r)) q).
  fold days.
  rewrite (sort_map (fun a b => dayNumber a <=? dayNumber b)
             Js.localeCompare_leb isoDate).
  - f_equal. apply sort_sorted_id. unfold days. apply sort_sorted.
    intros a b.
    destruct (Z.leb_spec (dayNumber a) (dayNumber b)); [ now left | right ].
    apply Z.leb_le. lia.
  - intros a b Ha Hb. pose proof days_valid as Hv.
    rewrite Forall_forall in Hv. apply isoDate_compare; now apply Hv.
Qed.

Lemma iter_nextDate_active (d : CivilDate) (n : nat) :
  activeRun db params d n ->
  forall i, (i < n)%nat ->
            dayNumber (Nat.iter i nextDate d) = dayNumber d + Z.of_nat i.
Proof.
  intros Hrun i. induction i as [ | i IH ]; intro Hi.
  - simpl. lia.
  - rewrite Nat.iter_succ, dayNumber_nextDate.
    + rewrite IH by lia. lia.
    + destruct (Hrun i ltac:(lia)) as (r & Hr & Hd).
      pose proof (qualifying_valid r Hr) as Hv. rewrite Hd in Hv.
      now apply validDate_calendarDate.
Qed.

Lemma activeRun_isRun (d : CivilDate) (n : nat) :
  activeRun db params d n ->
  isRun (map dayNumber days) (dayNumber d) (Z.of_nat n).
Proof.
  intros Hrun i Hi.
  replace i with (Z.of_nat (Z.to_nat i)) by lia.
  rewrite <- (iter_nextDate_active d n Hrun) by lia.
  apply in_map, days_active, Hrun. lia.
Qed.

Lemma isRun_activeRun (start : Z) (n : nat) :
  isRun (map dayNumber days) start (Z.of_nat n) ->
  exists d, activeRun db params d n.
Proof.
  intro Hrun. destruct n as [ | n ].
  - exists (mkDate 2000 1 1). intros i Hi. lia.
  - destruct (proj1 (in_map_iff _ _ _) (Hrun 0 ltac:(lia)))
      as (d & Hd & Hin).
    exists d.
    assert (Hall : forall i, (i < S n)%nat ->
                     activeOn db params (Nat.iter i nextDate d) /\
                     dayNumber (Nat.iter i nextDate d) = start + Z.of_nat i).
    { induction i as [ | i IH ]; intro Hi.
      - simpl. split; [ now apply days_active | lia ].
      - destruct (IH ltac:(lia)) as [Hact Hnum].
        assert (Hcal : calendarDate (Nat.iter i nextDate d)).
        { destruct Hact as (r & Hr & Hdr).
          pose proof (qualifying_valid r Hr) as Hv. rewrite Hdr in Hv.
          now apply validDate_calendarDate. }
        destruct (proj1 (in_map_iff _ _ _) (Hrun (Z.of_nat (S i)) ltac:(lia)))
          as (e & He & Hine).
        assert (Hecal : calendarDate e).
        { pose proof days_valid as Hv. rewrite Forall_forall in Hv.
          now apply validDate_calendarDate, Hv. }
        rewrite Nat.iter_succ.
        assert (Heq : nextDate (Nat.iter i nextDate d) = e).
        { apply dayNumber_inj;
            [ now apply nextDate_calendarDate | exact Hecal | ].
          rewrite dayNumber_nextDate by exact Hcal. lia. }
        rewrite Heq. split; [ now apply days_active | lia ]. }
    intros i Hi. now apply Hall.
Qed.

(** C1: for a year written with four digits the call returns, and the
    longest streak is the length of the longest run of consecutive
    calendar dates on each of which the user has a qualifying session: some
    run of that many dates is active, and no run of active dates is longer;
    it is 0 when no date is active and 1 when no two active dates are
    adjacent. *)
Theorem getWrappedActivityPatterns_longestStreak :
  exists r,
    getWrappedActivityPatterns db params = Some r /\
    let k := WrappedActivityPatterns.longestStreak r in
    0 <= k /\
    (exists d, activeRun db params d (Z.to_nat k)) /\
    (forall d n, activeRun db params d n -> Z.of_nat n <= k) /\
    ((forall d, ~ activeOn db params d) -> k = 0) /\
    ((exists d, activeOn db params d) ->
     (forall d, activeOn db params d -> ~ activeOn db params (nextDate d)) ->
     k = 1).
Proof.
  destruct (getWrappedActivityPatterns_returns db params fourDigits)
    as (ih & iw & im & ph & pw & pm & _ & _ & _ & Hr).
  eexists. split; [ exact Hr | ].
  cbn [WrappedActivityPatterns.longestStreak]. fold q.
  rewrite sortedDates_days.
  destruct (longestStreakOf_longestRun days days_valid days_increasing)
    as [[start Hrun] Hlongest].
  set (k := longestStreakOf (map isoDate days)) in *.
  cbv zeta.
  assert (Hupper : forall d n, activeRun db params d n -> Z.of_nat n <= k).
  { intros d n Hd. apply (Hlongest (dayNumber d)). now apply activeRun_isRun. }
  assert (Hk0 : 0 <= k).
  { apply (Hupper (mkDate 2000 1 1) 0%nat). intros i Hi. lia. }
  assert (Hex : exists d, activeRun db params d (Z.to_nat k)).
  { apply (isRun_activeRun start). now rewrite Z2Nat.id. }
  split; [ exact Hk0 | ].
  split; [ exact Hex | ].
  split; [ exact Hupper | ].
  split.
  - intro Hnone. destruct Hex as [d Hd].
    destruct (Z.eq_dec k 0) as [Hz | Hnz]; [ exact Hz | ].
    exfalso. apply (Hnone (Nat.iter 0 nextDate d)). apply Hd. lia.
  - intros [d Hd] Hapart.
    assert (H1 : 1 <= k).
    { apply (Hupper d 1%nat). intros i Hi.
      replace i with 0%nat by lia. exact Hd. }
    destruct Hex as [e He].
    destruct (Z.eq_dec k 1) as [Hone | Hmore]; [ exact Hone | ].
    exfalso. apply (Hapart (Nat.iter 0 nextDate e)).
    + apply He. lia.
    + apply (He 1%nat). lia.
Qed.

End LongestStreak.

(** The sample year is well formed. *)
Lemma sampleYear_wellFormed : Yearly.wellFormedTimes SampleYear.db.
Proof.
  intros s t Hin Hs. simpl in Hin.
  repeat (destruct Hin as [<- | Hin]; [ injection Hs as <-; reflexivity | ]).
  destruct Hin.
Qed.

(** The witness of C1: in the sample year the longest streak is 3, the run
    from February 29 to March 2. *)
Lemma getWrappedActivityPatterns_longestStreak_witness :
  exists r,
    Wrapped.getWrappedActivityPatterns SampleYear.db SampleYear.params = Some r /\
    Wrapped.WrappedActivityPatterns.longestStreak r = 3 /\
    (exists d,
        Yearly.activeRun SampleYear.db SampleYear.params d
          (Z.to_nat (Wrapped.WrappedActivityPatterns.longestStreak r))) /\
    (forall d n,
        Yearly.activeRun SampleYear.db SampleYear.params d n ->
        Z.of_nat n <= 3).
Proof.
  destruct (getWrappedActivityPatterns_longestStreak SampleYear.db
              SampleYear.params sampleYear_wellFormed sampleYear_fourDigits)
    as (r & Hr & _ & Hrun & Hmax & _).
  assert (H3 : Wrapped.WrappedActivityPatterns.longestStreak r = 3).
  { vm_compute in Hr. injection Hr as <-. reflexivity. }
  exists r. rewrite H3 in Hmax.
  split; [ exact Hr | split; [ exact H3 | split; [ exact Hrun | exact Hmax ]]].
Defined.

(** ** Rewatch statistics *)

Section Rewatch.

Import Sql Wrapped Yearly.

Lemma optStringEqb_eq (a b : option string) : optStringEqb a b = true <-> a = b.
Proof.
  destruct a as [x | ], b as [y | ]; simpl; rewrite ?String.eqb_eq;
    split; congruence.
Qed.

Lemma optZEqb_eq (a b : option Z) : optZEqb a b = true <-> a = b.
Proof.
  destruct a as [x | ], b as [y | ]; simpl; rewrite ?Z.eqb_eq;
    split; congruence.
Qed.

Lemma playedItemEqb_eq (a b : PlayedItem) : playedItemEqb a b = true <-> a = b.
Proof.
  unfold playedItemEqb.
  rewrite !andb_true_iff, !optStringEqb_eq, !String.eqb_eq, optZEqb_eq.
  destruct a, b; simpl. split.
  - intros [[[[[-> ->] ->] ->] ->] ->]. reflexivity.
  - intros [= -> -> -> -> -> ->]. repeat split.
Qed.

Lemma fold_left_add {A : Type} (f : A -> Z) (l : list A) :
  forall a, fold_left (fun acc x => acc + f x) l a = a + sum f l.
Proof.
  induction l as [ | x l IH ]; intro a; simpl; [ lia | ].
  rewrite IH. lia.
Qed.

(** An ORDER BY on a number, descending. *)
Lemma orderBy_desc_sorted {A : Type} (f : A -> Z) (l : list A) :
  StronglySorted (fun a b => f b <= f a)
    (orderBy (fun a b => f b <=? f a) l).
Proof.
  apply Sorted_StronglySorted; [ intros a b c Hab Hbc; lia | ].
  assert (Hs : Sorted (lebRel (fun a b => f b <=? f a))
                 (Js.sort (fun a b => f b <=? f a) l)).
  { apply sort_sorted. intros a b.
    destruct (Z.leb_spec (f b) (f a)); [ now left | right ].
    apply Z.leb_le. lia. }
  unfold orderBy.
  induction Hs as [ | x s Hs' IH Hhd ]; constructor; [ exact IH | ].
  destruct Hhd as [ | y s' Hxy ]; constructor.
  unfold lebRel in Hxy. now apply Z.leb_le in Hxy.
Qed.

Lemma NoDup_map_In_inj {A B : Type} (f : A -> B) (l : list A) (a b : A) :
  NoDup (map f l) -> In a l -> In b l -> f a = f b -> a = b.
Proof.
  induction l as [ | x l IH ]; intros Hnd Ha Hb Hf; [ destruct Ha | ].
  simpl in Hnd. inversion Hnd as [ | ? ? Hnotin Hnd' ]; subst.
  destruct Ha as [-> | Ha], Hb as [-> | Hb].
  - reflexivity.
  - exfalso. apply Hnotin. rewrite Hf. now apply in_map.
  - exfalso. apply Hnotin. rewrite <- Hf. now apply in_map.
  - now apply IH.
Qed.

Variable db : Database.
Variable params : WrappedParams.
Hypothesis itemsKey : uniqueItemIds db.

Let rows := qualifyingRows db params.

Lemma rows_joined (r : Row) :
  In r rows -> In r (sessionsJoinItems db).
Proof. intro H. unfold rows, qualifyingRows in H. now apply filter_In in H. Qed.

(** Rows of the same item carry the same item columns. *)
Lemma rows_same_item (r1 r2 : Row) :
  In r1 rows -> In r2 rows ->
  sessions.itemId (fst r1) = sessions.itemId (fst r2) ->
  playedItemOf r1 = playedItemOf r2.
Proof.
  intros H1 H2 Hid.
  apply rows_joined in H1. apply rows_joined in H2.
  destruct r1 as [s1 it1], r2 as [s2 it2].
  apply sessionsJoinItems_In in H1. apply sessionsJoinItems_In in H2.
  destruct H1 as (_ & Hit1 & Hid1), H2 as (_ & Hit2 & Hid2). simpl in *.
  assert (it1 = it2).
  { apply (NoDup_map_In_inj items.id (itemsTable db)); try assumption.
    congruence. }
  subst. unfold playedItemOf. simpl. now rewrite Hid.
Qed.

(** The group of a played item holds the sessions on that item. *)
Lemma group_of_item (r0 : Row) (iid : string) :
  In r0 rows -> sessions.itemId (fst r0) = Some iid ->
  filter (fun r => playedItemEqb (playedItemOf r0) (playedItemOf r)) rows
  = filter (fun r => eqText (sessions.itemId (fst r)) iid) rows.
Proof.
  intros H0 Hid. apply filter_ext_in. intros r Hr.
  unfold eqText.
  destruct (sessions.itemId (fst r)) as [i | ] eqn:E.
  - destruct (String.eqb_spec i iid) as [-> | Hne].
    + apply playedItemEqb_eq, rows_same_item;
        [ exact H0 | exact Hr | congruence ].
    + destruct (playedItemEqb (playedItemOf r0) (playedItemOf r)) eqn:Eq;
        [ | reflexivity ].
      apply playedItemEqb_eq in Eq.
      assert (Hk : playedItemId (playedItemOf r0) = playedItemId (playedItemOf r))
        by now rewrite Eq.
      simpl in Hk. congruence.
  - destruct (playedItemEqb (playedItemOf r0) (playedItemOf r)) eqn:Eq;
      [ | reflexivity ].
    apply playedItemEqb_eq in Eq.
    assert (Hk : playedItemId (playedItemOf r0) = playedItemId (playedItemOf r))
      by now rewrite Eq.
    simpl in Hk. congruence.
Qed.

Let counts := itemPlayCountsOf rows.

Lemma counts_In (c : Stat PlayedItem) :
  In c counts <->
  exists r0,
    In r0 rows /\
    c = aggregate duration
          (playedItemOf r0,
           filter (fun r => playedItemEqb (playedItemOf r0) (playedItemOf r))
             rows) /\
    1 < statPlayCount c.
Proof.
  unfold counts, itemPlayCountsOf, orderBy.
  rewrite sort_In, filter_In, in_map_iff. split.
  - intros [(g & <- & Hg) Hgt].
    apply (groupBy_In playedItemEqb playedItemEqb_eq) in Hg.
    destruct Hg as [Hk Hrows]. apply in_map_iff in Hk.
    destruct Hk as (r0 & Hr0 & Hin). exists r0.
    split; [ exact Hin | ]. apply Z.gtb_lt in Hgt.
    split; [ | exact Hgt ].
    destruct g as [k rs]. simpl in *. subst. reflexivity.
  - intros (r0 & Hin & -> & Hgt). split; [ | now apply Z.gtb_lt ].
    eexists. split; [ reflexivity | ].
    apply (groupBy_In playedItemEqb playedItemEqb_eq). simpl.
    split; [ now apply in_map | reflexivity ].
Qed.

Lemma rows_itemId (r : Row) :
  In r rows -> sessions.itemId (fst r) = Some (items.id (snd r)).
Proof.
  intro H. apply rows_joined in H. destruct r as [s it].
  now apply sessionsJoinItems_In in H.
Qed.

(** The rewatched items are exactly the items with more than one
    qualifying session, each once. *)
Lemma counts_items :
  (forall c,
      In c counts ->
      exists iid,
        playedItemId (statKey c) = Some iid /\
        statPlayCount c = playsOfItem iid rows /\
        1 < playsOfItem iid rows) /\
  (forall iid,
      1 < playsOfItem iid rows ->
      exists c, In c counts /\ playedItemId (statKey c) = Some iid) /\
  NoDup (map (fun c => playedItemId (statKey c)) counts).
Proof.
  split; [ | split ].
  - intros c Hc. apply counts_In in Hc. destruct Hc as (r0 & Hin & -> & Hgt).
    exists (items.id (snd r0)). pose proof (rows_itemId r0 Hin) as Hid.
    split; [ exact Hid | ].
    unfold aggregate in *. cbn [statPlayCount fst snd] in *.
    rewrite (group_of_item r0 _ Hin Hid) in *. unfold playsOfItem.
    split; [ reflexivity | exact Hgt ].
  - intros iid Hgt. unfold playsOfItem in Hgt.
    destruct (filter (fun r => eqText (sessions.itemId (fst r)) iid) rows)
      as [ | r0 rest ] eqn:E; [ unfold count in Hgt; simpl in Hgt; lia | ].
    assert (Hr0 : In r0 (filter (fun r => eqText (sessions.itemId (fst r)) iid)
                            rows)) by (rewrite E; now left).
    apply filter_In in Hr0. destruct Hr0 as [Hin Heq].
    unfold eqText in Heq.
    destruct (sessions.itemId (fst r0)) as [i | ] eqn:Hid; [ | discriminate ].
    apply String.eqb_eq in Heq. subst i.
    eexists. split.
    + apply counts_In. exists r0. split; [ exact Hin | ].
      split; [ reflexivity | ].
      unfold aggregate. cbn [statPlayCount fst snd].
      rewrite (group_of_item r0 iid Hin Hid), E. exact Hgt.
    + simpl. exact Hid.
  - assert (Hperm :
              Permutation
                (filter (fun s => statPlayCount s >? 1)
                   (map (aggregate duration)
                      (groupBy playedItemEqb playedItemOf rows)))
                counts) by apply sort_perm.
    eapply Permutation_NoDup; [ apply Permutation_map, Hperm | ].
    clear Hperm.
    assert (Hg : forall g, In g (groupBy playedItemEqb playedItemOf rows) ->
                   exists r0, In r0 rows /\ fst g = playedItemOf r0).
    { intros g Hg. apply (groupBy_In playedItemEqb playedItemEqb_eq) in Hg.
      destruct Hg as [Hk _]. apply in_map_iff in Hk.
      destruct Hk as (r0 & Hr0 & Hin). now exists r0. }
    pose proof (distinct_NoDup playedItemEqb playedItemEqb_eq
                  (map playedItemOf rows)) as Hnd.
    rewrite <- (groupBy_keys playedItemEqb playedItemOf rows) in Hnd.
    induction (groupBy playedItemEqb playedItemOf rows) as [ | g gs IH ];
      cbn [map filter]; [ constructor | ].
    simpl in Hnd. inversion Hnd as [ | ? ? Hnotin Hnd' ]; subst.
    assert (IH' := IH (fun g' Hg' => Hg g' (or_intror Hg')) Hnd').
    destruct (statPlayCount (aggregate duration g) >? 1); [ | exact IH' ].
    cbn [map]. constructor; [ | exact IH' ].
    intro Hin. apply in_map_iff in Hin. destruct Hin as (c & Hc & Hcin).
    apply filter_In in Hcin. destruct Hcin as [Hcin _].
    apply in_map_iff in Hcin. destruct Hcin as (g' & <- & Hg').
    simpl in Hc. apply Hnotin.
    destruct (Hg g (or_introl eq_refl)) as (r1 & Hr1 & Hk1).
    destruct (Hg g' (or_intror Hg')) as (r2 & Hr2 & Hk2).
    rewrite Hk1. rewrite Hk1, Hk2 in Hc. simpl in Hc.
    rewrite <- (rows_same_item r2 r1 Hr2 Hr1 Hc), <- Hk2.
    now apply in_map.
Qed.

End Rewatch.

(** Below a total of 40 the double-precision percentage is the exactly
    rounded one; 23 of 40 is the first pair on which they differ. *)
Lemma roundedPercent_exact_below_40 :
  forallb
    (fun b =>
       forallb
         (fun a =>
            PrimFloat.eqb (Js.roundedPercent a b)
              (Js.Number_of_Z (Yearly.exactRoundedPercent a b)))
         (Wrapped.upTo (S (Z.to_nat b))))
    (map (fun b => b + 1) (Wrapped.upTo 39))
  = true.
Proof. vm_compute. reflexivity. Qed.

Lemma roundedPercent_23_of_40 :
  Js.roundedPercent 23 40 = Js.Number_of_Z 57 /\
  Yearly.exactRoundedPercent 23 40 = 58.
Proof. split; vm_compute; reflexivity. Qed.

Section RewatchClaim.

Import Sql Wrapped Yearly.

Variable db : Database.
Variable params : WrappedParams.
Hypothesis itemsKey : uniqueItemIds db.

(** C4 (amended): the rewatched items are exactly the items with more than
    one qualifying session, each with its play count, most played first;
    [totalRewatches] is the sum of (play count - 1) over them;
    [rewatchPercentage] is [Math.round((totalRewatches / totalPlays) * 100)]
    evaluated in double precision, and 0 when there is no play;
    [mostRewatchedItem] is the first of them, an item of the highest play
    count, with [rewatchCount] its play count minus one, and null when there
    is none; [topRewatchedItems] are the first five of them, in descending
    order of play count. *)
Theorem getWrappedRewatchStats_rewatched_items :
  let rows := qualifyingRows db params in
  let counts := itemPlayCountsOf rows in
  let r := getWrappedRewatchStats db params in
  (forall c,
      In c counts ->
      exists iid,
        playedItemId (statKey c) = Some iid /\
        statPlayCount c = playsOfItem iid rows /\
        1 < playsOfItem iid rows) /\
  (forall iid,
      1 < playsOfItem iid rows ->
      exists c, In c counts /\ playedItemId (statKey c) = Some iid) /\
  NoDup (map (fun c => playedItemId (statKey c)) counts) /\
  StronglySorted (fun a b => statPlayCount b <= statPlayCount a) counts /\
  RewatchStats.totalRewatches r = sum (fun c => statPlayCount c - 1) counts /\
  RewatchStats.rewatchPercentage r
  = (if count rows >? 0
     then Js.roundedPercent (RewatchStats.totalRewatches r) (count rows)
     else Js.Number_of_Z 0) /\
  (count rows = 0 -> RewatchStats.rewatchPercentage r = Js.Number_of_Z 0) /\
  match hd_error counts with
  | None => RewatchStats.mostRewatchedItem r = None
  | Some top =>
      exists m,
        RewatchStats.mostRewatchedItem r = Some m /\
        MostRewatched.itemId m = orEmpty (playedItemId (statKey top)) /\
        MostRewatched.rewatchCount m = statPlayCount top - 1 /\
        forall c, In c counts -> statPlayCount c <= statPlayCount top
  end /\
  (List.length (RewatchStats.topRewatchedItems r) <= 5)%nat /\
  map (fun t =>
         (RewatchedItem.itemId t, RewatchedItem.playCount t,
          RewatchedItem.totalWatchTimeSeconds t))
    (RewatchStats.topRewatchedItems r)
  = map (fun c =>
           (orEmpty (playedItemId (statKey c)), statPlayCount c,
            statWatchTimeSeconds c))
      (firstn 5 counts) /\
  StronglySorted
    (fun a b => RewatchedItem.playCount b <= RewatchedItem.playCount a)
    (RewatchStats.topRewatchedItems r).
Proof.
  intros rows counts r.
  destruct (counts_items db params itemsKey) as (Hitems & Hall & Hnd).
  fold rows in Hitems, Hall, Hnd. fold counts in Hitems, Hall, Hnd.
  assert (Hsorted : StronglySorted (fun a b => statPlayCount b <= statPlayCount a)
                      counts).
  { unfold counts, itemPlayCountsOf, byCountDesc.
    apply (orderBy_desc_sorted statPlayCount). }
  split; [ exact Hitems | ]. split; [ exact Hall | ]. split; [ exact Hnd | ].
  split; [ exact Hsorted | ].
  subst r. unfold getWrappedRewatchStats. cbv zeta.
  fold (qualifyingRows db params). fold rows. fold counts.
  cbn [RewatchStats.totalRewatches RewatchStats.rewatchPercentage
         RewatchStats.mostRewatchedItem RewatchStats.topRewatchedItems].
  split; [ rewrite fold_left_add; lia | ].
  split; [ reflexivity | ].
  split; [ intros ->; reflexivity | ].
  split.
  - destruct counts as [ | top rest ] eqn:E; [ reflexivity | ].
    cbn [hd_error]. eexists. split; [ reflexivity | ].
    cbn [MostRewatched.itemId MostRewatched.rewatchCount].
    split; [ reflexivity | split; [ reflexivity | ] ].
    intros c [<- | Hc]; [ lia | ].
    inversion Hsorted as [ | ? ? _ Hle ]; subst.
    rewrite Forall_forall in Hle. now apply Hle.
  - split; [ | split ].
    + rewrite length_map. unfold Js.slice0. apply firstn_le_length.
    + rewrite map_map. reflexivity.
    + unfold Js.slice0.
      assert (Hfirst : StronglySorted
                         (fun a b => statPlayCount b <= statPlayCount a)
                         (firstn 5 counts)).
      { clear - Hsorted. revert Hsorted. generalize 5%nat.
        induction counts as [ | c cs IH ]; intros n Hs; destruct n; simpl;
          try constructor.
        - inversion Hs; subst. now apply IH.
        - inversion Hs as [ | ? ? _ Hle ]; subst.
          rewrite Forall_forall in *. intros x Hx. apply Hle.
          rewrite <- (firstn_skipn n cs). apply in_or_app. now left. }
      induction Hfirst as [ | c cs Hcs IH Hle ]; simpl; constructor;
        [ exact IH | ].
      apply Forall_map. exact Hle.
Qed.

End RewatchClaim.

Lemma sampleYear_uniqueItemIds : Yearly.uniqueItemIds SampleYear.db.
Proof. repeat constructor. intros []. Qed.

(** The witness of C4: in the sample year the one movie was played six
    times, five of them rewatches, 83 percent of the plays. *)
Lemma getWrappedRewatchStats_rewatched_items_witness :
  Wrapped.RewatchStats.totalRewatches
    (Wrapped.getWrappedRewatchStats SampleYear.db SampleYear.params) = 5 /\
  Wrapped.RewatchStats.rewatchPercentage
    (Wrapped.getWrappedRewatchStats SampleYear.db SampleYear.params)
  = Js.Number_of_Z 83 /\
  (List.length
     (Wrapped.RewatchStats.topRewatchedItems
        (Wrapped.getWrappedRewatchStats SampleYear.db SampleYear.params))
   <= 5)%nat.
Proof.
  destruct (getWrappedRewatchStats_rewatched_items SampleYear.db
              SampleYear.params sampleYear_uniqueItemIds)
    as (_ & _ & _ & _ & Htotal & Hpct & _ & _ & Hlen & _).
  split; [ rewrite Htotal; vm_compute; reflexivity | ].
  split; [ rewrite Hpct; vm_compute; reflexivity | exact Hlen ].
Defined.

(** The counterexample of C4: of forty plays 23 are rewatches, 57.5
    percent; the call reports 57 where the rounded percentage is 58, in
    exact arithmetic and in double precision with the product taken
    first. *)
Lemma getWrappedRewatchStats_forty_plays :
  let r := Wrapped.getWrappedRewatchStats FortyPlays.db FortyPlays.params in
  Wrapped.WrappedOverview.totalPlays
    (Wrapped.getWrappedOverview FortyPlays.db FortyPlays.params) = 40 /\
  Wrapped.RewatchStats.totalRewatches r = 23 /\
  Wrapped.RewatchStats.rewatchPercentage r = Js.Number_of_Z 57 /\
  Yearly.exactRoundedPercent 23 40 = 58 /\
  Yearly.scaledFirstPercent 23 40 = Js.Number_of_Z 58 /\
  Wrapped.RewatchStats.rewatchPercentage r
  <> Js.Number_of_Z (Yearly.exactRoundedPercent 23 40).
Proof.
  cbv zeta.
  assert (Hpct : Wrapped.RewatchStats.rewatchPercentage
                   (Wrapped.getWrappedRewatchStats FortyPlays.db
                      FortyPlays.params) = Js.Number_of_Z 57)
    by (vm_compute; reflexivity).
  split; [ vm_compute; reflexivity | ].
  split; [ vm_compute; reflexivity | ].
  split; [ exact Hpct | ].
  split; [ reflexivity | ].
  split; [ vm_compute; reflexivity | ].
  rewrite Hpct. vm_compute. intro H.
  assert (Hb : PrimFloat.eqb 57 58 = true) by (rewrite H at 1; reflexivity).
  vm_compute in Hb. discriminate.
Qed.

(** ** Genre percentiles *)

Section GroupedSelect.

Import Sql Wrapped.

Context {R K : Type} (eqb : K -> K -> bool) (key : R -> K) (seconds : R -> Z).
Hypothesis eqb_spec : forall a b, eqb a b = true <-> a = b.

Let stats (rows : list R) : list (Stat K) :=
  map (aggregate seconds) (groupBy eqb key rows).

Lemma grouped_keys (rows : list R) :
  map statKey (stats rows) = distinct eqb (map key rows).
Proof.
  unfold stats. rewrite map_map. cbn [statKey aggregate].
  apply (groupBy_keys eqb key rows).
Qed.

Lemma grouped_keys_NoDup (rows : list R) : NoDup (map statKey (stats rows)).
Proof. rewrite grouped_keys. now apply distinct_NoDup. Qed.

Lemma grouped_key_In (rows : list R) (k : K) :
  In k (map statKey (stats rows)) <-> In k (map key rows).
Proof. rewrite grouped_keys. now apply distinct_In. Qed.

Lemma grouped_In (rows : list R) (s : Stat K) :
  In s (stats rows) ->
  statWatchTimeSeconds s
  = sum seconds (filter (fun r => eqb (statKey s) (key r)) rows) /\
  statPlayCount s = count (filter (fun r => eqb (statKey s) (key r)) rows).
Proof.
  unfold stats. intro Hs. apply in_map_iff in Hs.
  destruct Hs as (g & <- & Hg). apply (groupBy_In eqb eqb_spec) in Hg.
  destruct Hg as [_ Hrows]. unfold aggregate. cbn [statKey statWatchTimeSeconds
                                                    statPlayCount].
  now rewrite Hrows.
Qed.

End GroupedSelect.

Section PermutationInvariants.

Lemma filter_length_perm {A : Type} (p : A -> bool) (l l' : list A) :
  Permutation l l' ->
  List.length (filter p l) = List.length (filter p l').
Proof.
  induction 1 as [ | x l l' _ IH | x y l | l l' l'' _ IH1 _ IH2 ]; simpl.
  - reflexivity.
  - destruct (p x); simpl; now rewrite IH.
  - destruct (p x), (p y); reflexivity.
  - now rewrite IH1.
Qed.

Lemma sum_perm {A : Type} (f : A -> Z) (l l' : list A) :
  Permutation l l' -> Sql.sum f l = Sql.sum f l'.
Proof.
  induction 1 as [ | x l l' _ IH | x y l | l l' l'' _ IH1 _ IH2 ]; simpl;
    lia.
Qed.

End PermutationInvariants.

Section GenrePercentiles.

Import Sql Wrapped Genres.

Variable db : Database.
Variable params : WrappedParams.

Let userStats := userGenreStats db params.
Let cohort := cohortStats db params.

Lemma userGenreEqb_eq (a b : option string * string) :
  userGenreEqb a b = true <-> a = b.
Proof.
  unfold userGenreEqb. rewrite andb_true_iff, optStringEqb_eq, String.eqb_eq.
  destruct a, b; simpl. split; [ intros [-> ->] | intros [= -> ->] ]; auto.
Qed.

Lemma getWrappedGenrePercentiles_unfold :
  getWrappedGenrePercentiles db params =
  map (genrePercentile cohort (option_map statKey (hd_error userStats)))
    (firstn 5 userStats).
Proof.
  unfold getWrappedGenrePercentiles. cbv zeta.
  change (genreStatsOf
            (where_
               (and_
                  (userWhereConditions
                     (Exclusions.getStatisticsExclusions db (serverId params))
                     params))
               (sessionsJoinItems db)))
    with userStats.
  change (allUsersGenreStatsOf
            (where_
               (and_
                  (serverWhereConditions
                     (Exclusions.getStatisticsExclusions db (serverId params))
                     params))
               (sessionsJoinItems db)))
    with cohort.
  destruct userStats; reflexivity.
Qed.

(** One entry of the result, in terms of the cohort's totals for the
    genre. *)
Lemma genrePercentile_entry (top : option string) (s : Stat string) :
  let totals := cohortTotals db params (statKey s) in
  let n := count totals in
  let below := count (filter (fun t => t <? statWatchTimeSeconds s) totals) in
  genrePercentile cohort top s =
  GenrePercentile.mk (statKey s) (statWatchTimeSeconds s)
    (if n >? 0 then Js.roundedQuotient (sum (fun t => t) totals) n
     else Js.Number_of_Z 0)
    (if n >? 0 then Js.roundedPercent below n else Js.Number_of_Z 0)
    (optStringEqb (Some (statKey s)) top).
Proof.
  cbv zeta. unfold genrePercentile, cohort. cbv zeta.
  fold (cohortTotals db params (statKey s)).
  set (totals := cohortTotals db params (statKey s)).
  assert (Hn : count (Js.sort Z.leb totals) = count totals)
    by (unfold count; now rewrite sort_length).
  assert (Hbelow :
            count (filter (fun t => t <? statWatchTimeSeconds s)
                     (Js.sort Z.leb totals))
            = count (filter (fun t => t <? statWatchTimeSeconds s) totals)).
  { unfold count. f_equal. apply filter_length_perm, Permutation_sym, sort_perm. }
  assert (Hsum : fold_left Z.add (Js.sort Z.leb totals) 0
                 = sum (fun t => t) totals).
  { rewrite (fold_left_add (fun t => t)).
    rewrite (sum_perm _ _ _ (Permutation_sym (sort_perm Z.leb totals))). lia. }
  rewrite Hn, Hbelow, Hsum.
  destruct (count totals >? 0); reflexivity.
Qed.

(** C2 (amended): the result lists the user's first five genres by watch
    time of the year; for each, [percentile] is
    [Math.round((below / n) * 100)] and [serverAverageSeconds] is
    [Math.round(sum / n)], both in double precision, where the cohort has
    one total per user for the genre, [n] of them, [below] of them strictly
    less than the user's total and [sum] their sum (0 when [n] is 0);
    [isTopGenreForUser] holds for the first entry only, a genre of the
    user's highest watch time; without genre activity the result is
    empty. *)
Theorem getWrappedGenrePercentiles_top_five :
  let result := getWrappedGenrePercentiles db params in
  (* the user's genres, largest watch time first *)
  StronglySorted
    (fun a b => statWatchTimeSeconds b <= statWatchTimeSeconds a) userStats /\
  NoDup (map statKey userStats) /\
  (forall g, In g (map statKey userStats) <-> In g (map fst (userRows db params))) /\
  (forall s, In s userStats ->
             statWatchTimeSeconds s = genreTotal (statKey s) (userRows db params)) /\
  (* the cohort: one total per user and genre *)
  NoDup (map statKey cohort) /\
  (forall k, In k (map statKey cohort) <->
             In k (map (fun gr => (userOf gr, fst gr)) (cohortRows db params))) /\
  (forall s, In s cohort ->
             statWatchTimeSeconds s
             = userGenreTotal (fst (statKey s)) (snd (statKey s))
                 (cohortRows db params)) /\
  (* the entries *)
  Forall2
    (fun e s =>
       let totals := cohortTotals db params (statKey s) in
       let n := count totals in
       let below :=
         count (filter (fun t => t <? statWatchTimeSeconds s) totals) in
       GenrePercentile.genre e = statKey s /\
       GenrePercentile.userWatchTimeSeconds e = statWatchTimeSeconds s /\
       GenrePercentile.percentile e
       = (if n >? 0 then Js.roundedPercent below n else Js.Number_of_Z 0) /\
       GenrePercentile.serverAverageSeconds e
       = (if n >? 0 then Js.roundedQuotient (sum (fun t => t) totals) n
          else Js.Number_of_Z 0))
    result (firstn 5 userStats) /\
  (* the top genre *)
  match result with
  | [] => userRows db params = []
  | e :: rest =>
      GenrePercentile.isTopGenreForUser e = true /\
      Forall (fun e' => GenrePercentile.isTopGenreForUser e' = false) rest /\
      forall s, In s userStats ->
                statWatchTimeSeconds s <= GenrePercentile.userWatchTimeSeconds e
  end /\
  (userRows db params = [] -> result = []).
Proof.
  cbv zeta.
  assert (Hperm : Permutation
                    (map (aggregate secondsOf)
                       (groupBy String.eqb fst (userRows db params)))
                    userStats) by apply sort_perm.
  assert (Hsorted : StronglySorted
                      (fun a b => statWatchTimeSeconds b <= statWatchTimeSeconds a)
                      userStats)
    by apply (orderBy_desc_sorted statWatchTimeSeconds).
  assert (Hnd : NoDup (map statKey userStats)).
  { eapply Permutation_NoDup; [ apply Permutation_map, Hperm | ].
    apply (grouped_keys_NoDup String.eqb fst secondsOf String.eqb_eq). }
  assert (Hkeys : forall g, In g (map statKey userStats) <->
                            In g (map fst (userRows db params))).
  { intro g.
    rewrite <- (grouped_key_In String.eqb fst secondsOf String.eqb_eq).
    split; apply Permutation_in; [ apply Permutation_sym | ];
      apply Permutation_map, Hperm. }
  split; [ exact Hsorted | ]. split; [ exact Hnd | ]. split; [ exact Hkeys | ].
  split.
  { intros s Hs. apply (Permutation_in _ (Permutation_sym Hperm)) in Hs.
    now apply (grouped_In String.eqb fst secondsOf String.eqb_eq) in Hs. }
  split.
  { apply (grouped_keys_NoDup userGenreEqb _ secondsOf userGenreEqb_eq). }
  split.
  { intro k.
    apply (grouped_key_In userGenreEqb (fun gr => (userOf gr, fst gr))
             secondsOf userGenreEqb_eq). }
  split.
  { intros s Hs.
    apply (grouped_In userGenreEqb (fun gr => (userOf gr, fst gr)) secondsOf
             userGenreEqb_eq) in Hs.
    destruct Hs as [Hs _]. rewrite Hs. unfold userGenreTotal.
    now destruct (statKey s). }
  rewrite getWrappedGenrePercentiles_unfold.
  split.
  { induction (firstn 5 userStats) as [ | s l IH ]; simpl; constructor;
      [ | exact IH ].
    rewrite genrePercentile_entry. cbv zeta.
    cbn [GenrePercentile.genre GenrePercentile.userWatchTimeSeconds
           GenrePercentile.percentile GenrePercentile.serverAverageSeconds].
    repeat split. }
  split.
  - destruct userStats as [ | s0 rest ] eqn:E.
    + simpl.
      destruct (userRows db params) as [ | gr rows ] eqn:Er; [ reflexivity | ].
      exfalso. assert (Hin : In (fst gr) (map statKey (@nil (Stat string)))).
      { apply Hkeys. left. reflexivity. }
      destruct Hin.
    + cbn [firstn map hd_error option_map].
      rewrite !genrePercentile_entry.
      cbn [GenrePercentile.isTopGenreForUser
             GenrePercentile.userWatchTimeSeconds].
      split; [ apply optStringEqb_eq; reflexivity | ].
      split.
      * apply Forall_map, Forall_forall. intros s Hs.
        rewrite genrePercentile_entry.
        cbn [GenrePercentile.isTopGenreForUser].
        destruct (optStringEqb (Some (statKey s)) (Some (statKey s0))) eqn:Eq;
          [ | reflexivity ].
        apply optStringEqb_eq in Eq. injection Eq as Eq.
        simpl in Hnd. inversion Hnd as [ | ? ? Hnotin _ ]; subst.
        exfalso. apply Hnotin. rewrite <- Eq. apply in_map.
        rewrite <- (firstn_skipn 4 rest). apply in_or_app. now left.
      * intros s [<- | Hs]; [ lia | ].
        inversion Hsorted as [ | ? ? _ Hle ]; subst.
        rewrite Forall_forall in Hle. now apply Hle.
  - intro Hempty.
    destruct userStats as [ | s0 rest ] eqn:E; [ reflexivity | ].
    exfalso. assert (Hin : In (statKey s0) (map fst (userRows db params))).
    { apply Hkeys. left. reflexivity. }
    rewrite Hempty in Hin. destruct Hin.
Qed.

End GenrePercentiles.

(** The counterexample of C2: 23 of the 40 totals of the cohort are below
    Alice's, 57.5 percent; the call reports the percentile 57 where the
    rounded percentage is 58, in exact arithmetic and in double precision
    with the product taken first. *)
Lemma getWrappedGenrePercentiles_forty_users :
  Wrapped.getWrappedGenrePercentiles FortyUsers.db FortyUsers.params
  = [Wrapped.GenrePercentile.mk "Drama" 100 (Js.Number_of_Z 111)
       (Js.Number_of_Z 57) true] /\
  Sql.count (Genres.cohortTotals FortyUsers.db FortyUsers.params "Drama") = 40 /\
  Sql.count
    (filter (fun t => t <? 100)
       (Genres.cohortTotals FortyUsers.db FortyUsers.params "Drama")) = 23 /\
  Yearly.exactRoundedPercent 23 40 = 58 /\
  Yearly.scaledFirstPercent 23 40 = Js.Number_of_Z 58 /\
  Js.Number_of_Z 57 <> Js.Number_of_Z (Yearly.exactRoundedPercent 23 40).
Proof.
  split; [ vm_compute; reflexivity | ].
  split; [ vm_compute; reflexivity | ].
  split; [ vm_compute; reflexivity | ].
  split; [ reflexivity | ].
  split; [ vm_compute; reflexivity | ].
  vm_compute. intro H.
  assert (Hb : PrimFloat.eqb 57 58 = true) by (rewrite H at 1; reflexivity).
  vm_compute in Hb. discriminate.
Qed.

(** ** Exclusions *)

Section ExclusionFacts.

Import Sql Exclusions Wrapped Yearly.

Variable db : Database.
Variable params : WrappedParams.
Variable srv : servers.row.
Hypothesis configured :
  find (fun s => servers.id s =? serverId params) (serversTable db) = Some srv.

Lemma and_push {R : Type} (conds : list (SQL R)) (c : option (SQL R)) (r : R) :
  and_ (push conds c) r
  = and_ conds r && match c with Some x => x r | None => true end.
Proof.
  unfold and_, push. destruct c as [x | ].
  - rewrite forallb_app. simpl. now rewrite andb_true_r.
  - now rewrite andb_true_r.
Qed.

(** What the two exclusion conditions say of a row they let through. *)
Lemma userExclusion_pushed (conds : list (SQL Row)) (r : Row) :
  and_ (push conds (userExclusion (getStatisticsExclusions db (serverId params))))
    r = true ->
  forall u, sessions.userId (fst r) = Some u ->
            ~ In u (servers.excludedUserIds srv).
Proof.
  unfold getStatisticsExclusions. rewrite configured.
  cbn [userExclusion]. rewrite and_push, andb_true_iff. intros [_ Hu] u Hid Hin.
  destruct (servers.excludedUserIds srv) as [ | x xs ] eqn:E;
    [ destruct Hin | ].
  unfold notInArray in Hu. rewrite Hid in Hu. apply negb_true_iff in Hu.
  assert (Hex : existsb (String.eqb u) (x :: xs) = true).
  { apply existsb_exists. exists u. split; [ exact Hin | apply String.eqb_refl ]. }
  congruence.
Qed.

Lemma itemLibraryExclusion_pushed (conds : list (SQL Row)) (r : Row) :
  and_
    (push conds
       (itemLibraryExclusion (getStatisticsExclusions db (serverId params))))
    r = true ->
  ~ In (items.libraryId (snd r)) (servers.excludedLibraryIds srv).
Proof.
  unfold getStatisticsExclusions. rewrite configured.
  cbn [itemLibraryExclusion]. rewrite and_push, andb_true_iff.
  intros [_ Hl] Hin.
  destruct (servers.excludedLibraryIds srv) as [ | x xs ] eqn:E;
    [ destruct Hin | ].
  unfold notInArray in Hl. apply negb_true_iff in Hl.
  assert (Hex : existsb (String.eqb (items.libraryId (snd r))) (x :: xs) = true).
  { apply existsb_exists. exists (items.libraryId (snd r)).
    split; [ exact Hin | apply String.eqb_refl ]. }
  congruence.
Qed.

Lemma both_pushed (conds : list (SQL Row)) (r : Row) :
  let excl := getStatisticsExclusions db (serverId params) in
  and_ (push (push conds (userExclusion excl)) (itemLibraryExclusion excl)) r
  = true ->
  (forall u, sessions.userId (fst r) = Some u ->
             ~ In u (servers.excludedUserIds srv)) /\
  ~ In (items.libraryId (snd r)) (servers.excludedLibraryIds srv).
Proof.
  cbv zeta. intro H. split.
  - apply (userExclusion_pushed conds).
    rewrite and_push, andb_true_iff in H. apply H.
  - now apply (itemLibraryExclusion_pushed
                 (push conds
                    (userExclusion
                       (getStatisticsExclusions db (serverId params))))).
Qed.

(** The per-user queries read no session of an excluded user and no item of
    an excluded library. *)
Lemma qualifyingRows_not_excluded (r : Row) :
  In r (qualifyingRows db params) ->
  (forall u, sessions.userId (fst r) = Some u ->
             ~ In u (servers.excludedUserIds srv)) /\
  ~ In (items.libraryId (snd r)) (servers.excludedLibraryIds srv).
Proof.
  unfold qualifyingRows, where_. rewrite filter_In. intros [_ Hc].
  now apply (both_pushed (userYearConditions params)).
Qed.

(** For an excluded user the per-user queries read nothing. *)
Lemma qualifyingRows_of_excluded_user :
  In (userId params) (servers.excludedUserIds srv) ->
  qualifyingRows db params = [].
Proof.
  intro Hex.
  destruct (qualifyingRows db params) as [ | r rows ] eqn:E; [ reflexivity | ].
  exfalso.
  assert (Hr : In r (qualifyingRows db params)) by (rewrite E; now left).
  destruct (qualifyingRows_not_excluded r Hr) as [Hu _].
  apply (Hu (userId params)); [ | exact Hex ].
  unfold qualifyingRows, where_ in Hr. apply filter_In in Hr.
  destruct Hr as [_ Hc]. rewrite !and_push, !andb_true_iff in Hc.
  destruct Hc as [[Hc _] _]. unfold userYearConditions in Hc.
  destruct (getYearDateRange (year params)) as [s e]. unfold and_ in Hc.
  simpl in Hc. rewrite !andb_true_iff in Hc.
  destruct Hc as (_ & Huser & _). unfold eqText in Huser.
  destruct (sessions.userId (fst r)) as [u | ]; [ | discriminate ].
  apply String.eqb_eq in Huser. now subst.
Qed.

Lemma unnestGenres_In (rows : list Row) (gr : string * Row) :
  In gr (unnestGenres rows) -> In (snd gr) rows.
Proof.
  unfold unnestGenres. rewrite in_flat_map. intros (r & Hr & Hin).
  destruct (items.genres (snd r)) as [gs | ]; [ | destruct Hin ].
  apply in_map_iff in Hin. destruct Hin as (g & <- & _). exact Hr.
Qed.

(** The cohort of the genre percentiles holds no session of an excluded user
    and no item of an excluded library; the user's own rows hold no item of
    an excluded library. *)
Theorem genre_percentile_rows_not_excluded :
  (forall gr,
      In gr (Genres.cohortRows db params) ->
      (forall u, Genres.userOf gr = Some u ->
                 ~ In u (servers.excludedUserIds srv)) /\
      ~ In (items.libraryId (snd (snd gr))) (servers.excludedLibraryIds srv)) /\
  (forall gr,
      In gr (Genres.userRows db params) ->
      ~ In (items.libraryId (snd (snd gr))) (servers.excludedLibraryIds srv)).
Proof.
  split.
  - intros gr Hgr. apply unnestGenres_In in Hgr.
    unfold where_ in Hgr. apply filter_In in Hgr. destruct Hgr as [_ Hc].
    unfold serverWhereConditions in Hc.
    destruct (getYearDateRange (year params)) as [s e].
    now apply both_pushed in Hc.
  - intros gr Hgr. apply unnestGenres_In in Hgr.
    unfold where_ in Hgr. apply filter_In in Hgr. destruct Hgr as [_ Hc].
    unfold userWhereConditions in Hc.
    now apply itemLibraryExclusion_pushed in Hc.
Qed.

Lemma filter_stronger {A : Type} (p q : A -> bool) (l : list A) :
  (forall x, p x = true -> q x = true) -> filter q l = [] -> filter p l = [].
Proof.
  intros Hpq Hq.
  destruct (filter p l) as [ | x rest ] eqn:E; [ reflexivity | ].
  assert (Hx : In x (filter p l)) by (rewrite E; now left).
  apply filter_In in Hx. destruct Hx as [Hin Hp].
  assert (Hx : In x (filter q l)) by (apply filter_In; auto).
  rewrite Hq in Hx. destruct Hx.
Qed.

(** For a user on the excluded-user list of the server and a year written
    with four digits the overview, the genre statistics, the type breakdown
    and the rewatch statistics are empty, and the activity patterns are
    returned with no active day. *)
Theorem statistics_of_excluded_user_are_empty :
  In (userId params) (servers.excludedUserIds srv) ->
  1000 <= year params <= 9999 ->
  getWrappedOverview db params
  = WrappedOverview.mk 0 0 (Js.Number_of_Z 0) 0 0 None None /\
  getWrappedGenreStats db params = WrappedGenres.mk [] 0 /\
  getWrappedTypeBreakdown db params
  = TypeBreakdown.mk (TypeShare.mk 0 0 (Js.Number_of_Z 0))
      (TypeShare.mk 0 0 (Js.Number_of_Z 0)) (TypeTotal.mk 0 0) /\
  getWrappedRewatchStats db params
  = RewatchStats.mk None 0 (Js.Number_of_Z 0) [] /\
  exists r,
    getWrappedActivityPatterns db params = Some r /\
    WrappedActivityPatterns.calendarHeatmap r = [] /\
    WrappedActivityPatterns.longestStreak r = 0 /\
    Forall (fun e => HourlyPattern.playCount e = 0)
      (WrappedActivityPatterns.hourlyPatterns r).
Proof.
  intros Hex Hyear. pose proof (qualifyingRows_of_excluded_user Hex) as Hnone.
  split; [ | split; [ | split; [ | split ]]].
  - unfold getWrappedOverview. cbv zeta. fold (qualifyingRows db params).
    rewrite Hnone. vm_compute. reflexivity.
  - unfold getWrappedGenreStats. cbv zeta.
    rewrite (filter_stronger _
               (and_
                  (push
                     (push (userYearConditions params)
                        (userExclusion
                           (getStatisticsExclusions db (serverId params))))
                     (itemLibraryExclusion
                        (getStatisticsExclusions db (serverId params)))))
               (sessionsJoinItems db)).
    + vm_compute. reflexivity.
    + intros r. rewrite !and_push, !andb_true_iff. unfold and_.
      rewrite forallb_app, andb_true_iff. tauto.
    + exact Hnone.
  - unfold getWrappedTypeBreakdown. cbv zeta. fold (qualifyingRows db params).
    rewrite Hnone. vm_compute. reflexivity.
  - unfold getWrappedRewatchStats. cbv zeta. fold (qualifyingRows db params).
    rewrite Hnone. vm_compute. reflexivity.
  - apply validYear_spec in Hyear.
    unfold getWrappedActivityPatterns. rewrite Hyear. cbn [negb]. cbv zeta.
    fold (qualifyingRows db params). rewrite Hnone.
    eexists. split; [ vm_compute; reflexivity | ].
    split; [ reflexivity | split; [ reflexivity | ] ].
    repeat constructor.
Qed.

End ExclusionFacts.

(** C3 at its failing input: Alice is on the excluded-user list of the
    server.  Her overview, genre statistics, type breakdown and rewatch
    statistics are empty, yet her genre percentiles report her 100 seconds
    of drama: the user's own query of [getWrappedGenrePercentiles] does not
    apply the user exclusion. *)
Theorem getWrappedGenrePercentiles_reads_excluded_user :
  In "u1"%string
    (flat_map servers.excludedUserIds (serversTable ExcludedUser.db)) /\
  Yearly.qualifyingRows ExcludedUser.db ExcludedUser.params = [] /\
  Wrapped.WrappedOverview.totalPlays
    (Wrapped.getWrappedOverview ExcludedUser.db ExcludedUser.params) = 0 /\
  Wrapped.getWrappedGenreStats ExcludedUser.db ExcludedUser.params
  = Wrapped.WrappedGenres.mk [] 0 /\
  Wrapped.TypeTotal.playCount
    (Wrapped.TypeBreakdown.total
       (Wrapped.getWrappedTypeBreakdown ExcludedUser.db ExcludedUser.params))
  = 0 /\
  Wrapped.RewatchStats.totalRewatches
    (Wrapped.getWrappedRewatchStats ExcludedUser.db ExcludedUser.params) = 0 /\
  Wrapped.getWrappedGenrePercentiles ExcludedUser.db ExcludedUser.params
  = [Wrapped.GenrePercentile.mk "Drama" 100 (Js.Number_of_Z 0)
       (Js.Number_of_Z 0) true].
Proof.
  split; [ left; reflexivity | ].
  repeat split; vm_compute; reflexivity.
Qed.

(** On the server that excludes u2 and lib2, the cohort of the drama
    percentile is made of the plays of u1 and u3 on the movie of lib1. *)
Lemma genre_percentile_rows_not_excluded_witness :
  map (fun gr => (Genres.userOf gr, items.id (snd (snd gr))))
    (Genres.cohortRows MixedExclusions.db MixedExclusions.params)
  = [(Some "u1", "m1"); (Some "u3", "m1")]%string /\
  forall gr,
    In gr (Genres.cohortRows MixedExclusions.db MixedExclusions.params) ->
    (forall u, Genres.userOf gr = Some u -> ~ In u ["u2"%string]) /\
    ~ In (items.libraryId (snd (snd gr))) ["lib2"%string].
Proof.
  split; [ vm_compute; reflexivity | ].
  exact (proj1
           (genre_percentile_rows_not_excluded MixedExclusions.db
              MixedExclusions.params MixedExclusions.excluding eq_refl)).
Defined.

(** On the server that excludes Alice, her statistics of 2024 are empty. *)
Lemma statistics_of_excluded_user_are_empty_witness :
  Wrapped.getWrappedOverview ExcludedUser.db ExcludedUser.params
  = Wrapped.WrappedOverview.mk 0 0 (Js.Number_of_Z 0) 0 0 None None /\
  Wrapped.getWrappedRewatchStats ExcludedUser.db ExcludedUser.params
  = Wrapped.RewatchStats.mk None 0 (Js.Number_of_Z 0) [] /\
  exists r,
    Wrapped.getWrappedActivityPatterns ExcludedUser.db ExcludedUser.params
    = Some r /\
    Wrapped.WrappedActivityPatterns.calendarHeatmap r = [].
Proof.
  assert (Hyear : 1000 <= Wrapped.year ExcludedUser.params <= 9999)
    by (cbn; lia).
  destruct (statistics_of_excluded_user_are_empty ExcludedUser.db
              ExcludedUser.params (Examples.server ["u1"%string] []) eq_refl
              (or_introl eq_refl) Hyear)
    as (Hoverview & _ & _ & Hrewatch & r & Hr & Hheat & _).
  split; [ exact Hoverview | split; [ exact Hrewatch | ] ].
  exists r. split; [ exact Hr | exact Hheat ].
Defined.

(** ** The qualifying sessions *)

Section Qualifying.

Import Calendar CalendarSpec Sql Exclusions Wrapped Yearly.

(** The window of a year holds the instants of the dates of that year. *)
Lemma year_window (y : Z) (t : Timestamp) :
  validTimestamp t = true ->
  (fst (getYearDateRange y) <= epochMs t <= snd (getYearDateRange y)
   <-> Calendar.year (date t) = y).
Proof.
  intro Hv. unfold validTimestamp in Hv. rewrite !andb_true_iff in Hv.
  destruct Hv as [[Hd H0] H1]. apply Z.leb_le in H0. apply Z.ltb_lt in H1.
  apply validDate_calendarDate in Hd. destruct Hd as [Hcal _].
  pose proof (dayNumber_in_year (date t) Hcal) as Hin.
  unfold getYearDateRange, epochMs in *. cbn [fst snd date msOfDay].
  assert (Hstart : dayNumber (mkDate y 1 1) = dayFromYear y).
  { unfold dayNumber, daysBeforeMonth. simpl. lia. }
  assert (Hend : dayNumber (mkDate y 12 31) = dayFromYear (y + 1) - 1).
  { unfold dayNumber. cbn [Calendar.year month day]. rewrite dayFromYear_succ.
    unfold daysBeforeMonth. simpl. destruct (isLeapYear y); lia. }
  rewrite Hstart, Hend. unfold msPerDay in *.
  split.
  - intros [Hlo Hhi].
    destruct (Z.lt_trichotomy (Calendar.year (date t)) y) as [Hlt | [Heq | Hgt]];
      [ | exact Heq | ].
    + pose proof (dayFromYear_le (Calendar.year (date t) + 1) y ltac:(lia)). nia.
    + pose proof (dayFromYear_le (y + 1) (Calendar.year (date t)) ltac:(lia)). nia.
  - intros <-. nia.
Qed.

Lemma notInArray_spec (x : string) (ids : list string) :
  notInArray (Some x) ids = true <-> ~ In x ids.
Proof.
  unfold notInArray. rewrite negb_true_iff. split.
  - intros Hex Hin.
    assert (H : existsb (String.eqb x) ids = true)
      by (apply existsb_exists; exists x; split;
          [ exact Hin | apply String.eqb_refl ]).
    congruence.
  - intro Hnot. destruct (existsb (String.eqb x) ids) eqn:E; [ | reflexivity ].
    apply existsb_exists in E. destruct E as (y & Hin & Heq).
    apply String.eqb_eq in Heq. subst. contradiction.
Qed.

Variable db : Database.
Variable params : WrappedParams.


End Qualifying.

(** ** Accounting: the aggregations of one year add up *)

Section Sums.

Import Sql.

Lemma sum_app {A : Type} (f : A -> Z) (l1 l2 : list A) :
  sum f (l1 ++ l2) = sum f l1 + sum f l2.
Proof. induction l1 as [ | x l1 IH ]; simpl; lia. Qed.

Lemma sum_map {A B : Type} (f : B -> Z) (g : A -> B) (l : list A) :
  sum f (map g l) = sum (fun x => f (g x)) l.
Proof. induction l as [ | x l IH ]; simpl; congruence. Qed.

Lemma sum_ext_in {A : Type} (f g : A -> Z) (l : list A) :
  (forall x, In x l -> f x = g x) -> sum f l = sum g l.
Proof.
  induction l as [ | x l IH ]; intro H; simpl; [ reflexivity | ].
  rewrite (H x (or_introl eq_refl)), IH; [ reflexivity | ].
  intros y Hy. apply H. now right.
Qed.

Lemma count_as_sum {A : Type} (l : list A) : count l = sum (fun _ => 1) l.
Proof.
  unfold count. induction l as [ | x l IH ]; [ reflexivity | ].
  cbn [List.length sum fold_right]. fold (sum (fun _ : A => 1) l). lia.
Qed.

Lemma sum_nonneg_count {A : Type} (l : list A) : 0 <= count l.
Proof. unfold count. lia. Qed.

Lemma sum_zero {A : Type} (f : A -> Z) (l : list A) :
  (forall x, In x l -> f x = 0) -> sum f l = 0.
Proof.
  induction l as [ | x l IH ]; intro H; [ reflexivity | ].
  cbn [sum fold_right]. fold (sum f l).
  rewrite (H x (or_introl eq_refl)), IH; [ reflexivity | ].
  intros y Hy. apply H. now right.
Qed.

Lemma sum_cons {A : Type} (f : A -> Z) (x : A) (l : list A) :
  sum f (x :: l) = f x + sum f l.
Proof. reflexivity. Qed.

Section Partition.

Context {A K : Type} (eqb : K -> K -> bool) (key : A -> K) (f : A -> Z).
Hypothesis eqb_spec : forall a b, eqb a b = true <-> a = b.

Lemma sum_one_bucket (x : A) (ks : list K) :
  NoDup ks -> In (key x) ks ->
  sum (fun k => if eqb k (key x) then f x else 0) ks = f x.
Proof.
  induction ks as [ | k ks IH ]; intros Hnd Hin; [ destruct Hin | ].
  inversion Hnd as [ | ? ? Hk Hnd' ]; subst. rewrite sum_cons.
  destruct (eqb k (key x)) eqn:E.
  - apply eqb_spec in E. rewrite sum_zero; [ lia | ]. intros k' Hk'.
    destruct (eqb k' (key x)) eqn:E'; [ | reflexivity ].
    apply eqb_spec in E'. exfalso. apply Hk. congruence.
  - rewrite IH; [ lia | exact Hnd' | ].
    destruct Hin as [E' | Hin]; [ | exact Hin ].
    apply eqb_spec in E'. congruence.
Qed.

(** The rows of the buckets of a list of distinct keys that covers every
    row add up to the rows. *)
Lemma sum_buckets (ks : list K) (l : list A) :
  NoDup ks -> (forall x, In x l -> In (key x) ks) ->
  sum (fun k => sum f (filter (fun x => eqb k (key x)) l)) ks = sum f l.
Proof.
  intros Hnd. induction l as [ | x l IH ]; intro Hcover.
  - apply sum_zero. reflexivity.
  - rewrite sum_cons.
    rewrite <- IH by (intros y Hy; apply Hcover; now right).
    rewrite <- (sum_one_bucket x ks Hnd (Hcover x (or_introl eq_refl))).
    clear - ks. induction ks as [ | k ks IHk ]; [ reflexivity | ].
    rewrite !sum_cons, IHk. cbn [filter].
    destruct (eqb k (key x)); rewrite ?sum_cons; lia.
Qed.

(** GROUP BY partitions the rows. *)
Lemma sum_groupBy (l : list A) :
  sum (fun g => sum f (snd g)) (groupBy eqb key l) = sum f l.
Proof.
  unfold groupBy. rewrite sum_map. cbn [snd].
  apply sum_buckets.
  - apply (distinct_NoDup eqb eqb_spec).
  - intros x Hx. apply (distinct_In eqb eqb_spec). now apply in_map.
Qed.

End Partition.

End Sums.

Section Accounting.

Import Sql Exclusions Wrapped Yearly.

Variable db : Database.
Variable params : WrappedParams.

Lemma userYearConditions_start (r : Row) :
  and_ (userYearConditions params) r = true ->
  isNotNull (sessions.startTime (fst r)) = true.
Proof.
  unfold userYearConditions. destruct (getYearDateRange (year params)) as [s e].
  unfold and_. simpl. rewrite !andb_true_iff. intros (_ & _ & H & _).
  unfold gteTime in H. now destruct (sessions.startTime (fst r)).
Qed.

Lemma qualifyingRows_start (r : Row) :
  In r (qualifyingRows db params) ->
  isNotNull (sessions.startTime (fst r)) = true.
Proof.
  unfold qualifyingRows, where_. rewrite filter_In. intros [_ Hc].
  rewrite !and_push, !andb_true_iff in Hc.
  now apply userYearConditions_start.
Qed.

Lemma withStartTime_fst (rows : list Row) :
  (forall r, In r rows -> isNotNull (sessions.startTime (fst r)) = true) ->
  map fst (withStartTime rows) = rows.
Proof.
  induction rows as [ | r rows IH ]; intro H; [ reflexivity | ].
  unfold withStartTime. cbn [flat_map]. fold (withStartTime rows).
  pose proof (H r (or_introl eq_refl)) as Hr.
  destruct (sessions.startTime (fst r)); [ | discriminate ].
  cbn [app map fst]. rewrite IH; [ reflexivity | ].
  intros y Hy. apply H. now right.
Qed.

(** Every qualifying session has a start time. *)
Lemma qualifying_fst : map fst (qualifying db params) = qualifyingRows db params.
Proof. apply withStartTime_fst, qualifyingRows_start. Qed.

Lemma qualifying_count : plays (qualifying db params) = count (qualifyingRows db params).
Proof.
  unfold plays, count. now rewrite <- qualifying_fst, length_map.
Qed.

Lemma qualifying_watchTime :
  watchTime (qualifying db params) = sum duration (qualifyingRows db params).
Proof.
  unfold watchTime. rewrite <- qualifying_fst, sum_map. reflexivity.
Qed.

Lemma In_upTo (n : nat) (k : Z) : In k (upTo n) <-> 0 <= k < Z.of_nat n.
Proof.
  unfold upTo. rewrite in_map_iff. split.
  - intros (i & <- & Hi). apply in_seq in Hi. lia.
  - intros Hk. exists (Z.to_nat k). split; [ lia | apply in_seq; lia ].
Qed.

Lemma NoDup_upTo (n : nat) : NoDup (upTo n).
Proof.
  unfold upTo. apply Finite.Injective_map_NoDup; [ | apply seq_NoDup ].
  intros a b H. lia.
Qed.

(** The daily, hourly, weekday and monthly statistics of a year written
    with four digits, as the call computes them. *)
Lemma getWrappedActivityPatterns_arrays :
  1000 <= year params <= 9999 ->
  exists a,
    getWrappedActivityPatterns db params = Some a /\
    WrappedActivityPatterns.calendarHeatmap a
    = calendarHeatmapOf (qualifying db params) /\
    WrappedActivityPatterns.hourlyPatterns a
    = hourlyPatternsOf (qualifying db params) /\
    WrappedActivityPatterns.weekdayPatterns a
    = weekdayPatternsOf (qualifying db params) /\
    WrappedActivityPatterns.monthlyTotals a
    = monthlyTotalsOf (qualifying db params).
Proof.
  intro fourDigits.
  destruct (getWrappedActivityPatterns_returns db params fourDigits)
    as (ih & iw & im & ph & pw & pm & _ & _ & _ & ->).
  eexists. split; [ reflexivity | ]. cbn. auto.
Qed.

Lemma overview_totals :
  let o := getWrappedOverview db params in
  WrappedOverview.totalPlays o = count (qualifyingRows db params) /\
  WrappedOverview.totalWatchTimeSeconds o
  = sum duration (qualifyingRows db params) /\
  WrappedOverview.uniqueItemsWatched o
  = countDistinct optStringEqb (fun r => sessions.itemId (fst r))
      (qualifyingRows db params) /\
  WrappedOverview.totalDaysWithActivity o
  = countDistinct Calendar.dateEqb (fun r => Calendar.DATE (snd r))
      (qualifying db params).
Proof. cbv zeta. unfold getWrappedOverview. cbn. auto. Qed.

(** For a year written with four digits the call returns, and the calendar
    heatmap lists the days with activity, each with at least one play;
    their number is the overview's [totalDaysWithActivity], and their plays
    and watch times add up to the overview's [totalPlays] and
    [totalWatchTimeSeconds]. *)
Theorem calendarHeatmap_adds_up_to_overview :
  1000 <= year params <= 9999 ->
  exists a,
    getWrappedActivityPatterns db params = Some a /\
    let o := getWrappedOverview db params in
    let heatmap := WrappedActivityPatterns.calendarHeatmap a in
    count heatmap = WrappedOverview.totalDaysWithActivity o /\
    sum DayActivity.playCount heatmap = WrappedOverview.totalPlays o /\
    sum DayActivity.watchTimeSeconds heatmap
    = WrappedOverview.totalWatchTimeSeconds o /\
    Forall (fun e => 1 <= DayActivity.playCount e) heatmap.
Proof.
  intro fourDigits.
  destruct (getWrappedActivityPatterns_arrays fourDigits)
    as (a & Ha & Hheat & _).
  destruct overview_totals as (Hplays & Htime & _ & Hdays).
  exists a. split; [ exact Ha | ]. cbv zeta.
  rewrite Hheat, Hplays, Htime, Hdays. unfold calendarHeatmapOf.
  unfold orderBy.
  set (groups := groupBy Calendar.dateEqb (fun r => Calendar.DATE (snd r))
                   (qualifying db params)).
  set (leb := fun a0 b : Stat Calendar.CivilDate =>
                Calendar.dayNumber (statKey a0) <=? Calendar.dayNumber (statKey b)).
  split; [ | split; [ | split ]].
  - unfold count, countDistinct.
    rewrite length_map, sort_length, length_map. unfold groups, groupBy.
    now rewrite length_map.
  - rewrite sum_map. cbn [DayActivity.playCount].
    rewrite (sum_perm _ _ _ (Permutation_sym (sort_perm leb _))).
    rewrite sum_map. cbn [aggregate statPlayCount].
    rewrite (sum_ext_in _ (fun g => sum (fun _ => 1) (snd g)))
      by (intros; apply count_as_sum).
    unfold groups. rewrite (sum_groupBy _ _ _ dateEqb_eq).
    rewrite <- count_as_sum. apply qualifying_count.
  - rewrite sum_map. cbn [DayActivity.watchTimeSeconds].
    rewrite (sum_perm _ _ _ (Permutation_sym (sort_perm leb _))).
    rewrite sum_map. cbn [aggregate statWatchTimeSeconds].
    unfold groups. rewrite (sum_groupBy _ _ _ dateEqb_eq).
    apply qualifying_watchTime.
  - apply Forall_forall. intros e He. apply in_map_iff in He.
    destruct He as (st & <- & Hst). apply sort_In in Hst.
    apply in_map_iff in Hst. destruct Hst as (g & <- & Hg).
    cbn [DayActivity.playCount aggregate statPlayCount].
    pose proof (groupBy_nonempty _ dateEqb_eq _ _ g Hg) as Hne.
    unfold count. destruct (snd g); [ contradiction | ]. cbn [List.length]. lia.
Qed.

End Accounting.

(** In the sample year the heatmap has five days; their plays add up to the
    six plays and their watch times to the 430 seconds of the overview. *)
Lemma calendarHeatmap_adds_up_to_overview_witness :
  exists a,
    Wrapped.getWrappedActivityPatterns SampleYear.db SampleYear.params
    = Some a /\
    Sql.count (Wrapped.WrappedActivityPatterns.calendarHeatmap a) = 6 /\
    Sql.sum Wrapped.DayActivity.playCount
      (Wrapped.WrappedActivityPatterns.calendarHeatmap a) = 6 /\
    Sql.sum Wrapped.DayActivity.watchTimeSeconds
      (Wrapped.WrappedActivityPatterns.calendarHeatmap a) = 430.
Proof.
  destruct (calendarHeatmap_adds_up_to_overview SampleYear.db
              SampleYear.params sampleYear_fourDigits)
    as (a & Ha & Hdays & Hplays & Htime & _).
  exists a. split; [ exact Ha | ].
  split; [ rewrite Hdays; vm_compute; reflexivity | ].
  split; [ rewrite Hplays; vm_compute; reflexivity | ].
  rewrite Htime. vm_compute. reflexivity.
Defined.

Section BucketsAddUp.

Import Sql Exclusions Wrapped Yearly.

Variable db : Database.
Variable params : WrappedParams.
Hypothesis wellFormed : wellFormedTimes db.
Hypothesis fourDigits : 1000 <= year params <= 9999.

Lemma qualifying_validTimestamp (r : Row * Calendar.Timestamp) :
  In r (qualifying db params) -> Calendar.validTimestamp (snd r) = true.
Proof.
  destruct r as [[s it] t]. unfold qualifying. rewrite withStartTime_In.
  intros [Hr Ht]. apply rows_joined, sessionsJoinItems_In in Hr.
  exact (wellFormed s t (proj1 Hr) Ht).
Qed.

Lemma buckets_add_up (part : Calendar.Timestamp -> Z) (ks : list Z)
  (f : Row * Calendar.Timestamp -> Z) :
  NoDup ks ->
  (forall t, Calendar.validTimestamp t = true -> In (part t) ks) ->
  sum (fun k => sum f (inBucket part k (qualifying db params))) ks
  = sum f (qualifying db params).
Proof.
  intros Hnd Hcover.
  rewrite <- (sum_buckets Z.eqb (fun r => part (snd r)) f Z.eqb_eq ks
                (qualifying db params) Hnd).
  - apply sum_ext_in. intros k _. now rewrite inBucket_as_group.
  - intros r Hr. apply Hcover. now apply qualifying_validTimestamp.
Qed.

Lemma hour_covered (t : Calendar.Timestamp) :
  Calendar.validTimestamp t = true -> In (Calendar.EXTRACT_HOUR t) (upTo 24).
Proof.
  unfold Calendar.validTimestamp, Calendar.EXTRACT_HOUR, Calendar.msPerDay.
  rewrite !andb_true_iff, Z.leb_le, Z.ltb_lt. intros [[_ H0] H1].
  apply In_upTo. split.
  - apply Z.div_pos; lia.
  - apply Z.div_lt_upper_bound; lia.
Qed.

Lemma weekday_covered (t : Calendar.Timestamp) :
  In (Calendar.EXTRACT_DOW t) [1; 2; 3; 4; 5; 6; 0].
Proof.
  unfold Calendar.EXTRACT_DOW.
  pose proof (Z.mod_pos_bound (Calendar.dayNumber (Calendar.date t) + 4) 7
                ltac:(lia)) as H.
  set (k := (Calendar.dayNumber (Calendar.date t) + 4) mod 7) in *.
  assert (E : k = 0 \/ k = 1 \/ k = 2 \/ k = 3 \/ k = 4 \/ k = 5 \/ k = 6)
    by lia.
  simpl. intuition lia.
Qed.

Lemma month_covered (t : Calendar.Timestamp) :
  Calendar.validTimestamp t = true ->
  In (Calendar.EXTRACT_MONTH t) (map (fun i => i + 1) (upTo 12)).
Proof.
  unfold Calendar.validTimestamp, Calendar.validDate, Calendar.EXTRACT_MONTH.
  rewrite !andb_true_iff, !Z.leb_le. intros [[[[[[_ H1] H2] _] _] _] _].
  apply in_map_iff. exists (Calendar.month (Calendar.date t) - 1).
  split; [ cbv beta; lia | apply In_upTo; lia ].
Qed.

(** When the stored start times are valid timestamps and the year is
    written with four digits, the call returns and every qualifying
    session falls into exactly one hour, one weekday and one month: the
    play counts and the watch times of the 24 hourly entries, of the 7
    weekday entries and of the 12 monthly entries each add up to the
    overview's [totalPlays] and [totalWatchTimeSeconds]. *)
Theorem activity_patterns_add_up_to_overview :
  exists a,
    getWrappedActivityPatterns db params = Some a /\
    let o := getWrappedOverview db params in
    sum HourlyPattern.playCount (WrappedActivityPatterns.hourlyPatterns a)
    = WrappedOverview.totalPlays o /\
    sum HourlyPattern.watchTimeSeconds
      (WrappedActivityPatterns.hourlyPatterns a)
    = WrappedOverview.totalWatchTimeSeconds o /\
    sum WeekdayPattern.playCount (WrappedActivityPatterns.weekdayPatterns a)
    = WrappedOverview.totalPlays o /\
    sum WeekdayPattern.watchTimeSeconds
      (WrappedActivityPatterns.weekdayPatterns a)
    = WrappedOverview.totalWatchTimeSeconds o /\
    sum MonthlyTotal.playCount (WrappedActivityPatterns.monthlyTotals a)
    = WrappedOverview.totalPlays o /\
    sum MonthlyTotal.watchTimeSeconds (WrappedActivityPatterns.monthlyTotals a)
    = WrappedOverview.totalWatchTimeSeconds o.
Proof.
  destruct (getWrappedActivityPatterns_arrays db params fourDigits)
    as (a & Ha & _ & Hh & Hw & Hm).
  destruct (overview_totals db params) as (Hplays & Htime & _).
  exists a. split; [ exact Ha | ]. cbv zeta.
  rewrite Hh, Hw, Hm, Hplays, Htime.
  rewrite <- (qualifying_count db params), <- (qualifying_watchTime db params).
  assert (Hweek : NoDup [1; 2; 3; 4; 5; 6; 0]).
  { repeat constructor; simpl; intuition lia. }
  assert (Hmonths : NoDup (map (fun i => i + 1) (upTo 12))).
  { apply Finite.Injective_map_NoDup; [ | apply NoDup_upTo ].
    intros x y H. lia. }
  pose proof (buckets_add_up Calendar.EXTRACT_HOUR (upTo 24) (fun _ => 1)
                (NoDup_upTo 24) hour_covered) as Hhc.
  pose proof (buckets_add_up Calendar.EXTRACT_HOUR (upTo 24) timedDuration
                (NoDup_upTo 24) hour_covered) as Hht.
  pose proof (buckets_add_up Calendar.EXTRACT_DOW [1; 2; 3; 4; 5; 6; 0]
                (fun _ => 1) Hweek (fun t _ => weekday_covered t)) as Hwc.
  pose proof (buckets_add_up Calendar.EXTRACT_DOW [1; 2; 3; 4; 5; 6; 0]
                timedDuration Hweek (fun t _ => weekday_covered t)) as Hwt.
  pose proof (buckets_add_up Calendar.EXTRACT_MONTH
                (map (fun i => i + 1) (upTo 12)) (fun _ => 1) Hmonths
                month_covered) as Hmc.
  pose proof (buckets_add_up Calendar.EXTRACT_MONTH
                (map (fun i => i + 1) (upTo 12)) timedDuration Hmonths
                month_covered) as Hmt.
  rewrite <- !count_as_sum in Hhc, Hwc, Hmc.
  fold (plays (qualifying db params)) in Hhc, Hwc, Hmc.
  fold (watchTime (qualifying db params)) in Hht, Hwt, Hmt.
  unfold hourlyPatternsOf, weekdayPatternsOf, monthlyTotalsOf.
  cbv zeta.
  split; [ | split; [ | split; [ | split; [ | split ]]]].
  - rewrite <- Hhc, sum_map. cbn [HourlyPattern.playCount].
    apply sum_ext_in. intros k _.
    now rewrite playCountOf_statsBy, <- count_as_sum.
  - rewrite <- Hht, sum_map. cbn [HourlyPattern.watchTimeSeconds].
    apply sum_ext_in. intros k _. now rewrite watchTimeOf_statsBy.
  - rewrite <- Hwc. unfold mapi, WEEKDAY_NAMES.
    cbn [mapiFrom Z.add Z.eqb Pos.add Pos.succ Pos.eqb].
    cbn [sum fold_right map WeekdayPattern.playCount].
    rewrite !playCountOf_statsBy, <- !count_as_sum. reflexivity.
  - rewrite <- Hwt. unfold mapi, WEEKDAY_NAMES.
    cbn [mapiFrom Z.add Z.eqb Pos.add Pos.succ Pos.eqb].
    cbn [sum fold_right map WeekdayPattern.watchTimeSeconds].
    rewrite !watchTimeOf_statsBy. reflexivity.
  - rewrite <- Hmc. unfold mapi, MONTH_NAMES.
    cbn [mapiFrom Z.add Pos.add Pos.succ].
    cbn [sum fold_right map MonthlyTotal.playCount upTo seq Z.of_nat
         Pos.of_succ_nat Z.add Pos.add Pos.succ].
    rewrite !playCountOf_statsBy, <- !count_as_sum. reflexivity.
  - rewrite <- Hmt. unfold mapi, MONTH_NAMES.
    cbn [mapiFrom Z.add Pos.add Pos.succ].
    cbn [sum fold_right map MonthlyTotal.watchTimeSeconds upTo seq Z.of_nat
         Pos.of_succ_nat Z.add Pos.add Pos.succ].
    rewrite !watchTimeOf_statsBy. reflexivity.
Qed.

End BucketsAddUp.

(** In the sample year the plays of the hours, of the weekdays and of the
    months add up to the six plays and 430 seconds of the overview. *)
Lemma activity_patterns_add_up_to_overview_witness :
  exists a,
    Wrapped.getWrappedActivityPatterns SampleYear.db SampleYear.params
    = Some a /\
    Sql.sum Wrapped.HourlyPattern.playCount
      (Wrapped.WrappedActivityPatterns.hourlyPatterns a) = 6 /\
    Sql.sum Wrapped.WeekdayPattern.playCount
      (Wrapped.WrappedActivityPatterns.weekdayPatterns a) = 6 /\
    Sql.sum Wrapped.MonthlyTotal.watchTimeSeconds
      (Wrapped.WrappedActivityPatterns.monthlyTotals a) = 430.
Proof.
  destruct (activity_patterns_add_up_to_overview SampleYear.db
              SampleYear.params sampleYear_wellFormed sampleYear_fourDigits)
    as (a & Ha & Hhours & _ & Hdays & _ & _ & Hmonths).
  exists a. split; [ exact Ha | ].
  split; [ rewrite Hhours; vm_compute; reflexivity | ].
  split; [ rewrite Hdays; vm_compute; reflexivity | ].
  rewrite Hmonths. vm_compute. reflexivity.
Defined.

(** ** Rewatches and unique items *)

Section DistinctImage.

Context {A B : Type} (eqbA : A -> A -> bool) (eqbB : B -> B -> bool).
Hypothesis eqbA_spec : forall a b, eqbA a b = true <-> a = b.
Hypothesis eqbB_spec : forall a b, eqbB a b = true <-> a = b.

(** The distinct values of an injective image are the images of the
    distinct values. *)
Lemma distinct_map_inj (h : A -> B) (l : list A) :
  (forall x y, In x l -> In y l -> h x = h y -> x = y) ->
  map h (Sql.distinct eqbA l) = Sql.distinct eqbB (map h l).
Proof.
  induction l as [ | x l IH ]; intro Hinj; [ reflexivity | ].
  cbn [Sql.distinct map]. f_equal.
  rewrite <- IH by (intros a b Ha Hb; apply Hinj; now right). clear IH.
  assert (Hsub : forall y, In y (Sql.distinct eqbA l) -> In y l).
  { intros y Hy. exact (proj1 (distinct_In eqbA eqbA_spec l y) Hy). }
  induction (Sql.distinct eqbA l) as [ | y d IHd ]; [ reflexivity | ].
  cbn [filter map].
  assert (E : eqbB (h x) (h y) = eqbA x y).
  { destruct (eqbA x y) eqn:Exy.
    - apply eqbA_spec in Exy. subst. now apply eqbB_spec.
    - destruct (eqbB (h x) (h y)) eqn:Eh; [ | reflexivity ].
      apply eqbB_spec in Eh.
      assert (x = y).
      { apply Hinj; [ now left | right; apply Hsub; now left | exact Eh ]. }
      subst. assert (eqbA y y = true) by now apply eqbA_spec. congruence. }
  rewrite E. destruct (eqbA x y); cbn [negb map].
  all: rewrite IHd by (intros z Hz; apply Hsub; now right); reflexivity.
Qed.

End DistinctImage.

Lemma sum_filter_zero {A : Type} (f : A -> Z) (p : A -> bool) (l : list A) :
  (forall x, In x l -> p x = false -> f x = 0) ->
  Sql.sum f (filter p l) = Sql.sum f l.
Proof.
  induction l as [ | x l IH ]; intro H; [ reflexivity | ].
  cbn [filter]. rewrite sum_cons.
  destruct (p x) eqn:E.
  - rewrite sum_cons, IH; [ reflexivity | ]. intros y Hy. apply H. now right.
  - rewrite IH by (intros y Hy; apply H; now right).
    rewrite (H x (or_introl eq_refl) E). lia.
Qed.

Lemma sum_minus_one {A : Type} (f : A -> Z) (l : list A) :
  Sql.sum (fun x => f x - 1) l = Sql.sum f l - Sql.count l.
Proof.
  unfold Sql.count.
  induction l as [ | x l IH ]; [ reflexivity | ].
  rewrite !sum_cons, IH. cbn [List.length]. lia.
Qed.

Section RewatchesAndUniqueItems.

Import Sql Exclusions Wrapped Yearly.

Variable db : Database.
Variable params : WrappedParams.
Hypothesis itemsKey : uniqueItemIds db.

(** With item ids unique, every play of the year is either the first play
    of its item or a rewatch: [totalRewatches] is the overview's
    [totalPlays] less its [uniqueItemsWatched]. *)
Theorem rewatches_are_plays_less_unique_items :
  RewatchStats.totalRewatches (getWrappedRewatchStats db params)
  = WrappedOverview.totalPlays (getWrappedOverview db params)
    - WrappedOverview.uniqueItemsWatched (getWrappedOverview db params).
Proof.
  destruct (overview_totals db params) as (-> & _ & -> & _).
  unfold getWrappedRewatchStats. cbv zeta. cbn [RewatchStats.totalRewatches].
  fold (qualifyingRows db params).
  set (rows := qualifyingRows db params).
  rewrite fold_left_add, Z.add_0_l. unfold itemPlayCountsOf, orderBy.
  rewrite <- (sum_perm _ _ _ (sort_perm byCountDesc _)).
  set (groups := groupBy playedItemEqb playedItemOf rows).
  rewrite sum_filter_zero.
  - rewrite sum_minus_one, sum_map. cbn [aggregate statPlayCount].
    rewrite (sum_ext_in _ (fun g => sum (fun _ => 1) (snd g)))
      by (intros; apply count_as_sum).
    unfold groups. rewrite (sum_groupBy _ _ _ playedItemEqb_eq).
    rewrite <- count_as_sum. f_equal.
    unfold count, countDistinct, groupBy. rewrite !length_map.
    change (map (fun r : sessions.row * items.row => sessions.itemId (fst r))
              rows)
      with (map (fun r => playedItemId (playedItemOf r)) rows).
    rewrite <- (map_map playedItemOf playedItemId).
    rewrite <- (distinct_map_inj playedItemEqb optStringEqb playedItemEqb_eq
                  optStringEqb_eq playedItemId (map playedItemOf rows)).
    + now rewrite length_map.
    + intros a b Ha Hb Hid. apply in_map_iff in Ha, Hb.
      destruct Ha as (ra & <- & Hra), Hb as (rb & <- & Hrb).
      now apply (rows_same_item db params itemsKey).
  - intros c Hc Hle. apply in_map_iff in Hc. destruct Hc as (g & <- & Hg).
    cbn [aggregate statPlayCount] in *.
    pose proof (groupBy_nonempty _ playedItemEqb_eq _ _ g Hg) as Hne.
    unfold count in *. destruct (snd g) as [ | r [ | r' rest ]];
      [ contradiction | reflexivity | ].
    cbn [List.length] in Hle. rewrite Z.gtb_ltb in Hle.
    apply Z.ltb_ge in Hle. lia.
Qed.

End RewatchesAndUniqueItems.

(** In the sample year six plays of one movie are five rewatches. *)
Lemma rewatches_are_plays_less_unique_items_witness :
  Wrapped.RewatchStats.totalRewatches
    (Wrapped.getWrappedRewatchStats SampleYear.db SampleYear.params)
  = 6 - 1.
Proof.
  rewrite (rewatches_are_plays_less_unique_items SampleYear.db
             SampleYear.params sampleYear_uniqueItemIds).
  vm_compute. reflexivity.
Defined.

(** ** First and last watch *)

Lemma hd_error_limit_1 {A : Type} (l : list A) :
  hd_error (Sql.limit 1 l) = hd_error l.
Proof. now destruct l. Qed.

(** The head of an ORDER BY comes before every row. *)
Lemma orderBy_head {A : Type} (leb : A -> A -> bool) (l : list A) (x : A) :
  (forall a b, leb a b = true \/ leb b a = true) ->
  (forall a b c, leb a b = true -> leb b c = true -> leb a c = true) ->
  hd_error (Sql.orderBy leb l) = Some x ->
  In x l /\ forall y, In y l -> leb x y = true.
Proof.
  intros Htotal Htrans Hhd. unfold Sql.orderBy in Hhd.
  pose proof (sort_sorted leb Htotal l) as Hs.
  apply Sorted_StronglySorted in Hs;
    [ | intros a b c; unfold lebRel; apply Htrans ].
  destruct (Js.sort leb l) as [ | x' rest ] eqn:E; [ discriminate | ].
  injection Hhd as ->.
  assert (Hx : In x l) by (apply (sort_In leb); rewrite E; now left).
  split; [ exact Hx | ]. intros y Hy.
  apply (sort_In leb) in Hy. rewrite E in Hy.
  inversion Hs as [ | ? ? _ Hall ]; subst. rewrite Forall_forall in Hall.
  destruct Hy as [<- | Hy]; [ | now apply Hall ].
  destruct (Htotal x x); assumption.
Qed.

Lemma orderBy_nonempty {A : Type} (leb : A -> A -> bool) (l : list A) :
  l <> [] -> hd_error (Sql.orderBy leb l) <> None.
Proof.
  intros Hne Hhd. unfold Sql.orderBy in Hhd.
  pose proof (sort_length leb l) as Hlen.
  destruct (Js.sort leb l); [ | discriminate ].
  destruct l; [ contradiction | discriminate ].
Qed.

Section FirstAndLastWatch.

Import Sql Exclusions Wrapped Yearly.

Variable db : Database.
Variable params : WrappedParams.

Lemma watchInfo_fields (s : sessions.row) (it : items.row)
  (t : Calendar.Timestamp) (f : WatchInfo.t) :
  In ((s, it), t) (qualifying db params) ->
  watchInfo db ((s, it), t) = Some f ->
  f = WatchInfo.mk (items.id it) (items.name it) (items.type it)
        (Calendar.toISOString t) (items.primaryImageTag it)
        (items.seriesName it) (items.productionYear it) (watchGenres db it).
Proof.
  intros Hin Hf. unfold qualifying in Hin. apply withStartTime_In in Hin.
  destruct Hin as [Hin _]. apply rows_itemId in Hin. cbn [fst snd] in Hin.
  unfold watchInfo in Hf. rewrite Hin in Hf.
  destruct (Js.truthyString (items.id it)); [ | discriminate ].
  now injection Hf as <-.
Qed.

Lemma watchInfo_some (s : sessions.row) (it : items.row)
  (t : Calendar.Timestamp) :
  In ((s, it), t) (qualifying db params) ->
  items.id it <> ""%string ->
  watchInfo db ((s, it), t) <> None.
Proof.
  intros Hin Hid. unfold qualifying in Hin. apply withStartTime_In in Hin.
  destruct Hin as [Hin _]. apply rows_itemId in Hin. cbn [fst snd] in Hin.
  unfold watchInfo. rewrite Hin.
  destruct (items.id it); [ contradiction | discriminate ].
Qed.

(** [firstWatch] describes a qualifying session that no other precedes and
    [lastWatch] one that no other follows: the item's id, name and type,
    the start time in ISO form, and the genres of the item or, for an item
    of a series without genres of its own, of the series.  Both are null
    when the year has no qualifying session, and only then when no item has
    the empty id. *)
Theorem overview_first_and_last_watch :
  let o := getWrappedOverview db params in
  let describes (f : WatchInfo.t) (it : items.row) (t : Calendar.Timestamp) :=
    f = WatchInfo.mk (items.id it) (items.name it) (items.type it)
          (Calendar.toISOString t) (items.primaryImageTag it)
          (items.seriesName it) (items.productionYear it)
          (watchGenres db it) in
  (qualifying db params = [] ->
   WrappedOverview.firstWatch o = None /\ WrappedOverview.lastWatch o = None) /\
  (forall f,
      WrappedOverview.firstWatch o = Some f ->
      exists s it t,
        In ((s, it), t) (qualifying db params) /\
        describes f it t /\
        forall r, In r (qualifying db params) ->
                  Calendar.epochMs t <= Calendar.epochMs (snd r)) /\
  (forall l,
      WrappedOverview.lastWatch o = Some l ->
      exists s it t,
        In ((s, it), t) (qualifying db params) /\
        describes l it t /\
        forall r, In r (qualifying db params) ->
                  Calendar.epochMs (snd r) <= Calendar.epochMs t) /\
  ((forall it, In it (itemsTable db) -> items.id it <> ""%string) ->
   qualifying db params <> [] ->
   WrappedOverview.firstWatch o <> None /\
   WrappedOverview.lastWatch o <> None).
Proof.
  cbv zeta. unfold getWrappedOverview. cbv zeta.
  cbn [WrappedOverview.firstWatch WrappedOverview.lastWatch].
  fold (qualifyingRows db params). fold (qualifying db params).
  set (q := qualifying db params).
  set (asc := fun a b : Row * Calendar.Timestamp =>
                Calendar.epochMs (snd a) <=? Calendar.epochMs (snd b)).
  set (desc := fun a b : Row * Calendar.Timestamp =>
                 Calendar.epochMs (snd b) <=? Calendar.epochMs (snd a)).
  rewrite !hd_error_limit_1.
  assert (Hasc_total : forall a b, asc a b = true \/ asc b a = true).
  { intros a b. unfold asc. rewrite !Z.leb_le. lia. }
  assert (Hdesc_total : forall a b, desc a b = true \/ desc b a = true).
  { intros a b. unfold desc. rewrite !Z.leb_le. lia. }
  assert (Hasc_trans : forall a b c,
             asc a b = true -> asc b c = true -> asc a c = true).
  { intros a b c. unfold asc. rewrite !Z.leb_le. lia. }
  assert (Hdesc_trans : forall a b c,
             desc a b = true -> desc b c = true -> desc a c = true).
  { intros a b c. unfold desc. rewrite !Z.leb_le. lia. }
  split; [ | split; [ | split ]].
  - intros ->. split; reflexivity.
  - intros f Hf.
    destruct (hd_error (orderBy asc q)) as [[[s it] t] | ] eqn:Hhd;
      [ | discriminate ].
    destruct (orderBy_head asc q _ Hasc_total Hasc_trans Hhd) as [Hin Hmin].
    exists s, it, t. split; [ exact Hin | split ].
    + now apply (watchInfo_fields s).
    + intros r Hr. apply Z.leb_le. exact (Hmin r Hr).
  - intros l Hl.
    destruct (hd_error (orderBy desc q)) as [[[s it] t] | ] eqn:Hhd;
      [ | discriminate ].
    destruct (orderBy_head desc q _ Hdesc_total Hdesc_trans Hhd) as [Hin Hmax].
    exists s, it, t. split; [ exact Hin | split ].
    + now apply (watchInfo_fields s).
    + intros r Hr. apply Z.leb_le. exact (Hmax r Hr).
  - intros Hids Hne. split.
    + pose proof (orderBy_nonempty asc q Hne) as Hhd.
      destruct (hd_error (orderBy asc q)) as [[[s it] t] | ] eqn:E;
        [ | contradiction ].
      destruct (orderBy_head asc q _ Hasc_total Hasc_trans E) as [Hin _].
      apply (watchInfo_some s it t Hin). apply Hids.
      unfold q, qualifying in Hin. apply withStartTime_In in Hin.
      destruct Hin as [Hin _]. apply rows_joined, sessionsJoinItems_In in Hin.
      apply Hin.
    + pose proof (orderBy_nonempty desc q Hne) as Hhd.
      destruct (hd_error (orderBy desc q)) as [[[s it] t] | ] eqn:E;
        [ | contradiction ].
      destruct (orderBy_head desc q _ Hdesc_total Hdesc_trans E) as [Hin _].
      apply (watchInfo_some s it t Hin). apply Hids.
      unfold q, qualifying in Hin. apply withStartTime_In in Hin.
      destruct Hin as [Hin _]. apply rows_joined, sessionsJoinItems_In in Hin.
      apply Hin.
Qed.

End FirstAndLastWatch.

(** ** Looking a key up in a grouped select *)

Section GroupedFind.

Import Sql Wrapped.

Context {R K : Type} (eqb : K -> K -> bool) (key : R -> K) (seconds : R -> Z).
Hypothesis eqb_spec : forall a b, eqb a b = true <-> a = b.

Lemma eqb_sym (a b : K) : eqb a b = eqb b a.
Proof.
  destruct (eqb a b) eqn:E1, (eqb b a) eqn:E2; try reflexivity.
  - apply eqb_spec in E1. subst. assert (eqb b b = true) by now apply eqb_spec.
    congruence.
  - apply eqb_spec in E2. subst. assert (eqb a a = true) by now apply eqb_spec.
    congruence.
Qed.

Lemma find_by_key (F : K -> Stat K) (ks : list K) (k : K) :
  (forall k', statKey (F k') = k') ->
  find (fun s => eqb (statKey s) k) (map F ks)
  = if existsb (fun k' => eqb k' k) ks then Some (F k) else None.
Proof.
  intro HF. induction ks as [ | k' ks IH ]; [ reflexivity | ].
  cbn [map find existsb]. rewrite HF. destruct (eqb k' k) eqn:E.
  - apply eqb_spec in E. now subst.
  - exact IH.
Qed.

Lemma find_grouped (rows : list R) (k : K) :
  find (fun s => eqb (statKey s) k)
    (map (aggregate seconds) (groupBy eqb key rows))
  = match filter (fun r => eqb k (key r)) rows with
    | [] => None
    | g => Some (mkStat k (sum seconds g) (count g))
    end.
Proof.
  unfold groupBy. rewrite map_map.
  rewrite (find_by_key
             (fun x => aggregate seconds
                         (x, filter (fun r => eqb x (key r)) rows)))
    by reflexivity.
  destruct (existsb (fun k' => eqb k' k) (distinct eqb (map key rows))) eqn:E.
  - apply existsb_exists in E. destruct E as (k' & Hk' & E).
    apply eqb_spec in E. subst k'.
    apply (proj1 (distinct_In eqb eqb_spec _ _)) in Hk'.
    apply in_map_iff in Hk'. destruct Hk' as (r & Hr & Hin).
    destruct (filter (fun r => eqb k (key r)) rows) as [ | r' g ] eqn:Ef;
      [ | reflexivity ].
    exfalso.
    assert (Hr' : In r (filter (fun r => eqb k (key r)) rows)).
    { apply filter_In. split; [ exact Hin | ]. apply eqb_spec. now symmetry. }
    rewrite Ef in Hr'. destruct Hr'.
  - destruct (filter (fun r => eqb k (key r)) rows) as [ | r g ] eqn:Ef;
      [ reflexivity | ].
    exfalso. assert (Hr : In r (filter (fun r => eqb k (key r)) rows))
      by (rewrite Ef; now left).
    apply filter_In in Hr. destruct Hr as [Hr Hk]. apply eqb_spec in Hk.
    assert (Hex : existsb (fun k' => eqb k' k) (distinct eqb (map key rows))
                  = true).
    { apply existsb_exists. exists k. split.
      - apply (proj2 (distinct_In eqb eqb_spec _ _)). subst. now apply in_map.
      - now apply eqb_spec. }
    congruence.
Qed.

End GroupedFind.

(** ** The type breakdown *)

Lemma filter_disjoint_length {A : Type} (p q : A -> bool) (l : list A) :
  (forall x, p x = true -> q x = true -> False) ->
  (List.length (filter p l) + List.length (filter q l) <= List.length l)%nat.
Proof.
  intro H. induction l as [ | x l IH ]; [ simpl; lia | ].
  cbn [filter]. destruct (p x) eqn:Ep, (q x) eqn:Eq; cbn [List.length];
    try lia.
  exfalso. eauto.
Qed.

Section TypeBreakdownFacts.

Import Sql Exclusions Wrapped Yearly Shares.

Variable db : Database.
Variable params : WrappedParams.

Lemma string_eqb_spec (a b : string) : String.eqb a b = true <-> a = b.
Proof. apply String.eqb_eq. Qed.

(** The type breakdown reports the watch time and the number of the
    qualifying sessions on movies and on episodes; its total covers these
    two types only, so sessions on items of any other type are left out of
    it and it never exceeds the overview's [totalPlays]; each percentage is
    the rounded share of the two-type total, 0 when that total is 0. *)
Theorem type_breakdown_counts_movies_and_episodes :
  let b := getWrappedTypeBreakdown db params in
  let movies := ofType "Movie" db params in
  let episodes := ofType "Episode" db params in
  TypeBreakdown.movie b
  = TypeShare.mk (sum duration movies) (count movies)
      (share (sum duration movies)
         (sum duration movies + sum duration episodes)) /\
  TypeBreakdown.episode b
  = TypeShare.mk (sum duration episodes) (count episodes)
      (share (sum duration episodes)
         (sum duration movies + sum duration episodes)) /\
  TypeBreakdown.total b
  = TypeTotal.mk (sum duration movies + sum duration episodes)
      (count movies + count episodes) /\
  TypeTotal.playCount (TypeBreakdown.total b)
  <= WrappedOverview.totalPlays (getWrappedOverview db params).
Proof.
  cbv zeta.
  assert (Hfind : forall t,
             find (fun s => String.eqb (statKey s) t)
               (map (aggregate duration)
                  (groupBy String.eqb (fun r : Row => items.type (snd r))
                     (qualifyingRows db params)))
             = match ofType t db params with
               | [] => None
               | g => Some (mkStat t (sum duration g) (count g))
               end).
  { intro t. apply (find_grouped String.eqb _ duration string_eqb_spec). }
  assert (Htime : forall t,
             match
               match ofType t db params with
               | [] => None
               | g => Some (mkStat t (sum duration g) (count g))
               end
             with
             | Some x => statWatchTimeSeconds x
             | None => 0
             end = sum duration (ofType t db params)).
  { intro t. now destruct (ofType t db params). }
  assert (Hcount : forall t,
             match
               match ofType t db params with
               | [] => None
               | g => Some (mkStat t (sum duration g) (count g))
               end
             with
             | Some x => statPlayCount x
             | None => 0
             end = count (ofType t db params)).
  { intro t. now destruct (ofType t db params). }
  unfold getWrappedTypeBreakdown. cbv zeta.
  fold (qualifyingRows db params).
  rewrite !Hfind, !Htime, !Hcount.
  cbn [TypeBreakdown.movie TypeBreakdown.episode TypeBreakdown.total
       TypeTotal.playCount].
  unfold share. rewrite !Z.gtb_ltb.
  split; [ reflexivity | split; [ reflexivity | split; [ reflexivity | ]]].
  destruct (overview_totals db params) as (-> & _).
  unfold count, ofType. rewrite <- Nat2Z.inj_add. apply Nat2Z.inj_le.
  apply filter_disjoint_length. intros r Hm He.
  apply String.eqb_eq in Hm, He. congruence.
Qed.

End TypeBreakdownFacts.

(** ** Genre statistics *)

Lemma filter_filter_and {A : Type} (p q : A -> bool) (l : list A) :
  filter p (filter q l) = filter (fun x => q x && p x) l.
Proof.
  induction l as [ | x l IH ]; [ reflexivity | ].
  cbn [filter]. destruct (q x); cbn [andb filter]; rewrite IH; reflexivity.
Qed.

Lemma StronglySorted_app_le {A : Type} (R : A -> A -> Prop) (l1 l2 : list A) :
  StronglySorted R (l1 ++ l2) ->
  forall a b, In a l1 -> In b l2 -> R a b.
Proof.
  induction l1 as [ | x l1 IH ]; intros Hs a b Ha Hb; [ destruct Ha | ].
  inversion Hs as [ | ? ? Hs' Hall ]; subst. rewrite Forall_forall in Hall.
  destruct Ha as [<- | Ha].
  - apply Hall, in_or_app. now right.
  - now apply IH.
Qed.

Lemma StronglySorted_firstn {A : Type} (R : A -> A -> Prop) (n : nat)
  (l : list A) :
  StronglySorted R l -> StronglySorted R (firstn n l).
Proof.
  intro Hs. revert n. induction Hs as [ | x l Hs IH Hall ]; intro n.
  - rewrite firstn_nil. constructor.
  - destruct n; cbn [firstn]; constructor; [ apply IH | ].
    rewrite Forall_forall in *. intros y Hy. apply Hall.
    rewrite <- (firstn_skipn n l). apply in_or_app. now left.
Qed.

Lemma NoDup_firstn {A : Type} (n : nat) (l : list A) :
  NoDup l -> NoDup (firstn n l).
Proof.
  intro Hnd. rewrite <- (firstn_skipn n l) in Hnd.
  now apply NoDup_app_remove_r in Hnd.
Qed.

Section GenreStatsFacts.

Import Sql Exclusions Wrapped Yearly Genres Shares.

Variable db : Database.
Variable params : WrappedParams.

Lemma genre_query_rows :
  where_
    (and_
       (push
          (push
             (userYearConditions params ++
              [fun r : Row => isNotNull (items.genres (snd r))])
             (userExclusion (getStatisticsExclusions db (serverId params))))
          (itemLibraryExclusion
             (getStatisticsExclusions db (serverId params)))))
    (sessionsJoinItems db)
  = filter (fun r => isNotNull (items.genres (snd r)))
      (qualifyingRows db params).
Proof.
  unfold qualifyingRows, where_. cbv zeta. rewrite filter_filter_and.
  apply filter_ext. intro r. rewrite !and_push. unfold and_.
  rewrite forallb_app. cbn [forallb]. rewrite andb_true_r.
  rewrite <- !andb_assoc. f_equal.
  rewrite (andb_comm (isNotNull (items.genres (snd r)))).
  now rewrite <- andb_assoc.
Qed.

Let stats : list (Stat string) :=
  orderBy bySumDesc
    (map (aggregate secondsOf) (groupBy String.eqb fst (genreRows db params))).

Lemma getWrappedGenreStats_unfold :
  getWrappedGenreStats db params
  = WrappedGenres.mk
      (map
         (fun g =>
            GenreStats.mk (statKey g) (statWatchTimeSeconds g)
              (statPlayCount g)
              (share (statWatchTimeSeconds g)
                 (sum secondsOf (genreRows db params))))
         (firstn 10 stats))
      (count stats).
Proof.
  unfold getWrappedGenreStats. cbv zeta.
  match goal with
  | |- context [genreStatsOf ?x] =>
      replace x
        with (filter (fun r : Row => isNotNull (items.genres (snd r)))
                (qualifyingRows db params))
        by (symmetry; exact genre_query_rows)
  end.
  change (genreStatsOf
            (filter (fun r : Row => isNotNull (items.genres (snd r)))
               (qualifyingRows db params)))
    with stats.
  rewrite fold_left_add, Z.add_0_l.
  assert (Htotal : sum statWatchTimeSeconds stats
                   = sum secondsOf (genreRows db params)).
  { unfold stats, orderBy.
    rewrite <- (sum_perm _ _ _ (sort_perm bySumDesc _)), sum_map.
    cbn [aggregate statWatchTimeSeconds].
    apply (sum_groupBy String.eqb fst secondsOf String.eqb_eq). }
  rewrite Htotal. reflexivity.
Qed.

(** The genre statistics list the ten genres of the year with the largest
    watch time, largest first, each once; a session counts for every genre
    of its item, so the watch time of a genre is that of all qualifying
    sessions on items that list it, and [percentageOfTotal] is the rounded
    share of the sum of these per-genre times (0 when the sum is 0);
    [totalGenresExplored] is the number of distinct genres, listed or
    not. *)
Theorem genre_stats_list_the_top_ten :
  let g := getWrappedGenreStats db params in
  let rows := genreRows db params in
  WrappedGenres.totalGenresExplored g = countDistinct String.eqb fst rows /\
  Z.of_nat (List.length (WrappedGenres.topGenres g))
  = Z.min 10 (WrappedGenres.totalGenresExplored g) /\
  NoDup (map GenreStats.genre (WrappedGenres.topGenres g)) /\
  StronglySorted
    (fun a b => GenreStats.watchTimeSeconds b <= GenreStats.watchTimeSeconds a)
    (WrappedGenres.topGenres g) /\
  Forall
    (fun e =>
       let ofGenre := filter (fun gr => String.eqb (GenreStats.genre e) (fst gr)) rows in
       ofGenre <> [] /\
       GenreStats.watchTimeSeconds e = sum secondsOf ofGenre /\
       GenreStats.playCount e = count ofGenre /\
       GenreStats.percentageOfTotal e
       = share (GenreStats.watchTimeSeconds e) (sum secondsOf rows))
    (WrappedGenres.topGenres g) /\
  (forall x,
      In x (map fst rows) ->
      ~ In x (map GenreStats.genre (WrappedGenres.topGenres g)) ->
      Forall (fun e => genreTotal x rows <= GenreStats.watchTimeSeconds e)
        (WrappedGenres.topGenres g)).
Proof.
  cbv zeta. rewrite getWrappedGenreStats_unfold.
  cbn [WrappedGenres.totalGenresExplored WrappedGenres.topGenres].
  set (rows := genreRows db params).
  set (entry := fun g : Stat string =>
                  GenreStats.mk (statKey g) (statWatchTimeSeconds g)
                    (statPlayCount g)
                    (share (statWatchTimeSeconds g) (sum secondsOf rows))).
  assert (Hperm : Permutation
                    (map (aggregate secondsOf) (groupBy String.eqb fst rows))
                    stats) by apply sort_perm.
  assert (Hsorted : StronglySorted
                      (fun a b => statWatchTimeSeconds b <= statWatchTimeSeconds a)
                      stats)
    by apply (orderBy_desc_sorted statWatchTimeSeconds).
  assert (Hnd : NoDup (map statKey stats)).
  { eapply Permutation_NoDup; [ apply Permutation_map, Hperm | ].
    apply (grouped_keys_NoDup String.eqb fst secondsOf String.eqb_eq). }
  assert (Hkeys : forall x, In x (map statKey stats) <-> In x (map fst rows)).
  { intro x.
    rewrite <- (grouped_key_In String.eqb fst secondsOf String.eqb_eq).
    split; apply Permutation_in; [ apply Permutation_sym | ];
      apply Permutation_map, Hperm. }
  assert (Hcount : count stats = countDistinct String.eqb fst rows).
  { unfold count, countDistinct.
    rewrite <- (Permutation_length Hperm), length_map.
    unfold groupBy. now rewrite length_map. }
  split; [ exact Hcount | ].
  split.
  { rewrite length_map, length_firstn. unfold count. lia. }
  split.
  { rewrite map_map. cbn [entry GenreStats.genre].
    rewrite <- firstn_map. now apply NoDup_firstn. }
  split.
  { pose proof (StronglySorted_firstn _ 10 _ Hsorted) as Hs.
    induction Hs as [ | s l Hs IH Hall ]; cbn [map]; constructor;
      [ exact IH | ].
    apply Forall_map. exact Hall. }
  split.
  { apply Forall_map, Forall_forall. intros s Hs.
    assert (Hin : In s stats).
    { rewrite <- (firstn_skipn 10 stats). apply in_or_app. now left. }
    apply (Permutation_in _ (Permutation_sym Hperm)) in Hin.
    cbv zeta. cbn [entry GenreStats.genre GenreStats.watchTimeSeconds
                   GenreStats.playCount GenreStats.percentageOfTotal].
    destruct (grouped_In String.eqb fst secondsOf String.eqb_eq rows s Hin)
      as [Ht Hc].
    split; [ | split; [ exact Ht | split; [ exact Hc | reflexivity ]]].
    apply in_map_iff in Hin. destruct Hin as (grp & <- & Hgrp).
    pose proof (groupBy_nonempty _ String.eqb_eq _ _ grp Hgrp) as Hne.
    apply (groupBy_In _ String.eqb_eq) in Hgrp. destruct Hgrp as [_ Hsnd].
    cbn [aggregate statKey]. now rewrite <- Hsnd. }
  intros x Hx Hnot. apply Forall_map, Forall_forall. intros s Hs.
  cbn [entry GenreStats.watchTimeSeconds].
  apply Hkeys in Hx. apply in_map_iff in Hx. destruct Hx as (sx & <- & Hsx).
  assert (Hrest : In sx (skipn 10 stats)).
  { rewrite <- (firstn_skipn 10 stats) in Hsx. apply in_app_or in Hsx.
    destruct Hsx as [Hsx | Hsx]; [ | exact Hsx ].
    exfalso. apply Hnot. rewrite map_map. cbn [entry GenreStats.genre].
    now apply in_map. }
  assert (Htotal : statWatchTimeSeconds sx = genreTotal (statKey sx) rows).
  { assert (Hin : In sx stats).
    { rewrite <- (firstn_skipn 10 stats). apply in_or_app. now right. }
    apply (Permutation_in _ (Permutation_sym Hperm)) in Hin.
    now apply (grouped_In String.eqb fst secondsOf String.eqb_eq) in Hin. }
  rewrite <- Htotal.
  rewrite <- (firstn_skipn 10 stats) in Hsorted.
  exact (StronglySorted_app_le _ _ _ Hsorted s sx Hs Hrest).
Qed.

End GenreStatsFacts.

(** ** Marking and unmarking *)

Section MarkAndDelete.

Import MarkWatched.

Variable w : World.

(** What a call of [markItemWatched] can do to the database. *)
Lemma markItemWatched_database (n : Z) (itemId : string) (watched : bool)
  (infer : option bool) (db : Database) :
  snd (markItemWatched w n itemId watched infer db) = db \/
  exists session item ticks,
    Spec.requestSucceeded w db n itemId watched session /\
    watched = true /\ infer = Some true /\
    find (fun it => String.eqb (items.id it) itemId) (itemsTable db)
    = Some item /\
    items.runtimeTicks item = Some ticks /\ ticks <> 0 /\
    existsb
      (fun x =>
         String.eqb (sessions.id x)
           (inferredSessionId n (id session) itemId (now w)))
      (sessionsTable db) = false /\
    snd (markItemWatched w n itemId watched infer db)
    = mkDatabase (serversTable db) (itemsTable db)
        (sessionsTable db ++
         [newSession n (id session) (name session) itemId item ticks (now w)]).
Proof.
  destruct (markItemWatched_without_request w n itemId watched infer db)
    as [[session Hreq] | [Hdb _]]; [ | now left ].
  rewrite (markItemWatched_after_request w n itemId watched infer db session
             Hreq).
  cbv zeta.
  assert (Hsnd : forall (created : Outcome unit * Database),
             snd
               match fst created with
               | Returns _ =>
                   match
                     revalidatePath w
                       ("/servers/" ++ Js.stringOfZ n ++ "/library/" ++ itemId)
                   with
                   | Returns _ =>
                       (Returns
                          (mkResult true
                             (if watched then "Marked as watched"%string
                              else "Marked as unwatched"%string)
                             (Some watched)),
                        snd created)
                   | Throws e =>
                       (Returns (failure (Spec.thrownMessage e)), snd created)
                   end
               | Throws e =>
                   (Returns (failure (Spec.thrownMessage e)), snd created)
               end = snd created).
  { intros [[[] | e] d]; cbn [fst snd]; [ | reflexivity ].
    destruct (revalidatePath w _) as [[] | e]; reflexivity. }
  rewrite Hsnd.
  destruct watched; [ | now left ].
  destruct infer as [[ | ] | ]; cbn [andb]; [ | now left | now left ].
  destruct (createInferredSessionForItem_cases w n (id session) (name session)
              itemId db)
    as [Hsame | (item & ticks & _ & _ & Hfind & Hticks & Hne & Hfresh & Hrun)];
    [ now left | right ].
  exists session, item, ticks. rewrite Hrun. cbn [snd].
  repeat (split; [ assumption || reflexivity | ]). reflexivity.
Qed.

(** [markItemWatched] never removes or changes a stored session and never
    touches the servers or the items: whatever the session, the cookie, the
    media server, the cache and the database answer, the tables of servers
    and items are as before and the sessions table is the old one followed
    by at most one row, an inferred session of the item on the server.
    Marking an item as unwatched changes nothing at all: inferred sessions
    stay until [deleteInferredSessionForItem] removes them. *)
Theorem markItemWatched_only_appends (n : Z) (itemId : string)
  (watched : bool) (infer : option bool) (db : Database) :
  let after := snd (markItemWatched w n itemId watched infer db) in
  serversTable after = serversTable db /\
  itemsTable after = itemsTable db /\
  (exists added,
      sessionsTable after = sessionsTable db ++ added /\
      (List.length added <= 1)%nat /\
      Forall
        (fun s =>
           sessions.isInferred s = true /\
           sessions.serverId s = n /\
           sessions.itemId s = Some itemId)
        added) /\
  (watched = false -> after = db).
Proof.
  cbv zeta.
  destruct (markItemWatched_database n itemId watched infer db)
    as [-> | (session & item & ticks & _ & -> & -> & _ & _ & _ & _ & ->)].
  - repeat split; try reflexivity.
    exists []. rewrite app_nil_r. repeat split; [ simpl; lia | constructor ].
  - cbn [serversTable itemsTable sessionsTable].
    split; [ reflexivity | split; [ reflexivity | split ]];
      [ | discriminate ].
    eexists. split; [ reflexivity | split; [ simpl; lia | ] ].
    repeat constructor.
Qed.

Lemma filter_none {A : Type} (p : A -> bool) (l : list A) :
  filter p l = [] -> filter (fun x => negb (p x)) l = l.
Proof.
  induction l as [ | x l IH ]; [ reflexivity | ].
  cbn [filter]. destruct (p x); [ discriminate | ].
  intro H. cbn [negb]. now rewrite IH.
Qed.

Lemma filter_negb_idem {A : Type} (p : A -> bool) (l : list A) :
  filter p (filter (fun x => negb (p x)) l) = [].
Proof.
  induction l as [ | x l IH ]; [ reflexivity | ].
  cbn [filter]. destruct (p x) eqn:E; cbn [negb filter]; [ exact IH | ].
  now rewrite E.
Qed.

Lemma filter_idem {A : Type} (p : A -> bool) (l : list A) :
  filter p (filter p l) = filter p l.
Proof.
  induction l as [ | x l IH ]; [ reflexivity | ].
  cbn [filter]. destruct (p x) eqn:E; cbn [filter]; [ | exact IH ].
  now rewrite E, IH.
Qed.

Lemma deleteInferredSessionForItem_run (n : Z) (u i : string) (db : Database) :
  dbError w SessionsDelete = None ->
  deleteInferredSessionForItem w n u i db
  = (Returns (Sql.count (filter (inferredSessionOf n u i) (sessionsTable db))),
     mkDatabase (serversTable db) (itemsTable db)
       (filter (fun s => negb (inferredSessionOf n u i s)) (sessionsTable db))).
Proof.
  intro Hok. unfold deleteInferredSessionForItem, bind, statement, ret.
  now rewrite Hok.
Qed.

(** Deleting the inferred sessions of an item a second time deletes
    nothing: the second call returns 0 and leaves the database as the first
    call left it. *)
Theorem deleteInferredSessionForItem_twice (n : Z) (u i : string)
  (db : Database) :
  dbError w SessionsDelete = None ->
  let after := snd (deleteInferredSessionForItem w n u i db) in
  deleteInferredSessionForItem w n u i after = (Returns 0, after).
Proof.
  intro Hok. cbv zeta. rewrite !deleteInferredSessionForItem_run by exact Hok.
  cbn [snd serversTable itemsTable sessionsTable].
  rewrite filter_negb_idem, filter_idem. reflexivity.
Qed.

(** Marking as watched with inference and then deleting the inferred
    sessions of the item: when the mark recorded its session, the delete
    returns one more than the number of inferred sessions the user had for
    the item before, and leaves the sessions that were there before less
    those; when there were none, it returns 1 and the database is back as it
    was before the mark. *)
Theorem mark_then_delete_restores (n : Z) (itemId : string) (db : Database)
  (session : AuthSession) (item : items.row) (ticks : Z) :
  Spec.requestSucceeded w db n itemId true session ->
  dbError w ItemsFindFirst = None ->
  dbError w SessionsInsert = None ->
  dbError w SessionsDelete = None ->
  find (fun it => String.eqb (items.id it) itemId) (itemsTable db) = Some item ->
  items.runtimeTicks item = Some ticks ->
  ticks <> 0 ->
  existsb
    (fun x =>
       String.eqb (sessions.id x)
         (inferredSessionId n (id session) itemId (now w)))
    (sessionsTable db) = false ->
  let marked := snd (markItemWatched w n itemId true (Some true) db) in
  let inferredBefore :=
    filter (inferredSessionOf n (id session) itemId) (sessionsTable db) in
  deleteInferredSessionForItem w n (id session) itemId marked
  = (Returns (1 + Sql.count inferredBefore),
     mkDatabase (serversTable db) (itemsTable db)
       (filter (fun s => negb (inferredSessionOf n (id session) itemId s))
          (sessionsTable db))) /\
  (inferredBefore = [] ->
   deleteInferredSessionForItem w n (id session) itemId marked
   = (Returns 1, db)).
Proof.
  intros Hreq Hitems Hinsert Hdelete Hfind Hticks Hne Hfresh. cbv zeta.
  assert (Hmarked :
            snd (markItemWatched w n itemId true (Some true) db)
            = mkDatabase (serversTable db) (itemsTable db)
                (sessionsTable db ++
                 [newSession n (id session) (name session) itemId item ticks
                    (now w)])).
  { rewrite (markItemWatched_after_request w n itemId true (Some true) db
               session Hreq).
    cbv zeta. cbn [andb].
    unfold createInferredSessionForItem, bind, statement, ret.
    rewrite Hitems, Hfind, Hticks. unfold truthyTicks.
    destruct (Z.eqb_spec ticks 0) as [E | _]; [ contradiction | ].
    cbn [negb]. rewrite Hinsert. unfold insertOnConflictDoNothing.
    cbn [sessions.id newSession]. rewrite Hfresh. cbn [fst snd].
    destruct (revalidatePath w _) as [[] | e]; reflexivity. }
  rewrite Hmarked, deleteInferredSessionForItem_run by exact Hdelete.
  cbn [serversTable itemsTable sessionsTable].
  assert (Hnew : inferredSessionOf n (id session) itemId
                   (newSession n (id session) (name session) itemId item ticks
                      (now w)) = true).
  { unfold inferredSessionOf, newSession, Sql.eqText.
    cbn [sessions.serverId sessions.userId sessions.itemId sessions.isInferred].
    now rewrite Z.eqb_refl, !String.eqb_refl. }
  rewrite !filter_app. cbn [filter]. rewrite Hnew. cbn [negb].
  rewrite app_nil_r.
  assert (Hcount :
            Sql.count
              (filter (inferredSessionOf n (id session) itemId)
                 (sessionsTable db) ++
               [newSession n (id session) (name session) itemId item ticks
                  (now w)])
            = 1 + Sql.count
                    (filter (inferredSessionOf n (id session) itemId)
                       (sessionsTable db))).
  { unfold Sql.count. rewrite length_app. cbn [List.length]. lia. }
  rewrite Hcount. split; [ reflexivity | ].
  intro Hnone. rewrite Hnone, (filter_none _ _ Hnone).
  cbn [Sql.count List.length Z.of_nat Z.add]. now destruct db.
Qed.

End MarkAndDelete.

(** Alice deletes the inferred sessions of the movie twice: the second call
    deletes nothing. *)
Lemma deleteInferredSessionForItem_twice_witness :
  let w := Examples.world (Some Examples.alice) (MarkWatched.Returns tt) in
  let after :=
    snd (MarkWatched.deleteInferredSessionForItem w 1 "u1" "m1"
           (Examples.library Examples.twoHours [])) in
  MarkWatched.deleteInferredSessionForItem w 1 "u1" "m1" after
  = (MarkWatched.Returns 0, after).
Proof.
  exact (deleteInferredSessionForItem_twice
           (Examples.world (Some Examples.alice) (MarkWatched.Returns tt))
           1 "u1" "m1" (Examples.library Examples.twoHours []) eq_refl).
Defined.

(** Alice marks the two-hour movie as watched and deletes the inferred
    session again: one session is deleted and the library is as before. *)
Lemma mark_then_delete_restores_witness :
  let w := Examples.world (Some Examples.alice) (MarkWatched.Returns tt) in
  let db := Examples.library Examples.twoHours [] in
  MarkWatched.deleteInferredSessionForItem w 1 "u1" "m1"
    (snd (MarkWatched.markItemWatched w 1 "m1" true (Some true) db))
  = (MarkWatched.Returns 1, db).
Proof.
  refine
    (proj2
       (mark_then_delete_restores
          (Examples.world (Some Examples.alice) (MarkWatched.Returns tt))
          1 "m1" (Examples.library Examples.twoHours []) Examples.alice
          (Examples.movie "m1" "lib1" ["Drama"%string] Examples.twoHours)
          72000000000 _ eq_refl eq_refl eq_refl eq_refl eq_refl _ eq_refl)
       eq_refl).
  - repeat split.
    exists (Examples.server [] []), "token"%string,
      (MarkWatched.mkResponse true 204).
    repeat split.
  - lia.
Defined.

(** ** A recorded mark in the yearly statistics *)

Section MarkedInOverview.

Import Sql Exclusions Wrapped Yearly MarkWatched.

Lemma unique_item_filter (db : Database) (itemId : string) (item : items.row) :
  uniqueItemIds db ->
  find (fun it => String.eqb (items.id it) itemId) (itemsTable db) = Some item ->
  filter (fun it => eqText (Some itemId) (items.id it)) (itemsTable db)
  = [item].
Proof.
  unfold uniqueItemIds. induction (itemsTable db) as [ | it l IH ];
    intros Hnd Hfind; [ discriminate | ].
  cbn [map] in Hnd. inversion Hnd as [ | ? ? Hnot Hnd' ]; subst.
  cbn [find filter eqText] in *.
  rewrite String.eqb_sym. destruct (String.eqb (items.id it) itemId) eqn:E.
  - injection Hfind as ->. f_equal. apply String.eqb_eq in E.
    destruct (filter _ l) as [ | x rest ] eqn:Ef; [ reflexivity | ].
    exfalso. apply Hnot.
    assert (Hx : In x (filter (fun it => String.eqb itemId (items.id it)) l))
      by (rewrite Ef; now left).
    apply filter_In in Hx. destruct Hx as [Hx Hid].
    apply String.eqb_eq in Hid. rewrite E, Hid. now apply in_map.
  - now apply IH.
Qed.

Lemma sessionsJoinItems_app (db : Database) (s : sessions.row) :
  sessionsJoinItems
    (mkDatabase (serversTable db) (itemsTable db) (sessionsTable db ++ [s]))
  = sessionsJoinItems db ++
    map (pair s)
      (filter (fun it => eqText (sessions.itemId s) (items.id it))
         (itemsTable db)).
Proof.
  unfold sessionsJoinItems. cbn [sessionsTable itemsTable].
  rewrite flat_map_app. cbn [flat_map]. now rewrite app_nil_r.
Qed.

Variable w : World.
Variable db : Database.
Variable n : Z.
Variable itemId : string.
Variable session : AuthSession.
Variable item : items.row.
Variable ticks : Z.

Hypothesis requested : Spec.requestSucceeded w db n itemId true session.
Hypothesis itemsRead : dbError w ItemsFindFirst = None.
Hypothesis sessionsWritten : dbError w SessionsInsert = None.
Hypothesis found :
  find (fun it => String.eqb (items.id it) itemId) (itemsTable db) = Some item.
Hypothesis runtime : items.runtimeTicks item = Some ticks.
Hypothesis nonzero : ticks <> 0.
Hypothesis fresh :
  existsb
    (fun x =>
       String.eqb (sessions.id x)
         (inferredSessionId n (id session) itemId (now w)))
    (sessionsTable db) = false.
Hypothesis itemsKey : uniqueItemIds db.
Hypothesis validNow : Calendar.validTimestamp (now w) = true.
Hypothesis userCounted : ~ In (id session) (Configured.excludedUsers db n).
Hypothesis libraryCounted :
  ~ In (items.libraryId item) (Configured.excludedLibraries db n).

Let params : WrappedParams :=
  mkParams n (id session) (Calendar.year (Calendar.date (now w))).
Let inferred : sessions.row :=
  newSession n (id session) (name session) itemId item ticks (now w).
Let marked : Database :=
  snd (markItemWatched w n itemId true (Some true) db).

Lemma marked_database :
  marked
  = mkDatabase (serversTable db) (itemsTable db) (sessionsTable db ++ [inferred]).
Proof.
  unfold marked.
  rewrite (markItemWatched_after_request w n itemId true (Some true) db
             session requested).
  cbv zeta. cbn [andb].
  unfold createInferredSessionForItem, bind, statement, ret.
  rewrite itemsRead, found, runtime. unfold truthyTicks.
  destruct (Z.eqb_spec ticks 0) as [E | _]; [ contradiction | ].
  cbn [negb]. rewrite sessionsWritten. unfold insertOnConflictDoNothing.
  cbn [sessions.id newSession]. rewrite fresh. cbn [fst snd].
  destruct (revalidatePath w _) as [[] | e]; reflexivity.
Qed.

Lemma inferred_qualifies :
  and_
    (push
       (push (userYearConditions params)
          (userExclusion (getStatisticsExclusions db n)))
       (itemLibraryExclusion (getStatisticsExclusions db n)))
    (inferred, item) = true.
Proof.
  rewrite !and_push, !andb_true_iff. split; [ split | ].
  - unfold userYearConditions.
    pose proof (proj2 (year_window (Wrapped.year params) (now w) validNow)
                  eq_refl) as [Hlo Hhi].
    destruct (getYearDateRange (Wrapped.year params)) as [lo hi].
    cbn [fst snd] in *.
    unfold and_. cbn [forallb fst inferred newSession sessions.serverId
                      sessions.userId sessions.startTime sessions.itemId
                      params Wrapped.serverId Wrapped.userId eqText gteTime
                      lteTime isNotNull].
    rewrite Z.eqb_refl, String.eqb_refl.
    apply Z.leb_le in Hlo, Hhi. now rewrite Hlo, Hhi.
  - revert userCounted.
    unfold getStatisticsExclusions, Configured.excludedUsers, Configured.server.
    destruct (find _ (serversTable db)) as [srv | ]; cbn [userExclusion];
      [ | reflexivity ].
    destruct (servers.excludedUserIds srv) as [ | x xs ]; [ reflexivity | ].
    intro Hnot. cbn [fst inferred newSession sessions.userId].
    now apply notInArray_spec.
  - revert libraryCounted.
    unfold getStatisticsExclusions, Configured.excludedLibraries,
      Configured.server.
    destruct (find _ (serversTable db)) as [srv | ];
      cbn [itemLibraryExclusion]; [ | reflexivity ].
    destruct (servers.excludedLibraryIds srv) as [ | x xs ]; [ reflexivity | ].
    intro Hnot. cbn [snd]. now apply notInArray_spec.
Qed.

Lemma marked_qualifyingRows :
  qualifyingRows marked params = qualifyingRows db params ++ [(inferred, item)].
Proof.
  rewrite marked_database. unfold qualifyingRows, where_. cbv zeta.
  rewrite sessionsJoinItems_app.
  unfold getStatisticsExclusions. cbn [serversTable].
  fold (getStatisticsExclusions db (Wrapped.serverId params)).
  cbn [inferred newSession sessions.itemId].
  rewrite (unique_item_filter db itemId item itemsKey found).
  cbn [map]. rewrite filter_app. cbn [filter].
  match goal with
  | |- context [if ?c then _ else _] =>
      replace c with true by (symmetry; exact inferred_qualifies)
  end.
  reflexivity.
Qed.

(** A mark that recorded its inferred session shows in the user's yearly
    statistics: when the item's runtime is a safe integer (at most
    2^53 - 1 in absolute value), item ids are unique, the clock reads a
    valid timestamp and neither the user nor the item's library is excluded
    on the server, the overview of the current year has one more play and
    the item's runtime, in whole seconds, more watch time than before the
    mark. *)
Theorem marked_item_counts_in_overview :
  Z.abs ticks <= Js.MAX_SAFE_INTEGER ->
  WrappedOverview.totalPlays (getWrappedOverview marked params)
  = WrappedOverview.totalPlays (getWrappedOverview db params) + 1 /\
  WrappedOverview.totalWatchTimeSeconds (getWrappedOverview marked params)
  = WrappedOverview.totalWatchTimeSeconds (getWrappedOverview db params)
    + ticks / 10000000.
Proof.
  intros _.
  destruct (overview_totals marked params) as (-> & -> & _).
  destruct (overview_totals db params) as (-> & -> & _).
  rewrite marked_qualifyingRows. split.
  - unfold count. rewrite length_app. cbn [List.length]. lia.
  - rewrite sum_app. cbn [sum fold_right]. unfold duration at 2.
    cbn [fst inferred newSession sessions.playDuration]. unfold Js.floorDiv.
    lia.
Qed.

End MarkedInOverview.

(** Alice marks the two-hour movie as watched in March 2024: the overview
    of 2024 has one play and 7200 seconds more. *)
Lemma marked_item_counts_in_overview_witness :
  let w := Examples.world (Some Examples.alice) (MarkWatched.Returns tt) in
  let db := Examples.library Examples.twoHours [] in
  let marked := snd (MarkWatched.markItemWatched w 1 "m1" true (Some true) db) in
  let params := Wrapped.mkParams 1 "u1" 2024 in
  Wrapped.WrappedOverview.totalPlays (Wrapped.getWrappedOverview marked params)
  = 0 + 1 /\
  Wrapped.WrappedOverview.totalWatchTimeSeconds
    (Wrapped.getWrappedOverview marked params)
  = 0 + 7200.
Proof.
  refine
    (marked_item_counts_in_overview
       (Examples.world (Some Examples.alice) (MarkWatched.Returns tt))
       (Examples.library Examples.twoHours []) 1 "m1" Examples.alice
       (Examples.movie "m1" "lib1" ["Drama"%string] Examples.twoHours)
       72000000000 _ eq_refl eq_refl eq_refl eq_refl _ eq_refl _ eq_refl _ _
       _).
  - repeat split.
    exists (Examples.server [] []), "token"%string,
      (MarkWatched.mkResponse true 204).
    repeat split.
  - lia.
  - repeat constructor. intros [].
  - intros [].
  - intros [].
  - unfold Js.MAX_SAFE_INTEGER. lia.
Defined.

(** ** The years with activity *)

Lemma StronglySorted_strict (l : list Z) :
  StronglySorted (fun a b => b <= a) l -> NoDup l ->
  StronglySorted (fun a b => b < a) l.
Proof.
  induction 1 as [ | x l Hs IH Hall ]; intro Hnd; constructor.
  - apply IH. now inversion Hnd.
  - inversion Hnd as [ | ? ? Hnot _ ]; subst.
    rewrite Forall_forall in *. intros y Hy.
    specialize (Hall y Hy). assert (y <> x) by (intros ->; contradiction).
    lia.
Qed.

Section AvailableYearsFacts.

Import Sql Exclusions Wrapped Yearly OneTable AvailableYears.

Variable db : Database.
Variable serverId : Z.
Variable userId : string.

(** The user exclusion on a session: it passes when the session's user is
    not on the server's list. *)
Lemma userExclusion_onSessions (s : sessions.row) (u : string) :
  sessions.userId s = Some u ->
  (match onSessions (userExclusion (getStatisticsExclusions db serverId)) with
   | Some x => x s
   | None => true
   end = true <->
   ~ In u (Configured.excludedUsers db serverId)).
Proof.
  intro Hu.
  unfold getStatisticsExclusions, Configured.excludedUsers, Configured.server.
  destruct (find _ (serversTable db)) as [srv | ]; cbn [userExclusion onSessions option_map];
    [ | tauto ].
  destruct (servers.excludedUserIds srv) as [ | x xs ] eqn:E;
    cbn [option_map]; [ tauto | ].
  unfold onSessions. cbn [option_map fst]. rewrite Hu. apply notInArray_spec.
Qed.

(** The sessions the query of the years reads. *)
Lemma years_rows (s : sessions.row) :
  In s
    (where_
       (and_
          (push
             [ (fun s => sessions.serverId s =? serverId);
               (fun s => eqText (sessions.userId s) userId);
               (fun s => isNotNull (sessions.startTime s)) ]
             (onSessions (userExclusion (getStatisticsExclusions db serverId)))))
       (sessionsTable db)) <->
  In s (sessionsTable db) /\
  sessions.serverId s = serverId /\
  sessions.userId s = Some userId /\
  sessions.startTime s <> None /\
  ~ In userId (Configured.excludedUsers db serverId).
Proof.
  unfold where_. rewrite filter_In, and_push. unfold and_. cbn [forallb].
  rewrite !andb_true_iff, Z.eqb_eq.
  assert (Huser : eqText (sessions.userId s) userId = true <->
                  sessions.userId s = Some userId).
  { unfold eqText. destruct (sessions.userId s) as [u | ];
      [ rewrite String.eqb_eq | ]; split; congruence. }
  assert (Hstart : isNotNull (sessions.startTime s) = true <->
                   sessions.startTime s <> None).
  { unfold isNotNull. destruct (sessions.startTime s); split; congruence. }
  split.
  - intros [Hin [(Hsrv & Hu & Hst & _) Hex]].
    apply Huser in Hu. apply Hstart in Hst.
    repeat (split; [ assumption | ]).
    now apply (userExclusion_onSessions s userId Hu).
  - intros (Hin & Hsrv & Hu & Hst & Hex).
    split; [ exact Hin | split ].
    + repeat split; [ exact Hsrv | now apply Huser | now apply Hstart ].
    + now apply (userExclusion_onSessions s userId Hu).
Qed.

Lemma available_years_In (y : Z) :
  In y (getAvailableWrappedYears db serverId userId) <->
  ~ In userId (Configured.excludedUsers db serverId) /\
  exists s t,
    In s (sessionsTable db) /\
    sessions.serverId s = serverId /\
    sessions.userId s = Some userId /\
    sessions.startTime s = Some t /\
    Calendar.year (Calendar.date t) = y.
Proof.
  unfold getAvailableWrappedYears. cbv zeta. unfold orderBy.
  rewrite sort_In, (distinct_In Z.eqb Z.eqb_eq), in_flat_map.
  split.
  - intros (s & Hs & Hy). apply years_rows in Hs.
    destruct Hs as (Hin & Hsrv & Hu & Hst & Hex).
    destruct (sessions.startTime s) as [t | ] eqn:Et; [ | destruct Hy ].
    destruct Hy as [<- | []].
    split; [ exact Hex | ]. exists s, t. now repeat split.
  - intros (Hex & s & t & Hin & Hsrv & Hu & Hst & Hy).
    exists s. split.
    + apply years_rows. repeat (split; [ assumption | ]).
      split; [ congruence | exact Hex ].
    + rewrite Hst. now left.
Qed.

(** [getAvailableWrappedYears] lists, latest first and each once, the
    calendar years in which a session of the user on the server started;
    for a user on the server's excluded-user list it lists none. *)
Theorem available_years_are_the_years_of_the_sessions :
  let years := getAvailableWrappedYears db serverId userId in
  StronglySorted (fun a b => b < a) years /\
  forall y,
    In y years <->
    ~ In userId (Configured.excludedUsers db serverId) /\
    exists s t,
      In s (sessionsTable db) /\
      sessions.serverId s = serverId /\
      sessions.userId s = Some userId /\
      sessions.startTime s = Some t /\
      Calendar.year (Calendar.date t) = y.
Proof.
  cbv zeta. split; [ | exact available_years_In ].
  unfold getAvailableWrappedYears. cbv zeta. unfold orderBy.
  apply StronglySorted_strict.
  - apply (orderBy_desc_sorted (fun x : Z => x)).
  - eapply Permutation_NoDup; [ apply sort_perm | ].
    apply (distinct_NoDup Z.eqb Z.eqb_eq).
Qed.

End AvailableYearsFacts.

Section YearsWithPlays.

Import Sql Exclusions Wrapped Yearly OneTable AvailableYears.

Variable db : Database.
Variable params : WrappedParams.
Hypothesis wellFormed : wellFormedTimes db.

(** A year whose overview counts a play is among the available years, when
    the stored start times are valid timestamps.  (The converse fails: the
    query of the years also reads the sessions without an item and the
    sessions on items of an excluded library.) *)
Theorem year_with_plays_is_available :
  0 < WrappedOverview.totalPlays (getWrappedOverview db params) ->
  In (year params)
    (getAvailableWrappedYears db (Wrapped.serverId params)
       (Wrapped.userId params)).
Proof.
  destruct (overview_totals db params) as (-> & _). intro Hpos.
  destruct (qualifyingRows db params) as [ | [s it] rows ] eqn:E;
    [ cbn in Hpos; lia | ].
  assert (Hr : In (s, it) (qualifyingRows db params)) by (rewrite E; now left).
  clear E Hpos.
  pose proof (rows_joined db params _ Hr) as Hjoin.
  apply sessionsJoinItems_In in Hjoin. destruct Hjoin as (Hs & _ & _).
  unfold qualifyingRows, where_ in Hr. cbv zeta in Hr.
  apply filter_In in Hr. destruct Hr as [_ Hc].
  rewrite !and_push, !andb_true_iff in Hc. destruct Hc as [[Hc Hxu] _].
  unfold userYearConditions in Hc.
  pose proof (year_window (year params)) as Hwin.
  destruct (getYearDateRange (year params)) as [lo hi]. cbn [fst snd] in Hwin.
  unfold and_ in Hc. cbn [forallb fst] in Hc. rewrite !andb_true_iff in Hc.
  destruct Hc as (Hsrv & Hu & Hlo & Hhi & _).
  apply Z.eqb_eq in Hsrv. unfold eqText in Hu.
  destruct (sessions.userId s) as [u | ] eqn:Eu; [ | discriminate ].
  apply String.eqb_eq in Hu. subst u.
  unfold gteTime in Hlo. unfold lteTime in Hhi.
  destruct (sessions.startTime s) as [t | ] eqn:Et; [ | discriminate ].
  apply Z.leb_le in Hlo, Hhi.
  apply (proj2 (available_years_In db (Wrapped.serverId params)
                  (Wrapped.userId params) (year params))).
  split.
  - revert Hxu. unfold getStatisticsExclusions, Configured.excludedUsers,
      Configured.server.
    destruct (find _ (serversTable db)) as [srv | ]; cbn [userExclusion];
      [ | tauto ].
    destruct (servers.excludedUserIds srv) as [ | x xs ]; [ tauto | ].
    cbn [fst]. rewrite Eu. apply notInArray_spec.
  - exists s, t. repeat (split; [ assumption | ]).
    apply (Hwin t (wellFormed s t Hs Et)). now split.
Qed.

End YearsWithPlays.

(** The sample year has plays, and 2024 is among the available years. *)
Lemma year_with_plays_is_available_witness :
  In 2024
    (AvailableYears.getAvailableWrappedYears SampleYear.db 1 "u1").
Proof.
  refine (year_with_plays_is_available SampleYear.db SampleYear.params
            sampleYear_wellFormed _).
  vm_compute. reflexivity.
Defined.

(** ** Maps *)

Lemma find_over_app {A : Type} (p : A -> bool) (l1 l2 : list A) :
  find p (l1 ++ l2)
  = match find p l1 with Some x => Some x | None => find p l2 end.
Proof.
  induction l1 as [ | x l1 IH ]; [ reflexivity | ].
  cbn [app find]. now destruct (p x).
Qed.

Section JsMapFacts.

Context {V : Type}.

Lemma get_set (k k' : string) (v : V) (m : JsMap.t V) :
  JsMap.get k (JsMap.set k' v m)
  = if String.eqb k' k then Some v else JsMap.get k m.
Proof.
  unfold JsMap.get. induction m as [ | [k0 v0] m IH ]; cbn [JsMap.set find fst].
  - destruct (String.eqb k' k); reflexivity.
  - destruct (String.eqb k0 k') eqn:E0; cbn [find fst].
    + apply String.eqb_eq in E0. subst k0.
      destruct (String.eqb k' k); reflexivity.
    + destruct (String.eqb k0 k) eqn:E1; [ | exact IH ].
      apply String.eqb_eq in E1. subst k0. now rewrite String.eqb_sym, E0.
Qed.

Lemma has_get (k : string) (m : JsMap.t V) :
  JsMap.has k m = match JsMap.get k m with Some _ => true | None => false end.
Proof.
  unfold JsMap.has, JsMap.get. induction m as [ | e m IH ]; [ reflexivity | ].
  cbn [existsb find]. destruct (String.eqb (fst e) k); [ reflexivity | exact IH ].
Qed.

Lemma get_In (k : string) (v : V) (m : JsMap.t V) :
  JsMap.get k m = Some v -> In (k, v) m.
Proof.
  unfold JsMap.get. intro H.
  destruct (find _ m) as [[k0 v0] | ] eqn:E; [ | discriminate ].
  injection H as <-. apply find_some in E. destruct E as [Hin Hk].
  apply String.eqb_eq in Hk. cbn [fst] in Hk. now subst.
Qed.

Lemma In_get (k : string) (v : V) (m : JsMap.t V) :
  NoDup (JsMap.keys m) -> In (k, v) m -> JsMap.get k m = Some v.
Proof.
  unfold JsMap.get, JsMap.keys. induction m as [ | [k0 v0] m IH ];
    intros Hnd Hin; [ destruct Hin | ].
  cbn [map fst] in Hnd. inversion Hnd as [ | ? ? Hnot Hnd' ]; subst.
  cbn [find fst]. destruct Hin as [[= -> ->] | Hin].
  - now rewrite String.eqb_refl.
  - destruct (String.eqb k0 k) eqn:E; [ | now apply IH ].
    apply String.eqb_eq in E. subst k0. exfalso. apply Hnot.
    now apply (in_map fst) in Hin.
Qed.

Lemma get_None_keys (k : string) (m : JsMap.t V) :
  JsMap.get k m = None <-> ~ In k (JsMap.keys m).
Proof.
  unfold JsMap.get, JsMap.keys. induction m as [ | [k0 v0] m IH ].
  - cbn. tauto.
  - cbn [find fst map]. destruct (String.eqb k0 k) eqn:E.
    + apply String.eqb_eq in E. subst. cbn. split; [ discriminate | ].
      intro H. exfalso. apply H. now left.
    + rewrite IH. apply String.eqb_neq in E. cbn. tauto.
Qed.

Lemma keys_set (k : string) (v : V) (m : JsMap.t V) :
  JsMap.keys (JsMap.set k v m)
  = if JsMap.has k m then JsMap.keys m else JsMap.keys m ++ [k].
Proof.
  unfold JsMap.keys, JsMap.has.
  induction m as [ | [k0 v0] m IH ]; [ reflexivity | ].
  cbn [JsMap.set existsb fst map]. destruct (String.eqb k0 k) eqn:E.
  - apply String.eqb_eq in E. now subst.
  - cbn [map fst orb]. rewrite IH. now destruct (existsb _ m).
Qed.

Lemma NoDup_keys_set (k : string) (v : V) (m : JsMap.t V) :
  NoDup (JsMap.keys m) -> NoDup (JsMap.keys (JsMap.set k v m)).
Proof.
  intro Hnd. rewrite keys_set, has_get.
  destruct (JsMap.get k m) eqn:E; [ exact Hnd | ].
  apply get_None_keys in E.
  apply (Permutation_NoDup (l := k :: JsMap.keys m)).
  - apply Permutation_cons_append.
  - now constructor.
Qed.

(** [new Map(entries)]: the value of a key is that of its last entry. *)
Lemma get_fold_set (k : string) (entries : list (string * V)) :
  forall m,
    JsMap.get k (fold_left (fun m e => JsMap.set (fst e) (snd e) m) entries m)
    = match find (fun e => String.eqb (fst e) k) (rev entries) with
      | Some e => Some (snd e)
      | None => JsMap.get k m
      end.
Proof.
  induction entries as [ | e entries IH ]; intro m; [ reflexivity | ].
  cbn [fold_left rev]. rewrite IH, find_over_app.
  destruct (find _ (rev entries)); [ reflexivity | ].
  cbn [find]. rewrite get_set. now destruct (String.eqb (fst e) k).
Qed.

Lemma get_ofEntries_In (k : string) (v : V) (entries : list (string * V)) :
  JsMap.get k (JsMap.ofEntries entries) = Some v -> In (k, v) entries.
Proof.
  unfold JsMap.ofEntries. rewrite get_fold_set.
  destruct (find _ (rev entries)) as [[k0 v0] | ] eqn:E; [ | discriminate ].
  intros [= <-]. apply find_some in E. destruct E as [Hin Hk].
  apply String.eqb_eq in Hk. cbn [fst] in Hk. subst.
  now apply in_rev in Hin.
Qed.

Lemma In_get_ofEntries (k : string) (v : V) (entries : list (string * V)) :
  In (k, v) entries -> exists v', JsMap.get k (JsMap.ofEntries entries) = Some v'.
Proof.
  intro Hin. unfold JsMap.ofEntries. rewrite get_fold_set.
  destruct (find _ (rev entries)) as [e | ] eqn:E; [ now exists (snd e) | ].
  exfalso. apply in_rev in Hin.
  pose proof (find_none _ _ E _ Hin) as Hk. cbn [fst] in Hk.
  now rewrite String.eqb_refl in Hk.
Qed.

End JsMapFacts.

(** ** The top items *)

Lemma filter_map_comm {A B : Type} (f : A -> B) (p : B -> bool) (l : list A) :
  filter p (map f l) = map f (filter (fun x => p (f x)) l).
Proof.
  induction l as [ | x l IH ]; [ reflexivity | ].
  cbn [map filter]. destruct (p (f x)); cbn [map]; now rewrite IH.
Qed.

Lemma NoDup_map_filter_inj {A B C : Type} (f : A -> B) (g : A -> C)
  (p : A -> bool) (l : list A) :
  NoDup (map f l) ->
  (forall x y, In x l -> In y l -> p x = true -> g x = g y -> f x = f y) ->
  NoDup (map g (filter p l)).
Proof.
  induction l as [ | x l IH ]; intros Hnd Hinj; [ constructor | ].
  cbn [map] in Hnd. inversion Hnd as [ | ? ? Hnot Hnd' ]; subst.
  assert (IH' : NoDup (map g (filter p l))).
  { apply IH; [ exact Hnd' | ]. intros a b Ha Hb. apply Hinj; now right. }
  cbn [filter]. destruct (p x) eqn:Ep; [ | exact IH' ].
  cbn [map]. constructor; [ | exact IH' ].
  intro Hin. apply in_map_iff in Hin. destruct Hin as (y & Hg & Hy).
  apply filter_In in Hy. destruct Hy as [Hy _]. apply Hnot.
  rewrite (Hinj x y (or_introl eq_refl) (or_intror Hy) Ep (eq_sym Hg)).
  now apply in_map.
Qed.

(** Two duplicate-free lists, one within the other, have the same sum when
    the elements of the difference contribute nothing. *)
Lemma sum_NoDup_incl {A : Type} (g : A -> Z) (l1 : list A) :
  forall l2,
    NoDup l1 -> NoDup l2 -> incl l1 l2 ->
    (forall x, In x l2 -> ~ In x l1 -> g x = 0) ->
    Sql.sum g l1 = Sql.sum g l2.
Proof.
  induction l1 as [ | a l1 IH ]; intros l2 Hnd1 Hnd2 Hincl Hzero.
  - symmetry. apply sum_zero. intros x Hx. now apply Hzero.
  - inversion Hnd1 as [ | ? ? Hnot Hnd1' ]; subst.
    destruct (in_split a l2 (Hincl a (or_introl eq_refl))) as (p & q & ->).
    rewrite sum_app, !sum_cons.
    rewrite (IH (p ++ q)).
    + rewrite sum_app. lia.
    + exact Hnd1'.
    + now apply NoDup_remove_1 in Hnd2.
    + intros x Hx. assert (Hx2 : In x (p ++ a :: q)) by (apply Hincl; now right).
      apply in_app_or in Hx2. apply in_or_app.
      destruct Hx2 as [Hx2 | [-> | Hx2]]; auto. contradiction.
    + intros x Hx Hnx. apply Hzero.
      * apply in_app_or in Hx. apply in_or_app. cbn. tauto.
      * intros [-> | Hx1]; [ | contradiction ].
        apply NoDup_remove_2 in Hnd2. contradiction.
Qed.

Section GroupLoop.

Import Sql Wrapped TopItems Top.

Lemma groupStep_movies (st : list ItemWithStats.t * JsMap.t (list ItemWithStats.t))
  (e : ItemWithStats.t) :
  fst (groupStep st e) = fst st ++ (if isMovie e then [e] else []).
Proof.
  destruct st as [movies eps]. unfold groupStep, isMovie.
  destruct (String.eqb (items.type (ItemWithStats.item e)) "Movie");
    [ reflexivity | ].
  cbn [fst]. rewrite app_nil_r.
  destruct (String.eqb _ "Episode"); [ | reflexivity ].
  destruct (truthySeriesId _); reflexivity.
Qed.

Lemma loop_movies (l : list ItemWithStats.t) :
  forall st, fst (fold_left groupStep l st) = fst st ++ filter isMovie l.
Proof.
  induction l as [ | e l IH ]; intro st; cbn [fold_left filter].
  - now rewrite app_nil_r.
  - rewrite IH, groupStep_movies.
    destruct (isMovie e); rewrite <- app_assoc; reflexivity.
Qed.

Lemma groupStep_get (st : list ItemWithStats.t * JsMap.t (list ItemWithStats.t))
  (e : ItemWithStats.t) (sid : string) :
  JsMap.get sid (snd (groupStep st e))
  = if isEpisodeOf sid e
    then Some (match JsMap.get sid (snd st) with
               | Some old => old ++ [e]
               | None => [e]
               end)
    else JsMap.get sid (snd st).
Proof.
  destruct st as [movies eps]. unfold groupStep, isEpisodeOf. cbn [snd].
  destruct (String.eqb (items.type (ItemWithStats.item e)) "Movie") eqn:Em.
  - apply String.eqb_eq in Em. rewrite Em. reflexivity.
  - destruct (String.eqb _ "Episode"); [ | reflexivity ].
    cbn [andb]. destruct (truthySeriesId _) as [s | ]; [ | reflexivity ].
    cbn [snd optStringEqb]. rewrite has_get.
    destruct (JsMap.get s eps) as [old | ] eqn:Eold; cbn [negb].
    + rewrite Eold, get_set. destruct (String.eqb s sid) eqn:Es.
      * apply String.eqb_eq in Es. subst. now rewrite Eold.
      * reflexivity.
    + rewrite get_set, String.eqb_refl, get_set, get_set.
      destruct (String.eqb s sid) eqn:Es.
      * apply String.eqb_eq in Es. subst. now rewrite Eold.
      * reflexivity.
Qed.

Lemma loop_get (l : list ItemWithStats.t) (sid : string) :
  forall st,
    JsMap.get sid (snd (fold_left groupStep l st))
    = match JsMap.get sid (snd st), filter (isEpisodeOf sid) l with
      | None, [] => None
      | None, eps => Some eps
      | Some old, eps => Some (old ++ eps)
      end.
Proof.
  induction l as [ | e l IH ]; intro st; cbn [fold_left filter].
  - destruct (JsMap.get sid (snd st)); [ now rewrite app_nil_r | reflexivity ].
  - rewrite IH, groupStep_get. destruct (isEpisodeOf sid e).
    + destruct (JsMap.get sid (snd st)); [ now rewrite <- app_assoc | ].
      reflexivity.
    + reflexivity.
Qed.

Lemma groupStep_keys (st : list ItemWithStats.t * JsMap.t (list ItemWithStats.t))
  (e : ItemWithStats.t) :
  NoDup (JsMap.keys (snd st)) -> NoDup (JsMap.keys (snd (groupStep st e))).
Proof.
  destruct st as [movies eps]. unfold groupStep. cbn [snd]. intro Hnd.
  destruct (String.eqb _ "Movie"); [ exact Hnd | ].
  destruct (String.eqb _ "Episode"); [ | exact Hnd ].
  destruct (truthySeriesId _) as [s | ]; [ | exact Hnd ].
  cbn [snd].
  assert (Hnd' : NoDup
                   (JsMap.keys
                      (if negb (JsMap.has s eps) then JsMap.set s [] eps
                       else eps))).
  { destruct (negb (JsMap.has s eps)); [ now apply NoDup_keys_set | exact Hnd ]. }
  destruct (JsMap.get s _); [ now apply NoDup_keys_set | exact Hnd' ].
Qed.

Lemma loop_keys (l : list ItemWithStats.t) :
  forall st,
    NoDup (JsMap.keys (snd st)) ->
    NoDup (JsMap.keys (snd (fold_left groupStep l st))).
Proof.
  induction l as [ | e l IH ]; intros st Hnd; [ exact Hnd | ].
  cbn [fold_left]. now apply IH, groupStep_keys.
Qed.

End GroupLoop.

Lemma fold_left_ext {A B : Type} (f g : A -> B -> A) (l : list B) (a : A) :
  (forall x y, f x y = g x y) -> fold_left f l a = fold_left g l a.
Proof.
  intro H. revert a. induction l as [ | y l IH ]; intro a; [ reflexivity | ].
  cbn [fold_left]. now rewrite H, IH.
Qed.

(** A map rebuilt entry by entry from a map, each value transformed. *)
Lemma get_fold_set_map {V W : Type} (F : V -> W) (k : string)
  (entries : JsMap.t V) :
  NoDup (JsMap.keys entries) ->
  forall m,
    JsMap.get k
      (fold_left (fun m e => JsMap.set (fst e) (F (snd e)) m) entries m)
    = match JsMap.get k entries with
      | Some v => Some (F v)
      | None => JsMap.get k m
      end.
Proof.
  induction entries as [ | [k0 v0] entries IH ]; intros Hnd m;
    [ reflexivity | ].
  unfold JsMap.keys in Hnd. cbn [map fst] in Hnd.
  inversion Hnd as [ | ? ? Hnot Hnd' ]; subst.
  cbn [fold_left fst snd]. rewrite (IH Hnd'), get_set.
  unfold JsMap.get at 3. cbn [find fst].
  destruct (String.eqb k0 k) eqn:E.
  - apply String.eqb_eq in E. subst k0.
    apply (get_None_keys k entries) in Hnot. rewrite Hnot. reflexivity.
  - reflexivity.
Qed.

Lemma slice0_prefix {A : Type} (limit : Z) (l : list A) :
  exists n, JsArray.slice0 limit l = firstn n l /\
            (0 <= limit -> Z.of_nat n = limit).
Proof.
  unfold JsArray.slice0. destruct (Z.ltb_spec limit 0).
  - eexists. split; [ reflexivity | lia ].
  - exists (Z.to_nat limit). split; [ reflexivity | lia ].
Qed.

Section TopItemsFacts.

Import Sql Exclusions Wrapped Yearly OneTable TopItems Top.

Variable db : Database.
Variable params : WrappedParams.
Hypothesis itemsKey : uniqueItemIds db.

Let S : list sessions.row := yearSessions db params.

Let rawSessionStats : list (Stat (option string)) :=
  orderBy bySumDesc
    (map (aggregate sessions.playDuration) (groupBy optStringEqb sessions.itemId S)).

Let toSessionStat (stat : Stat (option string)) : SessionStat.t :=
  SessionStat.mk (orEmpty (statKey stat)) (statPlayCount stat)
    (statWatchTimeSeconds stat).

Let sessionStats : list SessionStat.t :=
  filter (fun stat => Js.truthyString (SessionStat.itemId stat))
    (map toSessionStat rawSessionStats).

Lemma truthyString_nonempty (s : string) :
  Js.truthyString s = true <-> s <> ""%string.
Proof. destruct s; cbn; split; congruence. Qed.

Lemma raw_perm :
  Permutation
    (map (aggregate sessions.playDuration) (groupBy optStringEqb sessions.itemId S))
    rawSessionStats.
Proof. apply sort_perm. Qed.

Lemma raw_keys_NoDup : NoDup (map statKey rawSessionStats).
Proof.
  eapply Permutation_NoDup; [ apply Permutation_map, raw_perm | ].
  apply (grouped_keys_NoDup optStringEqb _ _ optStringEqb_eq).
Qed.

Lemma group_of_id (i : string) :
  filter (fun s => optStringEqb (Some i) (sessions.itemId s)) S
  = filter (fun s => eqText (sessions.itemId s) i) S.
Proof.
  apply filter_ext. intro s. unfold eqText.
  destruct (sessions.itemId s); cbn [optStringEqb];
    [ apply String.eqb_sym | reflexivity ].
Qed.

Lemma sessionStats_In (st : SessionStat.t) :
  In st sessionStats <->
  let plays := filter (fun s => eqText (sessions.itemId s) (SessionStat.itemId st)) S in
  SessionStat.itemId st <> ""%string /\
  plays <> [] /\
  SessionStat.totalPlayCount st = count plays /\
  SessionStat.totalPlayDuration st = sum sessions.playDuration plays.
Proof.
  cbv zeta. unfold sessionStats. rewrite filter_In, in_map_iff. split.
  - intros [(r & <- & Hr) Htruthy].
    apply (Permutation_in _ (Permutation_sym raw_perm)) in Hr.
    cbn [toSessionStat SessionStat.itemId SessionStat.totalPlayCount
         SessionStat.totalPlayDuration] in *.
    destruct (grouped_In optStringEqb _ _ optStringEqb_eq S r Hr) as [Ht Hc].
    apply in_map_iff in Hr. destruct Hr as (g & Hg & Hgrp).
    pose proof (groupBy_nonempty _ optStringEqb_eq _ _ g Hgrp) as Hne.
    apply (groupBy_In _ optStringEqb_eq) in Hgrp. destruct Hgrp as [_ Hsnd].
    assert (Hkey : statKey r = fst g) by (now subst r).
    destruct (statKey r) as [i | ] eqn:Ek; cbn [orEmpty] in *;
      [ | discriminate ].
    rewrite <- group_of_id.
    split; [ now apply truthyString_nonempty | ].
    split; [ rewrite Hkey, <- Hsnd; exact Hne | now split ].
  - intros (Hid & Hne & Hc & Ht).
    set (i := SessionStat.itemId st) in *.
    set (r := aggregate sessions.playDuration
                (Some i, filter (fun s => optStringEqb (Some i) (sessions.itemId s)) S)).
    assert (Hr : In r rawSessionStats).
    { apply (Permutation_in _ raw_perm). apply in_map.
      apply (groupBy_In _ optStringEqb_eq). cbn [fst snd].
      split; [ | reflexivity ].
      destruct (filter (fun s => eqText (sessions.itemId s) i) S)
        as [ | s0 rest ] eqn:E; [ contradiction | ].
      assert (Hs0 : In s0 (filter (fun s => eqText (sessions.itemId s) i) S))
        by (rewrite E; now left).
      apply filter_In in Hs0. destruct Hs0 as [Hs0 Heq].
      apply in_map_iff. exists s0. split; [ | exact Hs0 ].
      unfold eqText in Heq. destruct (sessions.itemId s0); [ | discriminate ].
      apply String.eqb_eq in Heq. now subst. }
    split; [ exists r; split; [ | exact Hr ] | ].
    + unfold r, toSessionStat. cbn [aggregate statKey statPlayCount
                                   statWatchTimeSeconds fst snd orEmpty].
      rewrite group_of_id, <- Hc, <- Ht. now destruct st.
    + now apply truthyString_nonempty.
Qed.

Lemma sessionStats_NoDup : NoDup (map SessionStat.itemId sessionStats).
Proof.
  unfold sessionStats. rewrite filter_map_comm, map_map.
  apply (NoDup_map_filter_inj statKey); [ exact raw_keys_NoDup | ].
  intros x y _ _ Hp Heq.
  cbn [toSessionStat SessionStat.itemId] in *.
  apply truthyString_nonempty in Hp.
  destruct (statKey x) as [i | ], (statKey y) as [j | ]; cbn [orEmpty] in *;
    congruence.
Qed.

Let excl : StatisticsExclusions :=
  getStatisticsExclusions db (serverId params).

Let itemIds : list string := map SessionStat.itemId sessionStats.

Let itemsData : list items.row :=
  if (0 <? List.length itemIds)%nat
  then
    where_
      (and_
         (push [fun it => inArray (items.id it) itemIds]
            (onItems (itemLibraryExclusion excl))))
      (itemsTable db)
  else [].

Let itemsMap : JsMap.t items.row :=
  JsMap.ofEntries (map (fun item => (items.id item, item)) itemsData).

Let itemsWithStats : list ItemWithStats.t :=
  flat_map
    (fun stat =>
       match JsMap.get (SessionStat.itemId stat) itemsMap with
       | Some item =>
           [ItemWithStats.mk item (SessionStat.totalPlayCount stat)
              (SessionStat.totalPlayDuration stat)]
       | None => []
       end)
    sessionStats.

(** The library exclusion on an item. *)
Lemma itemLibraryExclusion_onItems (it : items.row) :
  match onItems (itemLibraryExclusion excl) with
  | Some x => x it
  | None => true
  end = counted db params it.
Proof.
  unfold excl, counted, getStatisticsExclusions, Configured.excludedLibraries,
    Configured.server.
  destruct (find _ (serversTable db)) as [srv | ];
    cbn [itemLibraryExclusion onItems option_map]; [ | reflexivity ].
  destruct (servers.excludedLibraryIds srv) as [ | x xs ]; reflexivity.
Qed.

Lemma itemsData_In (it : items.row) :
  In it itemsData <->
  In it (itemsTable db) /\ In (items.id it) itemIds /\
  counted db params it = true.
Proof.
  assert (Hin : inArray (items.id it) itemIds = true <-> In (items.id it) itemIds).
  { unfold inArray. rewrite existsb_exists. split.
    - intros (x & Hx & Heq). apply String.eqb_eq in Heq. now subst.
    - intro H. exists (items.id it). split; [ exact H | apply String.eqb_refl ]. }
  unfold itemsData. destruct (0 <? List.length itemIds)%nat eqn:E.
  - unfold where_. rewrite filter_In, and_push. unfold and_. cbn [forallb].
    rewrite andb_true_r, andb_true_iff, itemLibraryExclusion_onItems, Hin.
    tauto.
  - apply Nat.ltb_ge in E. destruct itemIds; [ | cbn in E; lia ].
    cbn. tauto.
Qed.

Lemma items_NoDup : NoDup (itemsTable db).
Proof. exact (NoDup_map_inv _ _ itemsKey). Qed.

Lemma same_id (a b : items.row) :
  In a (itemsTable db) -> In b (itemsTable db) -> items.id a = items.id b ->
  a = b.
Proof. apply (NoDup_map_In_inj items.id); exact itemsKey. Qed.

Lemma itemsMap_get (i : string) (it : items.row) :
  JsMap.get i itemsMap = Some it <->
  In it itemsData /\ items.id it = i.
Proof.
  unfold itemsMap. split.
  - intro H. apply get_ofEntries_In, in_map_iff in H.
    destruct H as (it' & [= <- <-] & Hin). now split.
  - intros [Hin <-].
    destruct (In_get_ofEntries (items.id it) it
                (map (fun item => (items.id item, item)) itemsData))
      as [it' Hget].
    { apply in_map_iff. now exists it. }
    rewrite Hget. f_equal.
    apply get_ofEntries_In, in_map_iff in Hget.
    destruct Hget as (it'' & [= Hid <-] & Hin').
    apply same_id; [ now apply itemsData_In in Hin' | now apply itemsData_In in Hin | exact Hid ].
Qed.

(** The entries of [itemsWithStats]: the items of a library that counts,
    with a non-empty id, that the user played in the year, each with the
    number and the summed duration of its plays. *)
Lemma itemsWithStats_In (e : ItemWithStats.t) :
  In e itemsWithStats <->
  let it := ItemWithStats.item e in
  In it (itemsTable db) /\
  counted db params it = true /\
  items.id it <> ""%string /\
  playsOn db params it <> [] /\
  ItemWithStats.totalPlayCount e = count (playsOn db params it) /\
  ItemWithStats.totalPlayDuration e
  = sum sessions.playDuration (playsOn db params it).
Proof.
  cbv zeta. unfold itemsWithStats. rewrite in_flat_map. split.
  - intros (st & Hst & He).
    destruct (JsMap.get (SessionStat.itemId st) itemsMap) as [it | ] eqn:Eg;
      [ | destruct He ].
    destruct He as [<- | []]. cbn [ItemWithStats.item
      ItemWithStats.totalPlayCount ItemWithStats.totalPlayDuration].
    apply itemsMap_get in Eg. destruct Eg as [Hdata Hid].
    apply itemsData_In in Hdata. destruct Hdata as (Hin & _ & Hc).
    apply sessionStats_In in Hst. cbv zeta in Hst. rewrite <- Hid in Hst.
    unfold playsOn. fold S. tauto.
  - intros (Hin & Hc & Hid & Hne & Hcount & Htime).
    set (it := ItemWithStats.item e) in *.
    set (st := SessionStat.mk (items.id it) (ItemWithStats.totalPlayCount e)
                 (ItemWithStats.totalPlayDuration e)).
    assert (Hst : In st sessionStats).
    { apply sessionStats_In. cbv zeta. cbn [st SessionStat.itemId
        SessionStat.totalPlayCount SessionStat.totalPlayDuration].
      unfold playsOn in *. fold S in Hne, Hcount, Htime. tauto. }
    exists st. split; [ exact Hst | ].
    assert (Hget : JsMap.get (SessionStat.itemId st) itemsMap = Some it).
    { apply itemsMap_get. split; [ | reflexivity ].
      apply itemsData_In. split; [ exact Hin | split; [ | exact Hc ] ].
      unfold itemIds. change (items.id it) with (SessionStat.itemId st).
      now apply in_map. }
    rewrite Hget. left. unfold it. now destruct e.
Qed.

Lemma withStats_NoDup (m : JsMap.t items.row) (l : list SessionStat.t) :
  (forall i it, JsMap.get i m = Some it -> items.id it = i) ->
  NoDup (map SessionStat.itemId l) ->
  NoDup
    (map (fun e => items.id (ItemWithStats.item e))
       (flat_map
          (fun stat =>
             match JsMap.get (SessionStat.itemId stat) m with
             | Some item =>
                 [ItemWithStats.mk item (SessionStat.totalPlayCount stat)
                    (SessionStat.totalPlayDuration stat)]
             | None => []
             end)
          l)).
Proof.
  intros Hm. induction l as [ | st l IH ]; intro Hnd; [ constructor | ].
  cbn [map] in Hnd. inversion Hnd as [ | ? ? Hnot Hnd' ]; subst.
  cbn [flat_map]. rewrite map_app. specialize (IH Hnd').
  destruct (JsMap.get (SessionStat.itemId st) m) as [it | ] eqn:Eg;
    [ | exact IH ].
  cbn [map app ItemWithStats.item]. constructor; [ | exact IH ].
  rewrite (Hm _ _ Eg).
  intro Hin. apply in_map_iff in Hin. destruct Hin as (e & He & Hin).
  apply in_flat_map in Hin. destruct Hin as (st' & Hst' & Hin).
  destruct (JsMap.get (SessionStat.itemId st') m) as [it' | ] eqn:Eg';
    [ | destruct Hin ].
  destruct Hin as [<- | []]. cbn [ItemWithStats.item] in He.
  apply Hnot. rewrite <- He, (Hm _ _ Eg'). now apply in_map.
Qed.

Lemma itemsWithStats_NoDup :
  NoDup (map (fun e => items.id (ItemWithStats.item e)) itemsWithStats).
Proof.
  apply withStats_NoDup; [ | exact sessionStats_NoDup ].
  intros i it Hget. now apply itemsMap_get in Hget.
Qed.

Let episodesBySeriesId : JsMap.t (list ItemWithStats.t) :=
  snd (fold_left groupStep itemsWithStats ([], JsMap.empty)).

Let totals (episodes : list ItemWithStats.t) : SeriesStats.t :=
  SeriesStats.mk
    (fold_left (fun sum ep => sum + ItemWithStats.totalPlayCount ep) episodes 0)
    (fold_left (fun sum ep => sum + ItemWithStats.totalPlayDuration ep)
       episodes 0).

Let seriesStatsMap : JsMap.t SeriesStats.t :=
  fold_left
    (fun m (entry : string * list ItemWithStats.t) =>
       let '(seriesId, episodes) := entry in
       JsMap.set seriesId (totals episodes) m)
    episodesBySeriesId JsMap.empty.

Let seriesList : list ItemWithStats.t :=
  if 0 <? JsMap.size seriesStatsMap
  then
    flat_map
      (fun seriesItem =>
         match JsMap.get (items.id seriesItem) seriesStatsMap with
         | Some stats =>
             [ItemWithStats.mk seriesItem (SeriesStats.totalPlayCount stats)
                (SeriesStats.totalPlayDuration stats)]
         | None => []
         end)
      (where_
         (and_
            [ (fun it => inArray (items.id it) (JsMap.keys seriesStatsMap));
              (fun it => String.eqb (items.type it) "Series");
              (fun it => items.serverId it =? serverId params) ])
         (itemsTable db))
  else [].

Lemma getWrappedTopItems_unfold (limit : Z) :
  getWrappedTopItems db params limit
  = WrappedTopItems.mk
      (JsArray.slice0 limit (Js.sort byDurationDesc (filter isMovie itemsWithStats)))
      (JsArray.slice0 limit (Js.sort byDurationDesc seriesList)).
Proof.
  unfold getWrappedTopItems. cbv zeta.
  change (where_ _ (sessionsTable db)) with S.
  fold rawSessionStats. fold toSessionStat. fold sessionStats. fold itemIds.
  fold excl. fold itemsData. fold itemsMap. fold itemsWithStats.
  pose proof (loop_movies itemsWithStats ([], JsMap.empty)) as Hmovies.
  unfold seriesList, seriesStatsMap, totals, episodesBySeriesId.
  destruct (fold_left groupStep itemsWithStats ([], JsMap.empty))
    as [movies eps].
  cbn [fst snd app] in *. now rewrite Hmovies.
Qed.

Lemma episodes_get (sid : string) :
  JsMap.get sid episodesBySeriesId
  = match filter (isEpisodeOf sid) itemsWithStats with
    | [] => None
    | eps => Some eps
    end.
Proof. unfold episodesBySeriesId. now rewrite loop_get. Qed.

Lemma seriesStats_get (sid : string) :
  JsMap.get sid seriesStatsMap
  = match filter (isEpisodeOf sid) itemsWithStats with
    | [] => None
    | eps => Some (totals eps)
    end.
Proof.
  unfold seriesStatsMap.
  rewrite (fold_left_ext _ (fun m e => JsMap.set (fst e) (totals (snd e)) m))
    by (intros m [k v]; reflexivity).
  rewrite get_fold_set_map.
  - rewrite episodes_get. now destruct (filter _ itemsWithStats).
  - unfold episodesBySeriesId. apply loop_keys. constructor.
Qed.

Lemma seriesList_In (e : ItemWithStats.t) :
  In e seriesList <->
  let it := ItemWithStats.item e in
  let eps := filter (isEpisodeOf (items.id it)) itemsWithStats in
  In it (itemsTable db) /\
  items.type it = "Series"%string /\
  items.serverId it = serverId params /\
  eps <> [] /\
  ItemWithStats.totalPlayCount e = sum ItemWithStats.totalPlayCount eps /\
  ItemWithStats.totalPlayDuration e = sum ItemWithStats.totalPlayDuration eps.
Proof.
  cbv zeta.
  assert (Htotals : forall eps,
             totals eps
             = SeriesStats.mk (sum ItemWithStats.totalPlayCount eps)
                 (sum ItemWithStats.totalPlayDuration eps)).
  { intro eps. unfold totals. now rewrite !fold_left_add, !Z.add_0_l. }
  unfold seriesList. destruct (0 <? JsMap.size seriesStatsMap) eqn:Esize.
  - rewrite in_flat_map. unfold where_, and_. split.
    + intros (it & Hit & He). apply filter_In in Hit.
      destruct Hit as [Hit Hc]. cbn [forallb] in Hc.
      rewrite !andb_true_iff, String.eqb_eq, Z.eqb_eq in Hc.
      destruct Hc as (_ & Htype & Hsrv & _).
      rewrite seriesStats_get in He.
      destruct (filter (isEpisodeOf (items.id it)) itemsWithStats)
        as [ | x eps ] eqn:Ef; [ destruct He | ].
      destruct He as [<- | []]. rewrite Htotals.
      cbn [ItemWithStats.item ItemWithStats.totalPlayCount
           ItemWithStats.totalPlayDuration SeriesStats.totalPlayCount
           SeriesStats.totalPlayDuration].
      rewrite Ef. repeat (split; [ assumption || discriminate | ]).
      split; reflexivity.
    + intros (Hit & Htype & Hsrv & Hne & Hcount & Htime).
      exists (ItemWithStats.item e).
      assert (Hget : JsMap.get (items.id (ItemWithStats.item e)) seriesStatsMap
                     = Some (SeriesStats.mk (ItemWithStats.totalPlayCount e)
                               (ItemWithStats.totalPlayDuration e))).
      { rewrite seriesStats_get.
        destruct (filter _ itemsWithStats) as [ | x eps ] eqn:Ef;
          [ contradiction | ].
        now rewrite Htotals, Hcount, Htime. }
      split.
      * apply filter_In. split; [ exact Hit | ]. cbn [forallb].
        rewrite !andb_true_iff, String.eqb_eq, Z.eqb_eq.
        repeat split; try assumption.
        unfold inArray. apply existsb_exists.
        exists (items.id (ItemWithStats.item e)).
        split; [ | apply String.eqb_refl ].
        apply get_In in Hget. now apply (in_map fst) in Hget.
      * rewrite Hget. left. now destruct e.
  - split; [ intros [] | ].
    intros (_ & _ & _ & Hne & _). exfalso.
    assert (Hempty : seriesStatsMap = []).
    { unfold JsMap.size in Esize. apply Z.ltb_ge in Esize.
      destruct seriesStatsMap; [ reflexivity | cbn in Esize; lia ]. }
    pose proof (seriesStats_get (items.id (ItemWithStats.item e))) as Hget.
    rewrite Hempty in Hget.
    destruct (filter _ itemsWithStats); [ contradiction | discriminate ].
Qed.

(** The totals of a series, over the items table. *)
Lemma episodes_sum (sid : string) (g : items.row -> Z) (h : ItemWithStats.t -> Z) :
  (forall e, In e itemsWithStats -> h e = g (ItemWithStats.item e)) ->
  (forall ep, playsOn db params ep = [] -> g ep = 0) ->
  sum h (filter (isEpisodeOf sid) itemsWithStats)
  = sum g (episodesOf db params sid).
Proof.
  intros Hh Hzero.
  rewrite (sum_ext_in h (fun e => g (ItemWithStats.item e)))
    by (intros e He; apply filter_In in He; now apply Hh).
  rewrite <- sum_map.
  apply sum_NoDup_incl.
  - apply (NoDup_map_inv items.id). rewrite map_map.
    apply (NoDup_map_filter_inj (fun e => items.id (ItemWithStats.item e)));
      [ exact itemsWithStats_NoDup | auto ].
  - unfold episodesOf. apply NoDup_filter, items_NoDup.
  - intros it Hit. apply in_map_iff in Hit. destruct Hit as (e & <- & He).
    apply filter_In in He. destruct He as [He Hep].
    apply itemsWithStats_In in He. cbv zeta in He.
    destruct He as (Hin & Hc & Hid & _).
    unfold episodesOf. apply filter_In. split; [ exact Hin | ].
    unfold isEpisodeOf in Hep. rewrite andb_true_iff in Hep.
    rewrite !andb_true_iff. repeat split; try tauto.
    now apply truthyString_nonempty.
  - intros ep Hep Hnot. apply Hzero.
    destruct (playsOn db params ep) as [ | s0 rest ] eqn:Ep; [ reflexivity | ].
    exfalso. apply Hnot.
    unfold episodesOf in Hep. apply filter_In in Hep.
    destruct Hep as [Hin Hc]. rewrite !andb_true_iff in Hc.
    destruct Hc as [[[Htype Hsid] Hid] Hcounted].
    apply in_map_iff.
    exists (ItemWithStats.mk ep (count (playsOn db params ep))
              (sum sessions.playDuration (playsOn db params ep))).
    split; [ reflexivity | ]. apply filter_In. split.
    + apply itemsWithStats_In. cbv zeta. cbn [ItemWithStats.item
        ItemWithStats.totalPlayCount ItemWithStats.totalPlayDuration].
      repeat split; try assumption.
      * now apply truthyString_nonempty.
      * rewrite Ep. discriminate.
    + unfold isEpisodeOf. cbn [ItemWithStats.item]. now rewrite Htype, Hsid.
Qed.

(** The sessions the query of the top items reads. *)
Lemma yearSessions_In (s : sessions.row) :
  In s (yearSessions db params) <->
  In s (sessionsTable db) /\
  sessions.serverId s = serverId params /\
  sessions.userId s = Some (userId params) /\
  (exists t,
      sessions.startTime s = Some t /\
      fst (getYearDateRange (year params)) <= Calendar.epochMs t
      <= snd (getYearDateRange (year params))) /\
  sessions.itemId s <> None /\
  ~ In (userId params) (Configured.excludedUsers db (serverId params)).
Proof.
  unfold yearSessions, where_. rewrite filter_In, and_push.
  unfold sessionYearConditions.
  destruct (getYearDateRange (year params)) as [lo hi]. cbn [fst snd].
  unfold and_. cbn [forallb]. rewrite !andb_true_iff, Z.eqb_eq.
  assert (Huser : eqText (sessions.userId s) (userId params) = true <->
                  sessions.userId s = Some (userId params)).
  { unfold eqText. destruct (sessions.userId s) as [u | ];
      [ rewrite String.eqb_eq | ]; split; congruence. }
  assert (Htime :
            gteTime (sessions.startTime s) lo = true /\
            lteTime (sessions.startTime s) hi = true <->
            exists t, sessions.startTime s = Some t /\
                      lo <= Calendar.epochMs t <= hi).
  { unfold gteTime, lteTime. destruct (sessions.startTime s) as [t | ].
    - rewrite !Z.leb_le. split.
      + intros [H1 H2]. exists t. now repeat split.
      + intros (t' & [= <-] & H1 & H2). now split.
    - split; [ intros [H _]; discriminate | intros (t & H & _); discriminate ]. }
  assert (Hitem : isNotNull (sessions.itemId s) = true <->
                  sessions.itemId s <> None).
  { unfold isNotNull. destruct (sessions.itemId s); split; congruence. }
  split.
  - intros [Hin [(Hsrv & Hu & Hlo & Hhi & Hit & _) Hex]].
    apply Huser in Hu. apply Hitem in Hit.
    repeat (split; [ assumption | ]).
    split; [ apply Htime; now split | ].
    split; [ exact Hit | ].
    now apply (userExclusion_onSessions db (serverId params) s (userId params) Hu).
  - intros (Hin & Hsrv & Hu & Ht & Hit & Hex).
    apply Htime in Ht. destruct Ht as [Hlo Hhi].
    split; [ exact Hin | split ].
    + repeat split; try assumption; [ now apply Huser | now apply Hitem ].
    + now apply (userExclusion_onSessions db (serverId params) s (userId params) Hu).
Qed.

Lemma sorted_prefix_dominates (n : nat) (l : list ItemWithStats.t)
  (x : ItemWithStats.t) :
  In x (Js.sort byDurationDesc l) ->
  In x (firstn n (Js.sort byDurationDesc l)) \/
  Forall
    (fun e => ItemWithStats.totalPlayDuration x
              <= ItemWithStats.totalPlayDuration e)
    (firstn n (Js.sort byDurationDesc l)).
Proof.
  intro Hx.
  pose proof (orderBy_desc_sorted ItemWithStats.totalPlayDuration l) as Hs.
  unfold orderBy in Hs. fold byDurationDesc in Hs.
  change (fun a b : ItemWithStats.t =>
            ItemWithStats.totalPlayDuration b
            <=? ItemWithStats.totalPlayDuration a)
    with byDurationDesc in Hs.
  rewrite <- (firstn_skipn n (Js.sort byDurationDesc l)) in Hx, Hs.
  apply in_app_or in Hx. destruct Hx as [Hx | Hx]; [ now left | right ].
  apply Forall_forall. intros e He.
  exact (StronglySorted_app_le _ _ _ Hs e x He Hx).
Qed.

Lemma sorted_prefix (n : nat) (l : list ItemWithStats.t) :
  StronglySorted
    (fun a b => ItemWithStats.totalPlayDuration b
                <= ItemWithStats.totalPlayDuration a)
    (firstn n (Js.sort byDurationDesc l)).
Proof.
  apply StronglySorted_firstn.
  exact (orderBy_desc_sorted ItemWithStats.totalPlayDuration l).
Qed.

Lemma prefix_In (n : nat) (l : list ItemWithStats.t) (e : ItemWithStats.t) :
  In e (firstn n (Js.sort byDurationDesc l)) -> In e l.
Proof.
  intro He. apply (sort_In byDurationDesc).
  rewrite <- (firstn_skipn n (Js.sort byDurationDesc l)).
  apply in_or_app. now left.
Qed.

(** The movies of the top items are items of type Movie with a non-empty
    id, of a library that is not excluded, that the user played in the
    year, each with the number and the summed duration of its plays; they
    come with the longest watch time first, no movie twice, at most [limit]
    of them for a [limit] that is not negative, and a played movie that is
    not listed has no more watch time than any listed one. *)
Theorem top_items_list_the_most_watched_movies (limit : Z) :
  let movies := WrappedTopItems.movies (getWrappedTopItems db params limit) in
  Forall
    (fun e =>
       let it := ItemWithStats.item e in
       In it (itemsTable db) /\
       items.type it = "Movie"%string /\
       items.id it <> ""%string /\
       counted db params it = true /\
       playsOn db params it <> [] /\
       ItemWithStats.totalPlayCount e = count (playsOn db params it) /\
       ItemWithStats.totalPlayDuration e
       = sum sessions.playDuration (playsOn db params it))
    movies /\
  StronglySorted
    (fun a b => ItemWithStats.totalPlayDuration b
                <= ItemWithStats.totalPlayDuration a)
    movies /\
  NoDup (map (fun e => items.id (ItemWithStats.item e)) movies) /\
  (0 <= limit -> Z.of_nat (List.length movies) <= limit) /\
  (forall it,
      In it (itemsTable db) ->
      items.type it = "Movie"%string ->
      items.id it <> ""%string ->
      counted db params it = true ->
      playsOn db params it <> [] ->
      In it (map ItemWithStats.item movies) \/
      Forall
        (fun e => sum sessions.playDuration (playsOn db params it)
                  <= ItemWithStats.totalPlayDuration e)
        movies).
Proof.
  cbv zeta. rewrite getWrappedTopItems_unfold. cbn [WrappedTopItems.movies].
  destruct (slice0_prefix limit
              (Js.sort byDurationDesc (filter isMovie itemsWithStats)))
    as (n & -> & Hn).
  split; [ | split; [ | split; [ | split ]]].
  - apply Forall_forall. intros e He. apply prefix_In, filter_In in He.
    destruct He as [He Hm]. apply itemsWithStats_In in He. cbv zeta in He.
    unfold isMovie in Hm. apply String.eqb_eq in Hm. tauto.
  - apply sorted_prefix.
  - rewrite <- firstn_map. apply NoDup_firstn.
    eapply Permutation_NoDup;
      [ apply Permutation_map, (sort_perm byDurationDesc) | ].
    apply (NoDup_map_filter_inj (fun e => items.id (ItemWithStats.item e)));
      [ exact itemsWithStats_NoDup | auto ].
  - intro Hlimit. rewrite length_firstn. specialize (Hn Hlimit). lia.
  - intros it Hin Htype Hid Hc Hplays.
    set (x := ItemWithStats.mk it (count (playsOn db params it))
                (sum sessions.playDuration (playsOn db params it))).
    assert (Hx : In x (Js.sort byDurationDesc (filter isMovie itemsWithStats))).
    { apply (sort_In byDurationDesc), filter_In. split.
      - apply itemsWithStats_In. cbv zeta. cbn [x ItemWithStats.item
          ItemWithStats.totalPlayCount ItemWithStats.totalPlayDuration].
        tauto.
      - unfold isMovie. cbn [x ItemWithStats.item]. now apply String.eqb_eq. }
    destruct (sorted_prefix_dominates n _ x Hx) as [Hlisted | Hdom].
    + left. apply in_map_iff. now exists x.
    + right. exact Hdom.
Qed.

(** The series of the top items are items of type Series on the server,
    each with the plays and the watch time of its episodes added up: the
    episodes are the items of type Episode with that series id, a non-empty
    id and a library that is not excluded (the library of the series item
    itself is not looked at).  A series is listed only when an episode of
    it was played; the list comes with the longest watch time first, at
    most [limit] long for a [limit] that is not negative, and a series
    with a played episode that is not listed has no more watch time than
    any listed one. *)
Theorem top_items_add_up_the_episodes_of_a_series (limit : Z) :
  let series := WrappedTopItems.series (getWrappedTopItems db params limit) in
  let plays (sid : string) :=
    sum (fun ep => count (playsOn db params ep)) (episodesOf db params sid) in
  let watchTime (sid : string) :=
    sum (fun ep => sum sessions.playDuration (playsOn db params ep))
      (episodesOf db params sid) in
  Forall
    (fun e =>
       let it := ItemWithStats.item e in
       In it (itemsTable db) /\
       items.type it = "Series"%string /\
       items.serverId it = serverId params /\
       (exists ep, In ep (episodesOf db params (items.id it)) /\
                   playsOn db params ep <> []) /\
       ItemWithStats.totalPlayCount e = plays (items.id it) /\
       ItemWithStats.totalPlayDuration e = watchTime (items.id it))
    series /\
  StronglySorted
    (fun a b => ItemWithStats.totalPlayDuration b
                <= ItemWithStats.totalPlayDuration a)
    series /\
  (0 <= limit -> Z.of_nat (List.length series) <= limit) /\
  (forall it ep,
      In it (itemsTable db) ->
      items.type it = "Series"%string ->
      items.serverId it = serverId params ->
      In ep (episodesOf db params (items.id it)) ->
      playsOn db params ep <> [] ->
      In it (map ItemWithStats.item series) \/
      Forall
        (fun e => watchTime (items.id it) <= ItemWithStats.totalPlayDuration e)
        series).
Proof.
  cbv zeta. rewrite getWrappedTopItems_unfold. cbn [WrappedTopItems.series].
  destruct (slice0_prefix limit (Js.sort byDurationDesc seriesList))
    as (n & -> & Hn).
  assert (Hcount : forall sid,
             sum ItemWithStats.totalPlayCount
               (filter (isEpisodeOf sid) itemsWithStats)
             = sum (fun ep => count (playsOn db params ep))
                 (episodesOf db params sid)).
  { intro sid. apply episodes_sum.
    - intros e He. apply itemsWithStats_In in He. cbv zeta in He. tauto.
    - intros ep ->. reflexivity. }
  assert (Htime : forall sid,
             sum ItemWithStats.totalPlayDuration
               (filter (isEpisodeOf sid) itemsWithStats)
             = sum (fun ep => sum sessions.playDuration (playsOn db params ep))
                 (episodesOf db params sid)).
  { intro sid. apply episodes_sum.
    - intros e He. apply itemsWithStats_In in He. cbv zeta in He. tauto.
    - intros ep ->. reflexivity. }
  assert (Hplayed : forall sid,
             filter (isEpisodeOf sid) itemsWithStats <> [] <->
             exists ep, In ep (episodesOf db params sid) /\
                        playsOn db params ep <> []).
  { intro sid. split.
    - intro Hne.
      destruct (filter (isEpisodeOf sid) itemsWithStats) as [ | x l ] eqn:E;
        [ contradiction | ].
      assert (Hx : In x (filter (isEpisodeOf sid) itemsWithStats))
        by (rewrite E; now left).
      apply filter_In in Hx. destruct Hx as [Hx Hep].
      apply itemsWithStats_In in Hx. cbv zeta in Hx.
      exists (ItemWithStats.item x). split; [ | tauto ].
      unfold episodesOf. apply filter_In. split; [ tauto | ].
      unfold isEpisodeOf in Hep. rewrite andb_true_iff in Hep.
      rewrite !andb_true_iff. repeat split; try tauto.
      now apply truthyString_nonempty.
    - intros (ep & Hep & Hplays) Hnone.
      unfold episodesOf in Hep. apply filter_In in Hep.
      destruct Hep as [Hin Hc]. rewrite !andb_true_iff in Hc.
      destruct Hc as [[[Htype Hsid] Hid] Hcounted].
      assert (Hx : In (ItemWithStats.mk ep (count (playsOn db params ep))
                         (sum sessions.playDuration (playsOn db params ep)))
                     (filter (isEpisodeOf sid) itemsWithStats)).
      { apply filter_In. split.
        - apply itemsWithStats_In. cbv zeta. cbn [ItemWithStats.item
            ItemWithStats.totalPlayCount ItemWithStats.totalPlayDuration].
          repeat split; try assumption. now apply truthyString_nonempty.
        - unfold isEpisodeOf. cbn [ItemWithStats.item].
          now rewrite Htype, Hsid. }
      rewrite Hnone in Hx. destruct Hx. }
  split; [ | split; [ | split ]].
  - apply Forall_forall. intros e He. apply prefix_In, seriesList_In in He.
    cbv zeta in He. destruct He as (Hin & Htype & Hsrv & Hne & Hc & Ht).
    rewrite Hcount in Hc. rewrite Htime in Ht. apply Hplayed in Hne.
    tauto.
  - apply sorted_prefix.
  - intro Hlimit. rewrite length_firstn. specialize (Hn Hlimit). lia.
  - intros it ep Hin Htype Hsrv Hep Hplays.
    set (x := ItemWithStats.mk it
                (sum ItemWithStats.totalPlayCount
                   (filter (isEpisodeOf (items.id it)) itemsWithStats))
                (sum ItemWithStats.totalPlayDuration
                   (filter (isEpisodeOf (items.id it)) itemsWithStats))).
    assert (Hx : In x (Js.sort byDurationDesc seriesList)).
    { apply (sort_In byDurationDesc), seriesList_In. cbv zeta.
      cbn [x ItemWithStats.item ItemWithStats.totalPlayCount
           ItemWithStats.totalPlayDuration].
      repeat split; try assumption. apply Hplayed. now exists ep. }
    destruct (sorted_prefix_dominates n _ x Hx) as [Hlisted | Hdom].
    + left. apply in_map_iff. now exists x.
    + right. cbn [x ItemWithStats.totalPlayDuration] in Hdom.
      now rewrite Htime in Hdom.
Qed.

End TopItemsFacts.

Lemma sampleShelf_uniqueItemIds : Yearly.uniqueItemIds SampleShelf.db.
Proof.
  unfold Yearly.uniqueItemIds. cbn.
  repeat constructor; cbn; intuition discriminate.
Qed.

(** On the sample shelf the top movie of Alice is the second one, played
    once for 400 seconds, before the first, played twice for 150. *)
Lemma top_items_list_the_most_watched_movies_witness :
  map
    (fun e =>
       (items.id (TopItems.ItemWithStats.item e),
        TopItems.ItemWithStats.totalPlayCount e,
        TopItems.ItemWithStats.totalPlayDuration e))
    (TopItems.WrappedTopItems.movies
       (TopItems.getWrappedTopItems SampleShelf.db SampleShelf.params 10))
  = [("m2"%string, 1, 400); ("m1"%string, 2, 150)] /\
  StronglySorted
    (fun a b => TopItems.ItemWithStats.totalPlayDuration b
                <= TopItems.ItemWithStats.totalPlayDuration a)
    (TopItems.WrappedTopItems.movies
       (TopItems.getWrappedTopItems SampleShelf.db SampleShelf.params 10)).
Proof.
  split; [ vm_compute; reflexivity | ].
  exact (proj1 (proj2
           (top_items_list_the_most_watched_movies SampleShelf.db
              SampleShelf.params sampleShelf_uniqueItemIds 10))).
Defined.

(** On the sample shelf the series has the two plays and the 70 seconds of
    its episodes. *)
Lemma top_items_add_up_the_episodes_of_a_series_witness :
  map
    (fun e =>
       (items.id (TopItems.ItemWithStats.item e),
        TopItems.ItemWithStats.totalPlayCount e,
        TopItems.ItemWithStats.totalPlayDuration e))
    (TopItems.WrappedTopItems.series
       (TopItems.getWrappedTopItems SampleShelf.db SampleShelf.params 10))
  = [("show"%string, 2, 70)] /\
  StronglySorted
    (fun a b => TopItems.ItemWithStats.totalPlayDuration b
                <= TopItems.ItemWithStats.totalPlayDuration a)
    (TopItems.WrappedTopItems.series
       (TopItems.getWrappedTopItems SampleShelf.db SampleShelf.params 10)).
Proof.
  split; [ vm_compute; reflexivity | ].
  exact (proj1 (proj2
           (top_items_add_up_the_episodes_of_a_series SampleShelf.db
              SampleShelf.params sampleShelf_uniqueItemIds 10))).
Defined.

(** ** The watch-time inference preference *)

Section PreferenceFacts.

Import Eff Preference.

Variable w : World.

Lemma isUser_updated (userId : string) (n : Z) (value : option bool)
  (u : users.row) :
  isUser userId n
    (if isUser userId n u then users.mk (users.id u) (users.serverId u) value
     else u)
  = isUser userId n u.
Proof. destruct (isUser userId n u) eqn:E; [ exact E | exact E ]. Qed.

Lemma find_updated (userId : string) (n : Z) (value : option bool)
  (us : list users.row) :
  option_map users.inferWatchtimeOnMarkWatched
    (find (isUser userId n) (snd (updatePreference userId n value us)))
  = if existsb (isUser userId n) us then Some value else None.
Proof.
  unfold updatePreference. cbn [snd].
  induction us as [ | u us IH ]; [ reflexivity | ].
  cbn [map find existsb]. rewrite isUser_updated.
  destruct (isUser userId n u) eqn:E; [ reflexivity | exact IH ].
Qed.

Lemma set_run (userId : string) (n : Z) (p : bool) (us : list users.row)
  (session : MarkWatched.AuthSession) :
  getSession w = Returns (Some session) ->
  MarkWatched.id session = userId ->
  dbError w UsersUpdate = None ->
  setUserInferWatchtimePreference w userId n p us
  = (Returns (mkResult true), snd (updatePreference userId n (Some p) us)).
Proof.
  intros Hs Hid Hok. unfold setUserInferWatchtimePreference, bind, await.
  rewrite Hs, Hid, String.eqb_refl. cbn [negb]. unfold statement.
  now rewrite Hok.
Qed.

Lemma reset_run (userId : string) (n : Z) (us : list users.row)
  (session : MarkWatched.AuthSession) :
  getSession w = Returns (Some session) ->
  MarkWatched.id session = userId ->
  dbError w UsersUpdate = None ->
  resetUserInferWatchtimePreference w userId n us
  = (Returns (mkResult true), snd (updatePreference userId n None us)).
Proof.
  intros Hs Hid Hok. unfold resetUserInferWatchtimePreference, bind, await.
  rewrite Hs, Hid, String.eqb_refl. cbn [negb]. unfold statement.
  now rewrite Hok.
Qed.

Lemma get_run (userId : string) (n : Z) (us : list users.row) :
  dbError w UsersFindFirst = None ->
  getUserInferWatchtimePreference w userId n us
  = (Returns
       (match find (isUser userId n) us with
        | Some u => users.inferWatchtimeOnMarkWatched u
        | None => None
        end), us).
Proof.
  intro Hok. unfold getUserInferWatchtimePreference, bind, statement.
  now rewrite Hok.
Qed.

(** Setting the preference and reading it back: for the user of the
    session, when the statements succeed, the set reports success and the
    preference then read is the one set, provided the user has a row on
    that server; without such a row the set still reports success, stores
    nothing, and the preference read is null.  After a reset the
    preference read is null. *)
Theorem preference_set_then_get (userId : string) (n : Z)
  (us : list users.row) (session : MarkWatched.AuthSession) :
  getSession w = Returns (Some session) ->
  MarkWatched.id session = userId ->
  dbError w UsersUpdate = None ->
  dbError w UsersFindFirst = None ->
  (forall p,
      let call := setUserInferWatchtimePreference w userId n p us in
      fst call = Returns (mkResult true) /\
      fst (getUserInferWatchtimePreference w userId n (snd call))
      = Returns (if existsb (isUser userId n) us then Some p else None) /\
      (existsb (isUser userId n) us = false -> snd call = us)) /\
  (let call := resetUserInferWatchtimePreference w userId n us in
   fst call = Returns (mkResult true) /\
   fst (getUserInferWatchtimePreference w userId n (snd call))
   = Returns None).
Proof.
  intros Hs Hid Hupdate Hfind. split.
  - intro p. cbv zeta. rewrite (set_run userId n p us session Hs Hid Hupdate).
    cbn [fst snd]. split; [ reflexivity | split ].
    + rewrite get_run by exact Hfind. cbn [fst].
      pose proof (find_updated userId n (Some p) us) as H.
      destruct (find _ (snd _)); cbn [option_map] in H.
      * destruct (existsb _ us); [ | discriminate ]. congruence.
      * destruct (existsb _ us); [ discriminate | reflexivity ].
    + intro Hnone. unfold updatePreference. cbn [snd].
      rewrite <- (map_id us) at 2. apply map_ext_in. intros u Hu.
      destruct (isUser userId n u) eqn:E; [ | reflexivity ].
      assert (Hex : existsb (isUser userId n) us = true)
        by (apply existsb_exists; now exists u).
      congruence.
  - cbv zeta. rewrite (reset_run userId n us session Hs Hid Hupdate).
    cbn [fst snd]. split; [ reflexivity | ].
    rewrite get_run by exact Hfind. cbn [fst].
    pose proof (find_updated userId n None us) as H.
    destruct (find _ (snd _)); cbn [option_map] in H.
    + destruct (existsb _ us); [ | discriminate ]. congruence.
    + reflexivity.
Qed.

Lemma updatePreference_confined (userId : string) (n : Z)
  (value : option bool) (us : list users.row) :
  Forall2
    (fun u u' =>
       users.id u' = users.id u /\
       users.serverId u' = users.serverId u /\
       (isUser userId n u = false -> u' = u))
    us (snd (updatePreference userId n value us)).
Proof.
  unfold updatePreference. cbn [snd].
  induction us as [ | u us IH ]; cbn [map]; constructor; [ | exact IH ].
  destruct (isUser userId n u); cbn; repeat split; congruence.
Qed.

Lemma Forall2_same {A : Type} (R : A -> A -> Prop) (l : list A) :
  (forall x, R x x) -> Forall2 R l l.
Proof. intro H. induction l; constructor; auto. Qed.

(** Writing the preference touches nothing else: whatever the session and
    the database answer, [setUserInferWatchtimePreference] and
    [resetUserInferWatchtimePreference] leave the table with the same rows
    in the same order, the same ids and servers, and every row of another
    user or server as it was; and unless the caller's session is that of
    [userId] they change nothing and do not report success.  The session's
    server is not compared with [serverId]. *)
Theorem preference_write_is_confined (userId : string) (n : Z)
  (us : list users.row) :
  let confined (after : list users.row) :=
    Forall2
      (fun u u' =>
         users.id u' = users.id u /\
         users.serverId u' = users.serverId u /\
         (isUser userId n u = false -> u' = u))
      us after in
  let refused (call : Outcome Result * list users.row) :=
    snd call = us /\ fst call <> Returns (mkResult true) in
  (forall p,
      confined (snd (setUserInferWatchtimePreference w userId n p us))) /\
  confined (snd (resetUserInferWatchtimePreference w userId n us)) /\
  ((forall session,
       getSession w = Returns (Some session) ->
       MarkWatched.id session <> userId) ->
   (forall p, refused (setUserInferWatchtimePreference w userId n p us)) /\
   refused (resetUserInferWatchtimePreference w userId n us)).
Proof.
  cbv zeta.
  assert (Hsame : Forall2
                    (fun u u' =>
                       users.id u' = users.id u /\
                       users.serverId u' = users.serverId u /\
                       (isUser userId n u = false -> u' = u))
                    us us)
    by (apply Forall2_same; auto).
  assert (Hset : forall value,
             Forall2
               (fun u u' =>
                  users.id u' = users.id u /\
                  users.serverId u' = users.serverId u /\
                  (isUser userId n u = false -> u' = u))
               us
               (snd
                  (bind (await (getSession w))
                     (fun session =>
                        match session with
                        | None => ret (mkResult false)
                        | Some session =>
                            if negb (String.eqb (MarkWatched.id session) userId)
                            then ret (mkResult false)
                            else
                              bind
                                (statement (dbError w UsersUpdate)
                                   (updatePreference userId n value))
                                (fun _ => ret (mkResult true))
                        end) us))).
  { intro value. unfold bind, await, statement, ret.
    destruct (getSession w) as [[session | ] | e]; cbn [snd]; try exact Hsame.
    destruct (String.eqb (MarkWatched.id session) userId); cbn [negb snd];
      [ | exact Hsame ].
    destruct (dbError w UsersUpdate); cbn [snd]; [ exact Hsame | ].
    apply updatePreference_confined. }
  split; [ intro p; exact (Hset (Some p)) | ].
  split; [ exact (Hset None) | ].
  intro Hother.
  assert (Hrefused : forall value,
             let call :=
               bind (await (getSession w))
                 (fun session =>
                    match session with
                    | None => ret (mkResult false)
                    | Some session =>
                        if negb (String.eqb (MarkWatched.id session) userId)
                        then ret (mkResult false)
                        else
                          bind
                            (statement (dbError w UsersUpdate)
                               (updatePreference userId n value))
                            (fun _ => ret (mkResult true))
                    end) us in
             snd call = us /\ fst call <> Returns (mkResult true)).
  { intro value. cbv zeta. unfold bind, await, statement, ret.
    destruct (getSession w) as [[session | ] | e] eqn:Es; cbn [fst snd];
      try (split; [ reflexivity | discriminate ]).
    specialize (Hother session eq_refl).
    destruct (String.eqb_spec (MarkWatched.id session) userId) as [E | _];
      [ contradiction | ].
    cbn [negb fst snd]. split; [ reflexivity | discriminate ]. }
  split; [ intro p; exact (Hrefused (Some p)) | exact (Hrefused None) ].
Qed.

End PreferenceFacts.

(** Alice sets her preference and reads it back. *)
Lemma preference_set_then_get_witness :
  let call :=
    Preference.setUserInferWatchtimePreference SamplePreferences.world "u1" 1
      true SamplePreferences.table in
  fst call = Eff.Returns (Preference.mkResult true) /\
  fst (Preference.getUserInferWatchtimePreference SamplePreferences.world
         "u1" 1 (snd call))
  = Eff.Returns (Some true).
Proof.
  destruct
    (proj1
       (preference_set_then_get SamplePreferences.world "u1" 1
          SamplePreferences.table Examples.alice eq_refl eq_refl eq_refl
          eq_refl)
       true)
    as (Hset & Hget & _).
  split; [ exact Hset | exact Hget ].
Defined.

(** ** The settings actions *)

Section SettingsFacts.

Import Eff Settings SettingsSpec.

Variable w : World.

Lemma revalidateAll_run (paths : list string) (table : Table) :
  revalidateAll w paths table
  = (match firstThrown w paths with
     | Some e => Throws e
     | None => Returns tt
     end, table).
Proof.
  induction paths as [ | p paths IH ]; [ reflexivity | ].
  cbn [revalidateAll firstThrown]. unfold bind, await.
  destruct (revalidatePath w p) as [[] | e]; [ exact IH | reflexivity ].
Qed.

(** The shape the four list and time-zone actions share, case by case. *)
Lemma guarded_update_run (valid : bool) (serverId : Z)
  (set : serverSettings.row -> serverSettings.row) (paths : list string)
  (done invalid fallback : string) (table : Table) :
  tryCatch
    (bind (await (isUserAdmin w))
       (fun isAdmin =>
          if negb isAdmin
          then ret (failure "Admin privileges required")
          else
            if negb valid
            then ret (failure invalid)
            else
              bind (statement (dbError w ServersUpdate) (update serverId set))
                (fun _ =>
                   bind (revalidateAll w paths)
                     (fun _ => ret (mkActionResult true done)))))
    (fun error => ret (failure (messageOr fallback error))) table
  = match isUserAdmin w with
    | Throws e => (Returns (failure (messageOr fallback e)), table)
    | Returns false => (Returns (failure "Admin privileges required"), table)
    | Returns true =>
        if negb valid
        then (Returns (failure invalid), table)
        else
          match dbError w ServersUpdate with
          | Some e => (Returns (failure (messageOr fallback e)), table)
          | None =>
              (Returns
                 match firstThrown w paths with
                 | Some e => failure (messageOr fallback e)
                 | None => mkActionResult true done
                 end,
               updated serverId set table)
          end
    end.
Proof.
  unfold tryCatch, bind, await, statement, ret.
  destruct (isUserAdmin w) as [[ | ] | e]; cbn [negb]; try reflexivity.
  destruct valid; cbn [negb]; [ | reflexivity ].
  destruct (dbError w ServersUpdate) as [e | ]; [ reflexivity | ].
  unfold update at 1. rewrite revalidateAll_run. unfold updated, update.
  cbn [snd]. destruct (firstThrown w paths); reflexivity.
Qed.

Lemma updateServerTimezoneAction_run (serverId : Z) (timezone : string)
  (table : Table) :
  updateServerTimezoneAction w serverId timezone table
  = match isUserAdmin w with
    | Throws e =>
        (Returns (failure (messageOr "Failed to update timezone" e)), table)
    | Returns false => (Returns (failure "Admin privileges required"), table)
    | Returns true =>
        if negb (updateTimezoneSchema serverId timezone)
        then (Returns (failure "Invalid input"), table)
        else
          if negb (validTimeZone w timezone)
          then (Returns (failure "Invalid timezone identifier"), table)
          else
            match dbError w ServersUpdate with
            | Some e =>
                (Returns (failure (messageOr "Failed to update timezone" e)),
                 table)
            | None =>
                (Returns
                   match firstThrown w [serverPath serverId ""] with
                   | Some e => failure (messageOr "Failed to update timezone" e)
                   | None => mkActionResult true "Timezone updated successfully"
                   end,
                 updated serverId (setTimezone timezone (now w)) table)
            end
    end.
Proof.
  unfold updateServerTimezoneAction, tryCatch, bind, await, statement, ret.
  destruct (isUserAdmin w) as [[ | ] | e]; cbn [negb]; try reflexivity.
  destruct (updateTimezoneSchema serverId timezone); cbn [negb];
    [ | reflexivity ].
  destruct (validTimeZone w timezone); cbn [negb]; [ | reflexivity ].
  destruct (dbError w ServersUpdate) as [e | ]; [ reflexivity | ].
  unfold update at 1. rewrite revalidateAll_run. unfold updated, update.
  cbn [snd]. destruct (firstThrown w _); reflexivity.
Qed.

Lemma limit_1_find {A B : Type} (f : A -> B) (p : A -> bool) (l : list A) :
  Sql.limit 1 (map f (filter p l))
  = match find p l with Some x => [f x] | None => [] end.
Proof.
  induction l as [ | x l IH ]; [ reflexivity | ].
  cbn [filter find]. destruct (p x); [ | exact IH ].
  cbn [map]. unfold Sql.limit. cbn [firstn]. reflexivity.
Qed.

(** Case analysis of a call of [updateConnectionSettingsAction]. *)
Ltac connection_cases :=
  unfold updateConnectionSettingsAction, tryCatch, bind, await, statement, ret;
  repeat
    match goal with
    | |- context [match isUserAdmin w with _ => _ end] =>
        destruct (isUserAdmin w) as [[ | ] | ?] eqn:?
    | |- context [match dbError w ?c with _ => _ end] =>
        destruct (dbError w c) eqn:?
    | |- context [Sql.limit 1 (map ?f (filter ?p ?t))] =>
        rewrite (limit_1_find f p t)
    | |- context [match find ?p ?t with _ => _ end] =>
        destruct (find p t) eqn:?
    | |- context [if negb ?b then _ else _] => destruct b eqn:?; cbn [negb]
    | |- context [match normalizeInternal ?i with _ => _ end] =>
        destruct (normalizeInternal i) eqn:?
    | |- context [if Js.truthyString ?s && negb (hasScheme ?s) then _ else _] =>
        destruct (Js.truthyString s) eqn:?; cbn [andb]
    | |- context [if Js.truthyString ?s then _ else _] =>
        destruct (Js.truthyString s) eqn:?
    | |- context [match fetch w ?r with _ => _ end] =>
        destruct (fetch w r) eqn:?
    | |- context [match json ?r with _ => _ end] =>
        destruct (json r) eqn:?
    | |- context [match revalidatePath w ?p with _ => _ end] =>
        destruct (revalidatePath w p) eqn:?
    | |- context [if isTimeout ?e then _ else _] => destruct (isTimeout e) eqn:?
    | |- context [let '(_, _) := update ?a ?b ?c in _] => unfold update
    end;
  cbn [fst snd].

(** [updateConnectionSettingsAction] always returns a result, and the table
    it leaves is the old one or the old one with the connection of the
    server set. *)
Lemma updateConnectionSettingsAction_outcomes (serverId : Z) (url : string)
  (internalUrl : Js.Optional string) (apiKey : option string) (table : Table) :
  let call :=
    updateConnectionSettingsAction w serverId url internalUrl apiKey table in
  exists result,
    fst call = Returns result /\
    (snd call = table \/
     exists info,
       snd call
       = updated serverId
           (setConnection (normalize url) (normalizeInternal internalUrl) info
              apiKey (now w))
           table).
Proof.
  cbv zeta. connection_cases.
  all: eexists; split; [ reflexivity | ].
  all: try (left; reflexivity).
  all: right; eexists; reflexivity.
Qed.

Lemma updateExcludedUsersAction_run (serverId : Z) (ids : list string)
  (table : Table) :
  updateExcludedUsersAction w serverId ids table
  = match isUserAdmin w with
    | Throws e =>
        (Returns (failure (messageOr "Failed to update settings" e)), table)
    | Returns false => (Returns (failure "Admin privileges required"), table)
    | Returns true =>
        if negb (exclusionSchema serverId ids)
        then (Returns (failure "Invalid input"), table)
        else
          match dbError w ServersUpdate with
          | Some e =>
              (Returns (failure (messageOr "Failed to update settings" e)),
               table)
          | None =>
              (Returns
                 match firstThrown w (exclusionPaths serverId) with
                 | Some e => failure (messageOr "Failed to update settings" e)
                 | None => mkActionResult true "Excluded users updated"
                 end,
               updated serverId (setExcludedUserIds ids) table)
          end
    end.
Proof. apply guarded_update_run. Qed.

Lemma updateExcludedLibrariesAction_run (serverId : Z) (ids : list string)
  (table : Table) :
  updateExcludedLibrariesAction w serverId ids table
  = match isUserAdmin w with
    | Throws e =>
        (Returns (failure (messageOr "Failed to update settings" e)), table)
    | Returns false => (Returns (failure "Admin privileges required"), table)
    | Returns true =>
        if negb (exclusionSchema serverId ids)
        then (Returns (failure "Invalid input"), table)
        else
          match dbError w ServersUpdate with
          | Some e =>
              (Returns (failure (messageOr "Failed to update settings" e)),
               table)
          | None =>
              (Returns
                 match firstThrown w (exclusionPaths serverId) with
                 | Some e => failure (messageOr "Failed to update settings" e)
                 | None => mkActionResult true "Excluded libraries updated"
                 end,
               updated serverId (setExcludedLibraryIds ids) table)
          end
    end.
Proof. apply guarded_update_run. Qed.

Lemma updateDisabledHolidaysAction_run (serverId : Z) (holidays : list string)
  (table : Table) :
  updateDisabledHolidaysAction w serverId holidays table
  = match isUserAdmin w with
    | Throws e =>
        (Returns (failure (messageOr "Failed to update settings" e)), table)
    | Returns false => (Returns (failure "Admin privileges required"), table)
    | Returns true =>
        if negb (disabledHolidaysSchema serverId holidays)
        then (Returns (failure "Invalid input"), table)
        else
          match dbError w ServersUpdate with
          | Some e =>
              (Returns (failure (messageOr "Failed to update settings" e)),
               table)
          | None =>
              (Returns
                 match
                   firstThrown w
                     [ serverPath serverId "/dashboard";
                       serverPath serverId
                         "/settings/seasonal-recommendations" ]
                 with
                 | Some e => failure (messageOr "Failed to update settings" e)
                 | None => mkActionResult true "Holiday settings updated"
                 end,
               updated serverId (setDisabledHolidays holidays) table)
          end
    end.
Proof. apply guarded_update_run. Qed.

(** The settings actions are for admins: when [isUserAdmin] does not
    resolve to true, each of the five actions leaves the table of servers
    as it was and returns a failure, "Admin privileges required" for a
    caller who is not an admin. *)
Theorem settings_actions_require_admin (table : Table) :
  isUserAdmin w <> Returns true ->
  let refused (call : Outcome ActionResult * Table) :=
    snd call = table /\
    (exists result, fst call = Returns result /\ success result = false) /\
    (isUserAdmin w = Returns false ->
     fst call = Returns (failure "Admin privileges required")) in
  (forall serverId ids,
      refused (updateExcludedUsersAction w serverId ids table)) /\
  (forall serverId ids,
      refused (updateExcludedLibrariesAction w serverId ids table)) /\
  (forall serverId holidays,
      refused (updateDisabledHolidaysAction w serverId holidays table)) /\
  (forall serverId timezone,
      refused (updateServerTimezoneAction w serverId timezone table)) /\
  (forall serverId url internalUrl apiKey,
      refused
        (updateConnectionSettingsAction w serverId url internalUrl apiKey
           table)).
Proof.
  intro Hnot. cbv zeta.
  split; [ | split; [ | split; [ | split ]]].
  - intros serverId ids. rewrite updateExcludedUsersAction_run.
    destruct (isUserAdmin w) as [[ | ] | e]; [ contradiction | | ];
      cbn [fst snd]; (split; [ reflexivity | split ]);
      try (eexists; split; reflexivity); try reflexivity; discriminate.
  - intros serverId ids. rewrite updateExcludedLibrariesAction_run.
    destruct (isUserAdmin w) as [[ | ] | e]; [ contradiction | | ];
      cbn [fst snd]; (split; [ reflexivity | split ]);
      try (eexists; split; reflexivity); try reflexivity; discriminate.
  - intros serverId ids. rewrite updateDisabledHolidaysAction_run.
    destruct (isUserAdmin w) as [[ | ] | e]; [ contradiction | | ];
      cbn [fst snd]; (split; [ reflexivity | split ]);
      try (eexists; split; reflexivity); try reflexivity; discriminate.
  - intros serverId ids. rewrite updateServerTimezoneAction_run.
    destruct (isUserAdmin w) as [[ | ] | e]; [ contradiction | | ];
      cbn [fst snd]; (split; [ reflexivity | split ]);
      try (eexists; split; reflexivity); try reflexivity; discriminate.
  - intros serverId url internalUrl apiKey.
    unfold updateConnectionSettingsAction, tryCatch, bind, await, ret.
    destruct (isUserAdmin w) as [[ | ] | e]; [ contradiction | | ];
      cbn [negb fst snd]; (split; [ reflexivity | split ]);
      try (eexists; split; reflexivity); try reflexivity; discriminate.
Qed.

(** A settings action reports a failure after having written only when
    [revalidatePath] threw: whenever one of the five actions returns
    [success = false] and the table is not as it was, the statement had
    run and a later [revalidatePath] threw. *)
Theorem settings_failure_after_the_update (table : Table) :
  let late (call : Outcome ActionResult * Table) (paths : list string) :=
    forall result,
      fst call = Returns result -> success result = false ->
      snd call <> table ->
      dbError w ServersUpdate = None /\ firstThrown w paths <> None in
  (forall serverId ids,
      late (updateExcludedUsersAction w serverId ids table)
        (exclusionPaths serverId)) /\
  (forall serverId ids,
      late (updateExcludedLibrariesAction w serverId ids table)
        (exclusionPaths serverId)) /\
  (forall serverId holidays,
      late (updateDisabledHolidaysAction w serverId holidays table)
        [ serverPath serverId "/dashboard";
          serverPath serverId "/settings/seasonal-recommendations" ]) /\
  (forall serverId timezone,
      late (updateServerTimezoneAction w serverId timezone table)
        [serverPath serverId ""]) /\
  (forall serverId url internalUrl apiKey,
      late
        (updateConnectionSettingsAction w serverId url internalUrl apiKey
           table)
        [serverPath serverId "/settings"]).
Proof.
  cbv zeta.
  split; [ | split; [ | split; [ | split ]]].
  - intros serverId ids result. rewrite updateExcludedUsersAction_run.
    destruct (isUserAdmin w) as [[ | ] | e]; cbn [fst snd];
      try (intros _ _ H; now contradiction H).
    destruct (negb _); cbn [fst snd]; try (intros _ _ H; now contradiction H).
    destruct (dbError w ServersUpdate); cbn [fst snd];
      try (intros _ _ H; now contradiction H).
    destruct (firstThrown w _); intros [= <-] Hs _;
      [ split; [ reflexivity | discriminate ] | discriminate ].
  - intros serverId ids result. rewrite updateExcludedLibrariesAction_run.
    destruct (isUserAdmin w) as [[ | ] | e]; cbn [fst snd];
      try (intros _ _ H; now contradiction H).
    destruct (negb _); cbn [fst snd]; try (intros _ _ H; now contradiction H).
    destruct (dbError w ServersUpdate); cbn [fst snd];
      try (intros _ _ H; now contradiction H).
    destruct (firstThrown w _); intros [= <-] Hs _;
      [ split; [ reflexivity | discriminate ] | discriminate ].
  - intros serverId ids result. rewrite updateDisabledHolidaysAction_run.
    destruct (isUserAdmin w) as [[ | ] | e]; cbn [fst snd];
      try (intros _ _ H; now contradiction H).
    destruct (negb _); cbn [fst snd]; try (intros _ _ H; now contradiction H).
    destruct (dbError w ServersUpdate); cbn [fst snd];
      try (intros _ _ H; now contradiction H).
    destruct (firstThrown w _); intros [= <-] Hs _;
      [ split; [ reflexivity | discriminate ] | discriminate ].
  - intros serverId ids result. rewrite updateServerTimezoneAction_run.
    destruct (isUserAdmin w) as [[ | ] | e]; cbn [fst snd];
      try (intros _ _ H; now contradiction H).
    destruct (negb _); cbn [fst snd]; try (intros _ _ H; now contradiction H).
    destruct (negb _); cbn [fst snd]; try (intros _ _ H; now contradiction H).
    destruct (dbError w ServersUpdate); cbn [fst snd];
      try (intros _ _ H; now contradiction H).
    destruct (firstThrown w _); intros [= <-] Hs _;
      [ split; [ reflexivity | discriminate ] | discriminate ].
  - intros serverId url internalUrl apiKey result.
    cbn [firstThrown]. connection_cases.
    all: try (intros _ _ H; now contradiction H).
    all: intros [= <-] Hs _; try discriminate.
    all: split; [ reflexivity || assumption | discriminate ].
Qed.

Lemma firstThrown_none (paths : list string) :
  firstThrown w paths = None <->
  forall p, In p paths -> exists u, revalidatePath w p = Returns u.
Proof.
  induction paths as [ | p paths IH ]; cbn [firstThrown].
  - split; [ intros _ q [] | reflexivity ].
  - destruct (revalidatePath w p) as [u | e] eqn:E.
    + rewrite IH. split.
      * intros H q [<- | Hq]; [ now exists u | now apply H ].
      * intros H q Hq. apply H. now right.
    + split; [ discriminate | ].
      intro H. destruct (H p (or_introl eq_refl)) as [u Hu]. congruence.
Qed.

(** The two exclusion actions set one list of one server.  For an admin, a
    positive server id and at most 1000 ids of at most 200 characters each,
    when the statement and the revalidations go through,
    [updateExcludedUsersAction] returns success and replaces the list of
    excluded users of every row with that id, leaving all other rows and
    all other columns as they were, and [updateExcludedLibrariesAction]
    does the same with the list of excluded libraries; this is the only
    way either returns success.  A server id that no row has gives success
    and an unchanged table; an input outside these bounds gives "Invalid
    input" and an unchanged table. *)
Theorem exclusion_actions_set_one_list (serverId : Z) (ids : list string)
  (table : Table) :
  let users := updateExcludedUsersAction w serverId ids table in
  let libraries := updateExcludedLibrariesAction w serverId ids table in
  let goesThrough :=
    isUserAdmin w = Returns true /\
    exclusionSchema serverId ids = true /\
    dbError w ServersUpdate = None /\
    (forall p, In p (exclusionPaths serverId) ->
               exists u, revalidatePath w p = Returns u) in
  (goesThrough <->
   users = (Returns (mkActionResult true "Excluded users updated"),
            map (fun r => if serverSettings.id r =? serverId
                          then setExcludedUserIds ids r else r) table)) /\
  (goesThrough <->
   libraries = (Returns (mkActionResult true "Excluded libraries updated"),
                map (fun r => if serverSettings.id r =? serverId
                              then setExcludedLibraryIds ids r else r) table)) /\
  (forall result,
      fst users = Returns result \/ fst libraries = Returns result ->
      success result = true -> goesThrough) /\
  (goesThrough ->
   (forall r, In r table -> serverSettings.id r <> serverId) ->
   snd users = table /\ snd libraries = table) /\
  (isUserAdmin w = Returns true ->
   exclusionSchema serverId ids = false ->
   users = (Returns (failure "Invalid input"), table) /\
   libraries = (Returns (failure "Invalid input"), table)).
Proof.
  cbv zeta.
  rewrite updateExcludedUsersAction_run, updateExcludedLibrariesAction_run.
  unfold updated, update. cbn [snd].
  set (G := isUserAdmin w = Returns true /\
            exclusionSchema serverId ids = true /\
            dbError w ServersUpdate = None /\
            (forall p, In p (exclusionPaths serverId) ->
                       exists u, revalidatePath w p = Returns u)).
  assert (HG : G <->
               isUserAdmin w = Returns true /\
               exclusionSchema serverId ids = true /\
               dbError w ServersUpdate = None /\
               firstThrown w (exclusionPaths serverId) = None)
    by (unfold G; now rewrite firstThrown_none).
  assert (Hsame : forall set : serverSettings.row -> serverSettings.row,
             (forall r, In r table -> serverSettings.id r <> serverId) ->
             map (fun r => if serverSettings.id r =? serverId then set r else r)
               table = table).
  { intros set Hnone. rewrite <- (map_id table) at 2. apply map_ext_in.
    intros r Hr. destruct (Z.eqb_spec (serverSettings.id r) serverId) as [E | _];
      [ now apply Hnone in Hr | reflexivity ]. }
  clearbody G.
  destruct (isUserAdmin w) as [[ | ] | e];
    destruct (exclusionSchema serverId ids); cbn [negb];
    destruct (dbError w ServersUpdate) as [e' | ];
    destruct (firstThrown w (exclusionPaths serverId)) as [e'' | ];
    cbn [fst snd].
  all: split; [ | split; [ | split; [ | split ]]].
  all: try (split; [ intro HG'; apply HG in HG';
                     destruct HG' as (H1 & H2 & H3 & H4); discriminate
                   | intros [= ] ]).
  all: try (split; [ reflexivity | intros _; apply HG; repeat split ]).
  all: try (intros result [[= <-] | [= <-]] Hsuccess; cbn in Hsuccess;
            try discriminate; apply HG; repeat split).
  all: try (intros HG' Hnone; split; now apply Hsame).
  all: try (intros H1 H2; discriminate).
  all: try (intros _ _; split; reflexivity).
Qed.



(** After a success the rows of the server hold the normalized URLs, which
    passed the check of their scheme. *)
Lemma connection_stored (serverId : Z) (url : string)
  (internalUrl : Js.Optional string) (apiKey : option string) (table : Table) :
  match updateConnectionSettingsAction w serverId url internalUrl apiKey table
  with
  | (Throws _, _) => False
  | (Returns result, after) =>
      success result = true ->
      hasScheme url = true /\
      (forall internal,
          normalizeInternal internalUrl = Some internal ->
          internal <> ""%string -> hasScheme internal = true) /\
      exists info,
        after
        = map
            (fun r =>
               if serverSettings.id r =? serverId
               then setConnection (normalize url)
                      (normalizeInternal internalUrl) info apiKey (now w) r
               else r)
            table
  end.
Proof.
  connection_cases.
  all: try (cbn; discriminate).
  all: intros _; split; [ reflexivity | ].
  all: split; [ | eexists; reflexivity ].
  all: intros internal [= <-] Hne.
  all: try (apply truthyString_nonempty in Hne; congruence).
  all: assumption.
Qed.

(** What a success of [updateConnectionSettingsAction] means: the caller is
    an admin, the server has a row, the URL starts with http:// or
    https://, the request to [/System/Info] under the URL without its
    trailing slash, with the API key given or else the stored one, was
    answered ok with a readable body, an internal URL that is given and
    not empty after normalization starts with http:// or https:// and was
    answered ok as well, and the rows of the server now hold the
    normalized URLs, the time of the call, and the name, version and API
    key that were supplied. *)
Theorem updateConnectionSettingsAction_success (serverId : Z) (url : string)
  (internalUrl : Js.Optional string) (apiKey : option string) (table : Table) :
  match updateConnectionSettingsAction w serverId url internalUrl apiKey table
  with
  | (Throws _, _) => False
  | (Returns result, after) =>
      success result = true ->
      isUserAdmin w = Returns true /\
      hasScheme url = true /\
      exists row response info,
        find (fun r => serverSettings.id r =? serverId) table = Some row /\
        let key := pick apiKey (serverSettings.apiKey row) in
        key <> ""%string /\
        fetch w (systemInfo (normalize url) key) = Returns response /\
        ok response = true /\
        json response = Returns info /\
        (forall internal,
            normalizeInternal internalUrl = Some internal ->
            internal <> ""%string ->
            hasScheme internal = true /\
            exists response',
              fetch w (systemInfo internal key) = Returns response' /\
              ok response' = true) /\
        after
        = map
            (fun r =>
               if serverSettings.id r =? serverId
               then setConnection (normalize url)
                      (normalizeInternal internalUrl) info apiKey (now w) r
               else r)
            table
  end.
Proof.
  connection_cases.
  all: try (cbn; discriminate).
  all: intros _; split; [ reflexivity | split; [ reflexivity | ] ].
  all: do 3 eexists; split; [ reflexivity | ]; cbv zeta.
  all: split; [ now apply truthyString_nonempty | ].
  all: split; [ eassumption | split; [ assumption | split; [ eassumption | ]]].
  all: split; [ | reflexivity ].
  all: intros internal [= <-] Hne.
  all: try (apply truthyString_nonempty in Hne; congruence).
  all: split; [ assumption | eexists; split; [ eassumption | assumption ] ].
Qed.


Lemma getInternalUrl_pair (external : string)
  (internal : Js.Optional string) :
  NextjsApp.getInternalUrl (mkServerUrls external internal)
  = orElse internal external.
Proof. reflexivity. Qed.

Lemma prefix_dropLast (p s : string) :
  String.prefix p s = true -> s <> p ->
  String.prefix p (JsString.dropLast s) = true.
Proof.
  revert s. induction p as [ | c p IH ]; intros s Hp Hne.
  - now destruct (JsString.dropLast s).
  - destruct s as [ | d s ]; [ discriminate | ].
    cbn [String.prefix] in Hp.
    destruct (ascii_dec c d) as [-> | ]; [ | discriminate ].
    destruct s as [ | e s ].
    + destruct p; [ contradiction | discriminate ].
    + change (JsString.dropLast (String d (String e s)))
        with (String d (JsString.dropLast (String e s))).
      cbn [String.prefix]. destruct (ascii_dec d d); [ | contradiction ].
      apply IH; [ exact Hp | congruence ].
Qed.

Lemma hasScheme_normalize (url : string) :
  hasScheme url = true ->
  url <> "http://"%string -> url <> "https://"%string ->
  hasScheme (normalize url) = true.
Proof.
  unfold hasScheme, normalize, JsString.startsWith.
  rewrite !orb_true_iff. intros H Hhttp Hhttps.
  destruct (JsString.endsWithSlash url); [ | exact H ].
  destruct H as [H | H]; [ left | right ]; now apply prefix_dropLast.
Qed.

(** After a successful update of the connection, server-to-server requests
    go where the admin said: for every row of the server,
    [getInternalUrl] is the internal URL given, without its trailing slash,
    when that is not empty, and the external URL without its trailing slash
    otherwise; and unless the URL given is just "http://" or "https://" it
    starts with http:// or https://. *)
Theorem internal_url_after_connection_update (serverId : Z) (url : string)
  (internalUrl : Js.Optional string) (apiKey : option string) (table : Table) :
  match updateConnectionSettingsAction w serverId url internalUrl apiKey table
  with
  | (Throws _, _) => False
  | (Returns result, after) =>
      success result = true ->
      forall r,
        In r after -> serverSettings.id r = serverId ->
        let stored :=
          NextjsApp.getInternalUrl
            (mkServerUrls (servers.url (serverSettings.core r))
               (servers.internalUrl (serverSettings.core r))) in
        stored
        = match normalizeInternal internalUrl with
          | Some internal =>
              if Js.truthyString internal then internal else normalize url
          | None => normalize url
          end /\
        (url <> "http://"%string -> url <> "https://"%string ->
         hasScheme stored = true)
  end.
Proof.
  pose proof (connection_stored serverId url internalUrl apiKey table) as H.
  destruct (updateConnectionSettingsAction w serverId url internalUrl apiKey
              table) as [[result | e] after]; [ | exact H ].
  intros Hsuccess r Hr Hid.
  destruct (H Hsuccess) as (Hscheme & Hinternal & info & ->).
  apply in_map_iff in Hr. destruct Hr as (r0 & <- & Hr0).
  destruct (Z.eqb_spec (serverSettings.id r0) serverId) as [E | E].
  2:{ contradiction. }
  cbv zeta.
  cbn [setConnection serverSettings.core servers.url servers.internalUrl].
  rewrite getInternalUrl_pair.
  destruct (normalizeInternal internalUrl) as [internal | ] eqn:En;
    cbn [nullable orElse].
  - destruct (Js.truthyString internal) eqn:Et.
    + split; [ reflexivity | ]. intros _ _.
      apply (Hinternal internal eq_refl). now apply truthyString_nonempty.
    + split; [ reflexivity | ]. now apply hasScheme_normalize.
  - split; [ reflexivity | ]. now apply hasScheme_normalize.
Qed.

End SettingsFacts.

(** A caller who is no administrator is refused by the exclusion action,
    and the settings stay as they are. *)
Lemma settings_actions_require_admin_witness :
  Settings.updateExcludedUsersAction (SampleSettings.world false) 1
    ["u1"%string] SampleSettings.table
  = (Eff.Returns (Settings.failure "Admin privileges required"),
     SampleSettings.table).
Proof.
  assert (Hadmin : Settings.isUserAdmin (SampleSettings.world false)
                   <> Eff.Returns true) by discriminate.
  destruct
    (proj1
       (settings_actions_require_admin (SampleSettings.world false)
          SampleSettings.table Hadmin)
       1 ["u1"%string])
    as (Htable & _ & Hresult).
  apply injective_projections; [ exact (Hresult eq_refl) | exact Htable ].
Defined.


(** ** The radar chart of the genres *)

Lemma In_firstn_nth {A : Type} (n : nat) (l : list A) (a : A) :
  In a (firstn n l) -> exists i, (i < n)%nat /\ nth_error l i = Some a.
Proof.
  revert l. induction n as [ | n IH ]; intros l Ha;
    [ destruct Ha | ].
  destruct l as [ | x l ]; [ destruct Ha | ].
  destruct Ha as [<- | Ha].
  - exists 0%nat. split; [ lia | reflexivity ].
  - destruct (IH l Ha) as [i [Hi Hnth]].
    exists (S i). split; [ lia | exact Hnth ].
Qed.

Lemma sorted_nth {A : Type} (R : A -> A -> Prop) (l : list A) :
  StronglySorted R l ->
  forall i j a b, (i < j)%nat ->
    nth_error l i = Some a -> nth_error l j = Some b -> R a b.
Proof.
  induction 1 as [ | x l Hs IH Hall ]; intros i j a b Hij Ha Hb.
  - destruct i; discriminate.
  - destruct j as [ | j ]; [ lia | ]. cbn [nth_error] in Hb.
    destruct i as [ | i ].
    + injection Ha as <-. rewrite Forall_forall in Hall.
      eapply Hall, nth_error_In, Hb.
    + cbn [nth_error] in Ha. apply (IH i j); [ lia | assumption .. ].
Qed.

Lemma firstn_snoc {A : Type} (n : nat) (l : list A) (g : A) :
  nth_error l n = Some g -> firstn (S n) l = firstn n l ++ [g].
Proof.
  revert l. induction n as [ | n IH ]; intros [ | x l ] H; try discriminate.
  - injection H as ->. reflexivity.
  - cbn [nth_error] in H. cbn [firstn app].
    f_equal. now apply IH.
Qed.

Lemma StronglySorted_snoc {A : Type} (R : A -> A -> Prop) (l : list A)
  (g : A) :
  StronglySorted R l -> (forall a, In a l -> R a g) ->
  StronglySorted R (l ++ [g]).
Proof.
  induction 1 as [ | x l Hs IH Hall ]; intro Hg; cbn [app].
  - constructor; constructor.
  - constructor.
    + apply IH. intros a Ha. apply Hg. now right.
    + rewrite Forall_forall in *. intros y Hy.
      apply in_app_or in Hy. destruct Hy as [Hy | [<- | []]].
      * now apply Hall.
      * apply Hg. now left.
Qed.

Lemma div2_step (k : nat) :
  Nat.div2 (S k) = if Nat.eqb (S k mod 2) 1 then Nat.div2 k
                   else S (Nat.div2 k).
Proof.
  destruct (Nat.eqb_spec (S k mod 2) 1) as [Hodd | Heven].
  - pose proof (Nat.div2_odd k) as Hk. pose proof (Nat.div2_odd (S k)) as HSk.
    rewrite <- Nat.bit0_mod in Hodd.
    destruct (Nat.odd (S k)) eqn:HoS;
      [ | rewrite Nat.bit0_odd in Hodd; rewrite HoS in Hodd; discriminate ].
    rewrite Nat.odd_succ in HoS.
    assert (Nat.odd k = false)
      by (rewrite <- Nat.negb_even; now rewrite HoS).
    rewrite H in Hk. cbn [Nat.b2n] in *. lia.
  - pose proof (Nat.div2_odd k) as Hk. pose proof (Nat.div2_odd (S k)) as HSk.
    rewrite <- Nat.bit0_mod in Heven.
    rewrite Nat.bit0_odd in Heven.
    destruct (Nat.odd (S k)) eqn:HoS; [ now elim Heven | ].
    rewrite Nat.odd_succ in HoS.
    assert (Nat.odd k = true)
      by (rewrite <- Nat.negb_even; now rewrite HoS).
    rewrite H in Hk. cbn [Nat.b2n] in *. lia.
Qed.

Section ChartFacts.

Import GenreStatsGraph.

Let ascending (a b : GenreStat) : Prop := watchTime a <= watchTime b.
Let descending (a b : GenreStat) : Prop := watchTime b <= watchTime a.

(** The loop keeps the largest statistic between an ascending and a
    descending run. *)
Lemma balance_loop (largest : GenreStat) (rest : list GenreStat) (k : nat) :
  StronglySorted descending (largest :: rest) ->
  (k <= List.length rest)%nat ->
  exists left right,
    fold_left (balanceStep (largest :: rest)) (seq 1 k) [largest]
    = left ++ largest :: right /\
    List.length left = Nat.div2 k /\
    StronglySorted ascending left /\
    StronglySorted descending (largest :: right) /\
    (forall a, In a left -> watchTime a <= watchTime largest) /\
    Permutation (left ++ largest :: right) (firstn (S k) (largest :: rest)).
Proof.
  intro Hsorted. induction k as [ | k IH ]; intro Hk.
  - exists [], []. cbn. repeat split; try constructor; try constructor.
    intros a [].
  - destruct IH as [left [right [Hfold [Hlen [Hasc [Hdesc [Hleft Hperm]]]]]]];
      [ lia | ].
    rewrite seq_S, fold_left_app, Hfold. cbn [fold_left Nat.add].
    unfold balanceStep at 1.
    destruct (nth_error (largest :: rest) (S k)) as [g | ] eqn:Hg;
      [ | apply nth_error_None in Hg; cbn [List.length] in Hg; lia ].
    assert (Hbelow : forall a, In a (left ++ largest :: right) ->
                               watchTime g <= watchTime a).
    { intros a Ha. apply (Permutation_in _ Hperm) in Ha.
      apply In_firstn_nth in Ha. destruct Ha as [i [Hi Hnth]].
      exact (sorted_nth descending _ Hsorted i (S k) a g Hi Hnth Hg). }
    rewrite (firstn_snoc (S k) (largest :: rest) g Hg).
    rewrite div2_step.
    destruct (Nat.eqb (S k mod 2) 1).
    + exists left, (right ++ [g]).
      rewrite <- app_assoc. cbn [app].
      repeat split; try assumption.
      * change (largest :: right ++ [g]) with ((largest :: right) ++ [g]).
        apply StronglySorted_snoc; [ exact Hdesc | ].
        intros a Ha. apply Hbelow, in_or_app. now right.
      * change (left ++ largest :: right ++ [g])
          with (left ++ (largest :: right) ++ [g]).
        rewrite app_assoc. apply Permutation_app_tail, Hperm.
    + exists (g :: left), right. cbn [app List.length].
      repeat split; try assumption.
      * now rewrite Hlen.
      * constructor; [ exact Hasc | ].
        rewrite Forall_forall. intros a Ha.
        apply Hbelow, in_or_app. now left.
      * intros a [<- | Ha]; [ | now apply Hleft ].
        apply Hbelow, in_or_app. right. now left.
      * eapply perm_trans;
          [ apply perm_skip, Hperm | apply Permutation_cons_append ].
Qed.

Lemma balance_spec (topGenres : list GenreStat) :
  StronglySorted descending topGenres ->
  Permutation (balance topGenres) topGenres /\
  exists left right,
    balance topGenres = left ++ right /\
    List.length left = Nat.div2 (List.length topGenres - 1) /\
    StronglySorted ascending left /\
    StronglySorted descending right /\
    forall a, In a topGenres ->
      exists largest, hd_error right = Some largest /\
                      watchTime a <= watchTime largest.
Proof.
  intro Hsorted. destruct topGenres as [ | largest rest ].
  - split; [ apply Permutation_refl | ].
    exists [], []. repeat split; try constructor. intros a [].
  - destruct (balance_loop largest rest (List.length rest) Hsorted (le_n _))
      as [left [right [Hfold [Hlen [Hasc [Hdesc [Hleft Hperm]]]]]]].
    change (firstn (S (List.length rest)) (largest :: rest))
      with (firstn (List.length (largest :: rest)) (largest :: rest)) in Hperm.
    rewrite firstn_all in Hperm.
    unfold balance. cbn [List.length]. rewrite Nat.sub_succ, Nat.sub_0_r.
    rewrite Hfold. split; [ exact Hperm | ].
    exists left, (largest :: right). repeat split; try assumption.
    intros a Ha. exists largest. split; [ reflexivity | ].
    apply (Permutation_in _ (Permutation_sym Hperm)) in Ha.
    apply in_app_or in Ha. destruct Ha as [Ha | [<- | Ha]].
    + now apply Hleft.
    + lia.
    + inversion Hdesc as [ | ? ? _ Hall ]; subst.
      rewrite Forall_forall in Hall. now apply Hall.
Qed.

(** The chart shows the genres with the largest watch times, as many as the
    limit allows, the largest one in the middle and the others falling off
    to both sides. *)
Theorem chartData_centers_the_largest (pow : float -> float -> float)
  (limit : Z) (power : float) (data : list GenreStat) :
  0 <= limit ->
  let shown := map item (chartData pow limit power data) in
  Z.of_nat (List.length shown) = Z.min limit (Z.of_nat (List.length data)) /\
  (exists others,
     Permutation data (shown ++ others) /\
     forall g h, In g shown -> In h others -> watchTime h <= watchTime g) /\
  (exists left right,
     shown = left ++ right /\
     List.length left = Nat.div2 (List.length shown - 1) /\
     StronglySorted (fun a b => watchTime a <= watchTime b) left /\
     StronglySorted (fun a b => watchTime b <= watchTime a) right /\
     forall a, In a shown ->
       exists largest, hd_error right = Some largest /\
                       watchTime a <= watchTime largest) /\
  Forall
    (fun d => normalizedWatchTime d
              = pow (Js.Number_of_Z (watchTime (item d))) power)
    (chartData pow limit power data).
Proof.
  intros Hlimit shown.
  set (sorted := Js.sort (fun a b => watchTime b <=? watchTime a) data).
  set (n := Z.to_nat (effectiveLimit limit data)).
  assert (Hslice : JsArray.slice0 (effectiveLimit limit data) sorted
                   = firstn n sorted).
  { unfold JsArray.slice0.
    destruct (Z.ltb_spec (effectiveLimit limit data) 0) as [Hneg | _];
      [ unfold effectiveLimit in Hneg; lia | reflexivity ]. }
  assert (Hsorted : StronglySorted descending sorted)
    by exact (orderBy_desc_sorted watchTime data).
  assert (Hshown : shown = balance (firstn n sorted)).
  { unfold shown, chartData. fold sorted. rewrite Hslice, map_map.
    cbn [item]. apply map_id. }
  destruct (balance_spec (firstn n sorted)
              (StronglySorted_firstn _ n _ Hsorted))
    as [Hperm [left [right [Heq [Hlen [Hasc [Hdesc Hlargest]]]]]]].
  assert (Hlength : List.length shown = n).
  { rewrite Hshown, (Permutation_length Hperm), length_firstn.
    unfold sorted. rewrite sort_length. unfold n, effectiveLimit. lia. }
  repeat split.
  - rewrite Hlength. unfold n, effectiveLimit. lia.
  - exists (skipn n sorted). split.
    + eapply perm_trans;
        [ apply (sort_perm (fun a b => watchTime b <=? watchTime a) data) | ].
      fold sorted. rewrite <- (firstn_skipn n sorted) at 1.
      apply Permutation_app_tail. rewrite Hshown.
      apply Permutation_sym, Hperm.
    + intros g h Hg Hh. rewrite Hshown in Hg.
      apply (Permutation_in _ Hperm) in Hg.
      rewrite <- (firstn_skipn n sorted) in Hsorted.
      exact (StronglySorted_app_le descending _ _ Hsorted g h Hg Hh).
  - exists left, right. rewrite Hshown.
    rewrite (Permutation_length Hperm). repeat split; try assumption.
    intros a Ha. apply Hlargest. exact (Permutation_in _ Hperm Ha).
  - unfold chartData. rewrite Forall_map. cbn [normalizedWatchTime item].
    rewrite Forall_forall. reflexivity.
Qed.

End ChartFacts.

(** With the limit 3 the chart of the four sample genres shows three of
    them, Horror in the middle. *)
Lemma chartData_centers_the_largest_witness :
  map
    (fun d => GenreStatsGraph.genre (GenreStatsGraph.item d))
    (GenreStatsGraph.chartData (fun base _ => base) 3 1 SampleChart.data)
  = ["Comedy"; "Horror"; "Drama"]%string /\
  Z.of_nat
    (List.length
       (map GenreStatsGraph.item
          (GenreStatsGraph.chartData (fun base _ => base) 3 1
             SampleChart.data)))
  = Z.min 3 4.
Proof.
  split; [ vm_compute; reflexivity | ].
  assert (Hlimit : 0 <= 3) by lia.
  exact (proj1
           (chartData_centers_the_largest (fun base _ => base) 3 1
              SampleChart.data Hlimit)).
Defined.

(** ** The initials of the avatar *)

Section AvatarFacts.

Import JellyfinAvatar.

Let spaceFree (w : string) : Prop :=
  forall c, In c (list_ascii_of_string w) -> c <> " "%char.

Lemma spaceFree_tail (c : ascii) (w : string) :
  spaceFree (String c w) -> Ascii.eqb c " " = false /\ spaceFree w.
Proof.
  intro H. split.
  - apply Ascii.eqb_neq, H. now left.
  - intros d Hd. apply H. now right.
Qed.

Lemma splitOnSpace_word (w : string) :
  spaceFree w -> splitOnSpace w = [w].
Proof.
  induction w as [ | c w IH ]; intro H; [ reflexivity | ].
  apply spaceFree_tail in H. destruct H as [Hc Hw].
  cbn [splitOnSpace]. now rewrite Hc, (IH Hw).
Qed.

Lemma splitOnSpace_first (w s : string) :
  spaceFree w ->
  splitOnSpace (w ++ String " " s) = w :: splitOnSpace s.
Proof.
  induction w as [ | c w IH ]; intro H; [ reflexivity | ].
  apply spaceFree_tail in H. destruct H as [Hc Hw].
  cbn [append splitOnSpace]. now rewrite Hc, (IH Hw).
Qed.

(** Splitting on spaces undoes joining with spaces. *)
Lemma splitOnSpace_join (words : list string) :
  words <> [] -> Forall spaceFree words ->
  splitOnSpace (String.concat " " words) = words.
Proof.
  induction words as [ | w words IH ]; intros Hne Hall; [ now elim Hne | ].
  inversion Hall as [ | ? ? Hw Hrest ]; subst.
  destruct words as [ | w' words ].
  - apply splitOnSpace_word, Hw.
  - change (String.concat " " (w :: w' :: words))
      with (w ++ String " " (String.concat " " (w' :: words)))%string.
    rewrite splitOnSpace_first by exact Hw.
    f_equal. apply IH; [ discriminate | exact Hrest ].
Qed.

Lemma firstTwo_length (s : string) : (String.length (firstTwo s) <= 2)%nat.
Proof. destruct s as [ | a [ | b s ] ]; cbn; lia. Qed.

Lemma initials_length (name : option string) :
  (String.length (initials name) <= 2)%nat.
Proof.
  destruct name as [ name | ]; [ | cbn; lia ].
  unfold initials. destruct (negb (Js.truthyString name));
    [ cbn; lia | apply firstTwo_length ].
Qed.

Lemma concat_empty_words (words : list string) :
  Forall (fun w => w = ""%string) words ->
  String.concat "" (map firstCharacter words) = ""%string.
Proof.
  induction 1 as [ | w words Hw Hall IH ]; [ reflexivity | ].
  subst w. cbn [map firstCharacter String.concat].
  destruct (map firstCharacter words); [ reflexivity | exact IH ].
Qed.

(** The initials of a name of ASCII characters are the first characters of
    its words - the pieces between the spaces, empty ones left out - in
    upper case, two at most; a name of spaces only has empty initials. *)
Theorem initials_of_words (words : list string) :
  words <> [] ->
  Forall
    (fun w => forall c, In c (list_ascii_of_string w) -> c <> " "%char)
    words ->
  Forall isAscii words ->
  String.concat " " words <> ""%string ->
  initials (Some (String.concat " " words))
  = firstTwo
      (toUpperCase (String.concat "" (map firstCharacter words))) /\
  (String.length (initials (Some (String.concat " " words))) <= 2)%nat /\
  (Forall (fun w => w = ""%string) words ->
   initials (Some (String.concat " " words)) = ""%string).
Proof.
  intros Hne Hall _ Hname.
  assert (Hinitials :
            initials (Some (String.concat " " words))
            = firstTwo
                (toUpperCase
                   (String.concat "" (map firstCharacter words)))).
  { unfold initials.
    destruct (String.concat " " words) as [ | c s ] eqn:Hjoin;
      [ now elim Hname | ].
    cbn [Js.truthyString negb]. rewrite <- Hjoin.
    now rewrite splitOnSpace_join. }
  split; [ exact Hinitials | ].
  split; [ apply initials_length | ].
  intro Hempty. rewrite Hinitials, (concat_empty_words words Hempty).
  reflexivity.
Qed.

End AvatarFacts.

(** The initials of ada lovelace are AL. *)
Lemma initials_of_words_witness :
  JellyfinAvatar.initials (Some "ada lovelace"%string) = "AL"%string.
Proof.
  assert (Hwords : ["ada"; "lovelace"]%string <> []) by discriminate.
  assert (Hname : String.concat " " ["ada"; "lovelace"]%string <> ""%string)
    by discriminate.
  refine
    (proj1
       (initials_of_words ["ada"; "lovelace"]%string Hwords _ _ Hname)).
  - repeat constructor; intros c Hc; cbn in Hc;
      repeat (destruct Hc as [<- | Hc]; [ discriminate | ]); destruct Hc.
  - apply Forall_cons; [ | apply Forall_cons; [ | apply Forall_nil ] ];
      intros c Hc; cbn in Hc;
      repeat (destruct Hc as [<- | Hc]; [ cbn; lia | ]); destruct Hc.
Defined.

(** ** The people of a year *)

Lemma filter_nothing {A : Type} (p : A -> bool) (l : list A) :
  (forall x, In x l -> p x = false) -> filter p l = [].
Proof.
  induction l as [ | x l IH ]; intro H; [ reflexivity | ].
  cbn [filter]. rewrite (H x) by now left.
  apply IH. intros y Hy. apply H. now right.
Qed.

Lemma filter_flat_map_guard {A B : Type} (f : A -> bool) (g h : B -> bool)
  (F : A -> list B) (rows : list A) :
  (forall r c, In c (F r) -> h c = f r && g c) ->
  filter h (flat_map F rows) = filter g (flat_map F (filter f rows)).
Proof.
  intro H. induction rows as [ | r rows IH ]; [ reflexivity | ].
  change (flat_map F (r :: rows)) with (F r ++ flat_map F rows).
  rewrite filter_app, IH. cbn [filter].
  destruct (f r) eqn:Ef.
  - change (flat_map F (r :: filter f rows))
      with (F r ++ flat_map F (filter f rows)).
    rewrite filter_app. f_equal. apply filter_ext_in.
    intros c Hc. now rewrite (H r c Hc), Ef.
  - rewrite filter_nothing; [ reflexivity | ].
    intros c Hc. now rewrite (H r c Hc), Ef.
Qed.

Section JoinFacts.

Import Sql Exclusions Wrapped Yearly Shares People Casting.

Variable credits : Credits.
Variable column : items.row -> option string.

Lemma joinPeople_In (rows : list Row) (c : Cast) :
  In c (joinPeople credits column rows) <->
  In (played c) rows /\
  In (credit c) (itemPeopleTable credits) /\
  eqText (column (snd (played c))) (itemPeople.itemId (credit c)) = true /\
  In (person c) (peopleTable credits) /\
  itemPeople.personId (credit c) = people.id (person c) /\
  itemPeople.serverId (credit c) = people.serverId (person c).
Proof.
  unfold joinPeople. rewrite in_flat_map. split.
  - intros (r & Hr & Hc). apply in_flat_map in Hc.
    destruct Hc as (ip & Hip & Hc). apply filter_In in Hip.
    destruct Hip as [Hip Hitem]. apply in_map_iff in Hc.
    destruct Hc as (p & <- & Hp). apply filter_In in Hp.
    destruct Hp as [Hp Hmatch]. apply andb_true_iff in Hmatch.
    destruct Hmatch as [Hid Hserver].
    apply String.eqb_eq in Hid. apply Z.eqb_eq in Hserver.
    cbn [played credit person fst snd]. repeat split; assumption.
  - destruct c as [[r ip] p]. cbn [played credit person fst snd].
    intros (Hr & Hip & Hitem & Hp & Hid & Hserver).
    exists r. split; [ exact Hr | ]. apply in_flat_map.
    exists ip. split; [ apply filter_In; now split | ].
    apply in_map_iff. exists p. split; [ reflexivity | ].
    apply filter_In. split; [ exact Hp | ].
    apply andb_true_iff. split;
      [ now apply String.eqb_eq | now apply Z.eqb_eq ].
Qed.

(** A condition on the sessions and items can be applied before the
    join. *)
Lemma joinPeople_filter (f : Row -> bool) (g : Cast -> bool)
  (rows : list Row) :
  filter (fun c => f (played c) && g c) (joinPeople credits column rows)
  = filter g (joinPeople credits column (filter f rows)).
Proof.
  unfold joinPeople. apply filter_flat_map_guard.
  intros r c Hc. apply in_flat_map in Hc.
  destruct Hc as (ip & _ & Hc). apply in_map_iff in Hc.
  destruct Hc as (p & <- & _). reflexivity.
Qed.

End JoinFacts.

Section PeopleQueries.

Import Sql Exclusions Wrapped Yearly Shares People Casting.

Variable db : Database.
Variable credits : Credits.
Variable params : WrappedParams.
Variable personType : string.

Lemma and_app {R : Type} (a b : list (SQL R)) (r : R) :
  and_ (a ++ b) r = and_ a r && and_ b r.
Proof. unfold and_. apply forallb_app. Qed.

Lemma and_onPlayed (conds : list (SQL Row)) (c : Cast) :
  and_ (map onPlayed conds) c = and_ conds (played c).
Proof.
  unfold and_. induction conds as [ | x conds IH ]; [ reflexivity | ].
  cbn [map forallb]. now rewrite IH.
Qed.

Lemma pushed_onPlayed (conds : list (SQL Cast)) (x : option (SQL Row))
  (c : Cast) :
  and_ (push conds (option_map onPlayed x)) c
  = and_ conds c && match x with Some y => y (played c) | None => true end.
Proof. rewrite and_push. now destruct x. Qed.

(** The rows of the movie query. *)
Lemma movie_query_rows :
  where_
    (and_
       (push
          (push (movieConditions params personType)
             (option_map onPlayed
                (userExclusion (getStatisticsExclusions db (serverId params)))))
          (option_map onPlayed
             (itemLibraryExclusion
                (getStatisticsExclusions db (serverId params))))))
    (joinPeople credits itemsId (sessionsJoinItems db))
  = movieCast db credits params personType.
Proof.
  unfold movieCast, ofType, qualifyingRows, where_. cbv zeta.
  rewrite filter_filter_and, <- joinPeople_filter.
  apply filter_ext. intro c. rewrite !pushed_onPlayed, !and_push.
  unfold movieConditions. rewrite and_app, and_onPlayed.
  unfold and_ at 2. cbn [forallb]. rewrite andb_true_r.
  rewrite (String.eqb_sym (items.type (snd (played c))) "Movie").
  match goal with
  | |- ?a && (?b && ?c) && ?d && ?e = _ =>
      destruct a, b, c, d, e; reflexivity
  end.
Qed.

(** The rows of the series query. *)
Lemma series_query_rows :
  where_
    (and_
       (push
          (push (seriesConditions params personType)
             (option_map onPlayed
                (userExclusion (getStatisticsExclusions db (serverId params)))))
          (option_map onPlayed
             (itemLibraryExclusion
                (getStatisticsExclusions db (serverId params))))))
    (joinPeople credits items.seriesId (sessionsJoinItems db))
  = seriesCast db credits params personType.
Proof.
  unfold seriesCast, ofType, qualifyingRows, where_. cbv zeta.
  rewrite filter_filter_and, <- joinPeople_filter.
  apply filter_ext_in. intros c Hc. rewrite !pushed_onPlayed, !and_push.
  unfold seriesConditions. rewrite and_app, and_onPlayed.
  unfold and_ at 2. cbn [forallb]. rewrite andb_true_r.
  rewrite (String.eqb_sym (items.type (snd (played c))) "Episode").
  apply joinPeople_In in Hc. destruct Hc as (_ & _ & Hseries & _).
  assert (Hnotnull : isNotNull (items.seriesId (snd (played c))) = true)
    by (destruct (items.seriesId (snd (played c))); [ reflexivity | discriminate ]).
  rewrite Hnotnull.
  match goal with
  | |- ?a && (?b && (true && ?c)) && ?d && ?e = _ =>
      destruct a, b, c, d, e; reflexivity
  end.
Qed.

End PeopleQueries.

Section MergeFacts.

Import Sql Wrapped People.

Variable personType : string.

Let hasId (x : string) (r : PersonStats.t) : bool :=
  String.eqb (PersonStats.id r) x.

Lemma find_mergeStat (x : string) (results : list PersonStats.t)
  (stat : PersonRow) :
  find (hasId x) (mergeStat personType results stat)
  = if String.eqb (personId stat) x
    then Some match find (hasId x) results with
              | Some r => addStat r stat
              | None => toPersonStats personType stat
              end
    else find (hasId x) results.
Proof.
  unfold hasId.
  induction results as [ | r rest IH ]; cbn [mergeStat find].
  - cbn [toPersonStats PersonStats.id]. now destruct (String.eqb _ x).
  - destruct (String.eqb (PersonStats.id r) (personId stat)) eqn:Er.
    + apply String.eqb_eq in Er. cbn [find addStat PersonStats.id].
      rewrite Er. now destruct (String.eqb (personId stat) x).
    + cbn [find]. destruct (String.eqb (PersonStats.id r) x) eqn:Ex.
      * apply String.eqb_eq in Ex. subst x. now rewrite String.eqb_sym, Er.
      * exact IH.
Qed.

Lemma mergeStat_ids (results : list PersonStats.t) (stat : PersonRow) :
  map PersonStats.id (mergeStat personType results stat)
  = if existsb (hasId (personId stat)) results
    then map PersonStats.id results
    else map PersonStats.id results ++ [personId stat].
Proof.
  unfold hasId.
  induction results as [ | r rest IH ]; cbn [mergeStat existsb map app];
    [ reflexivity | ].
  destruct (String.eqb (PersonStats.id r) (personId stat));
    cbn [map orb addStat PersonStats.id]; [ reflexivity | ].
  rewrite IH. now destruct (existsb _ rest).
Qed.

Lemma hasId_In (x : string) (results : list PersonStats.t) :
  existsb (hasId x) results = true <-> In x (map PersonStats.id results).
Proof.
  rewrite existsb_exists, in_map_iff. unfold hasId.
  split; intros (r & H1 & H2).
  - exists r. apply String.eqb_eq in H2. now split.
  - exists r. split; [ exact H2 | now apply String.eqb_eq ].
Qed.

Lemma mergeStat_NoDup (results : list PersonStats.t) (stat : PersonRow) :
  NoDup (map PersonStats.id results) ->
  NoDup (map PersonStats.id (mergeStat personType results stat)).
Proof.
  intro Hnd. rewrite mergeStat_ids.
  destruct (existsb (hasId (personId stat)) results) eqn:E; [ exact Hnd | ].
  apply NoDup_app; [ exact Hnd | repeat constructor; intros [] | ].
  intros x Hx [<- | []].
  apply hasId_In in Hx. congruence.
Qed.

Lemma mergeStat_length (results : list PersonStats.t) (stat : PersonRow) :
  (List.length results
   <= List.length (mergeStat personType results stat)
   <= List.length results + 1)%nat.
Proof.
  induction results as [ | r rest IH ]; cbn [mergeStat List.length];
    [ lia | ].
  destruct (String.eqb (PersonStats.id r) (personId stat));
    cbn [List.length]; lia.
Qed.

Lemma merged_length (stats : list PersonRow) (results : list PersonStats.t) :
  (List.length results
   <= List.length (fold_left (mergeStat personType) stats results)
   <= List.length results + List.length stats)%nat.
Proof.
  revert results. induction stats as [ | s stats IH ]; intro results;
    cbn [fold_left List.length]; [ lia | ].
  specialize (IH (mergeStat personType results s)).
  pose proof (mergeStat_length results s). lia.
Qed.

Lemma merged_NoDup (stats : list PersonRow) (results : list PersonStats.t) :
  NoDup (map PersonStats.id results) ->
  NoDup (map PersonStats.id (fold_left (mergeStat personType) stats results)).
Proof.
  revert results. induction stats as [ | s stats IH ]; intros results Hnd;
    [ exact Hnd | ].
  cbn [fold_left]. now apply IH, mergeStat_NoDup.
Qed.

Lemma merged_ids (stats : list PersonRow) (results : list PersonStats.t)
  (x : string) :
  In x (map PersonStats.id (fold_left (mergeStat personType) stats results)) <->
  In x (map PersonStats.id results) \/ In x (map personId stats).
Proof.
  revert results. induction stats as [ | s stats IH ]; intro results;
    cbn [fold_left map].
  - split; [ now left | intros [H | []]; exact H ].
  - rewrite IH, mergeStat_ids.
    destruct (existsb (hasId (personId s)) results) eqn:E.
    + apply hasId_In in E. cbn [In]. split.
      * intros [H | H]; [ now left | right; now right ].
      * intros [H | [<- | H]]; [ now left | now left | now right ].
    + rewrite in_app_iff. cbn [In]. tauto.
Qed.

Lemma merged_types (stats : list PersonRow) (results : list PersonStats.t) :
  Forall (fun e => PersonStats.type e = personType) results ->
  Forall (fun e => PersonStats.type e = personType)
    (fold_left (mergeStat personType) stats results).
Proof.
  revert results. induction stats as [ | s stats IH ]; intros results H;
    [ exact H | ].
  cbn [fold_left]. apply IH. clear IH.
  induction H as [ | r rest Hr Hrest IHr ]; cbn [mergeStat].
  - repeat constructor.
  - destruct (String.eqb (PersonStats.id r) (personId s));
      constructor; assumption.
Qed.

(** The entry of a person after the merge: the entry before it, with the
    numbers of the person's series row on top when there is one. *)
Lemma find_merged (x : string) (stats : list PersonRow)
  (results : list PersonStats.t) :
  NoDup (map personId stats) ->
  find (hasId x) (fold_left (mergeStat personType) stats results)
  = match find (fun s => String.eqb (personId s) x) stats with
    | Some s =>
        Some match find (hasId x) results with
             | Some r => addStat r s
             | None => toPersonStats personType s
             end
    | None => find (hasId x) results
    end.
Proof.
  revert results. induction stats as [ | s stats IH ]; intros results Hnd;
    [ reflexivity | ].
  cbn [map] in Hnd. inversion Hnd as [ | ? ? Hnot Hnd' ]; subst.
  cbn [fold_left find]. rewrite (IH _ Hnd'), find_mergeStat.
  destruct (String.eqb (personId s) x) eqn:Es; [ | reflexivity ].
  apply String.eqb_eq in Es. subst x.
  destruct (find (fun s0 => String.eqb (personId s0) (personId s)) stats)
    as [s' | ] eqn:Ef; [ | reflexivity ].
  exfalso. apply find_some in Ef. destruct Ef as [Hin Heq].
  apply String.eqb_eq in Heq. apply Hnot. rewrite <- Heq.
  now apply in_map.
Qed.

Lemma find_hasId (results : list PersonStats.t) (e : PersonStats.t) :
  NoDup (map PersonStats.id results) -> In e results ->
  find (hasId (PersonStats.id e)) results = Some e.
Proof.
  unfold hasId. induction results as [ | r rest IH ]; intros Hnd He;
    [ destruct He | ].
  cbn [map] in Hnd. inversion Hnd as [ | ? ? Hnot Hnd' ]; subst.
  cbn [find]. destruct He as [-> | He].
  - now rewrite String.eqb_refl.
  - destruct (String.eqb (PersonStats.id r) (PersonStats.id e)) eqn:E.
    + apply String.eqb_eq in E. exfalso. apply Hnot. rewrite E.
      now apply in_map.
    + now apply IH.
Qed.

Lemma find_toPersonStats (x : string) (stats : list PersonRow) :
  find (hasId x) (map (toPersonStats personType) stats)
  = option_map (toPersonStats personType)
      (find (fun s => String.eqb (personId s) x) stats).
Proof.
  unfold hasId. induction stats as [ | s stats IH ]; [ reflexivity | ].
  cbn [map find toPersonStats PersonStats.id].
  destruct (String.eqb (personId s) x); [ reflexivity | exact IH ].
Qed.

End MergeFacts.

Lemma personKeyEqb_eq (a b : People.PersonKey) :
  People.personKeyEqb a b = true <-> a = b.
Proof.
  destruct a as [[[aid aname] atag] aserver].
  destruct b as [[[bid bname] btag] bserver].
  unfold People.personKeyEqb. rewrite !andb_true_iff.
  rewrite !String.eqb_eq, optStringEqb_eq, Z.eqb_eq.
  split.
  - intros [[[-> ->] ->] ->]. reflexivity.
  - intros [= -> -> -> ->]. repeat split.
Qed.

Section PersonQuery.

Import Sql Wrapped People Casting.

Variable column : items.row -> option string.
Variable rows : list Cast.

Let stats : list PersonRow :=
  orderBy byWatchTimeDesc
    (map (selectPerson column) (groupBy personKeyEqb personKey rows)).

Let ofKey (c : Cast) : list Cast :=
  filter (fun c' => personKeyEqb (personKey c) (personKey c')) rows.

(** A row of the select is the row of a group. *)
Lemma personQuery_In (s : PersonRow) :
  In s stats <->
  exists c,
    In c rows /\
    s = mkPersonRow (people.id (person c)) (people.name (person c))
          (people.primaryImageTag (person c)) (sum castDuration (ofKey c))
          (count (ofKey c))
          (countDistinct optStringEqb (fun c' => column (snd (played c')))
             (ofKey c)).
Proof.
  unfold stats, orderBy. rewrite sort_In, in_map_iff. split.
  - intros (g & <- & Hg).
    apply (groupBy_In personKeyEqb personKeyEqb_eq) in Hg.
    destruct Hg as [Hkey Hrows]. apply in_map_iff in Hkey.
    destruct Hkey as (c & Hc & Hin). exists c. split; [ exact Hin | ].
    destruct g as [k group]. cbn [fst snd] in *. subst k group.
    reflexivity.
  - intros (c & Hc & ->). exists (personKey c, ofKey c). split.
    + reflexivity.
    + apply (groupBy_In personKeyEqb personKeyEqb_eq). split.
      * cbn [fst]. now apply in_map.
      * reflexivity.
Qed.

(** The people of the select are the people of the rows. *)
Lemma personQuery_id_In (x : string) :
  In x (map personId stats) <-> creditedTo x rows <> [].
Proof.
  rewrite in_map_iff. split.
  - intros (s & <- & Hs). apply personQuery_In in Hs.
    destruct Hs as (c & Hc & ->). cbn [personId]. intro Hnone.
    assert (Hin : In c (creditedTo (people.id (person c)) rows)).
    { apply filter_In. split; [ exact Hc | apply String.eqb_refl ]. }
    rewrite Hnone in Hin. destruct Hin.
  - intro Hsome. destruct (creditedTo x rows) as [ | c l ] eqn:E;
      [ now elim Hsome | ].
    assert (Hc : In c (creditedTo x rows)) by (rewrite E; now left).
    apply filter_In in Hc. destruct Hc as [Hc Hid].
    apply String.eqb_eq in Hid. eexists. split;
      [ | apply personQuery_In; exists c; split; [ exact Hc | reflexivity ] ].
    exact Hid.
Qed.

(** The people of the rows are told apart by their ids. *)
Hypothesis peopleKey :
  forall c c', In c rows -> In c' rows ->
    people.id (person c) = people.id (person c') -> person c = person c'.

Lemma ofKey_creditedTo (c : Cast) :
  In c rows -> ofKey c = creditedTo (people.id (person c)) rows.
Proof.
  intro Hc. unfold ofKey, creditedTo. apply filter_ext_in. intros c' Hc'.
  destruct (String.eqb (people.id (person c')) (people.id (person c))) eqn:E.
  - apply String.eqb_eq in E. apply personKeyEqb_eq. unfold personKey.
    now rewrite (peopleKey c' c Hc' Hc E).
  - destruct (personKeyEqb (personKey c) (personKey c')) eqn:Ek;
      [ | reflexivity ].
    apply personKeyEqb_eq in Ek. unfold personKey in Ek.
    injection Ek as Hid _ _ _. rewrite Hid, String.eqb_refl in E.
    discriminate.
Qed.

Lemma personQuery_ids_NoDup : NoDup (map personId stats).
Proof.
  unfold stats, orderBy.
  eapply Permutation_NoDup;
    [ apply Permutation_map, sort_perm | ].
  rewrite map_map.
  assert (Hids :
            map (fun g => personId (selectPerson column g))
              (groupBy personKeyEqb personKey rows)
            = map (fun k : PersonKey => fst (fst (fst k)))
                (distinct personKeyEqb (map personKey rows))).
  { rewrite <- (groupBy_keys personKeyEqb personKey rows), map_map.
    apply map_ext. intros [[[[id name] tag] server] group]. reflexivity. }
  rewrite Hids.
  rewrite (distinct_map_inj personKeyEqb String.eqb personKeyEqb_eq
             String.eqb_eq).
  - apply (distinct_NoDup String.eqb String.eqb_eq).
  - intros k k' Hk Hk' Hid. apply in_map_iff in Hk, Hk'.
    destruct Hk as (c & <- & Hc). destruct Hk' as (c' & <- & Hc').
    unfold personKey in *. cbn [fst] in Hid.
    now rewrite (peopleKey c c' Hc Hc' Hid).
Qed.

(** The row of the person with the id [x], when there is one, holds the
    numbers of the rows credited to the person. *)
Lemma personQuery_find (x : string) :
  match find (fun s => String.eqb (personId s) x) stats with
  | Some s =>
      exists c,
        In c rows /\ people.id (person c) = x /\
        s = mkPersonRow x (people.name (person c))
              (people.primaryImageTag (person c))
              (sum castDuration (creditedTo x rows))
              (count (creditedTo x rows))
              (countDistinct optStringEqb (fun c' => column (snd (played c')))
                 (creditedTo x rows))
  | None => creditedTo x rows = []
  end.
Proof.
  destruct (find (fun s => String.eqb (personId s) x) stats) as [s | ] eqn:Ef.
  - apply find_some in Ef. destruct Ef as [Hs Hx].
    apply personQuery_In in Hs. destruct Hs as (c & Hc & ->).
    cbn [personId] in Hx. apply String.eqb_eq in Hx. subst x.
    exists c. rewrite (ofKey_creditedTo c Hc). repeat split. exact Hc.
  - unfold creditedTo. apply filter_nothing. intros c Hc.
    destruct (String.eqb (people.id (person c)) x) eqn:E; [ | reflexivity ].
    exfalso. apply String.eqb_eq in E.
    assert (Hs : exists s, In s stats /\ personId s = x).
    { eexists. split; [ apply personQuery_In; exists c; split;
                         [ exact Hc | reflexivity ] | exact E ]. }
    destruct Hs as (s & Hs & Hid).
    pose proof (find_none _ _ Ef s Hs) as Hno. cbn beta in Hno.
    rewrite Hid, String.eqb_refl in Hno. discriminate.
Qed.

End PersonQuery.

Section PeopleStatsFacts.

Import Sql Exclusions Wrapped Yearly Shares People Casting.

Variable db : Database.
Variable credits : Credits.
Variable params : WrappedParams.
Variable limit : Z.

Let statsOf (column : items.row -> option string) (rows : list Cast)
  : list PersonRow :=
  orderBy byWatchTimeDesc
    (map (selectPerson column) (groupBy personKeyEqb personKey rows)).

Lemma getTopPeopleByType_unfold (bound : Z) (personType : string) :
  getTopPeopleByType db credits params bound personType
  = JsArray.slice0 bound
      (Js.sort byTotalDesc
         (fold_left (mergeStat personType)
            (limited bound
               (statsOf items.seriesId
                  (seriesCast db credits params personType)))
            (map (toPersonStats personType)
               (limited bound
                  (statsOf itemsId
                     (movieCast db credits params personType)))))).
Proof.
  unfold getTopPeopleByType, personQuery, statsOf. cbv zeta.
  now rewrite movie_query_rows, series_query_rows.
Qed.

Lemma limited_ids (stats : list PersonRow) (x : string) :
  In x (map personId (limited limit stats)) -> In x (map personId stats).
Proof.
  unfold limited, Sql.limit. destruct (limit <? 0); [ exact (fun H => H) | ].
  rewrite <- (firstn_skipn (Z.to_nat limit) stats) at 2.
  rewrite map_app, in_app_iff. now left.
Qed.

Lemma limited_length {A : Type} (rows : list A) :
  0 <= limit ->
  Z.of_nat (List.length (limited limit rows))
  = Z.min limit (Z.of_nat (List.length rows)).
Proof.
  intro Hlimit. unfold limited, Sql.limit.
  destruct (Z.ltb_spec limit 0) as [Hneg | _]; [ lia | ].
  rewrite length_firstn. lia.
Qed.

Lemma limited_with_room {A : Type} (bound : Z) (rows : list A) :
  Z.of_nat (List.length rows) <= bound -> limited bound rows = rows.
Proof.
  intro Hroom. unfold limited, Sql.limit.
  destruct (bound <? 0); [ reflexivity | ]. apply firstn_all2. lia.
Qed.

Lemma distinct_length {K : Type} (eqb : K -> K -> bool) (l : list K) :
  (List.length (distinct eqb l) <= List.length l)%nat.
Proof.
  induction l as [ | k l IH ]; cbn [distinct List.length]; [ lia | ].
  pose proof (filter_length_le (fun k' => negb (eqb k k')) (distinct eqb l)).
  lia.
Qed.

Lemma statsOf_length (column : items.row -> option string)
  (rows : list Cast) :
  Z.of_nat (List.length (statsOf column rows))
  = countDistinct personKeyEqb personKey rows.
Proof.
  unfold statsOf, orderBy, groupBy, countDistinct.
  now rewrite sort_length, !length_map.
Qed.

Lemma statsOf_length_le (column : items.row -> option string)
  (rows : list Cast) :
  Z.of_nat (List.length (statsOf column rows)) <= count rows.
Proof.
  rewrite statsOf_length. unfold countDistinct, count.
  pose proof (distinct_length personKeyEqb (map personKey rows)) as H.
  rewrite length_map in H. lia.
Qed.

(** The list of [getTopPeopleByType] before its last [slice], when both
    queries return all their rows. *)
Let everyone (personType : string) : list PersonStats.t :=
  Js.sort byTotalDesc
    (fold_left (mergeStat personType)
       (statsOf items.seriesId (seriesCast db credits params personType))
       (map (toPersonStats personType)
          (statsOf itemsId (movieCast db credits params personType)))).

Lemma everyone_length (personType : string) :
  Z.of_nat (List.length (everyone personType))
  <= count (movieCast db credits params personType)
     + count (seriesCast db credits params personType).
Proof.
  unfold everyone. rewrite sort_length.
  pose proof (merged_length personType
                (statsOf items.seriesId
                   (seriesCast db credits params personType))
                (map (toPersonStats personType)
                   (statsOf itemsId
                      (movieCast db credits params personType)))) as H.
  rewrite length_map in H.
  pose proof (statsOf_length_le itemsId
                (movieCast db credits params personType)).
  pose proof (statsOf_length_le items.seriesId
                (seriesCast db credits params personType)).
  lia.
Qed.

Lemma top_people_with_room (bound : Z) (personType : string) :
  count (movieCast db credits params personType)
  + count (seriesCast db credits params personType) <= bound ->
  getTopPeopleByType db credits params bound personType = everyone personType.
Proof.
  intro Hroom. rewrite getTopPeopleByType_unfold.
  pose proof (statsOf_length_le itemsId
                (movieCast db credits params personType)) as Hm.
  pose proof (statsOf_length_le items.seriesId
                (seriesCast db credits params personType)) as Hs.
  pose proof (everyone_length personType) as He.
  unfold count in *.
  rewrite !limited_with_room by lia. fold (everyone personType).
  unfold JsArray.slice0. destruct (Z.ltb_spec bound 0) as [Hneg | _];
    [ lia | ].
  apply firstn_all2. lia.
Qed.

Lemma top_people_negative (personType : string) :
  limit < 0 ->
  getTopPeopleByType db credits params limit personType
  = JsArray.slice0 limit (everyone personType).
Proof.
  intro Hneg. rewrite getTopPeopleByType_unfold. unfold limited.
  apply Z.ltb_lt in Hneg. now rewrite Hneg.
Qed.

Lemma sliced_In {A : Type} (l : list A) (x : A) :
  In x (JsArray.slice0 limit l) -> In x l.
Proof.
  destruct (slice0_prefix limit l) as (n & -> & _).
  rewrite <- (firstn_skipn n l) at 2. rewrite in_app_iff. now left.
Qed.

Lemma top_people_shape (personType : string) :
  let top := getTopPeopleByType db credits params limit personType in
  (0 <= limit ->
   Z.min limit
     (countDistinct personKeyEqb personKey
        (movieCast db credits params personType))
   <= Z.of_nat (List.length top) <= limit) /\
  (limit < 0 ->
   forall bound,
     count (movieCast db credits params personType)
     + count (seriesCast db credits params personType) <= bound ->
     top
     = JsArray.slice0 limit
         (getTopPeopleByType db credits params bound personType)) /\
  StronglySorted
    (fun a b => PersonStats.totalWatchTime b <= PersonStats.totalWatchTime a)
    top /\
  Forall
    (fun e =>
       PersonStats.type e = personType /\
       (creditedTo (PersonStats.id e)
          (movieCast db credits params personType) <> [] \/
        creditedTo (PersonStats.id e)
          (seriesCast db credits params personType) <> []))
    top.
Proof.
  cbv zeta.
  split; [ | split ].
  { intro Hlimit. rewrite getTopPeopleByType_unfold.
    set (results := fold_left _ _ _).
    assert (Hresults :
              Z.min limit
                (countDistinct personKeyEqb personKey
                   (movieCast db credits params personType))
              <= Z.of_nat (List.length results)).
    { pose proof (merged_length personType
                    (limited limit
                       (statsOf items.seriesId
                          (seriesCast db credits params personType)))
                    (map (toPersonStats personType)
                       (limited limit
                          (statsOf itemsId
                             (movieCast db credits params personType)))))
        as H.
      fold results in H. rewrite length_map in H.
      pose proof (limited_length
                    (statsOf itemsId (movieCast db credits params personType))
                    Hlimit) as Hm.
      rewrite statsOf_length in Hm. lia. }
    unfold JsArray.slice0.
    destruct (Z.ltb_spec limit 0) as [Hneg | _]; [ lia | ].
    rewrite length_firstn, sort_length. lia. }
  { intros Hneg bound Hroom.
    now rewrite (top_people_with_room bound personType Hroom),
      top_people_negative. }
  rewrite getTopPeopleByType_unfold.
  set (results := fold_left _ _ _).
  split.
  - destruct (slice0_prefix limit (Js.sort byTotalDesc results))
      as (n & -> & _).
    apply StronglySorted_firstn.
    exact (orderBy_desc_sorted PersonStats.totalWatchTime results).
  - rewrite Forall_forall. intros e He. apply sliced_In in He.
    apply (proj1 (sort_In byTotalDesc results e)) in He. split.
    + assert (Htypes : Forall (fun e => PersonStats.type e = personType)
                         results).
      { apply merged_types. rewrite Forall_map. rewrite Forall_forall.
        reflexivity. }
      rewrite Forall_forall in Htypes. now apply Htypes.
    + assert (Hid : In (PersonStats.id e) (map PersonStats.id results))
        by now apply in_map.
      apply merged_ids in Hid. destruct Hid as [Hid | Hid].
      * left. rewrite map_map in Hid. cbn [toPersonStats PersonStats.id] in Hid.
        apply limited_ids in Hid.
        exact (proj1 (personQuery_id_In itemsId _ _) Hid).
      * right. apply limited_ids in Hid.
        exact (proj1 (personQuery_id_In items.seriesId _ _) Hid).
Qed.

(** Each of the two lists of [getWrappedPeopleStats] has the largest watch
    time first, and each entry is of the type of the list and of a person
    credited with that type on a movie, or on the series of an episode,
    that the user played in the year.  For a limit that is not negative a
    list has at most [limit] entries, and at least [limit] or as many as
    the query on the movies has groups, whichever is less.  For a negative
    limit the queries are not limited, and a list is the one of a limit
    with room for every row, less its last [- limit] entries. *)
Theorem people_stats_list_credited_people :
  let shape (personType : string) (top : list PersonStats.t) :=
    (0 <= limit ->
     Z.min limit
       (countDistinct personKeyEqb personKey
          (movieCast db credits params personType))
     <= Z.of_nat (List.length top) <= limit) /\
    (limit < 0 ->
     forall bound,
       count (movieCast db credits params personType)
       + count (seriesCast db credits params personType) <= bound ->
       top
       = JsArray.slice0 limit
           (getTopPeopleByType db credits params bound personType)) /\
    StronglySorted
      (fun a b => PersonStats.totalWatchTime b <= PersonStats.totalWatchTime a)
      top /\
    Forall
      (fun e =>
         PersonStats.type e = personType /\
         (creditedTo (PersonStats.id e)
            (movieCast db credits params personType) <> [] \/
          creditedTo (PersonStats.id e)
            (seriesCast db credits params personType) <> []))
      top in
  let r := getWrappedPeopleStats db credits params limit in
  shape "Actor"%string (WrappedPeopleStats.topActors r) /\
  shape "Director"%string (WrappedPeopleStats.topDirectors r).
Proof.
  cbv zeta. unfold getWrappedPeopleStats.
  cbn [WrappedPeopleStats.topActors WrappedPeopleStats.topDirectors].
  split;
    [ exact (top_people_shape "Actor") | exact (top_people_shape "Director") ].
Qed.

Hypothesis peopleKey : NoDup (map people.id (peopleTable credits)).
Hypothesis room : Z.of_nat (List.length (peopleTable credits)) <= limit.

Lemma cast_person_In (personType : string) (c : Cast) :
  In c (movieCast db credits params personType) \/
  In c (seriesCast db credits params personType) ->
  In (person c) (peopleTable credits).
Proof.
  unfold movieCast, seriesCast.
  intros [Hc | Hc]; apply filter_In in Hc; destruct Hc as [Hc _];
    apply joinPeople_In in Hc; now destruct Hc as (_ & _ & _ & Hp & _).
Qed.

Lemma cast_peopleKey (personType : string) (rows : list Cast) :
  rows = movieCast db credits params personType \/
  rows = seriesCast db credits params personType ->
  forall c c', In c rows -> In c' rows ->
    people.id (person c) = people.id (person c') -> person c = person c'.
Proof.
  intros Hrows c c' Hc Hc' Hid.
  apply (NoDup_map_In_inj people.id (peopleTable credits)); try assumption.
  - apply (cast_person_In personType). destruct Hrows as [-> | ->]; auto.
  - apply (cast_person_In personType). destruct Hrows as [-> | ->]; auto.
Qed.

Lemma unique_ids_fit (ids : list string) :
  NoDup ids ->
  (forall x, In x ids -> In x (map people.id (peopleTable credits))) ->
  (List.length ids <= Z.to_nat limit)%nat.
Proof.
  intros Hnd Hincl.
  pose proof (NoDup_incl_length Hnd Hincl) as Hlen.
  rewrite length_map in Hlen. lia.
Qed.

Lemma stats_fit (personType : string) (column : items.row -> option string)
  (rows : list Cast) :
  rows = movieCast db credits params personType \/
  rows = seriesCast db credits params personType ->
  limited limit (statsOf column rows) = statsOf column rows.
Proof.
  intro Hrows. unfold limited, Sql.limit.
  destruct (limit <? 0); [ reflexivity | ]. apply firstn_all2.
  rewrite <- (length_map personId). apply unique_ids_fit.
  - apply personQuery_ids_NoDup. exact (cast_peopleKey personType rows Hrows).
  - intros x Hx. apply (proj1 (personQuery_id_In column rows x)) in Hx.
    destruct (creditedTo x rows) as [ | c l ] eqn:E; [ now elim Hx | ].
    assert (Hc : In c (creditedTo x rows)) by (rewrite E; now left).
    apply filter_In in Hc. destruct Hc as [Hc Hid].
    apply String.eqb_eq in Hid. rewrite <- Hid. apply in_map.
    apply (cast_person_In personType). destruct Hrows as [-> | ->]; auto.
Qed.

Lemma top_people_complete (personType : string) :
  let top := getTopPeopleByType db credits params limit personType in
  let movies (x : string) :=
    creditedTo x (movieCast db credits params personType) in
  let series (x : string) :=
    creditedTo x (seriesCast db credits params personType) in
  NoDup (map PersonStats.id top) /\
  (forall x,
      In x (map PersonStats.id top) <-> movies x <> [] \/ series x <> []) /\
  Forall
    (fun e =>
       let x := PersonStats.id e in
       (exists p,
           In p (peopleTable credits) /\ people.id p = x /\
           PersonStats.name e = people.name p /\
           PersonStats.primaryImageTag e = people.primaryImageTag p) /\
       PersonStats.totalWatchTime e
       = sum castDuration (movies x) + sum castDuration (series x) /\
       PersonStats.totalPlayCount e = count (movies x) + count (series x) /\
       PersonStats.itemCount e
       = countDistinct optStringEqb movieOf (movies x)
         + countDistinct optStringEqb seriesOf (series x))
    top.
Proof.
  cbv zeta. rewrite getTopPeopleByType_unfold.
  rewrite (stats_fit personType itemsId _ (or_introl eq_refl)).
  rewrite (stats_fit personType items.seriesId _ (or_intror eq_refl)).
  set (M := movieCast db credits params personType).
  set (S := seriesCast db credits params personType).
  set (results := fold_left _ _ _).
  assert (HkeyM := cast_peopleKey personType M (or_introl eq_refl)).
  assert (HkeyS := cast_peopleKey personType S (or_intror eq_refl)).
  assert (Hnd : NoDup (map PersonStats.id results)).
  { apply merged_NoDup. rewrite map_map. cbn [toPersonStats PersonStats.id].
    exact (personQuery_ids_NoDup itemsId M HkeyM). }
  assert (Hids : forall x,
             In x (map PersonStats.id results) <->
             creditedTo x M <> [] \/ creditedTo x S <> []).
  { intro x. unfold results. rewrite merged_ids, map_map.
    cbn [toPersonStats PersonStats.id].
    fold (statsOf itemsId M). fold (statsOf items.seriesId S).
    unfold statsOf. now rewrite !personQuery_id_In. }
  assert (Hfit : JsArray.slice0 limit (Js.sort byTotalDesc results)
                 = Js.sort byTotalDesc results).
  { unfold JsArray.slice0.
    destruct (Z.ltb_spec limit 0) as [Hneg | _]; [ lia | ].
    apply firstn_all2. rewrite sort_length, <- (length_map PersonStats.id).
    apply unique_ids_fit; [ exact Hnd | ].
    intros x Hx. apply Hids in Hx.
    assert (Hc : exists c, (In c M \/ In c S) /\ people.id (person c) = x).
    { destruct Hx as [Hx | Hx];
        [ destruct (creditedTo x M) as [ | c l ] eqn:E
        | destruct (creditedTo x S) as [ | c l ] eqn:E ];
        try (now elim Hx);
        (assert (Hc : In c (c :: l)) by now left);
        rewrite <- E in Hc; apply filter_In in Hc; destruct Hc as [Hc Hid];
        apply String.eqb_eq in Hid; exists c; auto. }
    destruct Hc as (c & Hc & <-). apply in_map.
    exact (cast_person_In personType c Hc). }
  rewrite Hfit.
  assert (Hperm : Permutation results (Js.sort byTotalDesc results))
    by apply sort_perm.
  split; [ | split ].
  - eapply Permutation_NoDup; [ apply Permutation_map, Hperm | exact Hnd ].
  - intro x. rewrite <- Hids. split; apply Permutation_in, Permutation_map;
      [ apply Permutation_sym | ]; exact Hperm.
  - rewrite Forall_forall. intros e He.
    apply (proj1 (sort_In byTotalDesc results e)) in He.
    pose proof (find_hasId results e Hnd He) as Hfind.
    unfold results in Hfind.
    rewrite (find_merged personType _ _ _
               (personQuery_ids_NoDup items.seriesId S HkeyS)) in Hfind.
    rewrite find_toPersonStats in Hfind.
    pose proof (personQuery_find itemsId M HkeyM (PersonStats.id e)) as HM.
    pose proof (personQuery_find items.seriesId S HkeyS (PersonStats.id e))
      as HS.
    fold (statsOf itemsId M) in Hfind, HM.
    fold (statsOf items.seriesId S) in Hfind, HS.
    destruct (find _ (statsOf items.seriesId S)) as [s | ];
      destruct (find _ (statsOf itemsId M)) as [m | ];
      cbn [option_map] in Hfind; try discriminate.
    + destruct HM as (c & Hc & Hid & ->). destruct HS as (c' & _ & _ & ->).
      injection Hfind as <-.
      cbn [addStat toPersonStats PersonStats.id PersonStats.name
           PersonStats.primaryImageTag PersonStats.totalWatchTime
           PersonStats.totalPlayCount PersonStats.itemCount personId
           personName primaryImageTag totalWatchTime totalPlayCount itemCount].
      split; [ | repeat split ].
      exists (person c). repeat split; try assumption.
      apply (cast_person_In personType). now left.
    + destruct HS as (c & Hc & Hid & ->). injection Hfind as <-.
      cbn [addStat toPersonStats PersonStats.id PersonStats.name
           PersonStats.primaryImageTag PersonStats.totalWatchTime
           PersonStats.totalPlayCount PersonStats.itemCount personId
           personName primaryImageTag totalWatchTime totalPlayCount itemCount].
      rewrite HM. cbn [sum fold_right count List.length countDistinct map
                       distinct].
      split; [ | repeat split ].
      exists (person c). repeat split; try assumption.
      apply (cast_person_In personType). now right.
    + destruct HM as (c & Hc & Hid & ->). injection Hfind as <-.
      cbn [addStat toPersonStats PersonStats.id PersonStats.name
           PersonStats.primaryImageTag PersonStats.totalWatchTime
           PersonStats.totalPlayCount PersonStats.itemCount personId
           personName primaryImageTag totalWatchTime totalPlayCount itemCount].
      rewrite HS. cbn [sum fold_right count List.length countDistinct map
                       distinct].
      split; [ | repeat split; cbn [Z.of_nat]; rewrite ?Z.add_0_r; reflexivity ].
      exists (person c). repeat split; try assumption.
      apply (cast_person_In personType). now left.
Qed.

(** When the people have ids of their own and the limit leaves room for
    every one of them, the two lists hold exactly the people credited with
    the type of the list on a movie, or on the series of an episode, that
    the user played in the year, each once, with the watch time, the plays
    and the number of movies and series summed over the sessions on those
    movies and on the episodes of those series. *)
Theorem people_stats_with_room_for_everyone :
  let complete (personType : string) (top : list PersonStats.t) :=
    let movies (x : string) :=
      creditedTo x (movieCast db credits params personType) in
    let series (x : string) :=
      creditedTo x (seriesCast db credits params personType) in
    NoDup (map PersonStats.id top) /\
    (forall x,
        In x (map PersonStats.id top) <-> movies x <> [] \/ series x <> []) /\
    Forall
      (fun e =>
         let x := PersonStats.id e in
         (exists p,
             In p (peopleTable credits) /\ people.id p = x /\
             PersonStats.name e = people.name p /\
             PersonStats.primaryImageTag e = people.primaryImageTag p) /\
         PersonStats.totalWatchTime e
         = sum castDuration (movies x) + sum castDuration (series x) /\
         PersonStats.totalPlayCount e = count (movies x) + count (series x) /\
         PersonStats.itemCount e
         = countDistinct optStringEqb movieOf (movies x)
           + countDistinct optStringEqb seriesOf (series x))
      top in
  let r := getWrappedPeopleStats db credits params limit in
  complete "Actor"%string (WrappedPeopleStats.topActors r) /\
  complete "Director"%string (WrappedPeopleStats.topDirectors r).
Proof.
  cbv zeta. unfold getWrappedPeopleStats.
  cbn [WrappedPeopleStats.topActors WrappedPeopleStats.topDirectors].
  split;
    [ exact (top_people_complete "Actor")
    | exact (top_people_complete "Director") ].
Qed.

End PeopleStatsFacts.

(** On the sample shelf Ada acted in the first movie, played twice for 150
    seconds, and in the series, whose two episodes were played for 70. *)
Lemma people_stats_with_room_for_everyone_witness :
  let r :=
    People.getWrappedPeopleStats SampleShelf.db SampleCredits.credits
      SampleShelf.params 10 in
  map
    (fun e =>
       (People.PersonStats.name e, People.PersonStats.totalWatchTime e,
        People.PersonStats.totalPlayCount e, People.PersonStats.itemCount e))
    (People.WrappedPeopleStats.topActors r)
  = [("Ada"%string, 220, 4, 2)] /\
  NoDup (map People.PersonStats.id (People.WrappedPeopleStats.topActors r)).
Proof.
  assert (Hkey : NoDup
                   (map people.id (peopleTable SampleCredits.credits))).
  { repeat constructor; cbn; intuition discriminate. }
  assert (Hroom : Z.of_nat (List.length (peopleTable SampleCredits.credits))
                  <= 10) by (cbn; lia).
  destruct (people_stats_with_room_for_everyone SampleShelf.db
              SampleCredits.credits SampleShelf.params 10 Hkey Hroom)
    as ((Hnd & _) & _).
  cbv zeta. split; [ vm_compute; reflexivity | exact Hnd ].
Defined.

(** With the limit -1 nothing limits the queries, and the last entry of
    the list is dropped: Ada, the only actor of the sample shelf. *)
Lemma people_stats_list_credited_people_witness :
  let top (limit : Z) :=
    People.WrappedPeopleStats.topActors
      (People.getWrappedPeopleStats SampleShelf.db SampleCredits.credits
         SampleShelf.params limit) in
  top (-1) = JsArray.slice0 (-1) (top 10) /\
  map People.PersonStats.name (top 10) = ["Ada"%string] /\
  top (-1) = [] /\
  Z.min 10 1 <= Z.of_nat (List.length (top 10)) <= 10.
Proof.
  destruct (people_stats_list_credited_people SampleShelf.db
              SampleCredits.credits SampleShelf.params (-1))
    as ((_ & Hneg & _) & _).
  destruct (people_stats_list_credited_people SampleShelf.db
              SampleCredits.credits SampleShelf.params 10)
    as ((Hlen & _) & _).
  cbv zeta.
  split; [ apply Hneg; [ lia | vm_compute; discriminate ] | ].
  split; [ vm_compute; reflexivity | ].
  split; [ vm_compute; reflexivity | ].
  apply Hlen. lia.
Defined.
